(** * Virtual memory simulator: page table, TLB and replacement policies

  A shallow embedding of [page_table.py], [replacement_algorithms.py] and
  [virtual_memory.py].  Python integers are [Z]; Python lists are [list]
  with Python's indexing (negative indices count from the end, anything
  else out of range raises [IndexError]); Python dictionaries are
  association lists in insertion order, because [min] over a dictionary
  and [OrderedDict.popitem] observe that order.  A raised exception
  aborts the call: it is modelled by [Raise], and the half-updated
  object is not observable afterwards. *)

From Stdlib Require Import ZArith List String Bool Lia.
Import ListNotations.
Local Open Scope Z_scope.

(** ** Exceptions *)

Inductive exn : Type :=
| IndexError
| KeyError
| ValueError
| ZeroDivisionError
| TypeError.

Inductive result (A : Type) : Type :=
| Ok (a : A)
| Raise (e : exn).

Arguments Ok {A} a.
Arguments Raise {A} e.

Definition bind {A B : Type} (m : result A) (k : A -> result B) : result B :=
match m with
| Ok a => k a
| Raise e => Raise e
end.

Notation "x <- m ;; k" := (bind m (fun x => k))
(at level 61, m at next level, right associativity).
Notation "' p <- m ;; k" := (bind m (fun x => let p := x in k))
(at level 61, p pattern, m at next level, right associativity).

Definition is_ok {A : Type} (m : result A) : bool :=
match m with Ok _ => true | Raise _ => false end.

(** ** Python lists *)

Module PyList.

Definition len {A : Type} (l : list A) : Z := Z.of_nat (List.length l).

(** The position [l[i]] denotes, when it denotes one. *)
Definition norm {A : Type} (l : list A) (i : Z) : option nat :=
  if (0 <=? i) && (i <? len l) then Some (Z.to_nat i)
  else if (- len l <=? i) && (i <? 0) then Some (Z.to_nat (len l + i))
  else None.

(** [l[i]] *)
Definition getitem {A : Type} (l : list A) (i : Z) : result A :=
  match norm l i with
  | Some n => match nth_error l n with
              | Some x => Ok x
              | None => Raise IndexError
              end
  | None => Raise IndexError
  end.

Fixpoint update_nth {A : Type} (n : nat) (f : A -> A) (l : list A) : list A :=
  match l, n with
  | [], _ => []
  | x :: r, O => f x :: r
  | x :: r, S n' => x :: update_nth n' f r
  end.

(** [l[i] = x] *)
Definition setitem {A : Type} (l : list A) (i : Z) (x : A) : result (list A) :=
  match norm l i with
  | Some n => Ok (update_nth n (fun _ => x) l)
  | None => Raise IndexError
  end.

(** [x in l] *)
Fixpoint contains (x : Z) (l : list Z) : bool :=
  match l with
  | [] => false
  | y :: r => if y =? x then true else contains x r
  end.

Fixpoint remove_first (x : Z) (l : list Z) : option (list Z) :=
  match l with
  | [] => None
  | y :: r => if y =? x then Some r
              else match remove_first x r with
                   | Some r' => Some (y :: r')
                   | None => None
                   end
  end.

(** [l.remove(x)] *)
Definition remove (x : Z) (l : list Z) : result (list Z) :=
  match remove_first x l with
  | Some l' => Ok l'
  | None => Raise ValueError
  end.

Fixpoint index_from (x : Z) (l : list Z) (i : Z) : option Z :=
  match l with
  | [] => None
  | y :: r => if y =? x then Some i else index_from x r (i + 1)
  end.

(** [l.index(x)] *)
Definition index (x : Z) (l : list Z) : result Z :=
  match index_from x l 0 with
  | Some i => Ok i
  | None => Raise ValueError
  end.

(** [l.pop(0)] *)
Definition pop0 {A : Type} (l : list A) : result (A * list A) :=
  match l with
  | [] => Raise IndexError
  | x :: r => Ok (x, r)
  end.

(** [list(range(n))] *)
Definition range (n : Z) : list Z :=
  map Z.of_nat (seq 0 (Z.to_nat n)).

(** [min(l, key=f)]: the first element whose key is smallest. *)
Fixpoint min_from {A : Type} (f : A -> result Z) (best : A) (kbest : Z)
         (l : list A) : result A :=
  match l with
  | [] => Ok best
  | x :: r =>
      kx <- f x ;;
      if kx <? kbest then min_from f x kx r else min_from f best kbest r
  end.

Definition min_by {A : Type} (f : A -> result Z) (l : list A) : result A :=
  match l with
  | [] => Raise ValueError
  | x :: r => kx <- f x ;; min_from f x kx r
  end.

(** [min(l)] on integers. *)
Definition min (l : list Z) : result Z := min_by (fun x => Ok x) l.

End PyList.

(** ** Python dictionaries with integer keys, in insertion order *)

Module PyDict.

Definition t (V : Type) : Type := list (Z * V).

Definition empty {V : Type} : t V := [].

Fixpoint lookup {V : Type} (k : Z) (d : t V) : option V :=
  match d with
  | [] => None
  | (k', v) :: r => if k' =? k then Some v else lookup k r
  end.

(** [k in d] *)
Definition contains {V : Type} (k : Z) (d : t V) : bool :=
  match lookup k d with Some _ => true | None => false end.

(** [d[k]] *)
Definition getitem {V : Type} (k : Z) (d : t V) : result V :=
  match lookup k d with
  | Some v => Ok v
  | None => Raise KeyError
  end.

Fixpoint replace {V : Type} (k : Z) (v : V) (d : t V) : t V :=
  match d with
  | [] => []
  | (k', v') :: r => if k' =? k then (k', v) :: r else (k', v') :: replace k v r
  end.

(** [d[k] = v]: an existing key keeps its place, a new one goes last. *)
Definition setitem {V : Type} (k : Z) (v : V) (d : t V) : t V :=
  if contains k d then replace k v d else d ++ [(k, v)].

Fixpoint remove {V : Type} (k : Z) (d : t V) : t V :=
  match d with
  | [] => []
  | (k', v') :: r => if k' =? k then r else (k', v') :: remove k r
  end.

(** [del d[k]] *)
Definition delitem {V : Type} (k : Z) (d : t V) : result (t V) :=
  if contains k d then Ok (remove k d) else Raise KeyError.

(** [d.move_to_end(k)] of an [OrderedDict] *)
Definition move_to_end {V : Type} (k : Z) (d : t V) : result (t V) :=
  match lookup k d with
  | Some v => Ok (remove k d ++ [(k, v)])
  | None => Raise KeyError
  end.

(** [d.popitem(last=False)] of an [OrderedDict] *)
Definition popitem_first {V : Type} (d : t V) : result (t V) :=
  match d with
  | [] => Raise KeyError
  | _ :: r => Ok r
  end.

Definition keys {V : Type} (d : t V) : list Z := map fst d.
Definition values {V : Type} (d : t V) : list V := map snd d.
Definition len {V : Type} (d : t V) : Z := Z.of_nat (List.length d).

End PyDict.

(** ** page_table.py *)

Module PageTableEntry.

Record t : Type := mk {
  valid : bool;
  frame_number : option Z;
  referenced : bool;
  modified : bool;
  last_access_time : Z;
  access_count : Z
}.

(** [PageTableEntry()] *)
Definition init : t := mk false None false false 0 0.

End PageTableEntry.

Module PageTable.

Record t : Type := mk {
  num_pages : Z;
  entries : list PageTableEntry.t
}.

(** [PageTable(num_pages)] *)
Definition init (n : Z) : t := mk n (repeat PageTableEntry.init (Z.to_nat n)).

Definition get_entry (pt : t) (page_number : Z) : result PageTableEntry.t :=
  if num_pages pt <=? page_number then Raise ValueError
  else PyList.getitem (entries pt) page_number.

Definition is_valid (pt : t) (page_number : Z) : result bool :=
  e <- PyList.getitem (entries pt) page_number ;;
  Ok (PageTableEntry.valid e).

Definition get_frame_number (pt : t) (page_number : Z) : result (option Z) :=
  v <- is_valid pt page_number ;;
  if negb v then Ok None
  else e <- PyList.getitem (entries pt) page_number ;;
       Ok (PageTableEntry.frame_number e).

(** Mutation of the entry object found at [entries[page_number]]. *)
Definition update_entry (pt : t) (page_number : Z)
           (f : PageTableEntry.t -> PageTableEntry.t) : result t :=
  match PyList.norm (entries pt) page_number with
  | Some n => Ok (mk (num_pages pt) (PyList.update_nth n f (entries pt)))
  | None => Raise IndexError
  end.

Definition set_frame (pt : t) (page_number frame : Z) : result t :=
  update_entry pt page_number (fun e =>
    PageTableEntry.mk true (Some frame)
      (PageTableEntry.referenced e) (PageTableEntry.modified e)
      (PageTableEntry.last_access_time e) (PageTableEntry.access_count e)).

Definition invalidate (pt : t) (page_number : Z) : result t :=
  update_entry pt page_number (fun e =>
    PageTableEntry.mk false None
      (PageTableEntry.referenced e) (PageTableEntry.modified e)
      (PageTableEntry.last_access_time e) (PageTableEntry.access_count e)).

Definition update_access (pt : t) (page_number time : Z) (is_write : bool)
  : result t :=
  update_entry pt page_number (fun e =>
    PageTableEntry.mk (PageTableEntry.valid e) (PageTableEntry.frame_number e)
      true
      (if is_write then true else PageTableEntry.modified e)
      time
      (PageTableEntry.access_count e + 1)).

End PageTable.

(** ** Integer division *)

(** [a // b] and [a % b]: floor division, remainder with the sign of [b]. *)
Definition floordiv (a b : Z) : result Z :=
if b =? 0 then Raise ZeroDivisionError else Ok (a / b).

Definition pymod (a b : Z) : result Z :=
if b =? 0 then Raise ZeroDivisionError else Ok (a mod b).

(** ** replacement_algorithms.py *)

(** What [access_page] returns, next to the updated policy object. *)
Definition access_result : Type := (bool * option Z)%type.

Module FIFO.

Record t : Type := mk {
  num_frames : Z;
  frames : list Z;
  queue : list Z
}.

Definition init (n : Z) : t := mk n [] [].

Definition is_page_in_memory (s : t) (page_number : Z) : bool :=
PyList.contains page_number (frames s).

Definition get_victim (s : t) : result Z := PyList.getitem (queue s) 0.

Definition access_page (s : t) (page_number time : Z) (is_write : bool)
  : result (access_result * t) :=
if is_page_in_memory s page_number then Ok ((false, None), s)
else
  '(victim, fr, qu) <-
    (if num_frames s <=? PyList.len (frames s) then
       v <- get_victim s ;;
       fr <- PyList.remove v (frames s) ;;
       qu <- PyList.remove v (queue s) ;;
       Ok (Some v, fr, qu)
     else Ok (None, frames s, queue s)) ;;
  Ok ((true, victim), mk (num_frames s) (fr ++ [page_number]) (qu ++ [page_number])).

End FIFO.

Module LRU.

Record t : Type := mk {
  num_frames : Z;
  frames : list Z;
  access_times : PyDict.t Z
}.

Definition init (n : Z) : t := mk n [] PyDict.empty.

Definition is_page_in_memory (s : t) (page_number : Z) : bool :=
PyList.contains page_number (frames s).

(** [min(self.access_times, key=self.access_times.get)]: the keys are
    those of the dictionary itself, so the key function always finds one. *)
Definition get_victim (s : t) : result Z :=
PyList.min_by (fun p => PyDict.getitem p (access_times s))
              (PyDict.keys (access_times s)).

Definition access_page (s : t) (page_number time : Z) (is_write : bool)
  : result (access_result * t) :=
let page_fault := negb (is_page_in_memory s page_number) in
'(victim, fr, tm) <-
  (if page_fault then
     '(victim, fr, tm) <-
       (if num_frames s <=? PyList.len (frames s) then
          v <- get_victim s ;;
          fr <- PyList.remove v (frames s) ;;
          tm <- PyDict.delitem v (access_times s) ;;
          Ok (Some v, fr, tm)
        else Ok (None, frames s, access_times s)) ;;
     Ok (victim, fr ++ [page_number], tm)
   else Ok (None, frames s, access_times s)) ;;
Ok ((page_fault, victim),
    mk (num_frames s) fr (PyDict.setitem page_number time tm)).

End LRU.

Module LFU.

Record t : Type := mk {
  num_frames : Z;
  frames : list Z;
  access_counts : PyDict.t Z;
  access_times : PyDict.t Z
}.

Definition init (n : Z) : t := mk n [] PyDict.empty PyDict.empty.

Definition is_page_in_memory (s : t) (page_number : Z) : bool :=
PyList.contains page_number (frames s).

(** [[p for p, count in self.access_counts.items() if count == min_count]] *)
Definition candidates (counts : PyDict.t Z) (min_count : Z) : list Z :=
map fst (filter (fun pc => snd pc =? min_count) counts).

Definition get_victim (s : t) : result Z :=
min_count <- PyList.min (PyDict.values (access_counts s)) ;;
let cands := candidates (access_counts s) min_count in
match cands with
| [p] => Ok p
| _ => PyList.min_by (fun p => PyDict.getitem p (access_times s)) cands
end.

Definition access_page (s : t) (page_number time : Z) (is_write : bool)
  : result (access_result * t) :=
let page_fault := negb (is_page_in_memory s page_number) in
'(victim, fr, cn, tm) <-
  (if page_fault then
     '(victim, fr, cn, tm) <-
       (if num_frames s <=? PyList.len (frames s) then
          v <- get_victim s ;;
          fr <- PyList.remove v (frames s) ;;
          cn <- PyDict.delitem v (access_counts s) ;;
          tm <- PyDict.delitem v (access_times s) ;;
          Ok (Some v, fr, cn, tm)
        else Ok (None, frames s, access_counts s, access_times s)) ;;
     Ok (victim, fr ++ [page_number], PyDict.setitem page_number 0 cn, tm)
   else Ok (None, frames s, access_counts s, access_times s)) ;;
c <- PyDict.getitem page_number cn ;;
Ok ((page_fault, victim),
    mk (num_frames s) fr
       (PyDict.setitem page_number (c + 1) cn)
       (PyDict.setitem page_number time tm)).

End LFU.

Module Optimal.

Record t : Type := mk {
  num_frames : Z;
  frames : list Z;
  reference_string : list Z;
  current_index : Z
}.

Definition init (n : Z) (refs : list Z) : t := mk n [] refs 0.

Definition is_page_in_memory (s : t) (page_number : Z) : bool :=
PyList.contains page_number (frames s).

(** A position in the reference string, or [float('inf')]. *)
Inductive distance : Type :=
| At (i : Z)
| Inf.

(** [a > b] *)
Definition gt (a b : distance) : bool :=
match a, b with
| At i, At j => j <? i
| At _, Inf => false
| Inf, At _ => true
| Inf, Inf => false
end.

(** The inner loop: [for i in range(i, i + n)], stopping at the first
    occurrence of [page]. *)
Fixpoint scan (refs : list Z) (page : Z) (i : Z) (n : nat) : result distance :=
match n with
| O => Ok Inf
| S n' =>
    x <- PyList.getitem refs i ;;
    if x =? page then Ok (At i) else scan refs page (i + 1) n'
end.

Definition next_use (s : t) (page : Z) : result distance :=
scan (reference_string s) page (current_index s)
     (Z.to_nat (PyList.len (reference_string s) - current_index s)).

(** The outer loop, carrying [farthest_use] and [victim]. *)
Fixpoint choose (s : t) (pages : list Z) (farthest_use : distance)
         (victim : option Z) : result (option Z) :=
match pages with
| [] => Ok victim
| page :: rest =>
    nu <- next_use s page ;;
    if gt nu farthest_use then choose s rest nu (Some page)
    else choose s rest farthest_use victim
end.

Definition get_victim (s : t) : result (option Z) :=
choose s (frames s) (At (-1)) None.

Definition access_page (s : t) (page_number time : Z) (is_write : bool)
  : result (access_result * t) :=
let page_fault := negb (is_page_in_memory s page_number) in
'(victim, fr) <-
  (if page_fault then
     '(victim, fr) <-
       (if num_frames s <=? PyList.len (frames s) then
          ov <- get_victim s ;;
          match ov with
          | Some v => fr <- PyList.remove v (frames s) ;; Ok (Some v, fr)
          | None => Raise ValueError
          end
        else Ok (None, frames s)) ;;
     Ok (victim, fr ++ [page_number])
   else Ok (None, frames s)) ;;
Ok ((page_fault, victim),
    mk (num_frames s) fr (reference_string s) (current_index s + 1)).

End Optimal.

Module Clock.

Record t : Type := mk {
  num_frames : Z;
  frames : list Z;
  reference_bits : PyDict.t Z;
  clock_hand : Z
}.

Definition init (n : Z) : t := mk n [] PyDict.empty 0.

Definition is_page_in_memory (s : t) (page_number : Z) : bool :=
PyList.contains page_number (frames s).

(** The [while True] loop of [get_victim], one unit of fuel per
    iteration; [None] when the fuel runs out before the loop returns. *)
Fixpoint get_victim_loop (fuel : nat) (s : t) : option (result (Z * t)) :=
match fuel with
| O => None
| S fuel' =>
    match PyList.getitem (frames s) (clock_hand s) with
    | Raise e => Some (Raise e)
    | Ok page =>
        match PyDict.getitem page (reference_bits s) with
        | Raise e => Some (Raise e)
        | Ok b =>
            match pymod (clock_hand s + 1) (PyList.len (frames s)) with
            | Raise e => Some (Raise e)
            | Ok hand =>
                if b =? 0 then
                  Some (Ok (page, mk (num_frames s) (frames s) (reference_bits s) hand))
                else
                  get_victim_loop fuel'
                    (mk (num_frames s) (frames s)
                        (PyDict.setitem page 0 (reference_bits s)) hand)
            end
        end
    end
end.

(** One more iteration than there are frames is always enough (lemma
    [Clock_get_victim_fuel_enough] below), so the last branch is dead. *)
Definition get_victim (s : t) : result (Z * t) :=
match get_victim_loop (S (List.length (frames s))) s with
| Some r => r
| None => Raise IndexError
end.

Definition access_page (s : t) (page_number time : Z) (is_write : bool)
  : result (access_result * t) :=
let page_fault := negb (is_page_in_memory s page_number) in
'(victim, s1) <-
  (if page_fault then
     if num_frames s <=? PyList.len (frames s) then
       '(v, s0) <- get_victim s ;;
       victim_index <- PyList.index v (frames s0) ;;
       fr <- PyList.setitem (frames s0) victim_index page_number ;;
       bits <- PyDict.delitem v (reference_bits s0) ;;
       Ok (Some v, mk (num_frames s0) fr bits (clock_hand s0))
     else
       Ok (None, mk (num_frames s) (frames s ++ [page_number])
                    (reference_bits s) (clock_hand s))
   else Ok (None, s)) ;;
Ok ((page_fault, victim),
    mk (num_frames s1) (frames s1)
       (PyDict.setitem page_number 1 (reference_bits s1)) (clock_hand s1)).

End Clock.

(** The object held in [self.algorithm]: one of the five subclasses of
    [PageReplacementAlgorithm]; method calls dispatch on the class. *)
Module PageReplacementAlgorithm.

Inductive t : Type :=
| AlgFIFO (s : FIFO.t)
| AlgLRU (s : LRU.t)
| AlgLFU (s : LFU.t)
| AlgOptimal (s : Optimal.t)
| AlgClock (s : Clock.t).

Definition lift_alg {S : Type} (inj : S -> t)
           (r : result (access_result * S)) : result (access_result * t) :=
'(o, s) <- r ;; Ok (o, inj s).

Definition access_page (a : t) (page_number time : Z) (is_write : bool)
  : result (access_result * t) :=
match a with
| AlgFIFO s => lift_alg AlgFIFO (FIFO.access_page s page_number time is_write)
| AlgLRU s => lift_alg AlgLRU (LRU.access_page s page_number time is_write)
| AlgLFU s => lift_alg AlgLFU (LFU.access_page s page_number time is_write)
| AlgOptimal s => lift_alg AlgOptimal (Optimal.access_page s page_number time is_write)
| AlgClock s => lift_alg AlgClock (Clock.access_page s page_number time is_write)
end.

(** [self.frames] and [self.num_frames] of the base class. *)
Definition frames (a : t) : list Z :=
match a with
| AlgFIFO s => FIFO.frames s
| AlgLRU s => LRU.frames s
| AlgLFU s => LFU.frames s
| AlgOptimal s => Optimal.frames s
| AlgClock s => Clock.frames s
end.

Definition num_frames (a : t) : Z :=
match a with
| AlgFIFO s => FIFO.num_frames s
| AlgLRU s => LRU.num_frames s
| AlgLFU s => LFU.num_frames s
| AlgOptimal s => Optimal.num_frames s
| AlgClock s => Clock.num_frames s
end.

Definition is_page_in_memory (a : t) (page_number : Z) : bool :=
PyList.contains page_number (frames a).

End PageReplacementAlgorithm.

(** ** virtual_memory.py *)

Module TLB.

Record t : Type := mk {
  size : Z;
  cache : PyDict.t Z;
  hits : Z;
  misses : Z
}.

Definition init (n : Z) : t := mk n PyDict.empty 0 0.

Definition lookup (s : t) (page_number : Z) : result (option Z * t) :=
if PyDict.contains page_number (cache s) then
  c <- PyDict.move_to_end page_number (cache s) ;;
  f <- PyDict.getitem page_number c ;;
  Ok (Some f, mk (size s) c (hits s + 1) (misses s))
else Ok (None, mk (size s) (cache s) (hits s) (misses s + 1)).

Definition insert (s : t) (page_number frame_number : Z) : result t :=
if PyDict.contains page_number (cache s) then
  c <- PyDict.move_to_end page_number (cache s) ;;
  Ok (mk (size s) c (hits s) (misses s))
else
  c <- (if size s <=? PyDict.len (cache s)
        then PyDict.popitem_first (cache s) else Ok (cache s)) ;;
  Ok (mk (size s) (PyDict.setitem page_number frame_number c) (hits s) (misses s)).

Definition invalidate (s : t) (page_number : Z) : result t :=
if PyDict.contains page_number (cache s) then
  c <- PyDict.delitem page_number (cache s) ;;
  Ok (mk (size s) c (hits s) (misses s))
else Ok s.

End TLB.

Module VirtualMemorySimulator.

Record t : Type := mk {
  num_pages : Z;
  num_frames : Z;
  page_size : Z;
  page_table : PageTable.t;
  tlb : TLB.t;
  algorithm : PageReplacementAlgorithm.t;
  algorithm_name : string;
  page_faults : Z;
  memory_accesses : Z;
  tlb_hits : Z;
  tlb_misses : Z;
  current_time : Z;
  free_frames : list Z;
  page_to_frame : PyDict.t Z
}.

Definition make_algorithm (n : Z) (name : string) (reference_string : option (list Z))
  : result PageReplacementAlgorithm.t :=
if String.eqb name "FIFO" then Ok (PageReplacementAlgorithm.AlgFIFO (FIFO.init n))
else if String.eqb name "LRU" then Ok (PageReplacementAlgorithm.AlgLRU (LRU.init n))
else if String.eqb name "LFU" then Ok (PageReplacementAlgorithm.AlgLFU (LFU.init n))
else if String.eqb name "Optimal" then
  match reference_string with
  | None => Raise ValueError
  | Some refs => Ok (PageReplacementAlgorithm.AlgOptimal (Optimal.init n refs))
  end
else if String.eqb name "Clock" then Ok (PageReplacementAlgorithm.AlgClock (Clock.init n))
else Raise ValueError.

(** [VirtualMemorySimulator(num_pages, num_frames, page_size, tlb_size,
    algorithm_name, reference_string)] *)
Definition init (num_pages num_frames page_size tlb_size : Z)
           (algorithm_name : string) (reference_string : option (list Z))
  : result t :=
alg <- make_algorithm num_frames algorithm_name reference_string ;;
Ok (mk num_pages num_frames page_size (PageTable.init num_pages)
       (TLB.init tlb_size) alg algorithm_name 0 0 0 0 0
       (PyList.range num_frames) PyDict.empty).

Definition tick (s : t) : t :=
mk (num_pages s) (num_frames s) (page_size s) (page_table s) (tlb s)
   (algorithm s) (algorithm_name s) (page_faults s) (memory_accesses s + 1)
   (tlb_hits s) (tlb_misses s) (current_time s + 1) (free_frames s)
   (page_to_frame s).

Definition count_fault (s : t) : t :=
mk (num_pages s) (num_frames s) (page_size s) (page_table s) (tlb s)
   (algorithm s) (algorithm_name s) (page_faults s + 1) (memory_accesses s)
   (tlb_hits s) (tlb_misses s) (current_time s) (free_frames s)
   (page_to_frame s).

Definition with_tlb (s : t) (x : TLB.t) : t :=
mk (num_pages s) (num_frames s) (page_size s) (page_table s) x
   (algorithm s) (algorithm_name s) (page_faults s) (memory_accesses s)
   (tlb_hits s) (tlb_misses s) (current_time s) (free_frames s)
   (page_to_frame s).

Definition with_page_table (s : t) (x : PageTable.t) : t :=
mk (num_pages s) (num_frames s) (page_size s) x (tlb s)
   (algorithm s) (algorithm_name s) (page_faults s) (memory_accesses s)
   (tlb_hits s) (tlb_misses s) (current_time s) (free_frames s)
   (page_to_frame s).

Definition _handle_page_fault (s : t) (page_number : Z) (is_write : bool)
  : result (Z * t) :=
'(_, victim_page, alg) <-
  PageReplacementAlgorithm.access_page (algorithm s) page_number (current_time s)
    is_write ;;
'(frame_number, pt, tl, free, p2f) <-
  match victim_page with
  | Some v =>
      fr <- PyDict.getitem v (page_to_frame s) ;;
      pt <- PageTable.invalidate (page_table s) v ;;
      tl <- TLB.invalidate (tlb s) v ;;
      p2f <- PyDict.delitem v (page_to_frame s) ;;
      Ok (fr, pt, tl, free_frames s, p2f)
  | None =>
      '(fr, free) <- PyList.pop0 (free_frames s) ;;
      Ok (fr, page_table s, tlb s, free, page_to_frame s)
  end ;;
pt <- PageTable.set_frame pt page_number frame_number ;;
Ok (frame_number,
    mk (num_pages s) (num_frames s) (page_size s) pt tl alg (algorithm_name s)
       (page_faults s) (memory_accesses s) (tlb_hits s) (tlb_misses s)
       (current_time s) free (PyDict.setitem page_number frame_number p2f)).

(** What [translate_address] returns:
    [(physical_address, page_fault, tlb_hit)]. *)
Definition translation : Type := (Z * bool * bool)%type.

Definition translate_address (s0 : t) (virtual_address : Z) (is_write : bool)
  : result (translation * t) :=
let s := tick s0 in
page_number <- floordiv virtual_address (page_size s) ;;
offset <- pymod virtual_address (page_size s) ;;
'(looked, tl) <- TLB.lookup (tlb s) page_number ;;
let s := with_tlb s tl in
'(frame_number, page_fault, tlb_hit, s) <-
  match looked with
  | Some fr => Ok (fr, false, true, s)
  | None =>
      v <- PageTable.is_valid (page_table s) page_number ;;
      '(fr, pf, s) <-
        (if negb v then
           '(fr, s) <- _handle_page_fault (count_fault s) page_number is_write ;;
           Ok (fr, true, s)
         else
           ofr <- PageTable.get_frame_number (page_table s) page_number ;;
           match ofr with
           | Some fr => Ok (fr, false, s)
           | None => Raise TypeError
           end) ;;
      tl <- TLB.insert (tlb s) page_number fr ;;
      Ok (fr, pf, false, with_tlb s tl)
  end ;;
pt <- PageTable.update_access (page_table s) page_number (current_time s) is_write ;;
Ok ((frame_number * page_size s + offset, page_fault, tlb_hit),
    with_page_table s pt).

(** The loop of [run_trace] from index [i] on; [write_operations] is the
    set of indices that are writes. *)
Fixpoint run_trace_from (s : t) (i : Z) (reference_string : list Z)
         (write_operations : list Z) : result t :=
match reference_string with
| [] => Ok s
| page_number :: rest =>
    let is_write := PyList.contains i write_operations in
    '(_, s') <- translate_address s (page_number * page_size s) is_write ;;
    run_trace_from s' (i + 1) rest write_operations
end.

Definition run_trace (s : t) (reference_string : list Z)
           (write_operations : option (list Z)) : result t :=
run_trace_from s 0 reference_string
  (match write_operations with Some w => w | None => [] end).

(** The integer entries of [get_statistics]; the two rates are floats
    computed from them. *)
Record statistics : Type := mk_statistics {
  st_algorithm : string;
  total_accesses : Z;
  st_page_faults : Z;
  st_tlb_hits : Z;
  st_tlb_misses : Z
}.

Definition get_statistics (s : t) : statistics :=
mk_statistics (algorithm_name s) (memory_accesses s) (page_faults s)
              (TLB.hits (tlb s)) (TLB.misses (tlb s)).

End VirtualMemorySimulator.

(** The driver every test of [test_suite.py] goes through: build a
    simulator, [run_trace] the reference string, read
    [get_statistics()['page_faults']]. *)
Definition simulate_faults (num_pages num_frames page_size tlb_size : Z)
           (algorithm_name : string) (reference_string : option (list Z))
           (trace : list Z) : result Z :=
s <- VirtualMemorySimulator.init num_pages num_frames page_size tlb_size
       algorithm_name reference_string ;;
s' <- VirtualMemorySimulator.run_trace s trace None ;;
Ok (VirtualMemorySimulator.st_page_faults (VirtualMemorySimulator.get_statistics s')).

(** A sequence of [translate_address] calls on one simulator, keeping
    what each call returned. *)
Fixpoint translate_all (s : VirtualMemorySimulator.t) (calls : list (Z * bool))
  : result (list VirtualMemorySimulator.translation * VirtualMemorySimulator.t) :=
match calls with
| [] => Ok ([], s)
| (va, w) :: rest =>
    '(r, s1) <- VirtualMemorySimulator.translate_address s va w ;;
    '(rs, s2) <- translate_all s1 rest ;;
    Ok (r :: rs, s2)
end.


(** The object [__init__] leaves behind once the policy object is built. *)
Definition fresh (num_pages num_frames page_size tlb_size : Z)
           (alg : PageReplacementAlgorithm.t) (name : string)
  : VirtualMemorySimulator.t :=
VirtualMemorySimulator.mk num_pages num_frames page_size
  (PageTable.init num_pages) (TLB.init tlb_size) alg name
  0 0 0 0 0 (PyList.range num_frames) PyDict.empty.

(** The simulator of [test_fifo_basic]: ten pages, three frames, pages
    of 4096 bytes, four TLB entries. *)
Definition fifo_simulator : VirtualMemorySimulator.t :=
fresh 10 3 4096 4 (PageReplacementAlgorithm.AlgFIFO (FIFO.init 3)) "FIFO".

(** The same with a single frame. *)
Definition one_frame_simulator : VirtualMemorySimulator.t :=
fresh 10 1 4096 4 (PageReplacementAlgorithm.AlgFIFO (FIFO.init 1)) "FIFO".

(** The state a sequence of calls leaves ([s] itself if one raises), and
    what the calls returned. *)
Definition state_after (s : VirtualMemorySimulator.t) (calls : list (Z * bool))
  : VirtualMemorySimulator.t :=
match translate_all s calls with
| Ok (_, s') => s'
| Raise _ => s
end.

Definition returned (s : VirtualMemorySimulator.t) (calls : list (Z * bool))
  : result (list VirtualMemorySimulator.translation) :=
'(rs, _) <- translate_all s calls ;; Ok rs.

(** [fifo_simulator] once page 2 has been loaded. *)
Definition warm_simulator : VirtualMemorySimulator.t :=
state_after fifo_simulator [(8192, false)].

(** The five policy names [__init__] knows. *)
Definition known_algorithm (name : string) : Prop :=
name = "FIFO"%string \/ name = "LRU"%string \/ name = "LFU"%string \/
name = "Optimal"%string \/ name = "Clock"%string.

(** A policy object driven on its own: [access_page] on every reference
    of the trace, which is what the cursor of [Optimal] supposes.  The
    result is the number of faults it reports. *)
Fixpoint drive (a : PageReplacementAlgorithm.t) (time : Z) (trace : list Z)
  : result Z :=
match trace with
| [] => Ok 0
| page :: rest =>
    '(pf, _, a') <- PageReplacementAlgorithm.access_page a page time false ;;
    n <- drive a' (time + 1) rest ;;
    Ok ((if pf then 1 else 0) + n)
end.

(** The reference string of [test_fifo_basic]. *)
Definition scenario_A : list Z := [1; 2; 3; 4; 1; 2; 5; 1; 2; 3; 4; 5].

(** A short trace on which the cursor of [Optimal] falls behind. *)
Definition lagging_trace : list Z := [0; 1; 0; 2; 1].

(** Four calls, the first with a negative address: pages -1, 9, 5, 9. *)
Definition aliasing_calls : list (Z * bool) :=
[(-1, false); (36864, false); (20480, false); (36864, false)].

(** ** Measures and invariants used in the proofs *)

(** Slots of the Clock frame array whose page does not have a cleared
    reference bit: what bounds the remaining iterations of [get_victim]. *)
Definition bit_pending (bits : PyDict.t Z) (p : Z) : bool :=
match PyDict.lookup p bits with
| Some 0 => false
| _ => true
end.

Definition pending (s : Clock.t) : nat :=
List.length (filter (bit_pending (Clock.reference_bits s)) (Clock.frames s)).

(** The precondition of [Clock.get_victim]: a hand that points into a
    non-empty frame list, and a reference bit for every resident page. *)
Record Clock_ready (s : Clock.t) : Prop := {
  ready_frames : Clock.frames s <> [];
  ready_hand : 0 <= Clock.clock_hand s < PyList.len (Clock.frames s);
  ready_bits : forall p, In p (Clock.frames s) ->
                         PyDict.contains p (Clock.reference_bits s) = true
}.

(** A full three-frame Clock state with every reference bit set. *)
Definition clock_full : Clock.t :=
Clock.mk 3 [1; 2; 3] [(1, 1); (2, 1); (3, 1)] 0.

(** What every LFU object built by [LFU(num_frames)] and driven by
    [access_page] satisfies: the pages the two dictionaries track are
    the resident ones, each once. *)
Record LFU_consistent (s : LFU.t) : Prop := {
  lfu_frames_nodup : NoDup (LFU.frames s);
  lfu_counts_nodup : NoDup (PyDict.keys (LFU.access_counts s));
  lfu_times_nodup : NoDup (PyDict.keys (LFU.access_times s));
  lfu_counts_frames : forall p,
    In p (LFU.frames s) <-> PyDict.lookup p (LFU.access_counts s) <> None;
  lfu_times_frames : forall p,
    In p (LFU.frames s) <-> PyDict.lookup p (LFU.access_times s) <> None
}.

(** [v] is the page LFU has to evict: resident, of least count, and of
    least last-access time among the resident pages of that count. *)
Definition LFU_victim (s : LFU.t) (v : Z) : Prop :=
In v (LFU.frames s) /\
exists cv tv,
  PyDict.lookup v (LFU.access_counts s) = Some cv /\
  PyDict.lookup v (LFU.access_times s) = Some tv /\
  (forall p c, In p (LFU.frames s) ->
               PyDict.lookup p (LFU.access_counts s) = Some c -> cv <= c) /\
  (forall p tp, In p (LFU.frames s) ->
                PyDict.lookup p (LFU.access_counts s) = Some cv ->
                PyDict.lookup p (LFU.access_times s) = Some tp -> tv <= tp).

(** A full LFU state: page 1 used three times, pages 2 and 3 once,
    page 2 longer ago than page 3. *)
Definition lfu_full : LFU.t :=
LFU.mk 3 [1; 2; 3] [(1, 3); (2, 1); (3, 1)] [(1, 5); (2, 4); (3, 6)].

(** ** Pages below zero and the state they would corrupt *)

(** Every page number a policy object holds, in any of its containers. *)
Definition tracked (a : PageReplacementAlgorithm.t) : list Z :=
match a with
| PageReplacementAlgorithm.AlgFIFO s => FIFO.frames s ++ FIFO.queue s
| PageReplacementAlgorithm.AlgLRU s =>
    LRU.frames s ++ PyDict.keys (LRU.access_times s)
| PageReplacementAlgorithm.AlgLFU s =>
    LFU.frames s ++ PyDict.keys (LFU.access_counts s)
      ++ PyDict.keys (LFU.access_times s)
| PageReplacementAlgorithm.AlgOptimal s => Optimal.frames s
| PageReplacementAlgorithm.AlgClock s =>
    Clock.frames s ++ PyDict.keys (Clock.reference_bits s)
end.

(** The page table maps [p] to frame [f]. *)
Definition resident_at (pt : PageTable.t) (p f : Z) : Prop :=
exists e, PyList.getitem (PageTable.entries pt) p = Ok e /\
          PageTableEntry.valid e = true /\
          PageTableEntry.frame_number e = Some f.

(** The TLB, the page table and [page_to_frame] agree on which pages
    are resident and where, and none of those pages is negative. *)
Record agree (pt : PageTable.t) (cache p2f : PyDict.t Z) : Prop := {
  agree_tlb : forall p f,
    PyDict.lookup p cache = Some f -> PyDict.lookup p p2f = Some f;
  agree_map : forall p f,
    PyDict.lookup p p2f = Some f -> 0 <= p /\ resident_at pt p f;
  agree_valid : forall p,
    0 <= p -> PageTable.is_valid pt p = Ok true -> PyDict.lookup p p2f <> None;
  agree_map_nodup : NoDup (PyDict.keys p2f);
  agree_tlb_nodup : NoDup (PyDict.keys cache)
}.

Definition coherent (s : VirtualMemorySimulator.t) : Prop :=
(forall p, In p (tracked (VirtualMemorySimulator.algorithm s)) -> 0 <= p) /\
agree (VirtualMemorySimulator.page_table s)
      (TLB.cache (VirtualMemorySimulator.tlb s))
      (VirtualMemorySimulator.page_to_frame s).

(** ** FIFO seen from outside *)

(** The resident pages of a FIFO simulator, oldest first, and whether
    the reference is a fault: what one reference does to them. *)
Definition fifo_step (num_frames : Z) (q : list Z) (page : Z) : list Z * bool :=
if PyList.contains page q then (q, false)
else if num_frames <=? PyList.len q then (List.tl q ++ [page], true)
else (q ++ [page], true).

Fixpoint fifo_faults (num_frames : Z) (q : list Z) (trace : list Z) : Z :=
match trace with
| [] => 0
| page :: rest =>
    let '(q', fault) := fifo_step num_frames q page in
    (if fault then 1 else 0) + fifo_faults num_frames q' rest
end.

(** A simulator state that holds exactly the resident pages [q]. *)
Record fifo_refines (s : VirtualMemorySimulator.t) (q : list Z) : Prop := {
  fr_alg : VirtualMemorySimulator.algorithm s
           = PageReplacementAlgorithm.AlgFIFO
               (FIFO.mk (VirtualMemorySimulator.num_frames s) q q);
  fr_nodup : NoDup q;
  fr_range : forall p, In p q ->
    0 <= p < PyList.len (PageTable.entries (VirtualMemorySimulator.page_table s));
  fr_agree : agree (VirtualMemorySimulator.page_table s)
                   (TLB.cache (VirtualMemorySimulator.tlb s))
                   (VirtualMemorySimulator.page_to_frame s);
  fr_map : forall p,
    In p q <-> PyDict.lookup p (VirtualMemorySimulator.page_to_frame s) <> None;
  fr_free : PyList.len (VirtualMemorySimulator.free_frames s) + PyList.len q
            = VirtualMemorySimulator.num_frames s;
  fr_tlb : 0 < TLB.size (VirtualMemorySimulator.tlb s);
  fr_page_size : VirtualMemorySimulator.page_size s <> 0
}.

(** ** Sample objects for the further properties *)

(** The value of a call that returned, [d] if it raised. *)
Definition returned_or {A : Type} (d : A) (r : result A) : A :=
match r with
| Ok a => a
| Raise _ => d
end.

(** A page table of three pages with page 1 in frame 7. *)
Definition loaded_table : PageTable.t :=
returned_or (PageTable.init 0) (PageTable.set_frame (PageTable.init 3) 1 7).

(** What [update_access] records in an entry, apart from the time. *)
Definition usage (e : PageTableEntry.t) : bool * bool * Z :=
(PageTableEntry.referenced e, PageTableEntry.modified e,
 PageTableEntry.access_count e).

(** How often, and whether for writing, a sequence of calls refers to
    a page. *)
Definition references (page page_size : Z) (calls : list (Z * bool)) : Z :=
PyList.len (filter (fun c => fst c / page_size =? page) calls).

Definition written (page page_size : Z) (calls : list (Z * bool)) : bool :=
existsb (fun c => (fst c / page_size =? page) && snd c) calls.

(** The page-table entry of page [p] ([PageTableEntry()] if there is none). *)
Definition entry_of (s : VirtualMemorySimulator.t) (p : Z) : PageTableEntry.t :=
returned_or PageTableEntry.init
  (PyList.getitem (PageTable.entries (VirtualMemorySimulator.page_table s)) p).

(** Page 2, a write to page 3, page 2 again: with one frame each call
    evicts the page of the call before. *)
Definition thrash_calls : list (Z * bool) :=
[(8192, false); (12288, true); (8192, false)].

(** A full TLB of two entries, page 1 the older. *)
Definition tlb_full : TLB.t := TLB.mk 2 [(1, 10); (2, 20)] 0 0.

(** ** The policies on their own *)

(** What every [access_page] does to the base-class fields: [pf] and
    [victim] are what it returned. *)
Definition policy_step (frames : list Z) (num_frames : Z)
           (frames' : list Z) (num_frames' : Z)
           (page : Z) (pf : bool) (victim : option Z) : Prop :=
pf = negb (PyList.contains page frames) /\
PyList.contains page frames' = true /\
num_frames' = num_frames /\
(victim <> None -> pf = true /\ num_frames <= PyList.len frames) /\
(PyList.len frames <= num_frames -> PyList.len frames' <= num_frames).

(** The policy object after one [access_page] ([a] itself if it raised). *)
Definition policy_after (a : PageReplacementAlgorithm.t) (page time : Z)
  : PageReplacementAlgorithm.t :=
match PageReplacementAlgorithm.access_page a page time false with
| Ok (_, a') => a'
| Raise _ => a
end.

(** [lfu_full] as the policy object of a simulator. *)
Definition lfu_policy : PageReplacementAlgorithm.t :=
PageReplacementAlgorithm.AlgLFU lfu_full.

(** What every LRU object built by [LRU(num_frames)] and driven by
    [access_page] satisfies: [access_times] tracks exactly the resident
    pages, each once. *)
Record LRU_consistent (s : LRU.t) : Prop := {
  lru_frames_nodup : NoDup (LRU.frames s);
  lru_times_nodup : NoDup (PyDict.keys (LRU.access_times s));
  lru_times_frames : forall p,
    In p (LRU.frames s) <-> PyDict.lookup p (LRU.access_times s) <> None
}.

(** A full LRU state: page 2 was used longest ago. *)
Definition lru_full : LRU.t :=
LRU.mk 3 [1; 2; 3] [(1, 5); (2, 4); (3, 6)].

(** A full FIFO state: page 1 came first. *)
Definition fifo_full : FIFO.t := FIFO.mk 3 [1; 2; 3] [1; 2; 3].


(** ** Optimal: what the look-ahead finds *)

(** [d] is where [page] next occurs in [refs] at or after position
    [cur]: the first such position, or [Inf] if there is none. *)
Definition next_occurrence (refs : list Z) (page cur : Z)
           (d : Optimal.distance) : Prop :=
match d with
| Optimal.At j =>
    cur <= j < PyList.len refs /\
    nth_error refs (Z.to_nat j) = Some page /\
    forall k, cur <= k < j -> nth_error refs (Z.to_nat k) <> Some page
| Optimal.Inf =>
    forall k, cur <= k < PyList.len refs ->
              nth_error refs (Z.to_nat k) <> Some page
end.

(** An Optimal state in the middle of [0,1,0,2,1]: pages 0 and 1
    resident, the cursor on the reference to page 2. *)
Definition optimal_mid : Optimal.t := Optimal.mk 2 [0; 1] [0; 1; 0; 2; 1] 3.

(** ** What the policy objects keep true *)

Definition FIFO_consistent (s : FIFO.t) : Prop :=
FIFO.frames s = FIFO.queue s /\ NoDup (FIFO.frames s).

Definition Optimal_consistent (s : Optimal.t) : Prop :=
NoDup (Optimal.frames s) /\ 0 <= Optimal.current_index s.

(** The reference bits track exactly the resident pages, and the hand
    points into the frame list (or is 0 while the list is empty). *)
Record Clock_consistent (s : Clock.t) : Prop := {
  clock_frames_nodup : NoDup (Clock.frames s);
  clock_bits_nodup : NoDup (PyDict.keys (Clock.reference_bits s));
  clock_bits_frames : forall p,
    In p (Clock.frames s) <-> PyDict.lookup p (Clock.reference_bits s) <> None;
  clock_hand_nonneg : 0 <= Clock.clock_hand s;
  clock_hand_bound :
    Clock.clock_hand s < Z.max 1 (PyList.len (Clock.frames s))
}.

Definition policy_consistent (a : PageReplacementAlgorithm.t) : Prop :=
match a with
| PageReplacementAlgorithm.AlgFIFO s => FIFO_consistent s
| PageReplacementAlgorithm.AlgLRU s => LRU_consistent s
| PageReplacementAlgorithm.AlgLFU s => LFU_consistent s
| PageReplacementAlgorithm.AlgOptimal s => Optimal_consistent s
| PageReplacementAlgorithm.AlgClock s => Clock_consistent s
end.

(** How [frames] changes over an [access_page] that returned
    [(pf, victim)]. *)
Definition frames_evolve (fr fr' : list Z) (page : Z) (pf : bool)
           (victim : option Z) : Prop :=
match pf, victim with
| false, _ => victim = None /\ fr' = fr
| true, None => fr' = fr ++ [page]
| true, Some v =>
    In v fr /\ PyList.len fr' = PyList.len fr /\
    forall q, In q fr' <-> q = page \/ (In q fr /\ q <> v)
end.

(** What [access_page] returns and does to [frames], case by case on
    what held before the call: the page resident; not resident with
    room left; not resident with no room. *)
Definition frames_step (fr : list Z) (num_frames : Z) (fr' : list Z)
           (page : Z) (pf : bool) (victim : option Z) : Prop :=
(In page fr -> pf = false /\ victim = None /\ fr' = fr) /\
(~ In page fr -> PyList.len fr < num_frames ->
 pf = true /\ victim = None /\ fr' = fr ++ [page]) /\
(~ In page fr -> num_frames <= PyList.len fr ->
 pf = true /\
 exists v, victim = Some v /\ In v fr /\
           PyList.len fr' = PyList.len fr /\
           forall q, In q fr' <-> q = page \/ (In q fr /\ q <> v)).


(** ** The simulator as a whole *)

(** What [__init__] establishes when the sizes are positive, and what
    every call of [translate_address] on a page of the table keeps: the
    policy object is consistent, [page_to_frame] has exactly the
    resident pages and agrees with the page table and the TLB, and the
    frames of the resident pages together with the free frames are
    distinct frame numbers below [num_frames]. *)
Record sound (s : VirtualMemorySimulator.t) : Prop := {
  sound_policy : policy_consistent (VirtualMemorySimulator.algorithm s);
  sound_num_frames :
    0 < PageReplacementAlgorithm.num_frames (VirtualMemorySimulator.algorithm s);
  sound_agree : agree (VirtualMemorySimulator.page_table s)
                      (TLB.cache (VirtualMemorySimulator.tlb s))
                      (VirtualMemorySimulator.page_to_frame s);
  sound_map : forall p,
    In p (PageReplacementAlgorithm.frames (VirtualMemorySimulator.algorithm s))
    <-> PyDict.lookup p (VirtualMemorySimulator.page_to_frame s) <> None;
  sound_free :
    PyList.len (VirtualMemorySimulator.free_frames s)
    + PyList.len (PageReplacementAlgorithm.frames (VirtualMemorySimulator.algorithm s))
    = PageReplacementAlgorithm.num_frames (VirtualMemorySimulator.algorithm s);
  sound_tlb : 0 < TLB.size (VirtualMemorySimulator.tlb s);
  sound_page_size : VirtualMemorySimulator.page_size s <> 0;
  sound_frames_nodup :
    NoDup (PyDict.values (VirtualMemorySimulator.page_to_frame s)
           ++ VirtualMemorySimulator.free_frames s);
  sound_frames_range : forall f,
    In f (PyDict.values (VirtualMemorySimulator.page_to_frame s)
          ++ VirtualMemorySimulator.free_frames s) ->
    0 <= f < PageReplacementAlgorithm.num_frames (VirtualMemorySimulator.algorithm s)
}.

(** The page number [translate_address] computes lies in the table. *)
Definition in_table (s : VirtualMemorySimulator.t) (va : Z) : Prop :=
0 <= va / VirtualMemorySimulator.page_size s
  < PyList.len (PageTable.entries (VirtualMemorySimulator.page_table s)).

(** [fifo_simulator] after the reference string of [test_fifo_basic]. *)
Definition after_scenario_A : VirtualMemorySimulator.t :=
returned_or fifo_simulator
  (VirtualMemorySimulator.run_trace fifo_simulator scenario_A None).

(** What the first page fault raises when there is no frame at all:
    [self.queue[0]] and [self.frames[0]] fail with [IndexError], [min()]
    of nothing and [self.frames.remove(None)] with [ValueError]. *)
Definition no_frame_error (a : PageReplacementAlgorithm.t) : exn :=
match a with
| PageReplacementAlgorithm.AlgFIFO _ => IndexError
| PageReplacementAlgorithm.AlgLRU _ => ValueError
| PageReplacementAlgorithm.AlgLFU _ => ValueError
| PageReplacementAlgorithm.AlgOptimal _ => ValueError
| PageReplacementAlgorithm.AlgClock _ => IndexError
end.

(** ** The policies as the simulator drives them *)

(** Access times that grow along the dictionary and do not exceed [now]. *)
Fixpoint increasing_times (now : Z) (d : PyDict.t Z) : Prop :=
match d with
| [] => True
| (_, t) :: r =>
    t <= now /\ (forall t', In t' (PyDict.values r) -> t < t') /\
    increasing_times now r
end.

(** A Clock object that has only ever been called on faults: the pages
    before the hand, [A], were admitted after the pages from the hand
    on, [B]; the former have their reference bit set, the latter have it
    cleared; and the hand has not moved while there was room. *)
Definition clock_queue (s : Clock.t) (q : list Z) : Prop :=
exists A B,
  Clock.frames s = A ++ B /\ q = B ++ A /\ NoDup (A ++ B) /\
  (forall p, In p A -> PyDict.lookup p (Clock.reference_bits s) = Some 1) /\
  (forall p, In p B -> PyDict.lookup p (Clock.reference_bits s) = Some 0) /\
  Clock.clock_hand s = PyList.len A mod PyList.len (A ++ B) /\
  (PyList.len (A ++ B) < Clock.num_frames s -> B = []).

(** A FIFO, LRU, LFU or Clock object that has only ever been called on
    faults, with growing times: its resident pages are those of [q], the
    order in which they were admitted; every recorded time is the time of
    admission, every count is 1. *)
Definition queue_like (a : PageReplacementAlgorithm.t) (now : Z) (q : list Z)
  : Prop :=
match a with
| PageReplacementAlgorithm.AlgFIFO s => FIFO.frames s = q /\ FIFO.queue s = q
| PageReplacementAlgorithm.AlgLRU s =>
    LRU.frames s = q /\ PyDict.keys (LRU.access_times s) = q /\
    increasing_times now (LRU.access_times s)
| PageReplacementAlgorithm.AlgLFU s =>
    LFU.frames s = q /\ PyDict.keys (LFU.access_counts s) = q /\
    Forall (fun c => c = 1) (PyDict.values (LFU.access_counts s)) /\
    PyDict.keys (LFU.access_times s) = q /\
    increasing_times now (LFU.access_times s)
| PageReplacementAlgorithm.AlgOptimal _ => False
| PageReplacementAlgorithm.AlgClock s => clock_queue s q
end.

(** ** demo.py *)

Module Demo.

(** The loop of the ['sequential'] pattern: [refs.extend(range(num_pages))],
    [n] times. *)
Fixpoint extend_ranges (n : nat) (num_pages : Z) (refs : list Z) : list Z :=
match n with
| O => refs
| S n' => extend_ranges n' num_pages (refs ++ PyList.range num_pages)
end.

(** [l[:k]] *)
Definition slice_to {A : Type} (l : list A) (k : Z) : list A :=
if 0 <=? k then firstn (Z.to_nat k) l
else firstn (Z.to_nat (PyList.len l + k)) l.

(** [generate_reference_string(length, num_pages, 'sequential')]; the
    other patterns draw from [random]. *)
Definition generate_sequential (length num_pages : Z) : result (list Z) :=
n <- floordiv length num_pages ;;
Ok (slice_to (extend_ranges (Z.to_nat (n + 1)) num_pages []) length).

End Demo.

(** The calls [run_trace] makes from index [i] on: the page at index
    [k] is translated at offset 0, as a write iff [k in write_operations]. *)
Fixpoint trace_calls (page_size i : Z) (reference_string write_operations : list Z)
  : list (Z * bool) :=
match reference_string with
| [] => []
| page_number :: rest =>
    (page_number * page_size, PyList.contains i write_operations)
    :: trace_calls page_size (i + 1) rest write_operations
end.

(** [fifo_simulator] after the reference string of [test_fifo_basic]
    with the reference at index 3, to page 4, a write. *)
Definition after_write_at_3 : VirtualMemorySimulator.t :=
returned_or fifo_simulator
  (VirtualMemorySimulator.run_trace fifo_simulator scenario_A (Some [3])).
(** * Properties *)

(** ** The exception monad *)

Lemma bind_Ok {A B : Type} (m : result A) (k : A -> result B) (b : B) :
  bind m k = Ok b -> exists a, m = Ok a /\ k a = Ok b.
Proof.
  destruct m as [a|e]; simpl; intros H.
  - exists a; split; [reflexivity | exact H].
  - discriminate H.
Qed.

Tactic Notation "inv_bind" hyp(H) "as" simple_intropattern(x) ident(Hx) :=
  apply bind_Ok in H; destruct H as (x & Hx & H); simpl in H.

(** ** Dictionaries *)

Lemma lookup_app_l {V : Type} (k : Z) (d d' : PyDict.t V) (v : V) :
  PyDict.lookup k d = Some v -> PyDict.lookup k (d ++ d') = Some v.
Proof.
  induction d as [|[k' v'] d IH]; simpl; [discriminate|].
  destruct (k' =? k); auto.
Qed.

Lemma lookup_app_r {V : Type} (k : Z) (d d' : PyDict.t V) :
  PyDict.lookup k d = None -> PyDict.lookup k (d ++ d') = PyDict.lookup k d'.
Proof.
  induction d as [|[k' v'] d IH]; simpl; [reflexivity|].
  destruct (k' =? k); [discriminate | auto].
Qed.

Lemma lookup_replace_same {V : Type} (k : Z) (v : V) (d : PyDict.t V) :
  PyDict.lookup k d <> None -> PyDict.lookup k (PyDict.replace k v d) = Some v.
Proof.
  induction d as [|[k' v'] d IH]; simpl; [congruence|].
  destruct (k' =? k) eqn:E; simpl; rewrite E; auto.
Qed.

Lemma lookup_replace_other {V : Type} (k k0 : Z) (v : V) (d : PyDict.t V) :
  k0 <> k -> PyDict.lookup k0 (PyDict.replace k v d) = PyDict.lookup k0 d.
Proof.
  intros Hne. induction d as [|[k' v'] d IH]; simpl; [reflexivity|].
  destruct (k' =? k) eqn:E; simpl.
  - apply Z.eqb_eq in E; subst k'.
    destruct (k =? k0) eqn:E0; [apply Z.eqb_eq in E0; congruence | reflexivity].
  - destruct (k' =? k0); auto.
Qed.

Lemma lookup_setitem_same {V : Type} (k : Z) (v : V) (d : PyDict.t V) :
  PyDict.lookup k (PyDict.setitem k v d) = Some v.
Proof.
  unfold PyDict.setitem, PyDict.contains.
  destruct (PyDict.lookup k d) eqn:E.
  - apply lookup_replace_same; congruence.
  - rewrite lookup_app_r by exact E. simpl. now rewrite Z.eqb_refl.
Qed.

Lemma lookup_setitem_other {V : Type} (k k0 : Z) (v : V) (d : PyDict.t V) :
  k0 <> k -> PyDict.lookup k0 (PyDict.setitem k v d) = PyDict.lookup k0 d.
Proof.
  intros Hne. unfold PyDict.setitem, PyDict.contains.
  destruct (PyDict.lookup k d) eqn:E.
  - now apply lookup_replace_other.
  - destruct (PyDict.lookup k0 d) eqn:E0.
    + now apply lookup_app_l.
    + rewrite lookup_app_r by exact E0. simpl.
      destruct (k =? k0) eqn:E1; [apply Z.eqb_eq in E1; congruence | reflexivity].
Qed.

Lemma lookup_remove_same {V : Type} (k : Z) (d : PyDict.t V) :
  NoDup (PyDict.keys d) -> PyDict.lookup k (PyDict.remove k d) = None.
Proof.
  induction d as [|[k' v'] d IH]; simpl; intros Hnd; [reflexivity|].
  inversion Hnd as [|? ? Hnin Hnd']; subst.
  destruct (k' =? k) eqn:E; simpl.
  - apply Z.eqb_eq in E; subst k'.
    destruct (PyDict.lookup k d) eqn:El; [|reflexivity].
    exfalso; apply Hnin. clear -El.
    induction d as [|[k1 v1] d IH]; simpl in *; [discriminate|].
    destruct (k1 =? k) eqn:E1; [left; now apply Z.eqb_eq | right; auto].
  - rewrite E. auto.
Qed.

Lemma lookup_remove_other {V : Type} (k k0 : Z) (d : PyDict.t V) :
  k0 <> k -> PyDict.lookup k0 (PyDict.remove k d) = PyDict.lookup k0 d.
Proof.
  intros Hne. induction d as [|[k' v'] d IH]; simpl; [reflexivity|].
  destruct (k' =? k) eqn:E; simpl.
  - apply Z.eqb_eq in E; subst k'.
    destruct (k =? k0) eqn:E0; [apply Z.eqb_eq in E0; congruence | reflexivity].
  - destruct (k' =? k0); auto.
Qed.

Lemma lookup_In {V : Type} (k : Z) (v : V) (d : PyDict.t V) :
  PyDict.lookup k d = Some v -> In (k, v) d.
Proof.
  induction d as [|[k' v'] d IH]; simpl; [discriminate|].
  destruct (k' =? k) eqn:E.
  - apply Z.eqb_eq in E; subst k'. intros H; injection H as ->. now left.
  - intros H; right; auto.
Qed.

Lemma In_lookup {V : Type} (k : Z) (v : V) (d : PyDict.t V) :
  NoDup (PyDict.keys d) -> In (k, v) d -> PyDict.lookup k d = Some v.
Proof.
  induction d as [|[k' v'] d IH]; simpl; intros Hnd Hin; [contradiction|].
  inversion Hnd as [|? ? Hnin Hnd']; subst.
  destruct Hin as [Heq | Hin].
  - injection Heq as -> ->. now rewrite Z.eqb_refl.
  - destruct (k' =? k) eqn:E.
    + apply Z.eqb_eq in E; subst k'. exfalso; apply Hnin.
      change k with (fst (k, v)). now apply in_map.
    + auto.
Qed.

Lemma lookup_keys {V : Type} (k : Z) (d : PyDict.t V) :
  In k (PyDict.keys d) <-> PyDict.lookup k d <> None.
Proof.
  induction d as [|[k' v'] d IH]; simpl.
  - split; [contradiction | congruence].
  - destruct (k' =? k) eqn:E.
    + apply Z.eqb_eq in E. split; [congruence | now left].
    + apply Z.eqb_neq in E. rewrite <- IH. split; [intros [?|?]; congruence || assumption | now right].
Qed.

(** ** Lists *)

Lemma contains_In (x : Z) (l : list Z) :
  PyList.contains x l = true <-> In x l.
Proof.
  induction l as [|y l IH]; simpl.
  - split; [discriminate | contradiction].
  - destruct (y =? x) eqn:E.
    + apply Z.eqb_eq in E. split; [now left | reflexivity].
    + apply Z.eqb_neq in E. rewrite IH. split; [now right | intros [?|?]; congruence || assumption].
Qed.

Lemma getitem_In {A : Type} (l : list A) (i : Z) (x : A) :
  PyList.getitem l i = Ok x -> In x l.
Proof.
  unfold PyList.getitem. destruct (PyList.norm l i) as [n|]; [|discriminate].
  destruct (nth_error l n) eqn:E; [|discriminate].
  intros H; injection H as ->. eapply nth_error_In; eauto.
Qed.

(** ** The translator, one call at a time *)

Lemma handle_page_fault_fields (s : VirtualMemorySimulator.t) (p : Z) (w : bool)
      (fr : Z) (s' : VirtualMemorySimulator.t) :
  VirtualMemorySimulator._handle_page_fault s p w = Ok (fr, s') ->
  VirtualMemorySimulator.page_size s' = VirtualMemorySimulator.page_size s /\
  VirtualMemorySimulator.num_pages s' = VirtualMemorySimulator.num_pages s /\
  VirtualMemorySimulator.num_frames s' = VirtualMemorySimulator.num_frames s /\
  VirtualMemorySimulator.current_time s' = VirtualMemorySimulator.current_time s /\
  VirtualMemorySimulator.page_faults s' = VirtualMemorySimulator.page_faults s /\
  VirtualMemorySimulator.memory_accesses s' = VirtualMemorySimulator.memory_accesses s.
Proof.
  unfold VirtualMemorySimulator._handle_page_fault. intros H.
  inv_bind H as [[o victim] alg] Ha.
  inv_bind H as [[[[f pt] tl] free] p2f] Hb.
  inv_bind H as pt' Hc. injection H as <- <-. simpl. repeat split; reflexivity.
Qed.

Lemma translate_address_inv (s : VirtualMemorySimulator.t) (va : Z) (w : bool)
      (pa : Z) (pf hit : bool) (s' : VirtualMemorySimulator.t) :
  VirtualMemorySimulator.translate_address s va w = Ok ((pa, pf, hit), s') ->
  VirtualMemorySimulator.page_size s <> 0 /\
  (exists frame, pa = frame * VirtualMemorySimulator.page_size s
                      + va mod VirtualMemorySimulator.page_size s) /\
  (pf = false ->
   VirtualMemorySimulator.algorithm s' = VirtualMemorySimulator.algorithm s).
Proof.
  unfold VirtualMemorySimulator.translate_address. intros H.
  inv_bind H as page Hpage. unfold floordiv in Hpage. simpl in Hpage.
  destruct (VirtualMemorySimulator.page_size s =? 0) eqn:Eps; [discriminate|].
  apply Z.eqb_neq in Eps. injection Hpage as <-.
  inv_bind H as offset Hoff. unfold pymod in Hoff; simpl in Hoff.
  destruct (VirtualMemorySimulator.page_size s =? 0); [discriminate Hoff|].
  injection Hoff as <-.
  inv_bind H as [looked tl] Hlook.
  inv_bind H as [[[fr pf0] hit0] s1] Hmid.
  inv_bind H as pt Hupd.
  split; [exact Eps|].
  destruct looked as [f|].
  - injection Hmid as <- <- <- <-. simpl in H. injection H as <- <- <- <-.
    split; [now exists f | reflexivity].
  - inv_bind Hmid as v Hv. inv_bind Hmid as [[fr2 pf2] s2] Hsub.
    inv_bind Hmid as tl2 Hins.
    injection Hmid as <- <- <- <-. simpl in H. injection H as <- <- <- <-.
    destruct (negb v).
    + inv_bind Hsub as [fr3 s3] Hh. injection Hsub as <- <- <-.
      apply handle_page_fault_fields in Hh. simpl in Hh.
      destruct Hh as (-> & _). split; [now exists fr3 | discriminate].
    + inv_bind Hsub as ofr Hg. destruct ofr as [z|]; [|discriminate].
      injection Hsub as <- <- <-.
      split; [now exists z | reflexivity].
Qed.

(** C8. Whatever the simulator state and the virtual address, the
    physical address [translate_address] returns has the offset of the
    virtual one: [physical_address mod page_size = virtual_address mod
    page_size]. *)
Theorem translate_address_preserves_offset
        (s : VirtualMemorySimulator.t) (virtual_address : Z) (is_write : bool)
        (physical_address : Z) (page_fault tlb_hit : bool)
        (s' : VirtualMemorySimulator.t) :
  VirtualMemorySimulator.translate_address s virtual_address is_write
    = Ok ((physical_address, page_fault, tlb_hit), s') ->
  physical_address mod VirtualMemorySimulator.page_size s
    = virtual_address mod VirtualMemorySimulator.page_size s.
Proof.
  intros H. apply translate_address_inv in H.
  destruct H as (Hps & (frame & ->) & _).
  rewrite Z.add_comm, Z.mod_add by exact Hps.
  apply Z.mod_mod. exact Hps.
Qed.

Lemma translate_address_preserves_offset_witness :
  8 mod 4096 = 8200 mod 4096.
Proof.
  apply (translate_address_preserves_offset fifo_simulator 8200 false 8 true false
           (state_after fifo_simulator [(8200, false)])).
  vm_compute. reflexivity.
Defined.

(** C9. A call of [translate_address] that reports no page fault (a TLB
    hit, or a TLB miss on a valid page-table entry) leaves the replacement
    policy object exactly as it was: frame list, queue, access times,
    access counts, reference bits, clock hand and Optimal cursor. *)
Theorem translate_address_no_fault_keeps_policy
        (s : VirtualMemorySimulator.t) (virtual_address : Z) (is_write : bool)
        (physical_address : Z) (tlb_hit : bool) (s' : VirtualMemorySimulator.t) :
  VirtualMemorySimulator.translate_address s virtual_address is_write
    = Ok ((physical_address, false, tlb_hit), s') ->
  VirtualMemorySimulator.algorithm s' = VirtualMemorySimulator.algorithm s.
Proof.
  intros H. apply translate_address_inv in H.
  destruct H as (_ & _ & Hkeep). now apply Hkeep.
Qed.

Lemma translate_address_no_fault_keeps_policy_witness :
  VirtualMemorySimulator.algorithm (state_after warm_simulator [(8200, false)])
  = VirtualMemorySimulator.algorithm warm_simulator.
Proof.
  apply (translate_address_no_fault_keeps_policy warm_simulator 8200 false 8 true).
  vm_compute. reflexivity.
Defined.

(** ** Construction *)

Lemma init_fresh (num_pages num_frames page_size tlb_size : Z) (name : string)
      (refs : option (list Z)) (alg : PageReplacementAlgorithm.t) :
  VirtualMemorySimulator.make_algorithm num_frames name refs = Ok alg ->
  VirtualMemorySimulator.init num_pages num_frames page_size tlb_size name refs
    = Ok (fresh num_pages num_frames page_size tlb_size alg name).
Proof.
  intros H. unfold VirtualMemorySimulator.init. rewrite H. reflexivity.
Qed.

Lemma make_algorithm_raises (n : Z) (name : string) (refs : option (list Z)) :
  (VirtualMemorySimulator.make_algorithm n name refs = Raise ValueError <->
   (name = "Optimal"%string /\ refs = None) \/ ~ known_algorithm name) /\
  (forall e, VirtualMemorySimulator.make_algorithm n name refs = Raise e ->
             e = ValueError).
Proof.
  unfold VirtualMemorySimulator.make_algorithm, known_algorithm.
  destruct (String.eqb_spec name "FIFO") as [->|N1].
  { split; [split|]; [discriminate | | discriminate].
    intros [[He _]|Hn]; [discriminate He | exfalso; apply Hn; auto]. }
  destruct (String.eqb_spec name "LRU") as [->|N2].
  { split; [split|]; [discriminate | | discriminate].
    intros [[He _]|Hn]; [discriminate He | exfalso; apply Hn; auto]. }
  destruct (String.eqb_spec name "LFU") as [->|N3].
  { split; [split|]; [discriminate | | discriminate].
    intros [[He _]|Hn]; [discriminate He | exfalso; apply Hn; auto]. }
  destruct (String.eqb_spec name "Optimal") as [->|N4].
  { destruct refs as [r|].
    - split; [split|]; [discriminate | | discriminate].
      intros [[_ He]|Hn]; [discriminate He | exfalso; apply Hn; auto 6].
    - split; [split|]; [intros _; left; auto | reflexivity | congruence]. }
  destruct (String.eqb_spec name "Clock") as [->|N5].
  { split; [split|]; [discriminate | | discriminate].
    intros [[He _]|Hn]; [discriminate He | exfalso; apply Hn; auto 6]. }
  split; [split|]; [| reflexivity | congruence].
  intros _. right. intros [?|[?|[?|[?|?]]]]; contradiction.
Qed.

(** C4, as the code has it.  Construction raises [ValueError], and
    nothing else, exactly when the policy name is ["Optimal"] and no
    reference string is given, or the name is none of the five; in every
    other case it returns a simulator, whatever [num_pages], [num_frames],
    [page_size] and [tlb_size] are. *)
Theorem init_raises_iff (num_pages num_frames page_size tlb_size : Z)
        (name : string) (refs : option (list Z)) :
  (VirtualMemorySimulator.init num_pages num_frames page_size tlb_size name refs
   = Raise ValueError <->
   (name = "Optimal"%string /\ refs = None) \/ ~ known_algorithm name) /\
  (forall e, VirtualMemorySimulator.init num_pages num_frames page_size
               tlb_size name refs = Raise e -> e = ValueError) /\
  ((exists s, VirtualMemorySimulator.init num_pages num_frames page_size
                tlb_size name refs = Ok s) <->
   ~ ((name = "Optimal"%string /\ refs = None) \/ ~ known_algorithm name)).
Proof.
  destruct (make_algorithm_raises num_frames name refs) as (Hm & Honly).
  unfold VirtualMemorySimulator.init.
  destruct (VirtualMemorySimulator.make_algorithm num_frames name refs)
    as [alg|e] eqn:E; simpl.
  - assert (Hno : ~ ((name = "Optimal"%string /\ refs = None) \/ ~ known_algorithm name)).
    { intros Hc. apply Hm in Hc. discriminate Hc. }
    split; [split|split; [|split]].
    + discriminate.
    + intros Hc. contradiction.
    + discriminate.
    + intros _. exact Hno.
    + intros _. eexists; reflexivity.
  - assert (He : e = ValueError) by (now apply Honly). subst e.
    assert (Hyes : (name = "Optimal"%string /\ refs = None) \/ ~ known_algorithm name).
    { now apply Hm. }
    split; [split|split; [|split]].
    + intros _. exact Hyes.
    + reflexivity.
    + congruence.
    + intros [s Hs]; discriminate Hs.
    + intros Hc. contradiction.
Qed.

(** C4, as the specification has it, fails: more frames than pages, and
    sizes that are zero or negative, are accepted. *)
Lemma init_accepts_unchecked_sizes :
  5 > 2 /\
  is_ok (VirtualMemorySimulator.init 2 5 4096 4 "FIFO" None) = true /\
  is_ok (VirtualMemorySimulator.init 0 0 0 0 "LRU" None) = true /\
  is_ok (VirtualMemorySimulator.init (-1) (-1) (-1) (-1) "Clock" None) = true.
Proof. vm_compute. repeat split. Qed.

(** ** Concrete runs *)

(** [test_fifo_basic]: ten pages, three frames, pages of 4096 bytes,
    four TLB entries; the assertion of the test holds. *)
Example test_fifo_basic_passes :
  simulate_faults 10 3 4096 4 "FIFO" None scenario_A = Ok 9.
Proof. vm_compute. reflexivity. Qed.

(** C2 fails on the code.  [access_page] is only called from the fault
    handler, so [current_index] counts faults, not references, and
    [get_victim] looks for the next use from a position in the past.  On
    [0,1,0,2,1] with two frames the fault at page 2 searches from index 2,
    finds page 0 there and page 1 at index 4, and evicts page 1: four
    faults, where FIFO, LRU, LFU and Clock have three. *)
Theorem optimal_exceeds_other_policies :
  simulate_faults 10 2 4096 4 "Optimal" (Some lagging_trace) lagging_trace = Ok 4 /\
  simulate_faults 10 2 4096 4 "FIFO" None lagging_trace = Ok 3 /\
  simulate_faults 10 2 4096 4 "LRU" None lagging_trace = Ok 3 /\
  simulate_faults 10 2 4096 4 "LFU" None lagging_trace = Ok 3 /\
  simulate_faults 10 2 4096 4 "Clock" None lagging_trace = Ok 3.
Proof. vm_compute. repeat split. Qed.

(** Called on every reference, the same [Optimal] object keeps its cursor
    on the current position and has three faults on that trace. *)
Example optimal_driven_on_every_reference :
  drive (PageReplacementAlgorithm.AlgOptimal (Optimal.init 2 lagging_trace))
        1 lagging_trace = Ok 3.
Proof. vm_compute. reflexivity. Qed.

(** C5 fails on the code.  Address -1 is page -1, outside [0, 10); the
    page table indexes its list with it, Python reads the last entry,
    and the call returns a translation (a fault served from frame 0)
    instead of raising; the entry it marked valid is that of page 9. *)
Theorem negative_page_is_translated :
  (-1) / VirtualMemorySimulator.page_size fifo_simulator = -1 /\
  returned fifo_simulator [(-1, false)] = Ok [(4095, true, false)] /\
  PageTable.is_valid
    (VirtualMemorySimulator.page_table (state_after fifo_simulator [(-1, false)])) 9
  = Ok true.
Proof. vm_compute. repeat split. Qed.

(** C1 fails on the code.  With one frame: page -1 is loaded (it shares
    the entry of page 9), page 9 is then found valid and cached in the TLB,
    page 5 evicts page -1 and invalidates the shared entry, and the last
    call hits the stale TLB entry of page 9: it returns frame 0 while the
    page table says page 9 is not valid. *)
Theorem stale_translation_after_negative_page :
  returned one_frame_simulator aliasing_calls
  = Ok [(4095, true, false); (0, false, false); (0, true, false); (0, false, true)] /\
  PageTable.is_valid
    (VirtualMemorySimulator.page_table
       (state_after one_frame_simulator aliasing_calls)) 9 = Ok false /\
  PyDict.lookup 9
    (TLB.cache (VirtualMemorySimulator.tlb
                  (state_after one_frame_simulator aliasing_calls))) = Some 0.
Proof. vm_compute. repeat split. Qed.

(** C3 fails on the code.  After the first three of those calls page 9
    is resident in no sense (not in [page_to_frame], not in the policy's
    [frames], not valid in the page table), and the call on it reports no
    page fault. *)
Theorem no_fault_on_absent_page :
  PyDict.contains 9
    (VirtualMemorySimulator.page_to_frame
       (state_after one_frame_simulator (firstn 3 aliasing_calls))) = false /\
  PageReplacementAlgorithm.is_page_in_memory
    (VirtualMemorySimulator.algorithm
       (state_after one_frame_simulator (firstn 3 aliasing_calls))) 9 = false /\
  PageTable.is_valid
    (VirtualMemorySimulator.page_table
       (state_after one_frame_simulator (firstn 3 aliasing_calls))) 9 = Ok false /\
  returned (state_after one_frame_simulator (firstn 3 aliasing_calls))
           [(36864, false)]
  = Ok [(0, false, true)].
Proof. vm_compute. repeat split. Qed.
(** ** Clock: the victim search terminates *)

Lemma filter_length_lt {A : Type} (f g : A -> bool) (a : A) (l : list A) :
  (forall x, In x l -> g x = true -> f x = true) ->
  In a l -> f a = true -> g a = false ->
  (List.length (filter g l) < List.length (filter f l))%nat.
Proof.
  induction l as [|x l IH]; simpl; intros Hmono Hin Hfa Hga; [contradiction|].
  assert (Hle : forall l', (forall x, In x l' -> g x = true -> f x = true) ->
                (List.length (filter g l') <= List.length (filter f l'))%nat).
  { clear. induction l' as [|y l' IH]; simpl; intros Hm; [lia|].
    specialize (IH (fun x Hx => Hm x (or_intror Hx))).
    destruct (g y) eqn:Eg.
    - rewrite (Hm y (or_introl eq_refl) Eg). simpl. lia.
    - destruct (f y); simpl; lia. }
  destruct Hin as [-> | Hin].
  - rewrite Hfa, Hga. simpl.
    specialize (Hle l (fun x Hx => Hmono x (or_intror Hx))). lia.
  - specialize (IH (fun x Hx => Hmono x (or_intror Hx)) Hin Hfa Hga).
    destruct (g x) eqn:Eg.
    + rewrite (Hmono x (or_introl eq_refl) Eg). simpl. lia.
    + destruct (f x); simpl; lia.
Qed.

Lemma pending_decreases (s : Clock.t) (page b hand : Z) :
  In page (Clock.frames s) ->
  PyDict.lookup page (Clock.reference_bits s) = Some b -> b <> 0 ->
  (pending (Clock.mk (Clock.num_frames s) (Clock.frames s)
              (PyDict.setitem page 0%Z (Clock.reference_bits s)) hand)
   < pending s)%nat.
Proof.
  intros Hin Hb Hnz. unfold pending; simpl.
  apply filter_length_lt with (a := page); auto.
  - intros x _ Hg. unfold bit_pending in *.
    destruct (Z.eq_dec x page) as [->|Hne].
    + rewrite lookup_setitem_same in Hg. discriminate Hg.
    + rewrite lookup_setitem_other in Hg by exact Hne. exact Hg.
  - unfold bit_pending. rewrite Hb. destruct b; congruence.
  - unfold bit_pending. now rewrite lookup_setitem_same.
Qed.

Lemma dict_getitem_Ok {V : Type} (k : Z) (d : PyDict.t V) (v : V) :
  PyDict.getitem k d = Ok v <-> PyDict.lookup k d = Some v.
Proof.
  unfold PyDict.getitem. destruct (PyDict.lookup k d); split; congruence.
Qed.

(** No state makes the loop run longer than its pending slots allow:
    the dead branch of [Clock.get_victim] is dead. *)
Lemma Clock_get_victim_loop_total (fuel : nat) (s : Clock.t) :
  (pending s < fuel)%nat -> Clock.get_victim_loop fuel s <> None.
Proof.
  revert s. induction fuel as [|fuel IH]; intros s Hlt; [lia|].
  simpl.
  destruct (PyList.getitem (Clock.frames s) (Clock.clock_hand s)) as [page|e] eqn:Eg;
    [|discriminate].
  destruct (PyDict.getitem page (Clock.reference_bits s)) as [b|e] eqn:Eb;
    [|discriminate].
  destruct (pymod (Clock.clock_hand s + 1) (PyList.len (Clock.frames s)))
    as [hand|e]; [|discriminate].
  destruct (b =? 0) eqn:E0; [discriminate|].
  apply IH. apply Z.eqb_neq in E0.
  apply getitem_In in Eg. apply dict_getitem_Ok in Eb.
  pose proof (pending_decreases s page b hand Eg Eb E0). lia.
Qed.

Lemma pending_le_frames (s : Clock.t) :
  (pending s <= List.length (Clock.frames s))%nat.
Proof. unfold pending. apply filter_length_le. Qed.

Lemma Clock_get_victim_fuel_enough (s : Clock.t) :
  Clock.get_victim_loop (S (List.length (Clock.frames s))) s <> None.
Proof.
  apply Clock_get_victim_loop_total. pose proof (pending_le_frames s). lia.
Qed.

Lemma Clock_get_victim_loop_mono (fuel fuel' : nat) (s : Clock.t)
      (r : result (Z * Clock.t)) :
  Clock.get_victim_loop fuel s = Some r -> (fuel <= fuel')%nat ->
  Clock.get_victim_loop fuel' s = Some r.
Proof.
  revert fuel' s. induction fuel as [|fuel IH]; intros fuel' s H Hle;
    [discriminate H|].
  destruct fuel' as [|fuel']; [lia|]. simpl in *.
  destruct (PyList.getitem (Clock.frames s) (Clock.clock_hand s)); [|exact H].
  destruct (PyDict.getitem a (Clock.reference_bits s)); [|exact H].
  destruct (pymod (Clock.clock_hand s + 1) (PyList.len (Clock.frames s)));
    [|exact H].
  destruct (a0 =? 0); [exact H|]. apply IH; [exact H | lia].
Qed.

Lemma list_getitem_in_range {A : Type} (l : list A) (i : Z) :
  0 <= i < PyList.len l -> exists x, PyList.getitem l i = Ok x.
Proof.
  intros Hi. unfold PyList.getitem, PyList.norm.
  destruct (0 <=? i) eqn:E1; [|apply Z.leb_gt in E1; lia].
  destruct (i <? PyList.len l) eqn:E2; [|apply Z.ltb_ge in E2; lia].
  simpl. unfold PyList.len in Hi.
  destruct (nth_error l (Z.to_nat i)) eqn:En; [eexists; reflexivity|].
  apply nth_error_None in En. lia.
Qed.

Lemma Clock_get_victim_loop_finds (fuel : nat) (s : Clock.t) :
  Clock_ready s -> (pending s < fuel)%nat ->
  exists v s',
    Clock.get_victim_loop fuel s = Some (Ok (v, s')) /\
    In v (Clock.frames s) /\ Clock.frames s' = Clock.frames s /\
    PyDict.lookup v (Clock.reference_bits s') = Some 0 /\
    0 <= Clock.clock_hand s' < PyList.len (Clock.frames s).
Proof.
  revert s. induction fuel as [|fuel IH]; intros s Hr Hlt; [lia|].
  destruct Hr as [Hne Hhand Hbits]. simpl.
  destruct (list_getitem_in_range _ _ Hhand) as [page Eg]. rewrite Eg.
  pose proof (getitem_In _ _ _ Eg) as Hin.
  specialize (Hbits page Hin) as Hc. unfold PyDict.contains in Hc.
  unfold PyDict.getitem.
  destruct (PyDict.lookup page (Clock.reference_bits s)) as [b|] eqn:Eb;
    [|discriminate Hc].
  unfold pymod.
  destruct (PyList.len (Clock.frames s) =? 0) eqn:El;
    [apply Z.eqb_eq in El; lia|].
  assert (Hh' : 0 <= (Clock.clock_hand s + 1) mod PyList.len (Clock.frames s)
                < PyList.len (Clock.frames s))
    by (apply Z.mod_pos_bound; lia).
  destruct (b =? 0) eqn:E0.
  - apply Z.eqb_eq in E0; subst b.
    eexists; eexists. split; [reflexivity|]. simpl. auto.
  - apply Z.eqb_neq in E0.
    pose proof (pending_decreases s page b
                  ((Clock.clock_hand s + 1) mod PyList.len (Clock.frames s))
                  Hin Eb E0) as Hdec.
    destruct (IH (Clock.mk (Clock.num_frames s) (Clock.frames s)
                    (PyDict.setitem page 0 (Clock.reference_bits s))
                    ((Clock.clock_hand s + 1) mod PyList.len (Clock.frames s))))
      as (v & s' & Hrun & Hv & Hfr & Hbit & Hh).
    + constructor; simpl; auto.
      intros p Hp. unfold PyDict.contains.
      destruct (Z.eq_dec p page) as [->|Hneq].
      * now rewrite lookup_setitem_same.
      * rewrite lookup_setitem_other by exact Hneq. apply (Hbits p Hp).
    + lia.
    + exists v, s'. simpl in *. auto.
Qed.

(** C10. From a Clock state whose frame list is not empty, whose hand
    is a valid index into it and whose resident pages all have a reference
    bit, [get_victim] returns a victim within [2 * len(frames)] iterations
    of its loop: every iteration that does not return clears a bit. *)
Theorem Clock_get_victim_terminates (s : Clock.t) :
  Clock.frames s <> [] ->
  0 <= Clock.clock_hand s < PyList.len (Clock.frames s) ->
  (forall p, In p (Clock.frames s) ->
             PyDict.contains p (Clock.reference_bits s) = true) ->
  exists v s',
    Clock.get_victim_loop (2 * List.length (Clock.frames s)) s = Some (Ok (v, s')) /\
    Clock.get_victim s = Ok (v, s') /\
    In v (Clock.frames s).
Proof.
  intros Hne Hhand Hbits.
  assert (Hr : Clock_ready s) by (constructor; assumption).
  pose proof (pending_le_frames s) as Hp.
  destruct (Clock_get_victim_loop_finds (S (List.length (Clock.frames s))) s Hr)
    as (v & s' & Hrun & Hv & _); [lia|].
  exists v, s'. split; [|split].
  - apply Clock_get_victim_loop_mono with (fuel := S (List.length (Clock.frames s)));
      [exact Hrun|].
    destruct (Clock.frames s); [congruence | simpl; lia].
  - unfold Clock.get_victim. now rewrite Hrun.
  - exact Hv.
Qed.

Lemma Clock_get_victim_terminates_witness :
  exists v s',
    Clock.get_victim_loop (2 * List.length (Clock.frames clock_full)) clock_full
      = Some (Ok (v, s')) /\
    Clock.get_victim clock_full = Ok (v, s') /\
    In v (Clock.frames clock_full).
Proof.
  apply (Clock_get_victim_terminates clock_full).
  - discriminate.
  - vm_compute. split; [discriminate | reflexivity].
  - simpl. intros p [<-|[<-|[<-|[]]]]; reflexivity.
Defined.

(** ** LFU: the victim and the admission count *)

Section MinBy.

Context {A : Type} (f : A -> result Z).

Lemma min_from_spec (l : list A) (best : A) (kbest : Z) :
  f best = Ok kbest ->
  (forall x, In x l -> exists k, f x = Ok k) ->
  exists r kr,
    PyList.min_from f best kbest l = Ok r /\ f r = Ok kr /\
    In r (best :: l) /\ kr <= kbest /\
    (forall x kx, In x l -> f x = Ok kx -> kr <= kx).
Proof.
  revert best kbest. induction l as [|x l IH]; intros best kbest Hb Hall; simpl.
  - exists best, kbest. repeat split; auto; try lia; try (intros ? ? []).
  - destruct (Hall x (or_introl eq_refl)) as [kx Hkx]. rewrite Hkx. simpl.
    assert (Hall' : forall y, In y l -> exists k, f y = Ok k)
      by (intros y Hy; apply Hall; now right).
    destruct (kx <? kbest) eqn:E.
    + apply Z.ltb_lt in E.
      destruct (IH x kx Hkx Hall') as (r & kr & Hr & Hfr & Hin & Hle & Hmin).
      exists r, kr.
      split; [exact Hr|]. split; [exact Hfr|].
      split; [destruct Hin as [<-|Hin]; [right; now left | right; now right]|].
      split; [lia|].
      intros y ky [<-|Hy] Hfy; [|eauto].
      rewrite Hkx in Hfy; injection Hfy as <-; lia.
    + apply Z.ltb_ge in E.
      destruct (IH best kbest Hb Hall') as (r & kr & Hr & Hfr & Hin & Hle & Hmin).
      exists r, kr.
      split; [exact Hr|]. split; [exact Hfr|].
      split; [destruct Hin as [<-|Hin]; [now left | right; now right]|].
      split; [lia|].
      intros y ky [<-|Hy] Hfy; [|eauto].
      rewrite Hkx in Hfy; injection Hfy as <-; lia.
Qed.

Lemma min_by_spec (l : list A) :
  l <> [] ->
  (forall x, In x l -> exists k, f x = Ok k) ->
  exists r kr,
    PyList.min_by f l = Ok r /\ f r = Ok kr /\ In r l /\
    (forall x kx, In x l -> f x = Ok kx -> kr <= kx).
Proof.
  destruct l as [|x l]; [congruence|]. intros _ Hall. simpl.
  destruct (Hall x (or_introl eq_refl)) as [kx Hkx]. rewrite Hkx. simpl.
  destruct (min_from_spec l x kx Hkx) as (r & kr & Hr & Hfr & Hin & Hle & Hmin).
  { intros y Hy; apply Hall; now right. }
  exists r, kr.
  split; [exact Hr|]. split; [exact Hfr|]. split; [exact Hin|].
  intros y ky [<-|Hy] Hfy; [|eauto].
  rewrite Hkx in Hfy; injection Hfy as <-; lia.
Qed.

End MinBy.

Lemma values_In {V : Type} (d : PyDict.t V) (v : V) :
  In v (PyDict.values d) <-> exists k, In (k, v) d.
Proof.
  unfold PyDict.values. rewrite in_map_iff. split.
  - intros ([k v'] & Hv & Hin). simpl in Hv. subst v'. now exists k.
  - intros (k & Hin). exists (k, v). auto.
Qed.

Lemma candidates_In (counts : PyDict.t Z) (m p : Z) :
  NoDup (PyDict.keys counts) ->
  In p (LFU.candidates counts m) <-> PyDict.lookup p counts = Some m.
Proof.
  intros Hnd. unfold LFU.candidates. rewrite in_map_iff. split.
  - intros ([k c] & Hk & Hin). simpl in Hk. subst k.
    apply filter_In in Hin. destruct Hin as (Hin & Hc). simpl in Hc.
    apply Z.eqb_eq in Hc. subst c. now apply In_lookup.
  - intros Hl. exists (p, m). split; [reflexivity|].
    apply filter_In. split; [now apply lookup_In | simpl; apply Z.eqb_refl].
Qed.

Lemma min_values_spec (counts : PyDict.t Z) :
  counts <> [] ->
  exists m, PyList.min (PyDict.values counts) = Ok m /\
            In m (PyDict.values counts) /\
            forall c, In c (PyDict.values counts) -> m <= c.
Proof.
  intros Hne. unfold PyList.min.
  destruct (min_by_spec (fun x => Ok x) (PyDict.values counts))
    as (m & km & Hm & Hfm & Hin & Hmin).
  - destruct counts; [congruence | discriminate].
  - intros x _. now exists x.
  - injection Hfm as <-. exists m. split; [exact Hm|]. split; [exact Hin|].
    intros c Hc. now apply (Hmin c c).
Qed.

Lemma LFU_get_victim_spec (s : LFU.t) :
  LFU_consistent s -> LFU.frames s <> [] ->
  exists v, LFU.get_victim s = Ok v /\ LFU_victim s v.
Proof.
  intros [Hfnd Hcnd Htnd Hcf Htf] Hne.
  assert (Hcne : LFU.access_counts s <> []).
  { destruct (LFU.frames s) as [|p0 fr] eqn:Ef; [congruence|].
    pose proof (proj1 (Hcf p0) (or_introl eq_refl)) as Hp0.
    intros Hc. rewrite Hc in Hp0. now apply Hp0. }
  destruct (min_values_spec _ Hcne) as (m & Hmin & Hmin_in & Hmin_le).
  unfold LFU.get_victim. rewrite Hmin. simpl.
  assert (Hcount_le : forall p c,
             PyDict.lookup p (LFU.access_counts s) = Some c -> m <= c).
  { intros p c Hl. apply Hmin_le. apply values_In. exists p. now apply lookup_In. }
  assert (Hcand : forall p, In p (LFU.candidates (LFU.access_counts s) m) ->
             In p (LFU.frames s) /\
             PyDict.lookup p (LFU.access_counts s) = Some m /\
             exists tp, PyDict.lookup p (LFU.access_times s) = Some tp).
  { intros p Hp. apply candidates_In in Hp; [|exact Hcnd].
    assert (Hpf : In p (LFU.frames s)) by (apply Hcf; congruence).
    split; [exact Hpf|]. split; [exact Hp|].
    apply Htf in Hpf. destruct (PyDict.lookup p (LFU.access_times s)) as [tp|];
      [now exists tp | congruence]. }
  assert (Hcands_ne : LFU.candidates (LFU.access_counts s) m <> []).
  { apply values_In in Hmin_in. destruct Hmin_in as (pm & Hpm).
    apply In_lookup in Hpm; [|exact Hcnd].
    apply (candidates_In _ _ _ Hcnd) in Hpm. intros Hc. rewrite Hc in Hpm.
    exact Hpm. }
  destruct (LFU.candidates (LFU.access_counts s) m) as [|p [|q rest]] eqn:Ec.
  - congruence.
  - exists p. split; [reflexivity|].
    destruct (Hcand p (or_introl eq_refl)) as (Hpf & Hpc & tp & Hpt).
    split; [exact Hpf|]. exists m, tp.
    split; [exact Hpc|]. split; [exact Hpt|]. split.
    + intros p' c _ Hl. eapply Hcount_le; eauto.
    + intros p' tp' _ Hc' Ht'.
      apply (candidates_In _ _ _ Hcnd) in Hc'. rewrite Ec in Hc'.
      destruct Hc' as [<-|[]]. rewrite Hpt in Ht'. injection Ht' as <-. lia.
  - destruct (min_by_spec (fun p => PyDict.getitem p (LFU.access_times s))
                (p :: q :: rest)) as (r & kr & Hr & Hfr & Hin & Hrmin).
    + discriminate.
    + intros x Hx. destruct (Hcand x Hx) as (_ & _ & tx & Htx).
      exists tx. now apply dict_getitem_Ok.
    + exists r. split; [exact Hr|].
      destruct (Hcand r Hin) as (Hrf & Hrc & tr & Hrt).
      apply dict_getitem_Ok in Hfr. rewrite Hrt in Hfr. injection Hfr as <-.
      split; [exact Hrf|]. exists m, tr.
      split; [exact Hrc|]. split; [exact Hrt|]. split.
      * intros p' c _ Hl. eapply Hcount_le; eauto.
      * intros p' tp' _ Hc' Ht'.
        apply (candidates_In _ _ _ Hcnd) in Hc'. rewrite Ec in Hc'.
        apply (Hrmin p' tp' Hc'). now apply dict_getitem_Ok.
Qed.

Lemma remove_first_In (x : Z) (l : list Z) :
  In x l -> exists l', PyList.remove_first x l = Some l'.
Proof.
  induction l as [|y l IH]; simpl; intros Hin; [contradiction|].
  destruct (y =? x) eqn:E; [eexists; reflexivity|].
  apply Z.eqb_neq in E. destruct Hin as [?|Hin]; [congruence|].
  destruct (IH Hin) as [l' ->]. eexists; reflexivity.
Qed.

Lemma dict_contains_true {V : Type} (k : Z) (d : PyDict.t V) (v : V) :
  PyDict.lookup k d = Some v -> PyDict.contains k d = true.
Proof. unfold PyDict.contains. now intros ->. Qed.

Lemma LFU_consistent_of_keys (s : LFU.t) :
  NoDup (LFU.frames s) ->
  PyDict.keys (LFU.access_counts s) = LFU.frames s ->
  PyDict.keys (LFU.access_times s) = LFU.frames s ->
  LFU_consistent s.
Proof.
  intros Hnd Hc Ht. constructor.
  - exact Hnd.
  - now rewrite Hc.
  - now rewrite Ht.
  - intros p. rewrite <- Hc. apply lookup_keys.
  - intros p. rewrite <- Ht. apply lookup_keys.
Qed.

(** C6. In a consistent LFU state, an access to a page that is not
    resident is a fault; when the frames are full (and there is at least
    one), the victim it returns is a resident page of least access count
    and, among the resident pages of that count, of least last-access
    time; and in both cases the count of the admitted page is set to 0 and
    incremented by the same call, so it is 1 after it. *)
Theorem LFU_fault_victim_and_count (s : LFU.t) (page time : Z) (is_write : bool) :
  LFU_consistent s ->
  0 < LFU.num_frames s ->
  LFU.is_page_in_memory s page = false ->
  (PyList.len (LFU.frames s) < LFU.num_frames s ->
   exists s',
     LFU.access_page s page time is_write = Ok ((true, None), s') /\
     PyDict.lookup page (LFU.access_counts s') = Some 1) /\
  (LFU.num_frames s <= PyList.len (LFU.frames s) ->
   exists v s',
     LFU.access_page s page time is_write = Ok ((true, Some v), s') /\
     LFU_victim s v /\
     PyDict.lookup page (LFU.access_counts s') = Some 1).
Proof.
  intros Hc Hpos Hmem. unfold LFU.access_page. rewrite Hmem. simpl. split.
  - intros Hlt. apply Z.leb_gt in Hlt. rewrite Hlt. simpl.
    unfold PyDict.getitem. rewrite lookup_setitem_same. simpl.
    eexists. split; [reflexivity|]. simpl. apply lookup_setitem_same.
  - intros Hfull.
    assert (Hne : LFU.frames s <> []).
    { intros E. rewrite E in Hfull. unfold PyList.len in Hfull. simpl in Hfull. lia. }
    apply Z.leb_le in Hfull. rewrite Hfull.
    destruct (LFU_get_victim_spec s Hc Hne) as (v & Hv & Hvic).
    rewrite Hv. simpl.
    destruct Hvic as (Hin & cv & tv & Hcv & Htv & Hrest).
    unfold PyList.remove. destruct (remove_first_In v _ Hin) as [fr Hfr].
    rewrite Hfr. simpl.
    unfold PyDict.delitem.
    rewrite (dict_contains_true _ _ _ Hcv), (dict_contains_true _ _ _ Htv). simpl.
    unfold PyDict.getitem. rewrite lookup_setitem_same. simpl.
    exists v. eexists. split; [reflexivity|]. split.
    + split; [exact Hin|]. exists cv, tv. auto.
    + simpl. apply lookup_setitem_same.
Qed.

Lemma LFU_fault_victim_and_count_witness :
  (PyList.len (LFU.frames lfu_full) < LFU.num_frames lfu_full ->
   exists s',
     LFU.access_page lfu_full 4 7 false = Ok ((true, None), s') /\
     PyDict.lookup 4 (LFU.access_counts s') = Some 1) /\
  (LFU.num_frames lfu_full <= PyList.len (LFU.frames lfu_full) ->
   exists v s',
     LFU.access_page lfu_full 4 7 false = Ok ((true, Some v), s') /\
     LFU_victim lfu_full v /\
     PyDict.lookup 4 (LFU.access_counts s') = Some 1).
Proof.
  apply (LFU_fault_victim_and_count lfu_full 4 7 false).
  - apply LFU_consistent_of_keys; [|reflexivity|reflexivity].
    simpl. repeat constructor; simpl; intuition lia.
  - reflexivity.
  - reflexivity.
Defined.

Example LFU_tie_broken_by_age :
  exists s', LFU.access_page lfu_full 4 7 false = Ok ((true, Some 2), s') /\
             LFU.frames s' = [1; 3; 4] /\
             LFU.access_counts s' = [(1, 3); (3, 1); (4, 1)].
Proof. eexists. split; [reflexivity|]. split; reflexivity. Qed.

(** *** Consistency is an invariant of the LFU object *)

Lemma keys_replace {V : Type} (k : Z) (v : V) (d : PyDict.t V) :
  PyDict.keys (PyDict.replace k v d) = PyDict.keys d.
Proof.
  induction d as [|[k' v'] d IH]; simpl; [reflexivity|].
  destruct (k' =? k); simpl; [reflexivity | now rewrite IH].
Qed.

Lemma NoDup_snoc {A : Type} (x : A) (l : list A) :
  NoDup l -> ~ In x l -> NoDup (l ++ [x]).
Proof.
  induction l as [|y l IH]; simpl; intros Hnd Hnin.
  - constructor; [intros [] | constructor].
  - inversion Hnd as [|? ? Hy Hnd']; subst. constructor.
    + rewrite in_app_iff. simpl. intros [?|[?|[]]]; [contradiction|].
      apply Hnin. now left.
    + apply IH; [exact Hnd' | intros H; apply Hnin; now right].
Qed.

Lemma keys_setitem_nodup {V : Type} (k : Z) (v : V) (d : PyDict.t V) :
  NoDup (PyDict.keys d) -> NoDup (PyDict.keys (PyDict.setitem k v d)).
Proof.
  intros Hnd. unfold PyDict.setitem, PyDict.contains.
  destruct (PyDict.lookup k d) eqn:E.
  - now rewrite keys_replace.
  - unfold PyDict.keys. rewrite map_app. simpl. apply NoDup_snoc; [exact Hnd|].
    intros Hin. apply lookup_keys in Hin. congruence.
Qed.

Lemma keys_remove_incl {V : Type} (k p : Z) (d : PyDict.t V) :
  In p (PyDict.keys (PyDict.remove k d)) -> In p (PyDict.keys d).
Proof.
  induction d as [|[k' v'] d IH]; simpl; [auto|].
  destruct (k' =? k); simpl; [now right|].
  intros [?|?]; [now left | right; auto].
Qed.

Lemma keys_remove_nodup {V : Type} (k : Z) (d : PyDict.t V) :
  NoDup (PyDict.keys d) -> NoDup (PyDict.keys (PyDict.remove k d)).
Proof.
  induction d as [|[k' v'] d IH]; simpl; intros Hnd; [constructor|].
  inversion Hnd as [|? ? Hnin Hnd']; subst.
  destruct (k' =? k); simpl; [exact Hnd'|].
  constructor; [|now apply IH].
  intros Hin. apply Hnin. eapply keys_remove_incl; eauto.
Qed.

Lemma lookup_setitem_iff {V : Type} (k p : Z) (v : V) (d : PyDict.t V) :
  PyDict.lookup p (PyDict.setitem k v d) <> None <->
  p = k \/ PyDict.lookup p d <> None.
Proof.
  destruct (Z.eq_dec p k) as [->|Hne].
  - rewrite lookup_setitem_same. split; [now left | congruence].
  - rewrite lookup_setitem_other by exact Hne.
    split; [now right | intros [?|?]; [contradiction | assumption]].
Qed.

Lemma lookup_remove_iff {V : Type} (k p : Z) (d : PyDict.t V) :
  NoDup (PyDict.keys d) ->
  PyDict.lookup p (PyDict.remove k d) <> None <->
  p <> k /\ PyDict.lookup p d <> None.
Proof.
  intros Hnd. destruct (Z.eq_dec p k) as [->|Hne].
  - rewrite lookup_remove_same by exact Hnd. split; [congruence | intros [? _]; congruence].
  - rewrite lookup_remove_other by exact Hne. split; [now split | now intros [_ ?]].
Qed.

Lemma remove_first_spec (x : Z) (l l' : list Z) :
  NoDup l -> PyList.remove_first x l = Some l' ->
  NoDup l' /\ forall y, In y l' <-> y <> x /\ In y l.
Proof.
  revert l'. induction l as [|a l IH]; simpl; intros l' Hnd H; [discriminate|].
  inversion Hnd as [|? ? Hnin Hnd']; subst.
  destruct (a =? x) eqn:E.
  - apply Z.eqb_eq in E; subst a. injection H as <-. split; [exact Hnd'|].
    intros y. split.
    + intros Hy. split; [intros ->; contradiction | now right].
    + intros [Hne [?|?]]; [congruence | assumption].
  - apply Z.eqb_neq in E.
    destruct (PyList.remove_first x l) as [r|] eqn:Er; [|discriminate].
    injection H as <-. destruct (IH r Hnd' eq_refl) as (Hr & Hiff). split.
    + constructor; [|exact Hr]. intros Hin. apply Hiff in Hin. tauto.
    + intros y. simpl. rewrite Hiff. split.
      * intros [<-|[? ?]]; [split; [exact E | now left] | split; [assumption | now right]].
      * intros [Hne [?|?]]; [now left | right; now split].
Qed.

Lemma LFU_init_consistent (n : Z) : LFU_consistent (LFU.init n).
Proof.
  apply LFU_consistent_of_keys; simpl; [constructor | reflexivity | reflexivity].
Qed.

Lemma contains_false (x : Z) (l : list Z) :
  PyList.contains x l = false <-> ~ In x l.
Proof.
  rewrite <- contains_In. destruct (PyList.contains x l); split; congruence.
Qed.

Lemma LFU_access_page_consistent (s : LFU.t) (page time : Z) (is_write : bool)
      (r : access_result) (s' : LFU.t) :
  LFU_consistent s ->
  LFU.access_page s page time is_write = Ok (r, s') ->
  LFU_consistent s'.
Proof.
  intros [Hfnd Hcnd Htnd Hcf Htf] H. unfold LFU.access_page in H.
  destruct (LFU.is_page_in_memory s page) eqn:Hmem; simpl in H.
  - inv_bind H as c Hc. injection H as _ <-.
    apply contains_In in Hmem.
    constructor; simpl.
    + exact Hfnd.
    + now apply keys_setitem_nodup.
    + now apply keys_setitem_nodup.
    + intros p. rewrite lookup_setitem_iff, <- Hcf.
      split; [now right | intros [->|?]; assumption].
    + intros p. rewrite lookup_setitem_iff, <- Htf.
      split; [now right | intros [->|?]; assumption].
  - apply contains_false in Hmem.
    inv_bind H as [[[victim fr] cn] tm] Hadm.
    inv_bind H as c Hc. injection H as _ <-.
    inv_bind Hadm as [[[victim0 fr0] cn0] tm0] Hev.
    injection Hadm as <- <- <- <-.
    destruct (LFU.num_frames s <=? PyList.len (LFU.frames s)).
    + inv_bind Hev as v Hv. inv_bind Hev as fr1 Hfr. inv_bind Hev as cn1 Hcn.
      inv_bind Hev as tm1 Htm. injection Hev as <- <- <- <-.
      unfold PyList.remove in Hfr.
      destruct (PyList.remove_first v (LFU.frames s)) as [fr2|] eqn:Erm;
        [|discriminate]. injection Hfr as <-.
      destruct (remove_first_spec _ _ _ Hfnd Erm) as (Hnd2 & Hiff).
      unfold PyDict.delitem in Hcn, Htm.
      destruct (PyDict.contains v (LFU.access_counts s)); [|discriminate].
      destruct (PyDict.contains v (LFU.access_times s)); [|discriminate].
      injection Hcn as <-. injection Htm as <-.
      constructor; simpl.
      * apply NoDup_snoc; [exact Hnd2|]. rewrite Hiff. tauto.
      * now apply keys_setitem_nodup, keys_setitem_nodup, keys_remove_nodup.
      * now apply keys_setitem_nodup, keys_remove_nodup.
      * intros p. rewrite in_app_iff, Hiff. simpl.
        rewrite !lookup_setitem_iff, lookup_remove_iff by exact Hcnd.
        rewrite <- Hcf. intuition congruence.
      * intros p. rewrite in_app_iff, Hiff. simpl.
        rewrite lookup_setitem_iff, lookup_remove_iff by exact Htnd.
        rewrite <- Htf. intuition congruence.
    + injection Hev as <- <- <- <-.
      constructor; simpl.
      * now apply NoDup_snoc.
      * now apply keys_setitem_nodup, keys_setitem_nodup.
      * now apply keys_setitem_nodup.
      * intros p. rewrite in_app_iff. simpl.
        rewrite !lookup_setitem_iff, <- Hcf. intuition congruence.
      * intros p. rewrite in_app_iff. simpl.
        rewrite lookup_setitem_iff, <- Htf. intuition congruence.
Qed.

(** ** Policies only ever return pages they were given *)

Lemma remove_first_incl (x : Z) (l l' : list Z) :
  PyList.remove_first x l = Some l' -> incl l' l.
Proof.
  revert l'. induction l as [|a l IH]; simpl; intros l' H; [discriminate|].
  destruct (a =? x).
  - injection H as <-. intros y Hy. now right.
  - destruct (PyList.remove_first x l) as [r|]; [|discriminate].
    injection H as <-. intros y [<-|Hy]; [now left | right; now apply (IH r)].
Qed.

Lemma list_remove_incl (x : Z) (l l' : list Z) :
  PyList.remove x l = Ok l' -> incl l' l.
Proof.
  unfold PyList.remove. destruct (PyList.remove_first x l) eqn:E; [|discriminate].
  intros H; injection H as <-. eapply remove_first_incl; eauto.
Qed.

Lemma keys_setitem_incl {V : Type} (k p : Z) (v : V) (d : PyDict.t V) :
  In p (PyDict.keys (PyDict.setitem k v d)) -> p = k \/ In p (PyDict.keys d).
Proof.
  rewrite !lookup_keys, lookup_setitem_iff. auto.
Qed.

Lemma dict_delitem_incl {V : Type} (k p : Z) (d d' : PyDict.t V) :
  PyDict.delitem k d = Ok d' -> In p (PyDict.keys d') -> In p (PyDict.keys d).
Proof.
  unfold PyDict.delitem. destruct (PyDict.contains k d); [|discriminate].
  intros H; injection H as <-. apply keys_remove_incl.
Qed.

Lemma min_from_In {A : Type} (f : A -> result Z) (l : list A) (best r : A)
      (kbest : Z) :
  PyList.min_from f best kbest l = Ok r -> In r (best :: l).
Proof.
  revert best kbest. induction l as [|x l IH]; simpl; intros best kbest H.
  - injection H as <-. now left.
  - inv_bind H as kx Hkx. destruct (kx <? kbest).
    + apply IH in H. destruct H as [<-|H]; [right; now left | right; now right].
    + apply IH in H. destruct H as [<-|H]; [now left | right; now right].
Qed.

Lemma min_by_In {A : Type} (f : A -> result Z) (l : list A) (r : A) :
  PyList.min_by f l = Ok r -> In r l.
Proof.
  destruct l as [|x l]; simpl; intros H; [discriminate|].
  inv_bind H as kx Hkx. now apply min_from_In in H.
Qed.

Lemma update_nth_In {A : Type} (n : nat) (x y : A) (l : list A) :
  In y (PyList.update_nth n (fun _ => x) l) -> y = x \/ In y l.
Proof.
  revert n. induction l as [|a l IH]; intros n; [destruct n; simpl; tauto|].
  destruct n as [|n]; simpl.
  - intros [<-|H]; auto.
  - intros [<-|H]; [right; now left|]. apply IH in H. tauto.
Qed.

Lemma list_setitem_In (l l' : list Z) (i x y : Z) :
  PyList.setitem l i x = Ok l' -> In y l' -> y = x \/ In y l.
Proof.
  unfold PyList.setitem. destruct (PyList.norm l i); [|discriminate].
  intros H; injection H as <-. apply update_nth_In.
Qed.

Lemma FIFO_access_page_tracked (s s' : FIFO.t) (page time : Z) (w pf : bool)
      (victim : option Z) :
  FIFO.access_page s page time w = Ok ((pf, victim), s') ->
  (forall v, victim = Some v -> In v (FIFO.frames s ++ FIFO.queue s)) /\
  (forall p, In p (FIFO.frames s' ++ FIFO.queue s') ->
             p = page \/ In p (FIFO.frames s ++ FIFO.queue s)).
Proof.
  unfold FIFO.access_page. destruct (FIFO.is_page_in_memory s page).
  - intros H; injection H as <- <- <-. split; [discriminate | auto].
  - intros H. inv_bind H as [[vic fr] qu] Hev. injection H as <- <- <-.
    destruct (FIFO.num_frames s <=? PyList.len (FIFO.frames s)).
    + inv_bind Hev as v Hv. inv_bind Hev as fr1 Hfr. inv_bind Hev as qu1 Hqu.
      injection Hev as <- <- <-. split.
      * intros v0 Hv0; injection Hv0 as <-. apply in_or_app; right.
        unfold FIFO.get_victim in Hv. eapply getitem_In; eauto.
      * simpl. intros p. rewrite !in_app_iff. simpl.
        pose proof (list_remove_incl _ _ _ Hfr p).
        pose proof (list_remove_incl _ _ _ Hqu p). intuition (subst; tauto).
    + injection Hev as <- <- <-. split; [discriminate|].
      simpl. intros p. rewrite !in_app_iff. simpl. intuition (subst; tauto).
Qed.

Lemma LRU_access_page_tracked (s s' : LRU.t) (page time : Z) (w pf : bool)
      (victim : option Z) :
  LRU.access_page s page time w = Ok ((pf, victim), s') ->
  (forall v, victim = Some v ->
             In v (LRU.frames s ++ PyDict.keys (LRU.access_times s))) /\
  (forall p, In p (LRU.frames s' ++ PyDict.keys (LRU.access_times s')) ->
             p = page \/ In p (LRU.frames s ++ PyDict.keys (LRU.access_times s))).
Proof.
  unfold LRU.access_page. intros H.
  inv_bind H as [[vic fr] tm] Hadm. injection H as _ <- <-.
  destruct (negb (LRU.is_page_in_memory s page)).
  - inv_bind Hadm as [[vic0 fr0] tm0] Hev. injection Hadm as <- <- <-.
    destruct (LRU.num_frames s <=? PyList.len (LRU.frames s)).
    + inv_bind Hev as v Hv. inv_bind Hev as fr1 Hfr. inv_bind Hev as tm1 Htm.
      injection Hev as <- <- <-. split.
      * intros v0 Hv0; injection Hv0 as <-. apply in_or_app; right.
        unfold LRU.get_victim in Hv. eapply min_by_In; eauto.
      * simpl. intros p. rewrite !in_app_iff. simpl.
        pose proof (list_remove_incl _ _ _ Hfr p).
        pose proof (dict_delitem_incl v p _ _ Htm).
        pose proof (keys_setitem_incl page p time tm1).
        intuition (subst; tauto).
    + injection Hev as <- <- <-. split; [discriminate|].
      simpl. intros p. rewrite !in_app_iff. simpl.
      pose proof (keys_setitem_incl page p time (LRU.access_times s)).
      intuition (subst; tauto).
  - injection Hadm as <- <- <-. split; [discriminate|].
    simpl. intros p. rewrite !in_app_iff.
    pose proof (keys_setitem_incl page p time (LRU.access_times s)).
    intuition (subst; tauto).
Qed.

Lemma candidates_incl (counts : PyDict.t Z) (m p : Z) :
  In p (LFU.candidates counts m) -> In p (PyDict.keys counts).
Proof.
  unfold LFU.candidates, PyDict.keys. rewrite !in_map_iff.
  intros (x & Hx & Hin). apply filter_In in Hin. exists x. tauto.
Qed.

Lemma LFU_get_victim_In (s : LFU.t) (v : Z) :
  LFU.get_victim s = Ok v -> In v (PyDict.keys (LFU.access_counts s)).
Proof.
  unfold LFU.get_victim. intros H. inv_bind H as m Hm.
  apply candidates_incl with (m := m).
  destruct (LFU.candidates (LFU.access_counts s) m) as [|p [|q rest]].
  - discriminate H.
  - injection H as <-. now left.
  - now apply min_by_In in H.
Qed.

Lemma LFU_access_page_tracked (s s' : LFU.t) (page time : Z) (w pf : bool)
      (victim : option Z) :
  LFU.access_page s page time w = Ok ((pf, victim), s') ->
  (forall v, victim = Some v ->
             In v (LFU.frames s ++ PyDict.keys (LFU.access_counts s)
                     ++ PyDict.keys (LFU.access_times s))) /\
  (forall p, In p (LFU.frames s' ++ PyDict.keys (LFU.access_counts s')
                     ++ PyDict.keys (LFU.access_times s')) ->
             p = page \/
             In p (LFU.frames s ++ PyDict.keys (LFU.access_counts s)
                     ++ PyDict.keys (LFU.access_times s))).
Proof.
  unfold LFU.access_page. intros H.
  inv_bind H as [[[vic fr] cn] tm] Hadm. inv_bind H as c Hc.
  injection H as _ <- <-.
  destruct (negb (LFU.is_page_in_memory s page)).
  - inv_bind Hadm as [[[vic0 fr0] cn0] tm0] Hev. injection Hadm as <- <- <- <-.
    destruct (LFU.num_frames s <=? PyList.len (LFU.frames s)).
    + inv_bind Hev as v Hv. inv_bind Hev as fr1 Hfr. inv_bind Hev as cn1 Hcn.
      inv_bind Hev as tm1 Htm. injection Hev as <- <- <- <-. split.
      * intros v0 Hv0; injection Hv0 as <-.
        apply in_or_app; right. apply in_or_app; left.
        now apply LFU_get_victim_In.
      * simpl. intros p. rewrite !in_app_iff. simpl.
        pose proof (list_remove_incl _ _ _ Hfr p).
        pose proof (dict_delitem_incl v p _ _ Hcn).
        pose proof (dict_delitem_incl v p _ _ Htm).
        pose proof (keys_setitem_incl page p time tm1).
        pose proof (keys_setitem_incl page p (c + 1) (PyDict.setitem page 0 cn1)).
        pose proof (keys_setitem_incl page p 0 cn1).
        intuition (subst; tauto).
    + injection Hev as <- <- <- <-. split; [discriminate|].
      simpl. intros p. rewrite !in_app_iff. simpl.
      pose proof (keys_setitem_incl page p time (LFU.access_times s)).
      pose proof (keys_setitem_incl page p (c + 1)
                    (PyDict.setitem page 0 (LFU.access_counts s))).
      pose proof (keys_setitem_incl page p 0 (LFU.access_counts s)).
      intuition (subst; tauto).
  - injection Hadm as <- <- <- <-. split; [discriminate|].
    simpl. intros p. rewrite !in_app_iff.
    pose proof (keys_setitem_incl page p time (LFU.access_times s)).
    pose proof (keys_setitem_incl page p (c + 1) (LFU.access_counts s)).
    intuition (subst; tauto).
Qed.

Lemma Optimal_choose_In (s : Optimal.t) (pages : list Z)
      (far : Optimal.distance) (v0 : option Z) (v : Z) :
  Optimal.choose s pages far v0 = Ok (Some v) -> v0 = Some v \/ In v pages.
Proof.
  revert far v0. induction pages as [|p pages IH]; simpl; intros far v0 H.
  - injection H as ->. now left.
  - inv_bind H as nu Hnu. destruct (Optimal.gt nu far).
    + apply IH in H. destruct H as [H|H]; [injection H as ->|]; auto.
    + apply IH in H. tauto.
Qed.

Lemma Optimal_access_page_tracked (s s' : Optimal.t) (page time : Z)
      (w pf : bool) (victim : option Z) :
  Optimal.access_page s page time w = Ok ((pf, victim), s') ->
  (forall v, victim = Some v -> In v (Optimal.frames s)) /\
  (forall p, In p (Optimal.frames s') -> p = page \/ In p (Optimal.frames s)).
Proof.
  unfold Optimal.access_page. intros H.
  inv_bind H as [vic fr] Hadm. injection H as _ <- <-.
  destruct (negb (Optimal.is_page_in_memory s page)).
  - inv_bind Hadm as [vic0 fr0] Hev. injection Hadm as <- <-.
    destruct (Optimal.num_frames s <=? PyList.len (Optimal.frames s)).
    + inv_bind Hev as ov Hov. destruct ov as [v|]; [|discriminate].
      inv_bind Hev as fr1 Hfr. injection Hev as <- <-. split.
      * intros v0 Hv0; injection Hv0 as <-.
        unfold Optimal.get_victim in Hov. apply Optimal_choose_In in Hov.
        destruct Hov as [?|?]; [discriminate | assumption].
      * simpl. intros p. rewrite in_app_iff. simpl.
        pose proof (list_remove_incl _ _ _ Hfr p). intuition (subst; tauto).
    + injection Hev as <- <-. split; [discriminate|].
      simpl. intros p. rewrite in_app_iff. simpl. intuition (subst; tauto).
  - injection Hadm as <- <-. split; [discriminate | auto].
Qed.

Lemma Clock_get_victim_loop_tracked (fuel : nat) (s s' : Clock.t) (v : Z) :
  Clock.get_victim_loop fuel s = Some (Ok (v, s')) ->
  In v (Clock.frames s) /\ Clock.frames s' = Clock.frames s /\
  Clock.num_frames s' = Clock.num_frames s /\
  forall p, In p (PyDict.keys (Clock.reference_bits s')) ->
            In p (Clock.frames s) \/ In p (PyDict.keys (Clock.reference_bits s)).
Proof.
  revert s. induction fuel as [|fuel IH]; intros s H; [discriminate H|].
  simpl in H.
  destruct (PyList.getitem (Clock.frames s) (Clock.clock_hand s)) as [page|e] eqn:Eg;
    [|discriminate H].
  destruct (PyDict.getitem page (Clock.reference_bits s)) as [b|e]; [|discriminate H].
  destruct (pymod (Clock.clock_hand s + 1) (PyList.len (Clock.frames s)))
    as [hand|e]; [|discriminate H].
  apply getitem_In in Eg.
  destruct (b =? 0).
  - injection H as <- <-. simpl. auto.
  - apply IH in H. simpl in H. destruct H as (Hv & Hfr & Hnf & Hk).
    split; [exact Hv|]. split; [exact Hfr|]. split; [exact Hnf|].
    intros p Hp. apply Hk in Hp. destruct Hp as [Hp|Hp]; [now left|].
    apply keys_setitem_incl in Hp. destruct Hp as [->|Hp]; auto.
Qed.

Lemma Clock_access_page_tracked (s s' : Clock.t) (page time : Z) (w pf : bool)
      (victim : option Z) :
  Clock.access_page s page time w = Ok ((pf, victim), s') ->
  (forall v, victim = Some v ->
             In v (Clock.frames s ++ PyDict.keys (Clock.reference_bits s))) /\
  (forall p, In p (Clock.frames s' ++ PyDict.keys (Clock.reference_bits s')) ->
             p = page \/
             In p (Clock.frames s ++ PyDict.keys (Clock.reference_bits s))).
Proof.
  unfold Clock.access_page. intros H.
  inv_bind H as [vic s1] Hadm. injection H as _ <- <-.
  destruct (negb (Clock.is_page_in_memory s page)).
  - destruct (Clock.num_frames s <=? PyList.len (Clock.frames s)).
    + inv_bind Hadm as [v s0] Hv. inv_bind Hadm as vi Hvi.
      inv_bind Hadm as fr Hfr. inv_bind Hadm as bits Hbits.
      injection Hadm as <- <-.
      unfold Clock.get_victim in Hv.
      destruct (Clock.get_victim_loop (S (List.length (Clock.frames s))) s)
        as [r|] eqn:El; [|discriminate Hv]. subst r.
      apply Clock_get_victim_loop_tracked in El.
      destruct El as (Hvin & Hfr0 & _ & Hk). split.
      * intros v0 Hv0; injection Hv0 as <-. apply in_or_app; now left.
      * simpl. intros p. rewrite !in_app_iff.
        pose proof (list_setitem_In _ _ _ _ p Hfr).
        pose proof (dict_delitem_incl v p _ _ Hbits).
        pose proof (keys_setitem_incl page p 1 bits).
        pose proof (Hk p). rewrite Hfr0 in *.
        intuition (subst; tauto).
    + injection Hadm as <- <-. split; [discriminate|].
      simpl. intros p. rewrite !in_app_iff. simpl.
      pose proof (keys_setitem_incl page p 1 (Clock.reference_bits s)).
      intuition (subst; tauto).
  - injection Hadm as <- <-. split; [discriminate|].
    simpl. intros p. rewrite !in_app_iff.
    pose proof (keys_setitem_incl page p 1 (Clock.reference_bits s)).
    intuition (subst; tauto).
Qed.

Lemma access_page_tracked (a a' : PageReplacementAlgorithm.t) (page time : Z)
      (w pf : bool) (victim : option Z) :
  PageReplacementAlgorithm.access_page a page time w = Ok ((pf, victim), a') ->
  (forall v, victim = Some v -> In v (tracked a)) /\
  (forall p, In p (tracked a') -> p = page \/ In p (tracked a)).
Proof.
  unfold PageReplacementAlgorithm.access_page, PageReplacementAlgorithm.lift_alg.
  destruct a as [s|s|s|s|s]; intros H; inv_bind H as [[pf0 vic0] s0] Hs;
    injection H as <- <- <-; simpl.
  - eapply FIFO_access_page_tracked; eauto.
  - eapply LRU_access_page_tracked; eauto.
  - eapply LFU_access_page_tracked; eauto.
  - eapply Optimal_access_page_tracked; eauto.
  - eapply Clock_access_page_tracked; eauto.
Qed.

(** ** Page-table entries of pages that are not negative *)

Lemma list_getitem_nonneg {A : Type} (l : list A) (p : Z) :
  0 <= p ->
  PyList.getitem l p = match nth_error l (Z.to_nat p) with
                       | Some x => Ok x
                       | None => Raise IndexError
                       end.
Proof.
  intros Hp. unfold PyList.getitem, PyList.norm, PyList.len.
  destruct (0 <=? p) eqn:E0; [|apply Z.leb_gt in E0; lia].
  destruct (p <? Z.of_nat (List.length l)) eqn:E1; simpl.
  - reflexivity.
  - apply Z.ltb_ge in E1.
    destruct (p <? 0) eqn:E2; [apply Z.ltb_lt in E2; lia|].
    rewrite andb_false_r.
    destruct (nth_error l (Z.to_nat p)) eqn:En; [|reflexivity].
    assert (nth_error l (Z.to_nat p) <> None) by congruence.
    apply nth_error_Some in H. lia.
Qed.

Lemma list_norm_nonneg {A : Type} (l : list A) (p : Z) (n : nat) :
  0 <= p -> PyList.norm l p = Some n -> n = Z.to_nat p.
Proof.
  intros Hp. unfold PyList.norm.
  destruct ((0 <=? p) && (p <? PyList.len l)); [congruence|].
  destruct (p <? 0) eqn:E2; [apply Z.ltb_lt in E2; lia|].
  rewrite andb_false_r. discriminate.
Qed.

Lemma nth_error_update_nth {A : Type} (f : A -> A) (l : list A) (n m : nat) :
  nth_error (PyList.update_nth n f l) m
  = if Nat.eqb n m then option_map f (nth_error l m) else nth_error l m.
Proof.
  revert n m. induction l as [|x l IH]; intros n m.
  - destruct n; simpl; destruct m; simpl; try reflexivity;
      destruct (Nat.eqb n m); reflexivity.
  - destruct n as [|n]; destruct m as [|m]; simpl; try reflexivity.
    apply IH.
Qed.

Lemma update_entry_getitem (pt pt' : PageTable.t) (q p : Z)
      (g : PageTableEntry.t -> PageTableEntry.t) :
  0 <= q -> 0 <= p ->
  PageTable.update_entry pt q g = Ok pt' ->
  PyList.getitem (PageTable.entries pt') p
  = if p =? q
    then (e <- PyList.getitem (PageTable.entries pt) p ;; Ok (g e))
    else PyList.getitem (PageTable.entries pt) p.
Proof.
  intros Hq Hp. unfold PageTable.update_entry.
  destruct (PyList.norm (PageTable.entries pt) q) as [n|] eqn:En; [|discriminate].
  intros H; injection H as <-. simpl.
  apply list_norm_nonneg in En; [|exact Hq]. subst n.
  rewrite !list_getitem_nonneg by exact Hp.
  rewrite nth_error_update_nth.
  destruct (p =? q) eqn:E.
  - apply Z.eqb_eq in E; subst q. rewrite Nat.eqb_refl.
    destruct (nth_error (PageTable.entries pt) (Z.to_nat p)); reflexivity.
  - apply Z.eqb_neq in E.
    destruct (Nat.eqb (Z.to_nat q) (Z.to_nat p)) eqn:E'; [|reflexivity].
    apply Nat.eqb_eq in E'. lia.
Qed.

Lemma is_valid_getitem (pt : PageTable.t) (p : Z) (b : bool) :
  PageTable.is_valid pt p = Ok b <->
  exists e, PyList.getitem (PageTable.entries pt) p = Ok e /\
            PageTableEntry.valid e = b.
Proof.
  unfold PageTable.is_valid.
  destruct (PyList.getitem (PageTable.entries pt) p) as [e|x]; simpl.
  - split; [intros H; injection H as <-; now exists e|].
    intros (e' & He & <-). now injection He as <-.
  - split; [discriminate | intros (e' & He & _); discriminate].
Qed.

(** ** The TLB as a dictionary without repeated keys *)

Lemma lookup_move_to_end {V : Type} (p q : Z) (f : V) (d : PyDict.t V) :
  NoDup (PyDict.keys d) -> PyDict.lookup p d = Some f ->
  PyDict.lookup q (PyDict.remove p d ++ [(p, f)]) = PyDict.lookup q d.
Proof.
  intros Hnd Hp. destruct (Z.eq_dec q p) as [->|Hne].
  - rewrite lookup_app_r by (now apply lookup_remove_same).
    simpl. now rewrite Z.eqb_refl.
  - destruct (PyDict.lookup q d) as [g|] eqn:Eq.
    + apply lookup_app_l. now rewrite lookup_remove_other.
    + rewrite lookup_app_r by (now rewrite lookup_remove_other).
      simpl. destruct (p =? q) eqn:E; [apply Z.eqb_eq in E; congruence | reflexivity].
Qed.

Lemma keys_move_to_end_nodup {V : Type} (p : Z) (f : V) (d : PyDict.t V) :
  NoDup (PyDict.keys d) ->
  NoDup (PyDict.keys (PyDict.remove p d ++ [(p, f)])).
Proof.
  intros Hnd. unfold PyDict.keys. rewrite map_app. simpl.
  apply NoDup_snoc; [now apply keys_remove_nodup|].
  intros Hin. apply lookup_keys in Hin. now rewrite lookup_remove_same in Hin.
Qed.

Lemma TLB_lookup_hit (s tl : TLB.t) (p f : Z) :
  NoDup (PyDict.keys (TLB.cache s)) ->
  TLB.lookup s p = Ok (Some f, tl) ->
  PyDict.lookup p (TLB.cache s) = Some f /\
  (forall q, PyDict.lookup q (TLB.cache tl) = PyDict.lookup q (TLB.cache s)) /\
  NoDup (PyDict.keys (TLB.cache tl)).
Proof.
  intros Hnd. unfold TLB.lookup, PyDict.contains, PyDict.move_to_end.
  destruct (PyDict.lookup p (TLB.cache s)) as [g|] eqn:E; simpl; [|discriminate].
  unfold PyDict.getitem.
  rewrite (lookup_move_to_end p p g _ Hnd E), E. simpl.
  intros H; injection H as <- <-. simpl.
  split; [reflexivity|]. split.
  - intros q. now apply lookup_move_to_end.
  - now apply keys_move_to_end_nodup.
Qed.

Lemma TLB_lookup_miss (s tl : TLB.t) (p : Z) :
  TLB.lookup s p = Ok (None, tl) ->
  PyDict.lookup p (TLB.cache s) = None /\ TLB.cache tl = TLB.cache s.
Proof.
  unfold TLB.lookup, PyDict.contains, PyDict.move_to_end.
  destruct (PyDict.lookup p (TLB.cache s)) as [g|] eqn:E; simpl.
  - destruct (PyDict.getitem p (PyDict.remove p (TLB.cache s) ++ [(p, g)]));
      simpl; discriminate.
  - intros H; injection H as <-. auto.
Qed.

Lemma TLB_insert_miss (s tl : TLB.t) (p f : Z) :
  NoDup (PyDict.keys (TLB.cache s)) ->
  PyDict.lookup p (TLB.cache s) = None ->
  TLB.insert s p f = Ok tl ->
  PyDict.lookup p (TLB.cache tl) = Some f /\
  (forall q g, q <> p -> PyDict.lookup q (TLB.cache tl) = Some g ->
               PyDict.lookup q (TLB.cache s) = Some g) /\
  NoDup (PyDict.keys (TLB.cache tl)).
Proof.
  intros Hnd Hmiss. unfold TLB.insert, PyDict.contains. rewrite Hmiss.
  intros H. inv_bind H as c Hc. injection H as <-. simpl.
  assert (Hsub : NoDup (PyDict.keys c) /\
                 forall q g, PyDict.lookup q c = Some g ->
                             PyDict.lookup q (TLB.cache s) = Some g).
  { destruct (TLB.size s <=? PyDict.len (TLB.cache s)).
    - unfold PyDict.popitem_first in Hc.
      destruct (TLB.cache s) as [|[k v] r]; [discriminate|]. injection Hc as <-.
      simpl in Hnd. inversion Hnd as [|? ? Hnin Hnd']; subst. split; [exact Hnd'|].
      intros q g Hq. simpl. destruct (k =? q) eqn:E; [|exact Hq].
      apply Z.eqb_eq in E; subst q. exfalso. apply Hnin.
      apply lookup_keys. congruence.
    - injection Hc as <-. auto. }
  destruct Hsub as (Hndc & Hsub).
  split; [apply lookup_setitem_same|]. split.
  - intros q g Hne Hq. rewrite lookup_setitem_other in Hq by exact Hne. auto.
  - now apply keys_setitem_nodup.
Qed.

Lemma TLB_invalidate_spec (s tl : TLB.t) (v : Z) :
  NoDup (PyDict.keys (TLB.cache s)) ->
  TLB.invalidate s v = Ok tl ->
  PyDict.lookup v (TLB.cache tl) = None /\
  (forall q, q <> v -> PyDict.lookup q (TLB.cache tl) = PyDict.lookup q (TLB.cache s)) /\
  NoDup (PyDict.keys (TLB.cache tl)).
Proof.
  intros Hnd. unfold TLB.invalidate, PyDict.delitem, PyDict.contains.
  destruct (PyDict.lookup v (TLB.cache s)) eqn:E; simpl.
  - intros H; injection H as <-. simpl. split; [now apply lookup_remove_same|].
    split; [intros q Hq; now apply lookup_remove_other | now apply keys_remove_nodup].
  - intros H; injection H as <-. auto.
Qed.

(** ** Coherence through the steps of a translation *)

Lemma update_entry_defined (pt pt' : PageTable.t) (q : Z)
      (g : PageTableEntry.t -> PageTableEntry.t) :
  PageTable.update_entry pt q g = Ok pt' ->
  exists e, PyList.getitem (PageTable.entries pt) q = Ok e.
Proof.
  unfold PageTable.update_entry, PyList.getitem.
  destruct (PyList.norm (PageTable.entries pt) q) as [n|] eqn:En; [|discriminate].
  intros _. unfold PyList.norm, PyList.len in En.
  destruct (nth_error (PageTable.entries pt) n) eqn:E; [eexists; reflexivity|].
  apply nth_error_None in E. exfalso.
  destruct ((0 <=? q) && (q <? Z.of_nat (List.length (PageTable.entries pt)))) eqn:E1.
  - injection En as <-. apply andb_prop in E1. destruct E1 as [E1 E2].
    apply Z.leb_le in E1. apply Z.ltb_lt in E2. lia.
  - destruct ((- Z.of_nat (List.length (PageTable.entries pt)) <=? q) && (q <? 0)) eqn:E2;
      [|discriminate]. injection En as <-. apply andb_prop in E2.
    destruct E2 as [E2 E3]. apply Z.leb_le in E2. apply Z.ltb_lt in E3. lia.
Qed.

Lemma agree_evict (pt pt' : PageTable.t) (p2f : PyDict.t Z)
      (tl tl' : TLB.t) (v : Z) :
  agree pt (TLB.cache tl) p2f -> 0 <= v ->
  PageTable.invalidate pt v = Ok pt' ->
  TLB.invalidate tl v = Ok tl' ->
  agree pt' (TLB.cache tl') (PyDict.remove v p2f) /\
  forall q, PyDict.lookup q (TLB.cache tl) = None ->
            PyDict.lookup q (TLB.cache tl') = None.
Proof.
  intros [Htlb Hmap Hval Hmnd Htnd] Hv Hpt Htl.
  destruct (TLB_invalidate_spec _ _ _ Htnd Htl) as (Hnone & Hother & Hnd').
  unfold PageTable.invalidate in Hpt.
  split; [constructor|].
  - intros p f Hp. destruct (Z.eq_dec p v) as [->|Hne]; [congruence|].
    rewrite Hother in Hp by exact Hne. rewrite lookup_remove_other by exact Hne. auto.
  - intros p f Hp. destruct (Z.eq_dec p v) as [->|Hne].
    + now rewrite lookup_remove_same in Hp.
    + rewrite lookup_remove_other in Hp by exact Hne.
      destruct (Hmap p f Hp) as (Hp0 & e & He & Hev & Hef). split; [exact Hp0|].
      exists e. rewrite (update_entry_getitem _ _ _ _ _ Hv Hp0 Hpt).
      destruct (p =? v) eqn:E; [apply Z.eqb_eq in E; congruence | auto].
  - intros p Hp0 Hp. apply is_valid_getitem in Hp. destruct Hp as (e & He & Hev).
    rewrite (update_entry_getitem _ _ _ _ _ Hv Hp0 Hpt) in He.
    destruct (p =? v) eqn:E.
    + inv_bind He as e0 He0. injection He as <-. simpl in Hev. discriminate.
    + apply Z.eqb_neq in E. rewrite lookup_remove_other by exact E.
      apply Hval; [exact Hp0|]. apply is_valid_getitem. now exists e.
  - now apply keys_remove_nodup.
  - exact Hnd'.
  - intros q Hq. destruct (Z.eq_dec q v) as [->|Hne]; [exact Hnone|].
    now rewrite Hother.
Qed.

Lemma agree_load (pt pt' : PageTable.t) (cache p2f : PyDict.t Z) (page fr : Z) :
  agree pt cache p2f -> 0 <= page ->
  PyDict.lookup page cache = None ->
  PageTable.set_frame pt page fr = Ok pt' ->
  agree pt' cache (PyDict.setitem page fr p2f).
Proof.
  intros [Htlb Hmap Hval Hmnd Htnd] Hpage Hmiss Hpt.
  unfold PageTable.set_frame in Hpt.
  constructor.
  - intros p f Hp. destruct (Z.eq_dec p page) as [->|Hne]; [congruence|].
    rewrite lookup_setitem_other by exact Hne. auto.
  - intros p f Hp. destruct (Z.eq_dec p page) as [->|Hne].
    + rewrite lookup_setitem_same in Hp. injection Hp as <-.
      split; [exact Hpage|].
      destruct (update_entry_defined _ _ _ _ Hpt) as [e He].
      eexists. rewrite (update_entry_getitem _ _ _ _ _ Hpage Hpage Hpt).
      rewrite Z.eqb_refl, He. simpl. auto.
    + rewrite lookup_setitem_other in Hp by exact Hne.
      destruct (Hmap p f Hp) as (Hp0 & e & He & Hev & Hef). split; [exact Hp0|].
      exists e. rewrite (update_entry_getitem _ _ _ _ _ Hpage Hp0 Hpt).
      destruct (p =? page) eqn:E; [apply Z.eqb_eq in E; congruence | auto].
  - intros p Hp0 Hp. apply lookup_setitem_iff.
    destruct (Z.eq_dec p page) as [->|Hne]; [now left | right].
    apply is_valid_getitem in Hp. destruct Hp as (e & He & Hev).
    rewrite (update_entry_getitem _ _ _ _ _ Hpage Hp0 Hpt) in He.
    destruct (p =? page) eqn:E; [apply Z.eqb_eq in E; congruence|].
    apply Hval; [exact Hp0|]. apply is_valid_getitem. now exists e.
  - now apply keys_setitem_nodup.
  - exact Htnd.
Qed.

Lemma agree_update_access (pt pt' : PageTable.t) (cache p2f : PyDict.t Z)
      (page time : Z) (w : bool) :
  agree pt cache p2f -> 0 <= page ->
  PageTable.update_access pt page time w = Ok pt' ->
  agree pt' cache p2f /\
  forall p, 0 <= p -> PageTable.is_valid pt p = Ok true ->
            PageTable.is_valid pt' p = Ok true.
Proof.
  intros [Htlb Hmap Hval Hmnd Htnd] Hpage Hpt.
  unfold PageTable.update_access in Hpt.
  assert (Hkeep : forall p, 0 <= p -> PageTable.is_valid pt p = Ok true ->
                            PageTable.is_valid pt' p = Ok true).
  { intros p Hp0 Hp. apply is_valid_getitem in Hp. destruct Hp as (e & He & Hev).
    apply is_valid_getitem.
    rewrite (update_entry_getitem _ _ _ _ _ Hpage Hp0 Hpt).
    destruct (p =? page); [|now exists e].
    rewrite He. simpl. eexists. split; [reflexivity | exact Hev]. }
  split; [constructor | exact Hkeep]; auto.
  - intros p f Hp. destruct (Hmap p f Hp) as (Hp0 & e & He & Hev & Hef).
    split; [exact Hp0|]. unfold resident_at.
    rewrite (update_entry_getitem _ _ _ _ _ Hpage Hp0 Hpt).
    destruct (p =? page); [|now exists e].
    rewrite He. simpl. eexists. split; [reflexivity|]. simpl. auto.
  - intros p Hp0 Hp. apply Hval; [exact Hp0|].
    apply is_valid_getitem in Hp. destruct Hp as (e & He & Hev).
    apply is_valid_getitem.
    rewrite (update_entry_getitem _ _ _ _ _ Hpage Hp0 Hpt) in He.
    destruct (p =? page); [|now exists e].
    inv_bind He as e0 He0. injection He as <-. simpl in Hev. now exists e0.
Qed.

Lemma handle_page_fault_coherent (s s1 : VirtualMemorySimulator.t)
      (page fr : Z) (w : bool) :
  coherent s -> 0 <= page ->
  PyDict.lookup page (TLB.cache (VirtualMemorySimulator.tlb s)) = None ->
  VirtualMemorySimulator._handle_page_fault s page w = Ok (fr, s1) ->
  coherent s1 /\
  PyDict.lookup page (TLB.cache (VirtualMemorySimulator.tlb s1)) = None /\
  PyDict.lookup page (VirtualMemorySimulator.page_to_frame s1) = Some fr.
Proof.
  intros [Htr Hag] Hpage Hmiss H.
  unfold VirtualMemorySimulator._handle_page_fault in H.
  inv_bind H as [[pf victim] alg] Hacc.
  apply access_page_tracked in Hacc. destruct Hacc as (Hvic & Hnew).
  inv_bind H as [[[[fr0 pt] tl] free] p2f] Hsel.
  inv_bind H as pt2 Hset. injection H as <- <-.
  assert (Htr' : forall p, In p (tracked alg) -> 0 <= p).
  { intros p Hp. apply Hnew in Hp. destruct Hp as [->|Hp]; auto. }
  destruct victim as [v|].
  - inv_bind Hsel as fr1 Hfr. inv_bind Hsel as pt1 Hinv.
    inv_bind Hsel as tl1 Htl. inv_bind Hsel as p2f1 Hdel.
    injection Hsel as <- <- <- <- <-.
    unfold PyDict.delitem in Hdel.
    destruct (PyDict.contains v (VirtualMemorySimulator.page_to_frame s));
      [|discriminate]. injection Hdel as <-.
    assert (Hv : 0 <= v) by (apply Htr, Hvic; reflexivity).
    destruct (agree_evict _ _ _ _ _ _ Hag Hv Hinv Htl) as (Hag1 & Hnone).
    pose proof (agree_load _ _ _ _ page fr1 Hag1 Hpage (Hnone _ Hmiss) Hset) as Hag2.
    split; [split; [exact Htr' | exact Hag2]|]. simpl.
    split; [now apply Hnone | apply lookup_setitem_same].
  - inv_bind Hsel as [fr1 free1] Hpop. injection Hsel as <- <- <- <- <-.
    pose proof (agree_load _ _ _ _ page fr1 Hag Hpage Hmiss Hset) as Hag2.
    split; [split; [exact Htr' | exact Hag2]|]. simpl.
    split; [exact Hmiss | apply lookup_setitem_same].
Qed.

Lemma physical_address_frame (frame va ps : Z) :
  ps <> 0 -> (frame * ps + va mod ps) / ps = frame.
Proof.
  intros Hps. rewrite Z.add_comm, Z.div_add by exact Hps.
  rewrite Zmod_div. lia.
Qed.

(** On a coherent state, a translation of a page that is not negative
    keeps the state coherent, leaves the page valid in the page table and
    mapped by the TLB to the frame of the physical address, and faults
    exactly when the page was not in [page_to_frame]. *)
Lemma translate_address_coherent (s s' : VirtualMemorySimulator.t)
      (va pa : Z) (w pf hit : bool) :
  coherent s ->
  0 <= va / VirtualMemorySimulator.page_size s ->
  VirtualMemorySimulator.translate_address s va w = Ok ((pa, pf, hit), s') ->
  coherent s' /\
  VirtualMemorySimulator.page_size s' = VirtualMemorySimulator.page_size s /\
  PageTable.is_valid (VirtualMemorySimulator.page_table s')
    (va / VirtualMemorySimulator.page_size s) = Ok true /\
  PyDict.lookup (va / VirtualMemorySimulator.page_size s)
    (TLB.cache (VirtualMemorySimulator.tlb s'))
  = Some (pa / VirtualMemorySimulator.page_size s) /\
  pf = negb (PyDict.contains (va / VirtualMemorySimulator.page_size s)
               (VirtualMemorySimulator.page_to_frame s)).
Proof.
  intros [Htr Hag] Hpage H.
  unfold VirtualMemorySimulator.translate_address in H.
  inv_bind H as page Hp. unfold floordiv in Hp. simpl in Hp.
  destruct (VirtualMemorySimulator.page_size s =? 0) eqn:Eps; [discriminate|].
  apply Z.eqb_neq in Eps. injection Hp as <-.
  inv_bind H as offset Hoff. unfold pymod in Hoff; simpl in Hoff.
  destruct (VirtualMemorySimulator.page_size s =? 0); [discriminate Hoff|].
  injection Hoff as <-.
  inv_bind H as [looked tl] Hlook.
  inv_bind H as [[[fr pf0] hit0] s1] Hmid.
  inv_bind H as pt Hupd.
  set (page := va / VirtualMemorySimulator.page_size s) in *.
  pose proof (agree_tlb_nodup _ _ _ Hag) as Htnd.
  unfold PyDict.contains.
  destruct looked as [f|].
  - injection Hmid as <- <- <- <-. simpl in *. injection H as <- <- <- <-. simpl.
    destruct (TLB_lookup_hit _ _ _ _ Htnd Hlook) as (Hf & Hsame & Hnd').
    assert (Hag1 : agree (VirtualMemorySimulator.page_table s) (TLB.cache tl)
                     (VirtualMemorySimulator.page_to_frame s)).
    { destruct Hag as [Htlb Hmap Hval Hmnd _]. constructor; auto.
      intros p g Hpg. rewrite Hsame in Hpg. auto. }
    destruct (agree_update_access _ _ _ _ _ _ _ Hag1 Hpage Hupd) as (Hag2 & Hkeep).
    pose proof (agree_tlb _ _ _ Hag _ _ Hf) as Hmapf.
    destruct (agree_map _ _ _ Hag _ _ Hmapf) as (_ & e & He & Hev & _).
    split; [split; assumption|]. split; [reflexivity|]. split.
    + apply Hkeep; [exact Hpage|]. apply is_valid_getitem. now exists e.
    + rewrite Hsame, physical_address_frame by exact Eps.
      rewrite Hmapf. auto.
  - destruct (TLB_lookup_miss _ _ _ Hlook) as (Hmiss & Hcache).
    inv_bind Hmid as v Hv. inv_bind Hmid as [[fr2 pf2] s2] Hsub.
    inv_bind Hmid as tl2 Hins. injection Hmid as <- <- <- <-.
    simpl in H. injection H as <- <- <- <-. simpl in *.
    destruct v; simpl in Hsub.
    + (* valid entry: no fault *)
      inv_bind Hsub as ofr Hg. destruct ofr as [z|]; [|discriminate].
      injection Hsub as <- <- <-. simpl in *.
      pose proof (agree_valid _ _ _ Hag page Hpage Hv) as Hin.
      destruct (PyDict.lookup page (VirtualMemorySimulator.page_to_frame s))
        as [f0|] eqn:Ef0; [|congruence].
      destruct (agree_map _ _ _ Hag _ _ Ef0) as (_ & e & He & Hev & Hef).
      assert (z = f0).
      { unfold PageTable.get_frame_number in Hg. rewrite Hv in Hg. simpl in Hg.
        rewrite He in Hg. simpl in Hg. congruence. }
      subst z.
      rewrite <- Hcache in Hmiss, Htnd.
      destruct (TLB_insert_miss _ _ _ _ Htnd Hmiss Hins) as (Hnew & Hold & Hnd').
      assert (Hag1 : agree (VirtualMemorySimulator.page_table s) (TLB.cache tl2)
                       (VirtualMemorySimulator.page_to_frame s)).
      { destruct Hag as [Htlb Hmap Hval Hmnd _]. constructor; auto.
        intros p g Hpg. destruct (Z.eq_dec p page) as [->|Hne].
        - congruence.
        - apply Htlb. rewrite <- Hcache. now apply Hold. }
      destruct (agree_update_access _ _ _ _ _ _ _ Hag1 Hpage Hupd) as (Hag2 & Hkeep).
      split; [split; assumption|]. split; [reflexivity|]. split; [now apply Hkeep|].
      rewrite physical_address_frame by exact Eps. auto.
    + (* page fault *)
      inv_bind Hsub as [fr3 s3] Hh. injection Hsub as <- <- <-.
      assert (Hcoh0 : coherent (VirtualMemorySimulator.count_fault
                        (VirtualMemorySimulator.with_tlb
                           (VirtualMemorySimulator.tick s) tl))).
      { split; simpl; [exact Htr|]. now rewrite Hcache. }
      pose proof (handle_page_fault_fields _ _ _ _ _ Hh) as (Hps & _).
      apply handle_page_fault_coherent in Hh; simpl; auto;
        [|now rewrite Hcache].
      destruct Hh as ([Htr3 Hag3] & Hmiss3 & Hmap3).
      pose proof (agree_tlb_nodup _ _ _ Hag3) as Htnd3.
      destruct (TLB_insert_miss _ _ _ _ Htnd3 Hmiss3 Hins) as (Hnew & Hold & Hnd').
      assert (Hag4 : agree (VirtualMemorySimulator.page_table s3) (TLB.cache tl2)
                       (VirtualMemorySimulator.page_to_frame s3)).
      { destruct Hag3 as [Htlb Hmap Hval Hmnd _]. constructor; auto.
        intros p g Hpg. destruct (Z.eq_dec p page) as [->|Hne].
        - congruence.
        - apply Htlb. now apply Hold. }
      destruct (agree_update_access _ _ _ _ _ _ _ Hag4 Hpage Hupd) as (Hag5 & Hkeep).
      destruct (agree_map _ _ _ Hag4 _ _ Hmap3) as (_ & e & He & Hev & _).
      split; [split; assumption|]. split; [exact Hps|]. split.
      * apply Hkeep; [exact Hpage|]. apply is_valid_getitem. now exists e.
      * simpl in Hps. rewrite Hps, physical_address_frame by exact Eps.
        split; [exact Hnew|].
        destruct (PyDict.lookup page (VirtualMemorySimulator.page_to_frame s))
          as [f0|] eqn:Ef0; [|reflexivity].
        destruct (agree_map _ _ _ Hag _ _ Ef0) as (_ & e0 & He0 & Hev0 & _).
        apply is_valid_getitem in Hv. destruct Hv as (e1 & He1 & Hev1).
        congruence.
Qed.

Lemma make_algorithm_tracked (n : Z) (name : string) (refs : option (list Z))
      (alg : PageReplacementAlgorithm.t) :
  VirtualMemorySimulator.make_algorithm n name refs = Ok alg -> tracked alg = [].
Proof.
  unfold VirtualMemorySimulator.make_algorithm.
  repeat match goal with
         | |- context [if ?b then _ else _] => destruct b
         end;
    try (intros H; injection H as <-; reflexivity); try discriminate.
  destruct refs; [intros H; injection H as <-; reflexivity | discriminate].
Qed.

Lemma coherent_fresh (num_pages num_frames page_size tlb_size : Z)
      (alg : PageReplacementAlgorithm.t) (name : string) :
  tracked alg = [] ->
  coherent (fresh num_pages num_frames page_size tlb_size alg name).
Proof.
  intros Htr. split; simpl.
  - rewrite Htr. intros p [].
  - constructor; simpl; try discriminate; try constructor.
    intros p _ Hp. apply is_valid_getitem in Hp. destruct Hp as (e & He & Hev).
    apply getitem_In in He. simpl in He. apply repeat_spec in He. subst e.
    discriminate Hev.
Qed.

Lemma translate_all_coherent (s s' : VirtualMemorySimulator.t)
      (calls : list (Z * bool)) (rs : list VirtualMemorySimulator.translation) :
  coherent s ->
  Forall (fun c => 0 <= fst c / VirtualMemorySimulator.page_size s) calls ->
  translate_all s calls = Ok (rs, s') ->
  coherent s' /\
  VirtualMemorySimulator.page_size s' = VirtualMemorySimulator.page_size s.
Proof.
  revert s rs. induction calls as [|[va w] calls IH]; intros s rs Hc Hall H; simpl in H.
  - injection H as <- <-. auto.
  - inv_bind H as [[[pa pf] hit] s1] H1. inv_bind H as [rs2 s2] H2.
    injection H as <- <-.
    inversion Hall as [|? ? Hva Hall']; subst. simpl in Hva.
    destruct (translate_address_coherent _ _ _ _ _ _ _ Hc Hva H1) as (Hc1 & Hps & _).
    rewrite <- Hps in Hall'.
    destruct (IH _ _ Hc1 Hall' H2) as (Hc2 & Hps2).
    split; [exact Hc2 | congruence].
Qed.

(** What C1 and C3 say holds of every call in a run whose page numbers
    are all at least 0: after any such calls on a freshly built simulator,
    one more call leaves its page valid in the page table and mapped by
    the TLB to the frame of the returned address, and it reports a fault
    exactly when the page was not in [page_to_frame] before. *)
Lemma translations_consistent_without_negative_pages
      (num_pages num_frames page_size tlb_size : Z) (name : string)
      (refs : option (list Z)) (s0 s s' : VirtualMemorySimulator.t)
      (calls : list (Z * bool)) (rs : list VirtualMemorySimulator.translation)
      (va pa : Z) (w pf hit : bool) :
  VirtualMemorySimulator.init num_pages num_frames page_size tlb_size name refs
    = Ok s0 ->
  Forall (fun c => 0 <= fst c / page_size) (calls ++ [(va, w)]) ->
  translate_all s0 calls = Ok (rs, s) ->
  VirtualMemorySimulator.translate_address s va w = Ok ((pa, pf, hit), s') ->
  PageTable.is_valid (VirtualMemorySimulator.page_table s') (va / page_size)
    = Ok true /\
  PyDict.lookup (va / page_size) (TLB.cache (VirtualMemorySimulator.tlb s'))
    = Some (pa / page_size) /\
  pf = negb (PyDict.contains (va / page_size)
               (VirtualMemorySimulator.page_to_frame s)).
Proof.
  intros Hinit Hall Hrun Hcall.
  unfold VirtualMemorySimulator.init in Hinit.
  inv_bind Hinit as alg Halg. injection Hinit as <-.
  apply make_algorithm_tracked in Halg.
  pose proof (coherent_fresh num_pages num_frames page_size tlb_size alg name Halg)
    as Hc0.
  apply Forall_app in Hall. destruct Hall as (Hcalls & Hlast).
  inversion Hlast as [|? ? Hva _]; subst. simpl in Hva.
  destruct (translate_all_coherent _ _ _ _ Hc0 Hcalls Hrun) as (Hc & Hps).
  simpl in Hps. rewrite <- Hps in *.
  destruct (translate_address_coherent _ _ _ _ _ _ _ Hc Hva Hcall)
    as (_ & _ & Hvalid & Htlb & Hpf).
  auto.
Qed.

(** ** Pages at or above [num_pages] *)

Lemma update_entry_length (pt pt' : PageTable.t) (q : Z)
      (g : PageTableEntry.t -> PageTableEntry.t) :
  PageTable.update_entry pt q g = Ok pt' ->
  List.length (PageTable.entries pt') = List.length (PageTable.entries pt).
Proof.
  unfold PageTable.update_entry.
  destruct (PyList.norm (PageTable.entries pt) q) as [n|]; [|discriminate].
  intros H; injection H as <-. simpl.
  generalize (PageTable.entries pt). clear. intros l. revert n.
  induction l as [|x l IH]; intros n; destruct n; simpl; auto.
Qed.

Lemma translate_address_entries_length (s s' : VirtualMemorySimulator.t)
      (va : Z) (w : bool) (r : VirtualMemorySimulator.translation) :
  VirtualMemorySimulator.translate_address s va w = Ok (r, s') ->
  List.length (PageTable.entries (VirtualMemorySimulator.page_table s'))
  = List.length (PageTable.entries (VirtualMemorySimulator.page_table s)).
Proof.
  unfold VirtualMemorySimulator.translate_address. intros H.
  inv_bind H as page Hp. inv_bind H as offset Hoff.
  inv_bind H as [looked tl] Hlook.
  inv_bind H as [[[fr pf0] hit0] s1] Hmid.
  inv_bind H as pt Hupd. injection H as _ <-. simpl.
  apply update_entry_length in Hupd. rewrite Hupd. clear Hupd.
  destruct looked as [f|].
  - injection Hmid as _ _ _ <-. reflexivity.
  - inv_bind Hmid as v Hv. inv_bind Hmid as [[fr2 pf2] s2] Hsub.
    inv_bind Hmid as tl2 Hins. injection Hmid as _ _ _ <-. simpl.
    destruct (negb v).
    + inv_bind Hsub as [fr3 s3] Hh. injection Hsub as _ _ <-.
      unfold VirtualMemorySimulator._handle_page_fault in Hh.
      inv_bind Hh as [[o victim] alg] Ha.
      inv_bind Hh as [[[[f0 pt0] tl0] free] p2f] Hb.
      inv_bind Hh as pt' Hc. injection Hh as _ <-. simpl.
      apply update_entry_length in Hc. rewrite Hc.
      destruct victim as [v0|].
      * inv_bind Hb as fr1 Hfr. inv_bind Hb as pt1 Hinv.
        inv_bind Hb as tl1 Htl. inv_bind Hb as p2f1 Hdel.
        injection Hb as _ <- _ _ _. now apply update_entry_length in Hinv.
      * inv_bind Hb as [fr1 free1] Hpop. injection Hb as _ <- _ _ _. reflexivity.
    + inv_bind Hsub as ofr Hg. destruct ofr; [|discriminate].
      injection Hsub as _ _ <-. reflexivity.
Qed.

Lemma translate_all_entries_length (s s' : VirtualMemorySimulator.t)
      (calls : list (Z * bool)) (rs : list VirtualMemorySimulator.translation) :
  translate_all s calls = Ok (rs, s') ->
  List.length (PageTable.entries (VirtualMemorySimulator.page_table s'))
  = List.length (PageTable.entries (VirtualMemorySimulator.page_table s)).
Proof.
  revert s rs. induction calls as [|[va w] calls IH]; intros s rs H; simpl in H.
  - now injection H as _ <-.
  - inv_bind H as [r s1] H1. inv_bind H as [rs2 s2] H2. injection H as _ <-.
    apply translate_address_entries_length in H1. apply IH in H2. congruence.
Qed.

(** The half of C5 the code does honour: in a run without negative
    page numbers, a call whose page number is [num_pages] or more raises
    [IndexError]. *)
Lemma page_beyond_table_raises
      (num_pages num_frames page_size tlb_size : Z) (name : string)
      (refs : option (list Z)) (s0 s : VirtualMemorySimulator.t)
      (calls : list (Z * bool)) (rs : list VirtualMemorySimulator.translation)
      (va : Z) (w : bool) :
  VirtualMemorySimulator.init num_pages num_frames page_size tlb_size name refs
    = Ok s0 ->
  Forall (fun c => 0 <= fst c / page_size) calls ->
  translate_all s0 calls = Ok (rs, s) ->
  page_size <> 0 -> 0 <= va / page_size -> num_pages <= va / page_size ->
  VirtualMemorySimulator.translate_address s va w = Raise IndexError.
Proof.
  intros Hinit Hall Hrun Hps Hpage Hbig.
  unfold VirtualMemorySimulator.init in Hinit.
  inv_bind Hinit as alg Halg. injection Hinit as <-.
  apply make_algorithm_tracked in Halg.
  pose proof (coherent_fresh num_pages num_frames page_size tlb_size alg name Halg)
    as Hc0.
  destruct (translate_all_coherent _ _ _ _ Hc0 Hall Hrun) as ([_ Hag] & Hsize).
  apply translate_all_entries_length in Hrun. simpl in Hrun, Hsize.
  rewrite repeat_length in Hrun.
  assert (Hout : PyList.getitem
                   (PageTable.entries (VirtualMemorySimulator.page_table s))
                   (va / page_size) = Raise IndexError).
  { rewrite list_getitem_nonneg by exact Hpage.
    destruct (nth_error _ _) eqn:E; [|reflexivity].
    assert (nth_error (PageTable.entries (VirtualMemorySimulator.page_table s))
              (Z.to_nat (va / page_size)) <> None) by congruence.
    apply nth_error_Some in H. lia. }
  unfold VirtualMemorySimulator.translate_address. simpl.
  rewrite Hsize. unfold floordiv, pymod.
  destruct (page_size =? 0) eqn:E0; [apply Z.eqb_eq in E0; contradiction|]. simpl.
  unfold TLB.lookup, PyDict.contains.
  destruct (PyDict.lookup (va / page_size)
              (TLB.cache (VirtualMemorySimulator.tlb s))) as [f|] eqn:El.
  - apply (agree_tlb _ _ _ Hag) in El. apply (agree_map _ _ _ Hag) in El.
    destruct El as (_ & e & He & _). congruence.
  - simpl. unfold PageTable.is_valid. rewrite Hout. reflexivity.
Qed.

Lemma page_beyond_table_raises_example :
  VirtualMemorySimulator.translate_address fifo_simulator 40960 false
  = Raise IndexError.
Proof. reflexivity. Qed.

(** ** FIFO: the simulator follows the queue of resident pages *)

Lemma address_of_page (page ps : Z) :
  ps <> 0 -> floordiv (page * ps) ps = Ok page /\ pymod (page * ps) ps = Ok 0.
Proof.
  intros Hps. unfold floordiv, pymod.
  destruct (ps =? 0) eqn:E; [apply Z.eqb_eq in E; contradiction|].
  now rewrite Z.div_mul, Z.mod_mul by exact Hps.
Qed.

Lemma TLB_lookup_Some (tl : TLB.t) (p f : Z) :
  NoDup (PyDict.keys (TLB.cache tl)) ->
  PyDict.lookup p (TLB.cache tl) = Some f ->
  TLB.lookup tl p
  = Ok (Some f, TLB.mk (TLB.size tl) (PyDict.remove p (TLB.cache tl) ++ [(p, f)])
                       (TLB.hits tl + 1) (TLB.misses tl)).
Proof.
  intros Hnd Hl. unfold TLB.lookup, PyDict.contains, PyDict.move_to_end.
  rewrite Hl. simpl. unfold PyDict.getitem.
  now rewrite (lookup_move_to_end p p f _ Hnd Hl), Hl.
Qed.

Lemma TLB_lookup_None (tl : TLB.t) (p : Z) :
  PyDict.lookup p (TLB.cache tl) = None ->
  TLB.lookup tl p
  = Ok (None, TLB.mk (TLB.size tl) (TLB.cache tl) (TLB.hits tl) (TLB.misses tl + 1)).
Proof.
  intros Hl. unfold TLB.lookup, PyDict.contains. now rewrite Hl.
Qed.

Lemma TLB_insert_defined (tl : TLB.t) (p f : Z) :
  0 < TLB.size tl ->
  exists tl', TLB.insert tl p f = Ok tl' /\ TLB.size tl' = TLB.size tl.
Proof.
  intros Hsz. unfold TLB.insert, PyDict.contains, PyDict.move_to_end.
  destruct (PyDict.lookup p (TLB.cache tl)); simpl.
  - eexists. split; reflexivity.
  - destruct (TLB.size tl <=? PyDict.len (TLB.cache tl)) eqn:E.
    + apply Z.leb_le in E. unfold PyDict.len in E.
      destruct (TLB.cache tl) as [|x r]; [simpl in E; lia|]. simpl.
      eexists. split; reflexivity.
    + simpl. eexists. split; reflexivity.
Qed.

Lemma TLB_invalidate_defined (tl : TLB.t) (v : Z) :
  exists tl', TLB.invalidate tl v = Ok tl' /\ TLB.size tl' = TLB.size tl.
Proof.
  unfold TLB.invalidate, PyDict.delitem.
  destruct (PyDict.contains v (TLB.cache tl)); simpl; eexists; split; reflexivity.
Qed.

Lemma update_entry_in_range (pt : PageTable.t) (p : Z)
      (g : PageTableEntry.t -> PageTableEntry.t) :
  0 <= p < PyList.len (PageTable.entries pt) ->
  exists pt', PageTable.update_entry pt p g = Ok pt'.
Proof.
  intros Hp. unfold PageTable.update_entry, PyList.norm.
  destruct (0 <=? p) eqn:E1; [|apply Z.leb_gt in E1; lia].
  destruct (p <? PyList.len (PageTable.entries pt)) eqn:E2;
    [|apply Z.ltb_ge in E2; lia].
  simpl. eexists; reflexivity.
Qed.

Lemma FIFO_access_page_full (nf page time v : Z) (q : list Z) (w : bool) :
  PyList.contains page (v :: q) = false ->
  nf <= PyList.len (v :: q) ->
  FIFO.access_page (FIFO.mk nf (v :: q) (v :: q)) page time w
  = Ok ((true, Some v), FIFO.mk nf (q ++ [page]) (q ++ [page])).
Proof.
  intros Hmem Hfull. unfold FIFO.access_page, FIFO.is_page_in_memory.
  cbn [FIFO.frames FIFO.queue FIFO.num_frames]. rewrite Hmem.
  apply Z.leb_le in Hfull. rewrite Hfull.
  unfold FIFO.get_victim. cbn [FIFO.queue].
  assert (Hg : PyList.getitem (v :: q) 0 = Ok v).
  { rewrite list_getitem_nonneg by lia. reflexivity. }
  rewrite Hg. cbn [bind].
  unfold PyList.remove. cbn [PyList.remove_first FIFO.frames FIFO.queue].
  rewrite Z.eqb_refl. reflexivity.
Qed.

Lemma FIFO_access_page_room (nf page time : Z) (q : list Z) (w : bool) :
  PyList.contains page q = false ->
  PyList.len q < nf ->
  FIFO.access_page (FIFO.mk nf q q) page time w
  = Ok ((true, None), FIFO.mk nf (q ++ [page]) (q ++ [page])).
Proof.
  intros Hmem Hroom. unfold FIFO.access_page, FIFO.is_page_in_memory.
  cbn [FIFO.frames FIFO.queue FIFO.num_frames]. rewrite Hmem.
  apply Z.leb_gt in Hroom. rewrite Hroom. reflexivity.
Qed.

Lemma fifo_refines_coherent (s : VirtualMemorySimulator.t) (q : list Z) :
  fifo_refines s q -> coherent s.
Proof.
  intros H. split; [|apply (fr_agree _ _ H)].
  rewrite (fr_alg _ _ H). simpl. intros p Hp.
  apply in_app_or in Hp. destruct (fr_range _ _ H p); [tauto | assumption].
Qed.

Lemma len_nonneg {A : Type} (l : list A) : 0 <= PyList.len l.
Proof. unfold PyList.len. lia. Qed.

Lemma len_snoc {A : Type} (l : list A) (x : A) :
  PyList.len (l ++ [x]) = PyList.len l + 1.
Proof. unfold PyList.len. rewrite length_app. simpl. lia. Qed.

Lemma len_cons {A : Type} (l : list A) (x : A) :
  PyList.len (x :: l) = PyList.len l + 1.
Proof. unfold PyList.len. simpl. lia. Qed.

Lemma update_entry_len (pt pt' : PageTable.t) (q : Z)
      (g : PageTableEntry.t -> PageTableEntry.t) :
  PageTable.update_entry pt q g = Ok pt' ->
  PyList.len (PageTable.entries pt') = PyList.len (PageTable.entries pt).
Proof.
  intros H. unfold PyList.len. now rewrite (update_entry_length _ _ _ _ H).
Qed.

Ltac do_update pt' Hpt' :=
  match goal with
  | |- context [PageTable.update_entry ?pt ?p ?g] =>
      let H := fresh "Hin_range" in
      assert (H : 0 <= p < PyList.len (PageTable.entries pt));
      [ | destruct (update_entry_in_range pt p g H) as [pt' Hpt'];
          rewrite Hpt'; clear H ]
  end.

Ltac do_insert tl' Htl' Hsz' :=
  match goal with
  | |- context [TLB.insert ?tl ?p ?f] =>
      let H := fresh "Hpos" in
      assert (H : 0 < TLB.size tl);
      [ | destruct (TLB_insert_defined tl p f H) as (tl' & Htl' & Hsz');
          rewrite Htl'; clear H ]
  end.

Ltac step_simpl :=
  cbn [bind fst snd
       VirtualMemorySimulator.tick VirtualMemorySimulator.with_tlb
       VirtualMemorySimulator.count_fault VirtualMemorySimulator.with_page_table
       VirtualMemorySimulator.num_pages VirtualMemorySimulator.num_frames
       VirtualMemorySimulator.page_size VirtualMemorySimulator.page_table
       VirtualMemorySimulator.tlb VirtualMemorySimulator.algorithm
       VirtualMemorySimulator.algorithm_name VirtualMemorySimulator.page_faults
       VirtualMemorySimulator.memory_accesses VirtualMemorySimulator.tlb_hits
       VirtualMemorySimulator.tlb_misses VirtualMemorySimulator.current_time
       VirtualMemorySimulator.free_frames VirtualMemorySimulator.page_to_frame
       TLB.size TLB.cache TLB.hits TLB.misses] in *.

(** One reference on a state that follows the queue: the call returns,
    reports the fault [fifo_step] predicts, and the components of the new
    state are those of the new queue. *)
Lemma fifo_translate_defined (s : VirtualMemorySimulator.t) (q : list Z)
      (page : Z) (w : bool) :
  fifo_refines s q ->
  0 < VirtualMemorySimulator.num_frames s ->
  0 <= page < PyList.len (PageTable.entries (VirtualMemorySimulator.page_table s)) ->
  exists pa hit s',
    VirtualMemorySimulator.translate_address s
      (page * VirtualMemorySimulator.page_size s) w
    = Ok ((pa, snd (fifo_step (VirtualMemorySimulator.num_frames s) q page), hit), s') /\
    VirtualMemorySimulator.algorithm s'
    = PageReplacementAlgorithm.AlgFIFO
        (FIFO.mk (VirtualMemorySimulator.num_frames s)
           (fst (fifo_step (VirtualMemorySimulator.num_frames s) q page))
           (fst (fifo_step (VirtualMemorySimulator.num_frames s) q page))) /\
    (forall p, In p (fst (fifo_step (VirtualMemorySimulator.num_frames s) q page))
               <-> PyDict.lookup p (VirtualMemorySimulator.page_to_frame s') <> None) /\
    PyList.len (VirtualMemorySimulator.free_frames s')
    + PyList.len (fst (fifo_step (VirtualMemorySimulator.num_frames s) q page))
    = VirtualMemorySimulator.num_frames s /\
    TLB.size (VirtualMemorySimulator.tlb s') = TLB.size (VirtualMemorySimulator.tlb s) /\
    VirtualMemorySimulator.num_frames s' = VirtualMemorySimulator.num_frames s /\
    PyList.len (PageTable.entries (VirtualMemorySimulator.page_table s'))
    = PyList.len (PageTable.entries (VirtualMemorySimulator.page_table s)) /\
    VirtualMemorySimulator.page_faults s'
    = VirtualMemorySimulator.page_faults s
      + (if snd (fifo_step (VirtualMemorySimulator.num_frames s) q page)
         then 1 else 0).
Proof.
  intros [Halg Hnd Hrange Hag Hmap Hfree Hsz Hps] Hnf Hpage.
  destruct (address_of_page page _ Hps) as (Hdiv & Hmod).
  pose proof (agree_tlb_nodup _ _ _ Hag) as Htnd.
  unfold VirtualMemorySimulator.translate_address. step_simpl.
  rewrite Hdiv, Hmod. step_simpl.
  destruct (PyDict.lookup page (TLB.cache (VirtualMemorySimulator.tlb s)))
    as [f|] eqn:El.
  - (* TLB hit *)
    rewrite (TLB_lookup_Some _ _ _ Htnd El). step_simpl.
    destruct (update_entry_in_range (VirtualMemorySimulator.page_table s) page
                (fun e =>
                   PageTableEntry.mk (PageTableEntry.valid e)
                     (PageTableEntry.frame_number e) true
                     (if w then true else PageTableEntry.modified e)
                     (VirtualMemorySimulator.current_time s + 1)
                     (PageTableEntry.access_count e + 1)) Hpage) as [pt' Hpt'].
    unfold PageTable.update_access. rewrite Hpt'. step_simpl.
    assert (Hin : In page q).
    { apply Hmap. rewrite (agree_tlb _ _ _ Hag _ _ El). discriminate. }
    unfold fifo_step. rewrite (proj2 (contains_In page q) Hin). simpl.
    eexists. eexists. eexists. split; [reflexivity|]. simpl.
    split; [exact Halg|]. split; [exact Hmap|]. split; [exact Hfree|].
    split; [reflexivity|]. split; [reflexivity|].
    split; [now apply update_entry_len in Hpt' | lia].
  - (* TLB miss *)
    rewrite (TLB_lookup_None _ _ El). step_simpl.
    destruct (list_getitem_in_range _ _ Hpage) as [e He].
    unfold PageTable.is_valid at 1. rewrite He. step_simpl.
    destruct (PageTableEntry.valid e) eqn:Ev; cbn [negb].
    + (* the page table has it *)
      assert (Hvalid : PageTable.is_valid (VirtualMemorySimulator.page_table s) page
                       = Ok true)
        by (apply is_valid_getitem; exists e; auto).
      pose proof (agree_valid _ _ _ Hag page (proj1 Hpage) Hvalid) as Hin.
      destruct (PyDict.lookup page (VirtualMemorySimulator.page_to_frame s))
        as [f0|] eqn:Ef0; [|congruence].
      destruct (agree_map _ _ _ Hag _ _ Ef0) as (_ & e' & He' & _ & Hef).
      rewrite He in He'. injection He' as <-.
      unfold PageTable.get_frame_number. rewrite Hvalid. step_simpl.
      cbn [negb]. rewrite He. step_simpl. rewrite Hef. step_simpl.
      do_insert tl2 Htl2 Hsz2; [exact Hsz|]. step_simpl.
      unfold PageTable.update_access.
      do_update pt' Hpt'; [exact Hpage|]. step_simpl.
      assert (Hq : In page q) by (apply Hmap; congruence).
      unfold fifo_step. rewrite (proj2 (contains_In page q) Hq). simpl.
      eexists. eexists. eexists. split; [reflexivity|]. simpl.
      split; [exact Halg|]. split; [exact Hmap|]. split; [exact Hfree|].
      split; [exact Hsz2|]. split; [reflexivity|].
      split; [now apply update_entry_len in Hpt' | lia].
    + (* page fault *)
      assert (Hnin : ~ In page q).
      { intros Hq. apply Hmap in Hq.
        destruct (PyDict.lookup page (VirtualMemorySimulator.page_to_frame s))
          as [f0|] eqn:Ef0; [|congruence].
        destruct (agree_map _ _ _ Hag _ _ Ef0) as (_ & e' & He' & Hev' & _).
        congruence. }
      pose proof (proj2 (contains_false page q) Hnin) as Hc.
      unfold VirtualMemorySimulator._handle_page_fault. step_simpl.
      rewrite Halg.
      unfold PageReplacementAlgorithm.access_page, PageReplacementAlgorithm.lift_alg.
      unfold fifo_step. rewrite Hc.
      destruct (VirtualMemorySimulator.num_frames s <=? PyList.len q) eqn:Efull.
      * (* no free frame: the head of the queue goes *)
        apply Z.leb_le in Efull.
        destruct q as [|v q']; [unfold PyList.len in Efull; simpl in Efull; lia|].
        rewrite (FIFO_access_page_full _ _ _ _ _ _ Hc Efull). step_simpl.
        assert (Hv : PyDict.lookup v (VirtualMemorySimulator.page_to_frame s) <> None)
          by (apply Hmap; now left).
        destruct (PyDict.lookup v (VirtualMemorySimulator.page_to_frame s))
          as [fv|] eqn:Efv; [|congruence].
        unfold PyDict.getitem. rewrite Efv. step_simpl.
        unfold PageTable.invalidate.
        do_update pt1 Hpt1; [apply Hrange; now left|]. step_simpl.
        destruct (TLB_invalidate_defined
                    (TLB.mk (TLB.size (VirtualMemorySimulator.tlb s))
                       (TLB.cache (VirtualMemorySimulator.tlb s))
                       (TLB.hits (VirtualMemorySimulator.tlb s))
                       (TLB.misses (VirtualMemorySimulator.tlb s) + 1)) v)
          as (tl1 & Htl1 & Hsz1).
        rewrite Htl1. step_simpl.
        unfold PyDict.delitem. rewrite (dict_contains_true _ _ _ Efv). step_simpl.
        unfold PageTable.set_frame.
        do_update pt2 Hpt2; [now rewrite (update_entry_len _ _ _ _ Hpt1)|].
        step_simpl.
        do_insert tl2 Htl2 Hsz2; [now rewrite Hsz1|]. step_simpl.
        unfold PageTable.update_access.
        do_update pt3 Hpt3;
          [now rewrite (update_entry_len _ _ _ _ Hpt2), (update_entry_len _ _ _ _ Hpt1)|].
        step_simpl.
        eexists. eexists. eexists. split; [reflexivity|]. simpl.
        inversion Hnd as [|? ? Hvq Hnd']; subst.
        split; [reflexivity|]. split; [|split; [|split; [|split; [|split]]]].
        -- intros p. rewrite in_app_iff, lookup_setitem_iff.
           rewrite lookup_remove_iff by apply (agree_map_nodup _ _ _ Hag).
           rewrite <- Hmap. simpl.
           split.
           ++ intros [Hp|[<-|[]]]; [right; split; [congruence | now right] | now left].
           ++ intros [->|[Hne [<-|Hp]]]; [right; now left | congruence | now left].
        -- rewrite len_snoc. rewrite len_cons in Hfree. lia.
        -- simpl in Hsz1. congruence.
        -- reflexivity.
        -- rewrite (update_entry_len _ _ _ _ Hpt3), (update_entry_len _ _ _ _ Hpt2).
           apply (update_entry_len _ _ _ _ Hpt1).
        -- lia.
      * (* a free frame is left *)
        apply Z.leb_gt in Efull.
        rewrite (FIFO_access_page_room _ _ _ _ _ Hc Efull). step_simpl.
        destruct (VirtualMemorySimulator.free_frames s) as [|fr free] eqn:Efree.
        { unfold PyList.len in Hfree at 1. simpl in Hfree. lia. }
        cbn [PyList.pop0]. step_simpl.
        unfold PageTable.set_frame.
        do_update pt2 Hpt2; [exact Hpage|]. step_simpl.
        do_insert tl2 Htl2 Hsz2; [exact Hsz|]. step_simpl.
        unfold PageTable.update_access.
        do_update pt3 Hpt3; [now rewrite (update_entry_len _ _ _ _ Hpt2)|].
        step_simpl.
        eexists. eexists. eexists. split; [reflexivity|]. simpl.
        split; [reflexivity|]. split; [|split; [|split; [|split; [|split]]]].
        -- intros p. rewrite in_app_iff, lookup_setitem_iff, <- Hmap. simpl.
           split; [intros [Hp|[<-|[]]]; auto | intros [->|Hp]; auto].
        -- rewrite len_snoc. rewrite len_cons in Hfree. lia.
        -- simpl in Hsz2. congruence.
        -- reflexivity.
        -- rewrite (update_entry_len _ _ _ _ Hpt3).
           apply (update_entry_len _ _ _ _ Hpt2).
        -- lia.
Qed.

Lemma fifo_step_incl (nf page p : Z) (q : list Z) :
  In p (fst (fifo_step nf q page)) -> p = page \/ In p q.
Proof.
  unfold fifo_step. destruct (PyList.contains page q); simpl; [auto|].
  destruct (nf <=? PyList.len q); simpl; rewrite in_app_iff; simpl.
  - intros [Hp|[<-|[]]]; auto. right. destruct q; [contradiction | now right].
  - intros [Hp|[<-|[]]]; auto.
Qed.

Lemma fifo_step_nodup (nf page : Z) (q : list Z) :
  NoDup q -> NoDup (fst (fifo_step nf q page)).
Proof.
  intros Hnd. unfold fifo_step.
  destruct (PyList.contains page q) eqn:Hc; simpl; [exact Hnd|].
  apply contains_false in Hc.
  destruct (nf <=? PyList.len q); simpl.
  - apply NoDup_snoc.
    + destruct q; [constructor | now inversion Hnd].
    + intros Hin. apply Hc. destruct q; [contradiction | now right].
  - now apply NoDup_snoc.
Qed.

Lemma fifo_translate_refines (s : VirtualMemorySimulator.t) (q : list Z)
      (page : Z) (w : bool) :
  fifo_refines s q ->
  0 < VirtualMemorySimulator.num_frames s ->
  0 <= page < PyList.len (PageTable.entries (VirtualMemorySimulator.page_table s)) ->
  exists r s',
    VirtualMemorySimulator.translate_address s
      (page * VirtualMemorySimulator.page_size s) w = Ok (r, s') /\
    fifo_refines s' (fst (fifo_step (VirtualMemorySimulator.num_frames s) q page)) /\
    VirtualMemorySimulator.num_frames s' = VirtualMemorySimulator.num_frames s /\
    VirtualMemorySimulator.page_size s' = VirtualMemorySimulator.page_size s /\
    PyList.len (PageTable.entries (VirtualMemorySimulator.page_table s'))
    = PyList.len (PageTable.entries (VirtualMemorySimulator.page_table s)) /\
    VirtualMemorySimulator.page_faults s'
    = VirtualMemorySimulator.page_faults s
      + (if snd (fifo_step (VirtualMemorySimulator.num_frames s) q page)
         then 1 else 0).
Proof.
  intros Href Hnf Hpage.
  destruct (fifo_translate_defined s q page w Href Hnf Hpage)
    as (pa & hit & s' & Heq & Halg & Hmap & Hfree & Hsz & Hnf' & Hlen & Hfaults).
  pose proof (fr_page_size _ _ Href) as Hps.
  assert (Hdiv : 0 <= page * VirtualMemorySimulator.page_size s
                       / VirtualMemorySimulator.page_size s)
    by (rewrite Z.div_mul by exact Hps; lia).
  destruct (translate_address_coherent _ _ _ _ _ _ _
              (fifo_refines_coherent _ _ Href) Hdiv Heq) as ([_ Hag'] & Hps' & _).
  eexists. exists s'. split; [exact Heq|].
  split; [|auto].
  constructor.
  - now rewrite Hnf'.
  - apply fifo_step_nodup, (fr_nodup _ _ Href).
  - intros p Hp. rewrite Hlen. apply fifo_step_incl in Hp.
    destruct Hp as [->|Hp]; [exact Hpage | now apply (fr_range _ _ Href)].
  - exact Hag'.
  - exact Hmap.
  - now rewrite Hnf'.
  - rewrite Hsz. apply (fr_tlb _ _ Href).
  - now rewrite Hps'.
Qed.

Lemma fifo_run_trace_from (trace : list Z) (s : VirtualMemorySimulator.t)
      (q : list Z) (i : Z) (writes : list Z) :
  fifo_refines s q ->
  0 < VirtualMemorySimulator.num_frames s ->
  Forall (fun page =>
            0 <= page
            < PyList.len (PageTable.entries (VirtualMemorySimulator.page_table s)))
         trace ->
  exists s',
    VirtualMemorySimulator.run_trace_from s i trace writes = Ok s' /\
    VirtualMemorySimulator.page_faults s'
    = VirtualMemorySimulator.page_faults s
      + fifo_faults (VirtualMemorySimulator.num_frames s) q trace.
Proof.
  revert s q i. induction trace as [|page rest IH]; intros s q i Href Hnf Hall.
  - exists s. simpl. split; [reflexivity | lia].
  - inversion Hall as [|? ? Hpage Hrest]; subst.
    destruct (fifo_translate_refines s q page (PyList.contains i writes)
                Href Hnf Hpage)
      as (r & s1 & Heq & Href1 & Hnf1 & Hps1 & Hlen1 & Hfaults1).
    simpl. rewrite Heq. simpl.
    rewrite <- Hlen1 in Hrest. rewrite <- Hnf1 in Hnf.
    destruct (IH s1 _ (i + 1) Href1 Hnf Hrest) as (s' & Hrun & Hfaults').
    exists s'. split; [exact Hrun|].
    rewrite Hfaults', Hfaults1, Hnf1.
    destruct (fifo_step (VirtualMemorySimulator.num_frames s) q page) as [q' f].
    simpl. lia.
Qed.

Lemma range_len (n : Z) : 0 <= n -> PyList.len (PyList.range n) = n.
Proof.
  intros Hn. unfold PyList.len, PyList.range.
  rewrite length_map, length_seq. lia.
Qed.

Lemma fifo_refines_fresh (num_pages num_frames page_size tlb_size : Z)
      (name : string) :
  0 <= num_frames -> 0 < tlb_size -> page_size <> 0 ->
  fifo_refines
    (fresh num_pages num_frames page_size tlb_size
       (PageReplacementAlgorithm.AlgFIFO (FIFO.init num_frames)) name) [].
Proof.
  intros Hnf Hts Hps.
  destruct (coherent_fresh num_pages num_frames page_size tlb_size
              (PageReplacementAlgorithm.AlgFIFO (FIFO.init num_frames)) name
              eq_refl) as [_ Hag].
  constructor; simpl; auto.
  - constructor.
  - intros p [].
  - intros p. split; [intros [] | congruence].
  - rewrite range_len by exact Hnf. unfold PyList.len. simpl. lia.
Qed.

(** C7. The FIFO simulator with three frames, run over
    [1,2,3,4,1,2,5,1,2,3,4,5] (each page translated at offset 0), counts
    exactly nine page faults: for every page table that holds the pages
    (more than five pages), every page size but 0, every TLB with at least
    one entry, and whichever references are writes. *)
Theorem fifo_scenario_A_nine_faults (num_pages page_size tlb_size : Z)
        (write_operations : option (list Z)) :
  5 < num_pages -> page_size <> 0 -> 0 < tlb_size ->
  exists s s',
    VirtualMemorySimulator.init num_pages 3 page_size tlb_size "FIFO" None = Ok s /\
    VirtualMemorySimulator.run_trace s scenario_A write_operations = Ok s' /\
    VirtualMemorySimulator.st_page_faults (VirtualMemorySimulator.get_statistics s')
    = 9.
Proof.
  intros Hnp Hps Hts.
  pose proof (fifo_refines_fresh num_pages 3 page_size tlb_size "FIFO"
                ltac:(lia) Hts Hps) as Href.
  eexists. 
  destruct (fifo_run_trace_from scenario_A _ [] 0
              (match write_operations with Some w => w | None => [] end)
              Href ltac:(simpl; lia)) as (s' & Hrun & Hfaults).
  - simpl. unfold PyList.len. rewrite repeat_length.
    unfold scenario_A. repeat constructor; lia.
  - exists s'. split; [reflexivity|]. split; [exact Hrun|].
    simpl. rewrite Hfaults. reflexivity.
Qed.

Lemma fifo_scenario_A_nine_faults_witness :
  exists s s',
    VirtualMemorySimulator.init 10 3 4096 4 "FIFO" None = Ok s /\
    VirtualMemorySimulator.run_trace s scenario_A None = Ok s' /\
    VirtualMemorySimulator.st_page_faults (VirtualMemorySimulator.get_statistics s')
    = 9.
Proof.
  apply (fifo_scenario_A_nine_faults 10 4096 4 None).
  - reflexivity.
  - discriminate.
  - reflexivity.
Defined.

(** * Further properties of the code *)

(** ** The page table on its own *)

Lemma update_nth_length {A : Type} (n : nat) (g : A -> A) (l : list A) :
  List.length (PyList.update_nth n g l) = List.length l.
Proof.
  revert n. induction l as [|x l IH]; intros n; destruct n; simpl; auto.
Qed.

Lemma norm_update_nth {A : Type} (n : nat) (g : A -> A) (l : list A) (p : Z) :
  PyList.norm (PyList.update_nth n g l) p = PyList.norm l p.
Proof.
  unfold PyList.norm, PyList.len. now rewrite update_nth_length.
Qed.

Lemma norm_in_range {A : Type} (l : list A) (p : Z) (n : nat) :
  PyList.norm l p = Some n -> (n < List.length l)%nat.
Proof.
  unfold PyList.norm, PyList.len.
  destruct ((0 <=? p) && (p <? Z.of_nat (List.length l))) eqn:E1.
  - intros H; injection H as <-. apply andb_prop in E1. destruct E1 as [E1 E2].
    apply Z.leb_le in E1. apply Z.ltb_lt in E2. lia.
  - destruct ((- Z.of_nat (List.length l) <=? p) && (p <? 0)) eqn:E2; [|discriminate].
    intros H; injection H as <-. apply andb_prop in E2. destruct E2 as [E2 E3].
    apply Z.leb_le in E2. apply Z.ltb_lt in E3. lia.
Qed.

Lemma update_entry_same (pt pt' : PageTable.t) (p : Z)
      (g : PageTableEntry.t -> PageTableEntry.t) :
  PageTable.update_entry pt p g = Ok pt' ->
  exists e, PyList.getitem (PageTable.entries pt) p = Ok e /\
            PyList.getitem (PageTable.entries pt') p = Ok (g e).
Proof.
  unfold PageTable.update_entry, PyList.getitem.
  destruct (PyList.norm (PageTable.entries pt) p) as [n|] eqn:En; [|discriminate].
  intros H; injection H as <-. simpl.
  rewrite norm_update_nth, En, nth_error_update_nth, Nat.eqb_refl.
  pose proof (norm_in_range _ _ _ En) as Hn.
  destruct (nth_error (PageTable.entries pt) n) as [e|] eqn:Ee.
  - exists e. auto.
  - apply nth_error_None in Ee. lia.
Qed.

Lemma update_entry_again (pt pt' : PageTable.t) (p : Z)
      (g g' : PageTableEntry.t -> PageTableEntry.t) :
  PageTable.update_entry pt p g = Ok pt' ->
  exists pt'', PageTable.update_entry pt' p g' = Ok pt''.
Proof.
  unfold PageTable.update_entry.
  destruct (PyList.norm (PageTable.entries pt) p) as [n|] eqn:En; [|discriminate].
  intros H; injection H as <-. simpl. rewrite norm_update_nth, En.
  eexists; reflexivity.
Qed.

(** X1. Whatever index [set_frame] accepts, the page is afterwards valid
    and [get_frame_number] gives back the frame that was set;
    [invalidate] on the same page then succeeds and leaves the page
    invalid with no frame. *)
Theorem PageTable_set_frame_round_trip (pt pt' : PageTable.t) (page frame : Z) :
  PageTable.set_frame pt page frame = Ok pt' ->
  PageTable.is_valid pt' page = Ok true /\
  PageTable.get_frame_number pt' page = Ok (Some frame) /\
  exists pt'',
    PageTable.invalidate pt' page = Ok pt'' /\
    PageTable.is_valid pt'' page = Ok false /\
    PageTable.get_frame_number pt'' page = Ok None.
Proof.
  intros Hset. unfold PageTable.set_frame in Hset.
  destruct (update_entry_same _ _ _ _ Hset) as (e & _ & He').
  assert (Hv : PageTable.is_valid pt' page = Ok true).
  { unfold PageTable.is_valid. rewrite He'. reflexivity. }
  split; [exact Hv|]. split.
  - unfold PageTable.get_frame_number. rewrite Hv. simpl. rewrite He'. reflexivity.
  - unfold PageTable.invalidate.
    destruct (update_entry_again _ _ _ _
                (fun e0 => PageTableEntry.mk false None
                             (PageTableEntry.referenced e0)
                             (PageTableEntry.modified e0)
                             (PageTableEntry.last_access_time e0)
                             (PageTableEntry.access_count e0)) Hset)
      as [pt'' Hinv].
    exists pt''. split; [exact Hinv|].
    destruct (update_entry_same _ _ _ _ Hinv) as (e1 & _ & He1).
    assert (Hv' : PageTable.is_valid pt'' page = Ok false).
    { unfold PageTable.is_valid. rewrite He1. reflexivity. }
    split; [exact Hv'|].
    unfold PageTable.get_frame_number. rewrite Hv'. reflexivity.
Qed.

Lemma PageTable_set_frame_round_trip_witness :
  PageTable.is_valid loaded_table 1 = Ok true /\
  PageTable.get_frame_number loaded_table 1 = Ok (Some 7) /\
  exists pt'',
    PageTable.invalidate loaded_table 1 = Ok pt'' /\
    PageTable.is_valid pt'' 1 = Ok false /\
    PageTable.get_frame_number pt'' 1 = Ok None.
Proof.
  apply (PageTable_set_frame_round_trip (PageTable.init 3) loaded_table 1 7).
  vm_compute. reflexivity.
Defined.

(** X2. On a page table whose list has [num_pages] entries, [get_entry]
    raises [ValueError] for every page number from [num_pages] up and
    returns the entry of the page for 0 to [num_pages - 1]; its guard has
    no lower bound, so a page number from [-num_pages] to -1 is answered
    with the entry of page [num_pages + page_number], and only below that
    does the list raise [IndexError]. *)
Theorem PageTable_get_entry_bounds (pt : PageTable.t) (page : Z) :
  PyList.len (PageTable.entries pt) = PageTable.num_pages pt ->
  (PageTable.num_pages pt <= page ->
   PageTable.get_entry pt page = Raise ValueError) /\
  (0 <= page < PageTable.num_pages pt ->
   exists e, PageTable.get_entry pt page = Ok e /\
             nth_error (PageTable.entries pt) (Z.to_nat page) = Some e) /\
  (- PageTable.num_pages pt <= page < 0 ->
   exists e, PageTable.get_entry pt page = Ok e /\
             PageTable.get_entry pt (PageTable.num_pages pt + page) = Ok e) /\
  (page < - PageTable.num_pages pt ->
   PageTable.get_entry pt page = Raise IndexError).
Proof.
  intros Hlen. unfold PageTable.get_entry. repeat split.
  - intros Hp. apply Z.leb_le in Hp. now rewrite Hp.
  - intros Hp.
    destruct (PageTable.num_pages pt <=? page) eqn:E; [apply Z.leb_le in E; lia|].
    rewrite list_getitem_nonneg by lia.
    destruct (nth_error (PageTable.entries pt) (Z.to_nat page)) as [e|] eqn:Ee.
    + exists e. auto.
    + apply nth_error_None in Ee. unfold PyList.len in Hlen. lia.
  - intros Hp.
    destruct (PageTable.num_pages pt <=? page) eqn:E; [apply Z.leb_le in E; lia|].
    destruct (PageTable.num_pages pt <=? PageTable.num_pages pt + page) eqn:E';
      [apply Z.leb_le in E'; lia|].
    rewrite (list_getitem_nonneg _ (PageTable.num_pages pt + page)) by lia.
    unfold PyList.getitem, PyList.norm. rewrite Hlen.
    destruct (0 <=? page) eqn:E0; [apply Z.leb_le in E0; lia|]. simpl.
    destruct (- PageTable.num_pages pt <=? page) eqn:E1;
      [|apply Z.leb_gt in E1; lia].
    destruct (page <? 0) eqn:E2; [|apply Z.ltb_ge in E2; lia]. simpl.
    destruct (nth_error (PageTable.entries pt)
                (Z.to_nat (PageTable.num_pages pt + page))) as [e|] eqn:Ee.
    + exists e. auto.
    + apply nth_error_None in Ee. unfold PyList.len in Hlen. lia.
  - intros Hp.
    destruct (PageTable.num_pages pt <=? page) eqn:E;
      [apply Z.leb_le in E; pose proof (len_nonneg (PageTable.entries pt)); lia|].
    unfold PyList.getitem, PyList.norm. rewrite Hlen.
    destruct (page <? PageTable.num_pages pt) eqn:E0.
    + destruct (0 <=? page) eqn:E1;
        [apply Z.leb_le in E1; pose proof (len_nonneg (PageTable.entries pt)); lia|].
      simpl. destruct (- PageTable.num_pages pt <=? page) eqn:E2;
        [apply Z.leb_le in E2; lia | reflexivity].
    + rewrite andb_false_r.
      destruct (- PageTable.num_pages pt <=? page) eqn:E2;
        [apply Z.leb_le in E2; lia | reflexivity].
Qed.

Lemma PageTable_get_entry_bounds_witness :
  (PageTable.num_pages loaded_table <= -1 ->
   PageTable.get_entry loaded_table (-1) = Raise ValueError) /\
  (0 <= -1 < PageTable.num_pages loaded_table ->
   exists e, PageTable.get_entry loaded_table (-1) = Ok e /\
             nth_error (PageTable.entries loaded_table) (Z.to_nat (-1)) = Some e) /\
  (- PageTable.num_pages loaded_table <= -1 < 0 ->
   exists e, PageTable.get_entry loaded_table (-1) = Ok e /\
             PageTable.get_entry loaded_table
               (PageTable.num_pages loaded_table + -1) = Ok e) /\
  (-1 < - PageTable.num_pages loaded_table ->
   PageTable.get_entry loaded_table (-1) = Raise IndexError).
Proof.
  apply (PageTable_get_entry_bounds loaded_table (-1)). reflexivity.
Defined.

(** ** The usage fields of the page table *)

Lemma update_entry_getitem_inv (pt pt' : PageTable.t) (q p : Z)
      (g : PageTableEntry.t -> PageTableEntry.t) (e' : PageTableEntry.t) :
  0 <= q -> 0 <= p ->
  PageTable.update_entry pt q g = Ok pt' ->
  PyList.getitem (PageTable.entries pt') p = Ok e' ->
  exists e, PyList.getitem (PageTable.entries pt) p = Ok e /\
            e' = if p =? q then g e else e.
Proof.
  intros Hq Hp Hupd He'.
  rewrite (update_entry_getitem _ _ _ _ _ Hq Hp Hupd) in He'.
  destruct (p =? q).
  - inv_bind He' as e He. injection He' as <-. now exists e.
  - now exists e'.
Qed.

Lemma handle_page_fault_usage (s s1 : VirtualMemorySimulator.t)
      (page fr p : Z) (w : bool) (e1 : PageTableEntry.t) :
  coherent s -> 0 <= page -> 0 <= p ->
  VirtualMemorySimulator._handle_page_fault s page w = Ok (fr, s1) ->
  PyList.getitem (PageTable.entries (VirtualMemorySimulator.page_table s1)) p
    = Ok e1 ->
  exists e,
    PyList.getitem (PageTable.entries (VirtualMemorySimulator.page_table s)) p
      = Ok e /\ usage e1 = usage e.
Proof.
  intros [Htr _] Hpage Hp H He1.
  unfold VirtualMemorySimulator._handle_page_fault in H.
  inv_bind H as [[pf victim] alg] Hacc.
  apply access_page_tracked in Hacc. destruct Hacc as (Hvic & _).
  inv_bind H as [[[[fr0 pt] tl] free] p2f] Hsel.
  inv_bind H as pt2 Hset. injection H as _ <-. simpl in He1.
  unfold PageTable.set_frame in Hset.
  destruct (update_entry_getitem_inv _ _ _ _ _ _ Hpage Hp Hset He1)
    as (e2 & He2 & ->).
  assert (Hpt : exists e,
             PyList.getitem (PageTable.entries (VirtualMemorySimulator.page_table s)) p
             = Ok e /\ usage e2 = usage e).
  { destruct victim as [v|].
    - inv_bind Hsel as fr1 Hfr. inv_bind Hsel as pt1 Hinv.
      inv_bind Hsel as tl1 Htl. inv_bind Hsel as p2f1 Hdel.
      injection Hsel as _ <- _ _ _.
      assert (Hv : 0 <= v) by (apply Htr, Hvic; reflexivity).
      unfold PageTable.invalidate in Hinv.
      destruct (update_entry_getitem_inv _ _ _ _ _ _ Hv Hp Hinv He2)
        as (e & He & ->).
      exists e. split; [exact He|]. now destruct (p =? v).
    - inv_bind Hsel as [fr1 free1] Hpop. injection Hsel as _ <- _ _ _.
      now exists e2. }
  destruct Hpt as (e & He & Hu). exists e. split; [exact He|].
  rewrite <- Hu. now destruct (p =? page).
Qed.

Lemma translate_address_usage (s s' : VirtualMemorySimulator.t)
      (va p : Z) (w : bool) (r : VirtualMemorySimulator.translation)
      (e' : PageTableEntry.t) :
  coherent s ->
  0 <= va / VirtualMemorySimulator.page_size s -> 0 <= p ->
  VirtualMemorySimulator.translate_address s va w = Ok (r, s') ->
  PyList.getitem (PageTable.entries (VirtualMemorySimulator.page_table s')) p
    = Ok e' ->
  exists e,
    PyList.getitem (PageTable.entries (VirtualMemorySimulator.page_table s)) p
      = Ok e /\
    usage e'
    = if p =? va / VirtualMemorySimulator.page_size s
      then (true, (if w then true else PageTableEntry.modified e),
            PageTableEntry.access_count e + 1)
      else usage e.
Proof.
  intros Hc Hpage Hp H He'.
  unfold VirtualMemorySimulator.translate_address in H.
  inv_bind H as page Hpg. unfold floordiv in Hpg. simpl in Hpg.
  destruct (VirtualMemorySimulator.page_size s =? 0); [discriminate|].
  injection Hpg as <-.
  inv_bind H as offset Hoff.
  inv_bind H as [looked tl] Hlook.
  inv_bind H as [[[fr pf0] hit0] s1] Hmid.
  inv_bind H as pt Hupd. injection H as _ <-. simpl in He'.
  unfold PageTable.update_access in Hupd.
  destruct (update_entry_getitem_inv _ _ _ _ _ _ Hpage Hp Hupd He')
    as (e1 & He1 & ->).
  assert (Hpt : exists e,
             PyList.getitem (PageTable.entries (VirtualMemorySimulator.page_table s)) p
             = Ok e /\ usage e1 = usage e).
  { destruct looked as [f|].
    - injection Hmid as _ _ _ <-. now exists e1.
    - inv_bind Hmid as v Hv. inv_bind Hmid as [[fr2 pf2] s2] Hsub.
      inv_bind Hmid as tl2 Hins. injection Hmid as _ _ _ <-. simpl in He1.
      destruct (negb v).
      + inv_bind Hsub as [fr3 s3] Hh. injection Hsub as _ _ <-.
        assert (Hc0 : coherent (VirtualMemorySimulator.count_fault
                          (VirtualMemorySimulator.with_tlb
                             (VirtualMemorySimulator.tick s) tl))).
        { destruct Hc as [Htr Hag]. split; simpl; [exact Htr|].
          apply TLB_lookup_miss in Hlook. destruct Hlook as (_ & ->). exact Hag. }
        apply (handle_page_fault_usage _ _ _ _ _ _ _ Hc0 Hpage Hp Hh He1).
      + inv_bind Hsub as ofr Hg. destruct ofr; [|discriminate].
        injection Hsub as _ _ <-. now exists e1. }
  destruct Hpt as (e & He & Hu). exists e. split; [exact He|].
  destruct (p =? va / VirtualMemorySimulator.page_size s); [|exact Hu].
  unfold usage in *. simpl. injection Hu as _ -> ->. reflexivity.
Qed.

Lemma references_snoc (p ps va : Z) (w : bool) (calls : list (Z * bool)) :
  references p ps (calls ++ [(va, w)])
  = references p ps calls + (if va / ps =? p then 1 else 0).
Proof.
  unfold references, PyList.len. rewrite filter_app, length_app. simpl.
  destruct (va / ps =? p); simpl; lia.
Qed.

Lemma translate_all_snoc (s : VirtualMemorySimulator.t)
      (calls : list (Z * bool)) (va : Z) (w : bool) :
  translate_all s (calls ++ [(va, w)])
  = ('(rs, s1) <- translate_all s calls ;;
     '(r, s2) <- VirtualMemorySimulator.translate_address s1 va w ;;
     Ok (rs ++ [r], s2)).
Proof.
  revert s. induction calls as [|[va0 w0] calls IH]; intros s; simpl.
  - destruct (VirtualMemorySimulator.translate_address s va w) as [[r s2]|e];
      reflexivity.
  - destruct (VirtualMemorySimulator.translate_address s va0 w0) as [[r s1]|e];
      simpl; [|reflexivity].
    rewrite IH.
    destruct (translate_all s1 calls) as [[rs s2]|e]; simpl; [|reflexivity].
    destruct (VirtualMemorySimulator.translate_address s2 va w) as [[r' s3]|e];
      reflexivity.
Qed.

Lemma translate_all_usage
        (num_pages num_frames page_size tlb_size : Z) (name : string)
        (refs : option (list Z)) (calls : list (Z * bool))
        (s0 s : VirtualMemorySimulator.t)
        (rs : list VirtualMemorySimulator.translation)
        (p : Z) (e : PageTableEntry.t) :
  VirtualMemorySimulator.init num_pages num_frames page_size tlb_size name refs
    = Ok s0 ->
  Forall (fun c => 0 <= fst c / page_size) calls ->
  translate_all s0 calls = Ok (rs, s) ->
  0 <= p ->
  PyList.getitem (PageTable.entries (VirtualMemorySimulator.page_table s)) p
    = Ok e ->
  PageTableEntry.access_count e = references p page_size calls /\
  PageTableEntry.referenced e = (0 <? references p page_size calls) /\
  PageTableEntry.modified e = written p page_size calls.
Proof.
  intros Hinit Hall Hrun Hp.
  unfold VirtualMemorySimulator.init in Hinit.
  inv_bind Hinit as alg Halg. injection Hinit as <-.
  apply make_algorithm_tracked in Halg.
  pose proof (coherent_fresh num_pages num_frames page_size tlb_size alg name Halg)
    as Hc0.
  revert s rs e Hall Hrun.
  induction calls as [|[va w] calls IH] using rev_ind; intros s rs e Hall Hrun He.
  - simpl in Hrun. injection Hrun as _ <-. simpl in He.
    apply getitem_In in He. apply repeat_spec in He. subst e.
    repeat split.
  - rewrite translate_all_snoc in Hrun.
    inv_bind Hrun as [rs1 s1] Hrun1. inv_bind Hrun as [r s2] Hcall.
    injection Hrun as _ <-.
    apply Forall_app in Hall. destruct Hall as (Hall1 & Hlast).
    inversion Hlast as [|? ? Hva _]; subst. simpl in Hva.
    destruct (translate_all_coherent _ _ _ _ Hc0 Hall1 Hrun1) as (Hc1 & Hps).
    simpl in Hps. rewrite <- Hps in Hva.
    destruct (translate_address_usage _ _ _ _ _ _ _ Hc1 Hva Hp Hcall He)
      as (e1 & He1 & Hu).
    destruct (IH s1 rs1 e1 Hall1 Hrun1 He1) as (Hcount & Href & Hmod).
    rewrite Hps in Hu. unfold usage in Hu.
    rewrite references_snoc.
    assert (Hwr : written p page_size (calls ++ [(va, w)])
                  = written p page_size calls || ((va / page_size =? p) && w)).
    { unfold written. rewrite existsb_app. simpl. now rewrite orb_false_r. }
    rewrite Hwr. rewrite (Z.eqb_sym (va / page_size) p).
    assert (Hnn : 0 <= references p page_size calls)
      by (unfold references; apply len_nonneg).
    destruct (p =? va / page_size); injection Hu as -> -> ->.
    + rewrite Hcount, Hmod. repeat split.
      * symmetry. apply Z.ltb_lt. lia.
      * destruct w; simpl; [now rewrite orb_true_r | now rewrite orb_false_r].
    + rewrite Hcount, Href, Hmod, Z.add_0_r, orb_false_r. repeat split.
Qed.

(** X3. In a run on a fresh simulator whose page numbers are all at
    least 0, the entry of every such page records exactly its use:
    [access_count] is the number of calls on the page, [referenced] is set
    once there was one, and [modified] once one of them was a write.
    Eviction and reload in between do not reset any of them. *)
Theorem page_table_usage_counts_references
        (num_pages num_frames page_size tlb_size : Z) (name : string)
        (refs : option (list Z)) (calls : list (Z * bool))
        (s0 s : VirtualMemorySimulator.t)
        (rs : list VirtualMemorySimulator.translation)
        (p : Z) (e : PageTableEntry.t) :
  VirtualMemorySimulator.init num_pages num_frames page_size tlb_size name refs
    = Ok s0 ->
  Forall (fun c => 0 <= fst c / page_size) calls ->
  translate_all s0 calls = Ok (rs, s) ->
  0 <= p ->
  PyList.getitem (PageTable.entries (VirtualMemorySimulator.page_table s)) p
    = Ok e ->
  PageTableEntry.access_count e = references p page_size calls /\
  PageTableEntry.referenced e = (0 <? references p page_size calls) /\
  PageTableEntry.modified e = written p page_size calls.
Proof. apply translate_all_usage. Qed.

Lemma page_table_usage_counts_references_witness :
  PageTableEntry.access_count
    (entry_of (state_after one_frame_simulator thrash_calls) 2)
  = references 2 4096 thrash_calls /\
  PageTableEntry.referenced
    (entry_of (state_after one_frame_simulator thrash_calls) 2)
  = (0 <? references 2 4096 thrash_calls) /\
  PageTableEntry.modified
    (entry_of (state_after one_frame_simulator thrash_calls) 2)
  = written 2 4096 thrash_calls.
Proof.
  apply (page_table_usage_counts_references 10 1 4096 4 "FIFO" None
           thrash_calls one_frame_simulator
           (state_after one_frame_simulator thrash_calls)
           (returned_or [] (returned one_frame_simulator thrash_calls))).
  - reflexivity.
  - repeat constructor; vm_compute; discriminate.
  - vm_compute. reflexivity.
  - lia.
  - vm_compute. reflexivity.
Defined.

(** ** The TLB on its own *)

Lemma dict_remove_length {V : Type} (k : Z) (d : PyDict.t V) :
  PyDict.lookup k d <> None ->
  S (List.length (PyDict.remove k d)) = List.length d.
Proof.
  induction d as [|[k' v'] d IH]; simpl; [congruence|].
  destruct (k' =? k); simpl; [reflexivity|]. intros H. now rewrite IH.
Qed.

Lemma dict_replace_length {V : Type} (k : Z) (v : V) (d : PyDict.t V) :
  List.length (PyDict.replace k v d) = List.length d.
Proof.
  induction d as [|[k' v'] d IH]; simpl; [reflexivity|].
  destruct (k' =? k); simpl; [reflexivity | now rewrite IH].
Qed.

Lemma dict_setitem_length {V : Type} (k : Z) (v : V) (d : PyDict.t V) :
  List.length (PyDict.setitem k v d)
  = if PyDict.contains k d then List.length d else S (List.length d).
Proof.
  unfold PyDict.setitem. destruct (PyDict.contains k d).
  - apply dict_replace_length.
  - rewrite length_app. simpl. lia.
Qed.

(** X4. A TLB that holds at most [size] entries still does after
    [lookup], [insert] or [invalidate], and none of them changes [size]:
    the cache never grows beyond its capacity. *)
Theorem TLB_never_exceeds_size (s : TLB.t) (page frame : Z) :
  PyDict.len (TLB.cache s) <= TLB.size s ->
  (forall r s', TLB.lookup s page = Ok (r, s') ->
     TLB.size s' = TLB.size s /\ PyDict.len (TLB.cache s') <= TLB.size s') /\
  (forall s', TLB.insert s page frame = Ok s' ->
     TLB.size s' = TLB.size s /\ PyDict.len (TLB.cache s') <= TLB.size s') /\
  (forall s', TLB.invalidate s page = Ok s' ->
     TLB.size s' = TLB.size s /\ PyDict.len (TLB.cache s') <= TLB.size s').
Proof.
  intros Hcap. unfold PyDict.len in *.
  assert (Hmove : forall c, PyDict.move_to_end page (TLB.cache s) = Ok c ->
                    List.length c = List.length (TLB.cache s)).
  { unfold PyDict.move_to_end. intros c.
    destruct (PyDict.lookup page (TLB.cache s)) eqn:E; [|discriminate].
    intros H; injection H as <-. rewrite length_app. simpl.
    rewrite <- (dict_remove_length page (TLB.cache s)) by congruence. lia. }
  repeat split.
  - unfold TLB.lookup in H. destruct (PyDict.contains page (TLB.cache s)).
    + inv_bind H as c Hc. inv_bind H as f Hf. now injection H as _ <-.
    + now injection H as _ <-.
  - unfold TLB.lookup in H. destruct (PyDict.contains page (TLB.cache s)).
    + inv_bind H as c Hc. inv_bind H as f Hf. injection H as _ <-. simpl.
      rewrite (Hmove _ Hc). exact Hcap.
    + injection H as _ <-. exact Hcap.
  - unfold TLB.insert in H. destruct (PyDict.contains page (TLB.cache s)).
    + inv_bind H as c Hc. now injection H as <-.
    + inv_bind H as c Hc. now injection H as <-.
  - unfold TLB.insert in H.
    destruct (PyDict.contains page (TLB.cache s)) eqn:Ec.
    + inv_bind H as c Hc. injection H as <-. simpl.
      rewrite (Hmove _ Hc). exact Hcap.
    + inv_bind H as c Hc. injection H as <-. simpl.
      rewrite dict_setitem_length. unfold PyDict.len in Hc.
      destruct (TLB.size s <=? Z.of_nat (List.length (TLB.cache s))) eqn:Efull.
      * apply Z.leb_le in Efull. unfold PyDict.popitem_first in Hc.
        destruct (TLB.cache s) as [|x r]; [discriminate|]. injection Hc as <-.
        simpl in *. destruct (PyDict.contains page r); lia.
      * apply Z.leb_gt in Efull. injection Hc as <-. rewrite Ec. lia.
  - unfold TLB.invalidate in H. destruct (PyDict.contains page (TLB.cache s)).
    + inv_bind H as c Hc. now injection H as <-.
    + now injection H as <-.
  - unfold TLB.invalidate, PyDict.delitem in H.
    destruct (PyDict.contains page (TLB.cache s)) eqn:Ec.
    + simpl in H. injection H as <-. simpl.
      unfold PyDict.contains in Ec.
      pose proof (dict_remove_length page (TLB.cache s)) as Hl.
      destruct (PyDict.lookup page (TLB.cache s)); [|discriminate].
      specialize (Hl ltac:(congruence)). lia.
    + injection H as <-. exact Hcap.
Qed.

Lemma TLB_never_exceeds_size_witness :
  (forall r s', TLB.lookup tlb_full 3 = Ok (r, s') ->
     TLB.size s' = TLB.size tlb_full /\ PyDict.len (TLB.cache s') <= TLB.size s') /\
  (forall s', TLB.insert tlb_full 3 30 = Ok s' ->
     TLB.size s' = TLB.size tlb_full /\ PyDict.len (TLB.cache s') <= TLB.size s') /\
  (forall s', TLB.invalidate tlb_full 3 = Ok s' ->
     TLB.size s' = TLB.size tlb_full /\ PyDict.len (TLB.cache s') <= TLB.size s').
Proof.
  apply (TLB_never_exceeds_size tlb_full 3 30). vm_compute. discriminate.
Defined.

(** X5. On a TLB with room for at least one entry, [insert] never
    raises, and a [lookup] of the page right after is a hit; it returns
    the frame just inserted when the page was not cached, but the frame
    already cached when it was: [insert] promotes an existing entry
    without overwriting its frame. *)
Theorem TLB_insert_then_lookup (s : TLB.t) (page frame : Z) :
  NoDup (PyDict.keys (TLB.cache s)) ->
  0 < TLB.size s ->
  exists s1 s2,
    TLB.insert s page frame = Ok s1 /\
    TLB.lookup s1 page
    = Ok (Some (match PyDict.lookup page (TLB.cache s) with
                | Some cached => cached
                | None => frame
                end), s2) /\
    TLB.hits s2 = TLB.hits s + 1 /\ TLB.misses s2 = TLB.misses s.
Proof.
  intros Hnd Hsz.
  destruct (PyDict.lookup page (TLB.cache s)) as [cached|] eqn:El.
  - unfold TLB.insert, PyDict.contains, PyDict.move_to_end. rewrite El. simpl.
    eexists. eexists. split; [reflexivity|].
    rewrite TLB_lookup_Some with (f := cached); simpl.
    + split; [reflexivity|]. auto.
    + now apply keys_move_to_end_nodup.
    + rewrite (lookup_move_to_end page page cached _ Hnd El). exact El.
  - destruct (TLB_insert_defined s page frame Hsz) as (s1 & Hins & _).
    destruct (TLB_insert_miss _ _ _ _ Hnd El Hins) as (Hnew & _ & Hnd1).
    exists s1. eexists. split; [exact Hins|].
    rewrite (TLB_lookup_Some _ _ _ Hnd1 Hnew). split; [reflexivity|]. simpl.
    unfold TLB.insert, PyDict.contains in Hins. rewrite El in Hins.
    inv_bind Hins as c Hc. injection Hins as <-. simpl. auto.
Qed.

Lemma TLB_insert_then_lookup_witness :
  exists s1 s2,
    TLB.insert tlb_full 1 99 = Ok s1 /\
    TLB.lookup s1 1
    = Ok (Some (match PyDict.lookup 1 (TLB.cache tlb_full) with
                | Some cached => cached
                | None => 99
                end), s2) /\
    TLB.hits s2 = TLB.hits tlb_full + 1 /\ TLB.misses s2 = TLB.misses tlb_full.
Proof.
  apply (TLB_insert_then_lookup tlb_full 1 99).
  - simpl. repeat constructor; simpl; intuition lia.
  - reflexivity.
Defined.

(** X6. Replacement in the TLB is least-recently-used.  In a full TLB
    whose oldest entry is [page], inserting a page that is not cached
    drops [page].  If [page] is looked up first, the lookup moves it to
    the young end: when the TLB holds another entry, the same insertion
    then keeps [page] and drops the next oldest entry instead; when
    [page] is the only entry, it is still the oldest and is dropped. *)
Theorem TLB_replacement_is_least_recently_used
        (s : TLB.t) (page frame : Z) (rest : PyDict.t Z) (new frame' : Z) :
  TLB.cache s = (page, frame) :: rest ->
  NoDup (PyDict.keys (TLB.cache s)) ->
  TLB.size s <= PyDict.len (TLB.cache s) ->
  PyDict.lookup new (TLB.cache s) = None ->
  (exists s', TLB.insert s new frame' = Ok s' /\
              PyDict.lookup page (TLB.cache s') = None /\
              PyDict.lookup new (TLB.cache s') = Some frame') /\
  (exists s1 s2, TLB.lookup s page = Ok (Some frame, s1) /\
                 TLB.insert s1 new frame' = Ok s2 /\
                 PyDict.lookup new (TLB.cache s2) = Some frame' /\
                 match rest with
                 | [] => PyDict.lookup page (TLB.cache s2) = None
                 | (next, _) :: _ =>
                     PyDict.lookup page (TLB.cache s2) = Some frame /\
                     PyDict.lookup next (TLB.cache s2) = None
                 end).
Proof.
  intros Hcache Hnd Hfull Hnew.
  assert (Hpage : PyDict.lookup page (TLB.cache s) = Some frame)
    by (rewrite Hcache; simpl; now rewrite Z.eqb_refl).
  assert (Hne : new <> page) by (intros ->; congruence).
  split.
  - unfold TLB.insert, PyDict.contains. rewrite Hnew.
    apply Z.leb_le in Hfull. rewrite Hfull, Hcache. simpl.
    eexists. split; [reflexivity|]. simpl.
    split; [|apply lookup_setitem_same].
    rewrite lookup_setitem_other by congruence.
    rewrite Hcache in Hnd. simpl in Hnd. inversion Hnd as [|? ? Hnin _]; subst.
    destruct (PyDict.lookup page rest) eqn:E; [|reflexivity].
    exfalso. apply Hnin. apply lookup_keys. congruence.
  - destruct rest as [|[k v] rest'];
      rewrite (TLB_lookup_Some _ _ _ Hnd Hpage);
      (eexists; eexists; split; [reflexivity|]);
      unfold TLB.insert, PyDict.contains; simpl;
      rewrite (lookup_move_to_end page new frame _ Hnd Hpage), Hnew;
      rewrite Hcache; simpl; rewrite Z.eqb_refl; simpl.
    + (* the only entry: it is dropped *)
      assert (Hlen : PyDict.len [(page, frame)] = PyDict.len (TLB.cache s))
        by (rewrite Hcache; reflexivity).
      cbn [app]. rewrite Hlen. apply Z.leb_le in Hfull. rewrite Hfull. simpl.
      split; [reflexivity|]. simpl.
      unfold PyDict.setitem, PyDict.contains. simpl.
      split; [now rewrite Z.eqb_refl|].
      destruct (new =? page) eqn:E; [|reflexivity].
      apply Z.eqb_eq in E. congruence.
    + assert (Hk : k <> page).
      { rewrite Hcache in Hnd. simpl in Hnd.
        inversion Hnd as [|? ? Hnin _]; subst.
        intros ->. apply Hnin. now left. }
      assert (Hkn : k <> new).
      { intros ->. rewrite Hcache in Hnew. simpl in Hnew.
        destruct (page =? new); [discriminate|]. now rewrite Z.eqb_refl in Hnew. }
      assert (Hkr : PyDict.lookup k rest' = None).
      { rewrite Hcache in Hnd. simpl in Hnd.
        inversion Hnd as [|? ? _ Hnd1]; subst.
        inversion Hnd1 as [|? ? Hnin _]; subst.
        destruct (PyDict.lookup k rest') eqn:E; [|reflexivity].
        exfalso. apply Hnin. apply lookup_keys. congruence. }
      assert (Hlen : PyDict.len ((k, v) :: rest' ++ [(page, frame)])
                     = PyDict.len (TLB.cache s)).
      { rewrite Hcache. unfold PyDict.len. simpl. rewrite length_app. simpl. lia. }
      cbn [app]. rewrite Hlen. apply Z.leb_le in Hfull. rewrite Hfull. simpl.
      split; [reflexivity|]. simpl.
      split; [apply lookup_setitem_same|]. split.
      * rewrite lookup_setitem_other by congruence.
        rewrite lookup_app_r; [simpl; now rewrite Z.eqb_refl|].
        rewrite Hcache in Hnd. simpl in Hnd.
        inversion Hnd as [|? ? Hnin _]; subst.
        destruct (PyDict.lookup page rest') eqn:E; [|reflexivity].
        exfalso. apply Hnin. right. apply lookup_keys. congruence.
      * rewrite lookup_setitem_other by congruence.
        rewrite (lookup_app_r _ _ _ Hkr). simpl.
        destruct (page =? k) eqn:E; [|reflexivity].
        apply Z.eqb_eq in E. congruence.
Qed.

Lemma TLB_replacement_is_least_recently_used_witness :
  (exists s', TLB.insert tlb_full 3 30 = Ok s' /\
              PyDict.lookup 1 (TLB.cache s') = None /\
              PyDict.lookup 3 (TLB.cache s') = Some 30) /\
  (exists s1 s2, TLB.lookup tlb_full 1 = Ok (Some 10, s1) /\
                 TLB.insert s1 3 30 = Ok s2 /\
                 PyDict.lookup 3 (TLB.cache s2) = Some 30 /\
                 PyDict.lookup 1 (TLB.cache s2) = Some 10 /\
                 PyDict.lookup 2 (TLB.cache s2) = None).
Proof.
  apply (TLB_replacement_is_least_recently_used tlb_full 1 10 [(2, 20)] 3 30).
  - reflexivity.
  - simpl. repeat constructor; simpl; intuition lia.
  - vm_compute. discriminate.
  - reflexivity.
Defined.

(** A full TLB of one entry: looking the entry up does not save it. *)
Example TLB_single_entry_is_replaced :
  exists s1 s2,
    TLB.lookup (TLB.mk 1 [(1, 10)] 0 0) 1 = Ok (Some 10, s1) /\
    TLB.insert s1 3 30 = Ok s2 /\
    TLB.cache s2 = [(3, 30)].
Proof. eexists. eexists. split; [reflexivity|]. split; reflexivity. Qed.

(** ** The contract every policy keeps *)

Lemma remove_first_length (x : Z) (l l' : list Z) :
  PyList.remove_first x l = Some l' -> List.length l = S (List.length l').
Proof.
  revert l'. induction l as [|a l IH]; simpl; intros l' H; [discriminate|].
  destruct (a =? x); [now injection H as <-|].
  destruct (PyList.remove_first x l) as [r|]; [|discriminate].
  injection H as <-. simpl. now rewrite (IH r).
Qed.

Lemma list_remove_len (x : Z) (l l' : list Z) :
  PyList.remove x l = Ok l' -> PyList.len l = PyList.len l' + 1.
Proof.
  unfold PyList.remove. destruct (PyList.remove_first x l) eqn:E; [|discriminate].
  intros H; injection H as <-. unfold PyList.len.
  rewrite (remove_first_length _ _ _ E). lia.
Qed.

Lemma contains_snoc (x : Z) (l : list Z) : PyList.contains x (l ++ [x]) = true.
Proof. apply contains_In. apply in_or_app. right. now left. Qed.

Lemma update_nth_here {A : Type} (n : nat) (x : A) (l : list A) :
  (n < List.length l)%nat -> In x (PyList.update_nth n (fun _ => x) l).
Proof.
  revert n. induction l as [|a l IH]; intros n Hn; simpl in Hn; [lia|].
  destruct n as [|n]; simpl; [now left|]. right. apply IH. lia.
Qed.

Lemma list_setitem_spec (l l' : list Z) (i x : Z) :
  PyList.setitem l i x = Ok l' -> In x l' /\ PyList.len l' = PyList.len l.
Proof.
  unfold PyList.setitem. destruct (PyList.norm l i) as [n|] eqn:En; [|discriminate].
  intros H; injection H as <-. split.
  - apply update_nth_here. eapply norm_in_range; eauto.
  - unfold PyList.len. now rewrite update_nth_length.
Qed.

Ltac policy_step_hit Hmem :=
  unfold policy_step; rewrite Hmem; simpl;
  repeat split; try congruence; try lia; try tauto.

Lemma FIFO_policy_step (s s' : FIFO.t) (page time : Z) (w pf : bool)
      (victim : option Z) :
  FIFO.access_page s page time w = Ok ((pf, victim), s') ->
  policy_step (FIFO.frames s) (FIFO.num_frames s)
              (FIFO.frames s') (FIFO.num_frames s') page pf victim.
Proof.
  unfold FIFO.access_page, FIFO.is_page_in_memory.
  destruct (PyList.contains page (FIFO.frames s)) eqn:Hmem.
  - intros H; injection H as <- <- <-. policy_step_hit Hmem.
  - intros H. inv_bind H as [[vic fr] qu] Hev. injection H as <- <- <-.
    unfold policy_step. rewrite Hmem. simpl.
    destruct (FIFO.num_frames s <=? PyList.len (FIFO.frames s)) eqn:Efull.
    + apply Z.leb_le in Efull.
      inv_bind Hev as v Hv. inv_bind Hev as fr1 Hfr. inv_bind Hev as qu1 Hqu.
      injection Hev as <- <- <-. apply list_remove_len in Hfr.
      repeat split; auto using contains_snoc. rewrite len_snoc. lia.
    + apply Z.leb_gt in Efull. injection Hev as <- <- <-.
      repeat split; auto using contains_snoc; try congruence.
      rewrite len_snoc. lia.
Qed.

Lemma LRU_policy_step (s s' : LRU.t) (page time : Z) (w pf : bool)
      (victim : option Z) :
  LRU.access_page s page time w = Ok ((pf, victim), s') ->
  policy_step (LRU.frames s) (LRU.num_frames s)
              (LRU.frames s') (LRU.num_frames s') page pf victim.
Proof.
  unfold LRU.access_page, LRU.is_page_in_memory. intros H.
  inv_bind H as [[vic fr] tm] Hadm. injection H as <- <- <-. simpl.
  destruct (PyList.contains page (LRU.frames s)) eqn:Hmem; simpl in Hadm.
  - injection Hadm as <- <- <-. policy_step_hit Hmem.
  - inv_bind Hadm as [[vic0 fr0] tm0] Hev. injection Hadm as <- <- <-.
    unfold policy_step. rewrite Hmem. simpl.
    destruct (LRU.num_frames s <=? PyList.len (LRU.frames s)) eqn:Efull.
    + apply Z.leb_le in Efull.
      inv_bind Hev as v Hv. inv_bind Hev as fr1 Hfr. inv_bind Hev as tm1 Htm.
      injection Hev as <- <- <-. apply list_remove_len in Hfr.
      repeat split; auto using contains_snoc. rewrite len_snoc. lia.
    + apply Z.leb_gt in Efull. injection Hev as <- <- <-.
      repeat split; auto using contains_snoc; try congruence.
      rewrite len_snoc. lia.
Qed.

Lemma LFU_policy_step (s s' : LFU.t) (page time : Z) (w pf : bool)
      (victim : option Z) :
  LFU.access_page s page time w = Ok ((pf, victim), s') ->
  policy_step (LFU.frames s) (LFU.num_frames s)
              (LFU.frames s') (LFU.num_frames s') page pf victim.
Proof.
  unfold LFU.access_page, LFU.is_page_in_memory. intros H.
  inv_bind H as [[[vic fr] cn] tm] Hadm. inv_bind H as c Hc.
  injection H as <- <- <-. simpl.
  destruct (PyList.contains page (LFU.frames s)) eqn:Hmem; simpl in Hadm.
  - injection Hadm as <- <- <- <-. policy_step_hit Hmem.
  - inv_bind Hadm as [[[vic0 fr0] cn0] tm0] Hev. injection Hadm as <- <- <- <-.
    unfold policy_step. rewrite Hmem. simpl.
    destruct (LFU.num_frames s <=? PyList.len (LFU.frames s)) eqn:Efull.
    + apply Z.leb_le in Efull.
      inv_bind Hev as v Hv. inv_bind Hev as fr1 Hfr. inv_bind Hev as cn1 Hcn.
      inv_bind Hev as tm1 Htm.
      injection Hev as <- <- <- <-. apply list_remove_len in Hfr.
      repeat split; auto using contains_snoc. rewrite len_snoc. lia.
    + apply Z.leb_gt in Efull. injection Hev as <- <- <- <-.
      repeat split; auto using contains_snoc; try congruence.
      rewrite len_snoc. lia.
Qed.

Lemma Optimal_policy_step (s s' : Optimal.t) (page time : Z) (w pf : bool)
      (victim : option Z) :
  Optimal.access_page s page time w = Ok ((pf, victim), s') ->
  policy_step (Optimal.frames s) (Optimal.num_frames s)
              (Optimal.frames s') (Optimal.num_frames s') page pf victim.
Proof.
  unfold Optimal.access_page, Optimal.is_page_in_memory. intros H.
  inv_bind H as [vic fr] Hadm. injection H as <- <- <-. simpl.
  destruct (PyList.contains page (Optimal.frames s)) eqn:Hmem; simpl in Hadm.
  - injection Hadm as <- <-. policy_step_hit Hmem.
  - inv_bind Hadm as [vic0 fr0] Hev. injection Hadm as <- <-.
    unfold policy_step. rewrite Hmem. simpl.
    destruct (Optimal.num_frames s <=? PyList.len (Optimal.frames s)) eqn:Efull.
    + apply Z.leb_le in Efull.
      inv_bind Hev as ov Hov. destruct ov as [v|]; [|discriminate].
      inv_bind Hev as fr1 Hfr.
      injection Hev as <- <-. apply list_remove_len in Hfr.
      repeat split; auto using contains_snoc. rewrite len_snoc. lia.
    + apply Z.leb_gt in Efull. injection Hev as <- <-.
      repeat split; auto using contains_snoc; try congruence.
      rewrite len_snoc. lia.
Qed.

Lemma Clock_policy_step (s s' : Clock.t) (page time : Z) (w pf : bool)
      (victim : option Z) :
  Clock.access_page s page time w = Ok ((pf, victim), s') ->
  policy_step (Clock.frames s) (Clock.num_frames s)
              (Clock.frames s') (Clock.num_frames s') page pf victim.
Proof.
  unfold Clock.access_page, Clock.is_page_in_memory. intros H.
  inv_bind H as [vic s1] Hadm. injection H as <- <- <-. simpl.
  destruct (PyList.contains page (Clock.frames s)) eqn:Hmem; simpl in Hadm.
  - injection Hadm as <- <-. policy_step_hit Hmem.
  - unfold policy_step. rewrite Hmem. simpl.
    destruct (Clock.num_frames s <=? PyList.len (Clock.frames s)) eqn:Efull.
    + apply Z.leb_le in Efull.
      inv_bind Hadm as [v s0] Hv. inv_bind Hadm as vi Hvi.
      inv_bind Hadm as fr Hfr. inv_bind Hadm as bits Hbits.
      injection Hadm as <- <-. simpl.
      unfold Clock.get_victim in Hv.
      destruct (Clock.get_victim_loop (S (List.length (Clock.frames s))) s)
        as [r|] eqn:El; [|discriminate Hv]. subst r.
      apply Clock_get_victim_loop_tracked in El.
      destruct El as (_ & Hfr0 & Hnf0 & _).
      apply list_setitem_spec in Hfr. destruct Hfr as (Hin & Hlen).
      rewrite Hfr0 in Hlen.
      repeat split; auto.
      * now apply contains_In.
      * lia.
    + apply Z.leb_gt in Efull. injection Hadm as <- <-. simpl.
      repeat split; auto using contains_snoc; try congruence.
      rewrite len_snoc. lia.
Qed.

(** X7. The contract of [access_page], for each of the five policies:
    it reports a fault exactly when the page was not in [frames]; when it
    returns, the page is in [frames]; a victim is only returned on a
    fault with [len(frames) >= num_frames]; and [num_frames] is never
    changed. *)
Theorem access_page_contract (a a' : PageReplacementAlgorithm.t)
        (page time : Z) (is_write pf : bool) (victim : option Z) :
  PageReplacementAlgorithm.access_page a page time is_write
    = Ok ((pf, victim), a') ->
  pf = negb (PageReplacementAlgorithm.is_page_in_memory a page) /\
  PageReplacementAlgorithm.is_page_in_memory a' page = true /\
  PageReplacementAlgorithm.num_frames a' = PageReplacementAlgorithm.num_frames a /\
  (victim <> None ->
   pf = true /\
   PageReplacementAlgorithm.num_frames a
   <= PyList.len (PageReplacementAlgorithm.frames a)).
Proof.
  unfold PageReplacementAlgorithm.access_page, PageReplacementAlgorithm.lift_alg,
    PageReplacementAlgorithm.is_page_in_memory.
  destruct a as [s|s|s|s|s]; intros H; inv_bind H as [[pf0 vic0] s0] Hs;
    injection H as <- <- <-; simpl.
  - apply FIFO_policy_step in Hs. unfold policy_step in Hs. tauto.
  - apply LRU_policy_step in Hs. unfold policy_step in Hs. tauto.
  - apply LFU_policy_step in Hs. unfold policy_step in Hs. tauto.
  - apply Optimal_policy_step in Hs. unfold policy_step in Hs. tauto.
  - apply Clock_policy_step in Hs. unfold policy_step in Hs. tauto.
Qed.

(** X8. The resident set never outgrows the frames: if a policy holds
    at most [num_frames] pages, it still does after [access_page]. *)
Theorem resident_set_within_num_frames (a a' : PageReplacementAlgorithm.t)
        (page time : Z) (is_write : bool) (r : access_result) :
  PyList.len (PageReplacementAlgorithm.frames a)
  <= PageReplacementAlgorithm.num_frames a ->
  PageReplacementAlgorithm.access_page a page time is_write = Ok (r, a') ->
  PyList.len (PageReplacementAlgorithm.frames a')
  <= PageReplacementAlgorithm.num_frames a'.
Proof.
  destruct r as [pf victim].
  unfold PageReplacementAlgorithm.access_page, PageReplacementAlgorithm.lift_alg.
  destruct a as [s|s|s|s|s]; intros Hle H; inv_bind H as [[pf0 vic0] s0] Hs;
    injection H as <- <- <-; simpl in *.
  - apply FIFO_policy_step in Hs. destruct Hs as (_ & _ & -> & _ & Hb). auto.
  - apply LRU_policy_step in Hs. destruct Hs as (_ & _ & -> & _ & Hb). auto.
  - apply LFU_policy_step in Hs. destruct Hs as (_ & _ & -> & _ & Hb). auto.
  - apply Optimal_policy_step in Hs. destruct Hs as (_ & _ & -> & _ & Hb). auto.
  - apply Clock_policy_step in Hs. destruct Hs as (_ & _ & -> & _ & Hb). auto.
Qed.

Lemma access_page_contract_witness :
  true = negb (PageReplacementAlgorithm.is_page_in_memory lfu_policy 4) /\
  PageReplacementAlgorithm.is_page_in_memory (policy_after lfu_policy 4 7) 4 = true /\
  PageReplacementAlgorithm.num_frames (policy_after lfu_policy 4 7)
  = PageReplacementAlgorithm.num_frames lfu_policy /\
  (Some 2 <> None ->
   true = true /\
   PageReplacementAlgorithm.num_frames lfu_policy
   <= PyList.len (PageReplacementAlgorithm.frames lfu_policy)).
Proof.
  apply (access_page_contract lfu_policy (policy_after lfu_policy 4 7) 4 7 false).
  vm_compute. reflexivity.
Defined.

Lemma resident_set_within_num_frames_witness :
  PyList.len (PageReplacementAlgorithm.frames (policy_after lfu_policy 4 7))
  <= PageReplacementAlgorithm.num_frames (policy_after lfu_policy 4 7).
Proof.
  apply (resident_set_within_num_frames lfu_policy (policy_after lfu_policy 4 7)
           4 7 false (true, Some 2)).
  - vm_compute. discriminate.
  - vm_compute. reflexivity.
Defined.

(** ** FIFO and LRU: which page goes *)

(** X9. FIFO keeps [frames] and [queue] equal and in order of
    admission: a returned victim is the head of the queue, the admitted
    page goes to its end, and an access to a resident page changes
    nothing (a hit does not refresh a page's place). *)
Theorem FIFO_evicts_in_admission_order (s s' : FIFO.t) (page time : Z)
        (is_write pf : bool) (victim : option Z) :
  FIFO.frames s = FIFO.queue s ->
  FIFO.access_page s page time is_write = Ok ((pf, victim), s') ->
  FIFO.frames s' = FIFO.queue s' /\
  (pf = false -> s' = s) /\
  (pf = true -> victim = None -> FIFO.queue s' = FIFO.queue s ++ [page]) /\
  (forall v, victim = Some v ->
     exists rest, FIFO.queue s = v :: rest /\ FIFO.queue s' = rest ++ [page]).
Proof.
  intros Heq. unfold FIFO.access_page.
  destruct (FIFO.is_page_in_memory s page).
  - intros H; injection H as <- <- <-.
    repeat split; auto; try discriminate.
  - intros H. inv_bind H as [[vic fr] qu] Hev. injection H as <- <- <-. simpl.
    destruct (FIFO.num_frames s <=? PyList.len (FIFO.frames s)).
    + inv_bind Hev as v Hv. inv_bind Hev as fr1 Hfr. inv_bind Hev as qu1 Hqu.
      injection Hev as <- <- <-.
      unfold FIFO.get_victim in Hv. rewrite Heq in Hfr.
      rewrite Hfr in Hqu. injection Hqu as <-.
      destruct (FIFO.queue s) as [|v0 rest] eqn:Eq;
        [rewrite list_getitem_nonneg in Hv by lia; discriminate Hv|].
      rewrite list_getitem_nonneg in Hv by lia. simpl in Hv. injection Hv as ->.
      unfold PyList.remove in Hfr. simpl in Hfr. rewrite Z.eqb_refl in Hfr.
      injection Hfr as <-.
      repeat split; auto; try discriminate.
      intros v0 Hv0. injection Hv0 as <-. now exists rest.
    + injection Hev as <- <- <-. rewrite Heq.
      repeat split; auto; discriminate.
Qed.

Lemma FIFO_evicts_in_admission_order_witness :
  FIFO.frames (FIFO.mk 3 [2; 3; 4] [2; 3; 4])
  = FIFO.queue (FIFO.mk 3 [2; 3; 4] [2; 3; 4]) /\
  (true = false -> FIFO.mk 3 [2; 3; 4] [2; 3; 4] = fifo_full) /\
  (true = true -> Some 1 = None ->
   FIFO.queue (FIFO.mk 3 [2; 3; 4] [2; 3; 4]) = FIFO.queue fifo_full ++ [4]) /\
  (forall v, Some 1 = Some v ->
     exists rest, FIFO.queue fifo_full = v :: rest /\
                  FIFO.queue (FIFO.mk 3 [2; 3; 4] [2; 3; 4]) = rest ++ [4]).
Proof.
  apply (FIFO_evicts_in_admission_order fifo_full (FIFO.mk 3 [2; 3; 4] [2; 3; 4])
           4 7 false true (Some 1)).
  - reflexivity.
  - vm_compute. reflexivity.
Defined.

Lemma LRU_consistent_of_keys (s : LRU.t) :
  NoDup (LRU.frames s) ->
  PyDict.keys (LRU.access_times s) = LRU.frames s ->
  LRU_consistent s.
Proof.
  intros Hnd Ht. constructor.
  - exact Hnd.
  - now rewrite Ht.
  - intros p. rewrite <- Ht. apply lookup_keys.
Qed.

Lemma LRU_init_consistent (n : Z) : LRU_consistent (LRU.init n).
Proof.
  apply LRU_consistent_of_keys; simpl; [constructor | reflexivity].
Qed.

Lemma LRU_access_page_consistent (s s' : LRU.t) (page time : Z) (w : bool)
      (r : access_result) :
  LRU_consistent s ->
  LRU.access_page s page time w = Ok (r, s') ->
  LRU_consistent s'.
Proof.
  intros [Hfnd Htnd Htf] H. unfold LRU.access_page in H.
  inv_bind H as [[victim fr] tm] Hadm. injection H as _ <-.
  destruct (LRU.is_page_in_memory s page) eqn:Hmem; simpl in Hadm.
  - injection Hadm as _ <- <-. apply contains_In in Hmem.
    constructor; simpl.
    + exact Hfnd.
    + now apply keys_setitem_nodup.
    + intros p. rewrite lookup_setitem_iff, <- Htf.
      split; [now right | intros [->|?]; assumption].
  - apply contains_false in Hmem.
    inv_bind Hadm as [[victim0 fr0] tm0] Hev. injection Hadm as _ <- <-.
    destruct (LRU.num_frames s <=? PyList.len (LRU.frames s)).
    + inv_bind Hev as v Hv. inv_bind Hev as fr1 Hfr. inv_bind Hev as tm1 Htm.
      injection Hev as _ <- <-.
      unfold PyList.remove in Hfr.
      destruct (PyList.remove_first v (LRU.frames s)) as [fr2|] eqn:Erm;
        [|discriminate]. injection Hfr as <-.
      destruct (remove_first_spec _ _ _ Hfnd Erm) as (Hnd2 & Hiff).
      unfold PyDict.delitem in Htm.
      destruct (PyDict.contains v (LRU.access_times s)); [|discriminate].
      injection Htm as <-.
      constructor; simpl.
      * apply NoDup_snoc; [exact Hnd2|]. rewrite Hiff. tauto.
      * now apply keys_setitem_nodup, keys_remove_nodup.
      * intros p. rewrite in_app_iff, Hiff. simpl.
        rewrite lookup_setitem_iff, lookup_remove_iff by exact Htnd.
        rewrite <- Htf. intuition congruence.
    + injection Hev as _ <- <-.
      constructor; simpl.
      * now apply NoDup_snoc.
      * now apply keys_setitem_nodup.
      * intros p. rewrite in_app_iff. simpl.
        rewrite lookup_setitem_iff, <- Htf. intuition congruence.
Qed.

(** X10. In a consistent LRU state with at least one frame, an access
    to a page that is not resident, with the frames full, evicts a
    resident page whose recorded access time is the least of all; the
    victim is gone from [frames] afterwards, the admitted page carries the
    time of the call, and the state is consistent again. *)
Theorem LRU_fault_evicts_least_recent (s : LRU.t) (page time : Z)
        (is_write : bool) :
  LRU_consistent s ->
  0 < LRU.num_frames s ->
  LRU.is_page_in_memory s page = false ->
  LRU.num_frames s <= PyList.len (LRU.frames s) ->
  exists v tv s',
    LRU.access_page s page time is_write = Ok ((true, Some v), s') /\
    In v (LRU.frames s) /\
    PyDict.lookup v (LRU.access_times s) = Some tv /\
    (forall p tp, In p (LRU.frames s) ->
                  PyDict.lookup p (LRU.access_times s) = Some tp -> tv <= tp) /\
    ~ In v (LRU.frames s') /\
    PyDict.lookup page (LRU.access_times s') = Some time /\
    LRU_consistent s'.
Proof.
  intros Hc Hpos Hmem Hfull.
  pose proof Hc as [Hfnd Htnd Htf].
  assert (Hne : PyDict.keys (LRU.access_times s) <> []).
  { destruct (LRU.frames s) as [|p0 fr] eqn:Ef.
    - unfold PyList.len in Hfull. simpl in Hfull. lia.
    - pose proof (proj1 (Htf p0) (or_introl eq_refl)) as Hp0.
      apply lookup_keys in Hp0. intros E. now rewrite E in Hp0. }
  destruct (min_by_spec (fun p => PyDict.getitem p (LRU.access_times s))
              (PyDict.keys (LRU.access_times s)) Hne)
    as (v & tv & Hv & Hfv & Hin & Hmin).
  { intros x Hx. apply lookup_keys in Hx.
    destruct (PyDict.lookup x (LRU.access_times s)) as [tx|] eqn:E; [|congruence].
    exists tx. now apply dict_getitem_Ok. }
  apply dict_getitem_Ok in Hfv.
  assert (Hvin : In v (LRU.frames s)) by (apply Htf; congruence).
  destruct (remove_first_In v _ Hvin) as [fr Hfr].
  assert (Hacc : LRU.access_page s page time is_write
                 = Ok ((true, Some v),
                       LRU.mk (LRU.num_frames s) (fr ++ [page])
                         (PyDict.setitem page time
                            (PyDict.remove v (LRU.access_times s))))).
  { unfold LRU.access_page. rewrite Hmem. simpl.
    apply Z.leb_le in Hfull. rewrite Hfull.
    unfold LRU.get_victim. rewrite Hv. simpl.
    unfold PyList.remove. rewrite Hfr. simpl.
    unfold PyDict.delitem. rewrite (dict_contains_true _ _ _ Hfv). reflexivity. }
  exists v, tv. eexists. split; [exact Hacc|].
  split; [exact Hvin|]. split; [exact Hfv|]. split; [|split; [|split]].
  - intros p tp Hp Htp. apply (Hmin p tp).
    + apply lookup_keys. congruence.
    + now apply dict_getitem_Ok.
  - simpl. destruct (remove_first_spec _ _ _ Hfnd Hfr) as (_ & Hiff).
    rewrite in_app_iff, Hiff. simpl.
    apply contains_false in Hmem. intuition congruence.
  - simpl. apply lookup_setitem_same.
  - eapply LRU_access_page_consistent; eauto.
Qed.

Lemma LRU_fault_evicts_least_recent_witness :
  exists v tv s',
    LRU.access_page lru_full 4 7 false = Ok ((true, Some v), s') /\
    In v (LRU.frames lru_full) /\
    PyDict.lookup v (LRU.access_times lru_full) = Some tv /\
    (forall p tp, In p (LRU.frames lru_full) ->
                  PyDict.lookup p (LRU.access_times lru_full) = Some tp -> tv <= tp) /\
    ~ In v (LRU.frames s') /\
    PyDict.lookup 4 (LRU.access_times s') = Some 7 /\
    LRU_consistent s'.
Proof.
  apply (LRU_fault_evicts_least_recent lru_full 4 7 false).
  - apply LRU_consistent_of_keys; [|reflexivity].
    simpl. repeat constructor; simpl; intuition lia.
  - reflexivity.
  - reflexivity.
  - vm_compute. discriminate.
Defined.


(** ** Optimal: the look-ahead and the victim *)

Lemma scan_spec (refs : list Z) (page : Z) (n : nat) (i : Z) :
  0 <= i -> i + Z.of_nat n <= PyList.len refs ->
  exists d,
    Optimal.scan refs page i n = Ok d /\
    match d with
    | Optimal.At j =>
        i <= j < i + Z.of_nat n /\
        nth_error refs (Z.to_nat j) = Some page /\
        forall k, i <= k < j -> nth_error refs (Z.to_nat k) <> Some page
    | Optimal.Inf =>
        forall k, i <= k < i + Z.of_nat n ->
                  nth_error refs (Z.to_nat k) <> Some page
    end.
Proof.
  revert i. induction n as [|n IH]; intros i Hi Hlen.
  - exists Optimal.Inf. split; [reflexivity|]. intros k Hk. lia.
  - simpl Optimal.scan. rewrite list_getitem_nonneg by exact Hi.
    destruct (nth_error refs (Z.to_nat i)) as [x|] eqn:Ex.
    2:{ apply nth_error_None in Ex. unfold PyList.len in Hlen. lia. }
    simpl. destruct (x =? page) eqn:E.
    + apply Z.eqb_eq in E. subst x. exists (Optimal.At i).
      split; [reflexivity|]. split; [lia|]. split; [exact Ex|]. intros k Hk. lia.
    + apply Z.eqb_neq in E.
      destruct (IH (i + 1)) as (d & Hd & Hspec); [lia | lia |].
      exists d. split; [exact Hd|].
      assert (Hhere : forall k, i <= k < i + 1 ->
                        nth_error refs (Z.to_nat k) <> Some page).
      { intros k Hk. assert (k = i) by lia. subst k. rewrite Ex. congruence. }
      destruct d as [j|].
      * destruct Hspec as (Hj & Hnth & Hbefore).
        split; [lia|]. split; [exact Hnth|].
        intros k Hk. destruct (Z_lt_dec k (i + 1)); [apply Hhere | apply Hbefore]; lia.
      * intros k Hk.
        destruct (Z_lt_dec k (i + 1)); [apply Hhere | apply Hspec]; lia.
Qed.

Lemma Optimal_next_use_spec (s : Optimal.t) (page : Z) :
  0 <= Optimal.current_index s ->
  exists d,
    Optimal.next_use s page = Ok d /\
    next_occurrence (Optimal.reference_string s) page (Optimal.current_index s) d.
Proof.
  intros Hcur. unfold Optimal.next_use.
  destruct (Z_le_gt_dec (Optimal.current_index s)
              (PyList.len (Optimal.reference_string s))) as [Hle|Hgt].
  - destruct (scan_spec (Optimal.reference_string s) page
                (Z.to_nat (PyList.len (Optimal.reference_string s)
                           - Optimal.current_index s))
                (Optimal.current_index s) Hcur) as (d & Hd & Hspec); [lia|].
    exists d. split; [exact Hd|].
    rewrite Z2Nat.id in Hspec by lia.
    replace (Optimal.current_index s
             + (PyList.len (Optimal.reference_string s) - Optimal.current_index s))
      with (PyList.len (Optimal.reference_string s)) in Hspec by lia.
    destruct d; exact Hspec.
  - replace (Z.to_nat (PyList.len (Optimal.reference_string s)
                       - Optimal.current_index s)) with 0%nat by lia.
    exists Optimal.Inf. split; [reflexivity|]. intros k Hk. lia.
Qed.

(** X11. With a cursor that is not negative, [next_use] never raises:
    it returns the first position at or after the cursor where the page
    occurs in the reference string, or infinity when it does not occur
    there any more. *)
Theorem Optimal_next_use_finds_next_occurrence (s : Optimal.t) (page : Z) :
  0 <= Optimal.current_index s ->
  exists d,
    Optimal.next_use s page = Ok d /\
    next_occurrence (Optimal.reference_string s) page (Optimal.current_index s) d.
Proof. apply Optimal_next_use_spec. Qed.

Lemma Optimal_next_use_finds_next_occurrence_witness :
  exists d,
    Optimal.next_use optimal_mid 1 = Ok d /\
    next_occurrence (Optimal.reference_string optimal_mid) 1
      (Optimal.current_index optimal_mid) d.
Proof.
  apply (Optimal_next_use_finds_next_occurrence optimal_mid 1).
  vm_compute. discriminate.
Defined.

Lemma distance_gt_order (a b c : Optimal.distance) :
  Optimal.gt a a = false /\
  (Optimal.gt a b = true -> Optimal.gt b a = false) /\
  (Optimal.gt a b = true -> Optimal.gt b c = true -> Optimal.gt a c = true) /\
  (Optimal.gt a b = false -> Optimal.gt c b = true -> Optimal.gt a c = false).
Proof.
  destruct a as [x|], b as [y|], c as [z|]; simpl; repeat split;
    try congruence; try (intros; apply Z.ltb_ge; lia);
    rewrite ?Z.ltb_lt, ?Z.ltb_ge; intros; try lia;
    try (apply Z.ltb_lt; lia); try (apply Z.ltb_ge; lia).
Qed.

Lemma Optimal_choose_spec (s : Optimal.t) (pages : list Z)
      (far : Optimal.distance) (vic : option Z) :
  (forall p, In p pages -> exists d, Optimal.next_use s p = Ok d) ->
  exists ov,
    Optimal.choose s pages far vic = Ok ov /\
    ((ov = vic /\
      forall p d, In p pages -> Optimal.next_use s p = Ok d ->
                  Optimal.gt d far = false) \/
     (exists v dv,
        ov = Some v /\ In v pages /\ Optimal.next_use s v = Ok dv /\
        Optimal.gt dv far = true /\
        forall p d, In p pages -> Optimal.next_use s p = Ok d ->
                    Optimal.gt d dv = false)).
Proof.
  revert far vic. induction pages as [|p pages IH]; intros far vic Hall.
  - exists vic. split; [reflexivity|]. left. split; [reflexivity|].
    intros q d [].
  - destruct (Hall p (or_introl eq_refl)) as [dp Hdp].
    assert (Hall' : forall q, In q pages -> exists d, Optimal.next_use s q = Ok d)
      by (intros q Hq; apply Hall; now right).
    simpl. rewrite Hdp. simpl.
    destruct (Optimal.gt dp far) eqn:Egt.
    + destruct (IH dp (Some p) Hall') as (ov & Hov & [[-> Hrest]|Hfound]).
      * exists (Some p). split; [exact Hov|]. right.
        exists p, dp. split; [reflexivity|]. split; [now left|].
        split; [exact Hdp|]. split; [exact Egt|].
        intros q d [<-|Hq] Hd.
        -- rewrite Hdp in Hd. injection Hd as <-.
           exact (proj1 (distance_gt_order dp dp dp)).
        -- eauto.
      * destruct Hfound as (v & dv & -> & Hv & Hdv & Hgt & Hrest).
        exists (Some v). split; [exact Hov|]. right.
        exists v, dv. split; [reflexivity|]. split; [now right|].
        split; [exact Hdv|]. split.
        -- apply (proj1 (proj2 (proj2 (distance_gt_order dv dp far)))); assumption.
        -- intros q d [<-|Hq] Hd; [|eauto].
           rewrite Hdp in Hd. injection Hd as <-.
           apply (proj1 (proj2 (distance_gt_order dv dp dp))). exact Hgt.
    + destruct (IH far vic Hall') as (ov & Hov & [[-> Hrest]|Hfound]).
      * exists vic. split; [exact Hov|]. left. split; [reflexivity|].
        intros q d [<-|Hq] Hd; [|eauto].
        rewrite Hdp in Hd. now injection Hd as <-.
      * destruct Hfound as (v & dv & -> & Hv & Hdv & Hgt & Hrest).
        exists (Some v). split; [exact Hov|]. right.
        exists v, dv. split; [reflexivity|]. split; [now right|].
        split; [exact Hdv|]. split; [exact Hgt|].
        intros q d [<-|Hq] Hd; [|eauto].
        rewrite Hdp in Hd. injection Hd as <-.
        apply (proj2 (proj2 (proj2 (distance_gt_order dp far dv)))); assumption.
Qed.

Lemma Optimal_get_victim_spec (s : Optimal.t) :
  Optimal.frames s <> [] ->
  0 <= Optimal.current_index s ->
  exists v dv,
    Optimal.get_victim s = Ok (Some v) /\
    In v (Optimal.frames s) /\
    Optimal.next_use s v = Ok dv /\
    next_occurrence (Optimal.reference_string s) v (Optimal.current_index s) dv /\
    forall p d, In p (Optimal.frames s) -> Optimal.next_use s p = Ok d ->
                Optimal.gt d dv = false.
Proof.
  intros Hne Hcur. unfold Optimal.get_victim.
  destruct (Optimal_choose_spec s (Optimal.frames s) (Optimal.At (-1)) None)
    as (ov & Hov & [[-> Hnone]|Hfound]).
  - intros p _.
    destruct (Optimal_next_use_spec s p Hcur) as (d & Hd & _).
    now exists d.
  - exfalso. destruct (Optimal.frames s) as [|p fr]; [congruence|].
    destruct (Optimal_next_use_spec s p Hcur) as (d & Hd & Hspec).
    specialize (Hnone p d (or_introl eq_refl) Hd).
    destruct d as [j|]; simpl in *; [|discriminate].
    apply Z.ltb_ge in Hnone. lia.
  - destruct Hfound as (v & dv & -> & Hv & Hdv & _ & Hrest).
    exists v, dv. split; [exact Hov|]. split; [exact Hv|]. split; [exact Hdv|].
    split; [|exact Hrest].
    destruct (Optimal_next_use_spec s v Hcur) as (d & Hd & Hspec).
    rewrite Hdv in Hd. now injection Hd as <-.
Qed.

(** X12. With resident pages and a cursor that is not negative,
    [get_victim] returns a resident page that is used again no sooner
    than any other resident page: no resident page has its next use
    later, and a page that is never used again is only passed over for
    another such page. *)
Theorem Optimal_get_victim_is_used_last (s : Optimal.t) :
  Optimal.frames s <> [] ->
  0 <= Optimal.current_index s ->
  exists v dv,
    Optimal.get_victim s = Ok (Some v) /\
    In v (Optimal.frames s) /\
    Optimal.next_use s v = Ok dv /\
    next_occurrence (Optimal.reference_string s) v (Optimal.current_index s) dv /\
    forall p d, In p (Optimal.frames s) -> Optimal.next_use s p = Ok d ->
                Optimal.gt d dv = false.
Proof. apply Optimal_get_victim_spec. Qed.

Lemma Optimal_get_victim_is_used_last_witness :
  exists v dv,
    Optimal.get_victim optimal_mid = Ok (Some v) /\
    In v (Optimal.frames optimal_mid) /\
    Optimal.next_use optimal_mid v = Ok dv /\
    next_occurrence (Optimal.reference_string optimal_mid) v
      (Optimal.current_index optimal_mid) dv /\
    forall p d, In p (Optimal.frames optimal_mid) ->
                Optimal.next_use optimal_mid p = Ok d ->
                Optimal.gt d dv = false.
Proof.
  apply (Optimal_get_victim_is_used_last optimal_mid).
  - discriminate.
  - vm_compute. discriminate.
Defined.

Example Optimal_with_a_true_cursor_evicts_page_0 :
  Optimal.get_victim optimal_mid = Ok (Some 0).
Proof. reflexivity. Qed.


(** ** Clock: consistency and what a fault does *)

Lemma Clock_get_victim_loop_keys (fuel : nat) (s s' : Clock.t) (v : Z) :
  Clock.get_victim_loop fuel s = Some (Ok (v, s')) ->
  NoDup (PyDict.keys (Clock.reference_bits s)) ->
  NoDup (PyDict.keys (Clock.reference_bits s')) /\
  forall p, PyDict.lookup p (Clock.reference_bits s') <> None <->
            PyDict.lookup p (Clock.reference_bits s) <> None.
Proof.
  revert s. induction fuel as [|fuel IH]; intros s H Hnd; [discriminate H|].
  simpl in H.
  destruct (PyList.getitem (Clock.frames s) (Clock.clock_hand s)) as [page|e];
    [|discriminate H].
  destruct (PyDict.getitem page (Clock.reference_bits s)) as [b|e] eqn:Eb;
    [|discriminate H].
  destruct (pymod (Clock.clock_hand s + 1) (PyList.len (Clock.frames s)))
    as [hand|e]; [|discriminate H].
  destruct (b =? 0).
  - injection H as <- <-. simpl. split; [exact Hnd | tauto].
  - apply IH in H; simpl; [|now apply keys_setitem_nodup].
    simpl in H. destruct H as (Hnd' & Hiff). split; [exact Hnd'|].
    intros p. rewrite Hiff, lookup_setitem_iff.
    apply dict_getitem_Ok in Eb.
    split; [intros [->|?]; [congruence | assumption] | now right].
Qed.

Lemma index_from_spec (x : Z) (l : list Z) (k : Z) :
  In x l ->
  exists n, PyList.index_from x l k = Some (k + Z.of_nat n) /\
            nth_error l n = Some x /\ (n < List.length l)%nat.
Proof.
  revert k. induction l as [|a l IH]; intros k Hin; [contradiction|].
  simpl. destruct (a =? x) eqn:E.
  - apply Z.eqb_eq in E. subst a. exists 0%nat. simpl.
    split; [f_equal; lia|]. split; [reflexivity | lia].
  - apply Z.eqb_neq in E. destruct Hin as [?|Hin]; [congruence|].
    destruct (IH (k + 1) Hin) as (n & Hn & Hnth & Hlt).
    exists (S n). split; [rewrite Hn; f_equal; lia|]. simpl. split; [exact Hnth | lia].
Qed.

Lemma update_nth_In_iff (n : nat) (x v q : Z) (l : list Z) :
  NoDup l -> nth_error l n = Some v ->
  In q (PyList.update_nth n (fun _ => x) l) <-> q = x \/ (In q l /\ q <> v).
Proof.
  revert n. induction l as [|a l IH]; intros n Hnd Hnth.
  - destruct n; discriminate Hnth.
  - inversion Hnd as [|? ? Hnin Hnd']; subst.
    destruct n as [|n]; simpl in *.
    + injection Hnth as ->. split.
      * intros [<-|Hq]; [now left|]. right. split; [now right|].
        intros ->. contradiction.
      * intros [->|[[->|Hq] Hne]]; [now left | congruence | now right].
    + rewrite (IH n Hnd' Hnth). split.
      * intros [<-|[->|[Hq Hne]]]; [|now left | right; split; [now right | exact Hne]].
        right. split; [now left|]. intros ->. apply Hnin.
        eapply nth_error_In; eauto.
      * intros [->|[[->|Hq] Hne]]; [right; now left | now left | right; right; auto].
Qed.

Lemma update_nth_nodup (n : nat) (x : Z) (l : list Z) :
  NoDup l -> ~ In x l -> NoDup (PyList.update_nth n (fun _ => x) l).
Proof.
  revert n. induction l as [|a l IH]; intros n Hnd Hnin.
  - destruct n; constructor.
  - inversion Hnd as [|? ? Ha Hnd']; subst.
    destruct n as [|n]; simpl.
    + constructor; [|exact Hnd']. intros Hin. apply Hnin. now right.
    + constructor.
      * intros Hin. apply update_nth_In in Hin. destruct Hin as [->|Hin].
        -- apply Hnin. now left.
        -- contradiction.
      * apply IH; [exact Hnd' | intros Hin; apply Hnin; now right].
Qed.

Lemma Clock_consistent_ready (s : Clock.t) :
  Clock_consistent s -> Clock.frames s <> [] -> Clock_ready s.
Proof.
  intros [Hfnd Hbnd Hbf Hh Hhb] Hne. constructor.
  - exact Hne.
  - split; [exact Hh|].
    destruct (Clock.frames s); [congruence|]. rewrite len_cons in *.
    pose proof (len_nonneg l). lia.
  - intros p Hp. apply Hbf in Hp. unfold PyDict.contains.
    destruct (PyDict.lookup p (Clock.reference_bits s)); congruence.
Qed.

Lemma Clock_access_page_step (s : Clock.t) (page time : Z) (w : bool) :
  Clock_consistent s -> 0 < Clock.num_frames s ->
  exists pf victim s',
    Clock.access_page s page time w = Ok ((pf, victim), s') /\
    Clock_consistent s' /\
    frames_evolve (Clock.frames s) (Clock.frames s') page pf victim.
Proof.
  intros Hc Hpos. pose proof Hc as [Hfnd Hbnd Hbf Hh Hhb].
  unfold Clock.access_page, Clock.is_page_in_memory.
  destruct (PyList.contains page (Clock.frames s)) eqn:Hmem; simpl.
  - (* resident *)
    apply contains_In in Hmem.
    exists false, None. eexists. split; [reflexivity|]. split; [|simpl; auto].
    constructor; simpl; auto.
    + now apply keys_setitem_nodup.
    + intros p. rewrite lookup_setitem_iff, <- Hbf.
      split; [now right | intros [->|?]; assumption].
  - apply contains_false in Hmem.
    destruct (Clock.num_frames s <=? PyList.len (Clock.frames s)) eqn:Efull.
    + (* full: second chance *)
      apply Z.leb_le in Efull.
      assert (Hne : Clock.frames s <> []).
      { intros E. rewrite E in Efull. unfold PyList.len in Efull. simpl in Efull. lia. }
      pose proof (Clock_consistent_ready s Hc Hne) as Hr.
      destruct (Clock_get_victim_loop_finds (S (List.length (Clock.frames s))) s Hr)
        as (v & s0 & Hrun & Hv & Hfr0 & _ & Hh0).
      { pose proof (pending_le_frames s). lia. }
      destruct (Clock_get_victim_loop_keys _ _ _ _ Hrun Hbnd) as (Hbnd0 & Hkeys0).
      destruct (Clock_get_victim_loop_tracked _ _ _ _ Hrun) as (_ & _ & Hnf0 & _).
      unfold Clock.get_victim. rewrite Hrun. simpl.
      destruct (index_from_spec v (Clock.frames s) 0 Hv) as (n & Hidx & Hnth & Hlt).
      unfold PyList.index. rewrite Hfr0, Hidx. simpl.
      unfold PyList.setitem, PyList.norm, PyList.len.
      destruct (0 <=? Z.of_nat n) eqn:E1; [|apply Z.leb_gt in E1; lia].
      destruct (Z.of_nat n <? Z.of_nat (List.length (Clock.frames s))) eqn:E2;
        [|apply Z.ltb_ge in E2; lia].
      simpl. rewrite Nat2Z.id.
      assert (Hvb : PyDict.lookup v (Clock.reference_bits s0) <> None)
        by (apply Hkeys0, Hbf, Hv).
      unfold PyDict.delitem, PyDict.contains.
      destruct (PyDict.lookup v (Clock.reference_bits s0)) as [bv|] eqn:Ebv;
        [|congruence].
      simpl.
      exists true, (Some v). eexists. split; [reflexivity|]. simpl.
      assert (Hlen : PyList.len (PyList.update_nth n (fun _ => page) (Clock.frames s))
                     = PyList.len (Clock.frames s))
        by (unfold PyList.len; now rewrite update_nth_length).
      split.
      * constructor; simpl.
        -- now apply update_nth_nodup.
        -- now apply keys_setitem_nodup, keys_remove_nodup.
        -- intros p. rewrite (update_nth_In_iff _ _ _ _ _ Hfnd Hnth).
           rewrite lookup_setitem_iff, lookup_remove_iff by exact Hbnd0.
           rewrite Hkeys0, <- Hbf. tauto.
        -- lia.
        -- rewrite Hlen. lia.
      * split; [exact Hv|]. split; [exact Hlen|].
        intros q. apply (update_nth_In_iff _ _ _ _ _ Hfnd Hnth).
    + (* room left *)
      exists true, None. eexists. split; [reflexivity|]. simpl.
      split; [|reflexivity].
      constructor; simpl.
      * now apply NoDup_snoc.
      * now apply keys_setitem_nodup.
      * intros p. rewrite in_app_iff, lookup_setitem_iff, <- Hbf. simpl.
        intuition congruence.
      * exact Hh.
      * rewrite len_snoc. pose proof (len_nonneg (Clock.frames s)). lia.
Qed.

(** ** Every policy: a call on a consistent object never raises *)

Lemma frames_evolve_evict (fr fr0 : list Z) (v page : Z) :
  NoDup fr -> ~ In page fr ->
  PyList.remove_first v fr = Some fr0 ->
  In v fr ->
  frames_evolve fr (fr0 ++ [page]) page true (Some v).
Proof.
  intros Hnd Hnin Hrm Hv. simpl. split; [exact Hv|]. split.
  - rewrite len_snoc. unfold PyList.len.
    apply remove_first_length in Hrm. lia.
  - intros q. destruct (remove_first_spec _ _ _ Hnd Hrm) as (_ & Hiff).
    rewrite in_app_iff, Hiff. simpl. intuition congruence.
Qed.

Lemma full_frames_nonempty (nf : Z) (fr : list Z) :
  0 < nf -> nf <= PyList.len fr -> fr <> [].
Proof.
  intros Hpos Hfull E. subst fr. unfold PyList.len in Hfull. simpl in Hfull. lia.
Qed.

Lemma FIFO_access_page_step (s : FIFO.t) (page time : Z) (w : bool) :
  FIFO_consistent s -> 0 < FIFO.num_frames s ->
  exists pf victim s',
    FIFO.access_page s page time w = Ok ((pf, victim), s') /\
    FIFO_consistent s' /\
    frames_evolve (FIFO.frames s) (FIFO.frames s') page pf victim.
Proof.
  destruct s as [nf fr qu]. intros [Heq Hnd] Hpos. simpl in *. subst qu.
  destruct (PyList.contains page fr) eqn:Hmem.
  - exists false, None. eexists. split.
    + unfold FIFO.access_page, FIFO.is_page_in_memory. simpl. rewrite Hmem.
      reflexivity.
    + split; [split; simpl; auto | simpl; auto].
  - pose proof Hmem as Hnin. apply contains_false in Hnin.
    destruct (Z_le_gt_dec nf (PyList.len fr)) as [Hfull|Hroom].
    + destruct fr as [|v q]; [now apply full_frames_nonempty in Hfull|].
      exists true, (Some v). eexists.
      split; [now apply FIFO_access_page_full|].
      inversion Hnd as [|? ? Hvq Hq]; subst.
      split.
      * split; [reflexivity|]. simpl. apply NoDup_snoc; [exact Hq|].
        intros Hin. apply Hnin. now right.
      * apply frames_evolve_evict; auto.
        -- simpl. now rewrite Z.eqb_refl.
        -- now left.
    + exists true, None. eexists.
      split; [apply FIFO_access_page_room; [exact Hmem | lia]|].
      split; [|reflexivity].
      split; [reflexivity|]. simpl. now apply NoDup_snoc.
Qed.

Lemma LRU_access_page_step (s : LRU.t) (page time : Z) (w : bool) :
  LRU_consistent s -> 0 < LRU.num_frames s ->
  exists pf victim s',
    LRU.access_page s page time w = Ok ((pf, victim), s') /\
    LRU_consistent s' /\
    frames_evolve (LRU.frames s) (LRU.frames s') page pf victim.
Proof.
  intros Hc Hpos. pose proof Hc as [Hfnd Htnd Htf].
  assert (Hstep : exists pf victim s',
            LRU.access_page s page time w = Ok ((pf, victim), s') /\
            frames_evolve (LRU.frames s) (LRU.frames s') page pf victim).
  { unfold LRU.access_page, LRU.is_page_in_memory.
    destruct (PyList.contains page (LRU.frames s)) eqn:Hmem; simpl.
    - exists false, None. eexists. split; [reflexivity|]. simpl. auto.
    - pose proof Hmem as Hnin. apply contains_false in Hnin.
      destruct (LRU.num_frames s <=? PyList.len (LRU.frames s)) eqn:Efull.
      + apply Z.leb_le in Efull.
        pose proof (full_frames_nonempty _ _ Hpos Efull) as Hne.
        assert (Hkne : PyDict.keys (LRU.access_times s) <> []).
        { destruct (LRU.frames s) as [|p0 fr] eqn:Ef; [congruence|].
          pose proof (proj1 (Htf p0) (or_introl eq_refl)) as Hp0.
          apply lookup_keys in Hp0. intros E. now rewrite E in Hp0. }
        destruct (min_by_spec (fun p => PyDict.getitem p (LRU.access_times s))
                    (PyDict.keys (LRU.access_times s)) Hkne)
          as (v & tv & Hv & Hfv & Hin & _).
        { intros x Hx. apply lookup_keys in Hx.
          destruct (PyDict.lookup x (LRU.access_times s)) as [tx|] eqn:E;
            [|congruence].
          exists tx. now apply dict_getitem_Ok. }
        apply dict_getitem_Ok in Hfv.
        assert (Hvin : In v (LRU.frames s)) by (apply Htf; congruence).
        destruct (remove_first_In v _ Hvin) as [fr Hfr].
        unfold LRU.get_victim. rewrite Hv. simpl.
        unfold PyList.remove. rewrite Hfr. simpl.
        unfold PyDict.delitem. rewrite (dict_contains_true _ _ _ Hfv). simpl.
        exists true, (Some v). eexists. split; [reflexivity|].
        now apply frames_evolve_evict.
      + exists true, None. eexists. split; [reflexivity|]. reflexivity. }
  destruct Hstep as (pf & victim & s' & Hacc & Hev).
  exists pf, victim, s'. split; [exact Hacc|]. split; [|exact Hev].
  eapply LRU_access_page_consistent; eauto.
Qed.

Lemma LFU_access_page_step (s : LFU.t) (page time : Z) (w : bool) :
  LFU_consistent s -> 0 < LFU.num_frames s ->
  exists pf victim s',
    LFU.access_page s page time w = Ok ((pf, victim), s') /\
    LFU_consistent s' /\
    frames_evolve (LFU.frames s) (LFU.frames s') page pf victim.
Proof.
  intros Hc Hpos. pose proof Hc as [Hfnd Hcnd Htnd Hcf Htf].
  assert (Hstep : exists pf victim s',
            LFU.access_page s page time w = Ok ((pf, victim), s') /\
            frames_evolve (LFU.frames s) (LFU.frames s') page pf victim).
  { unfold LFU.access_page, LFU.is_page_in_memory.
    destruct (PyList.contains page (LFU.frames s)) eqn:Hmem; simpl.
    - pose proof Hmem as Hin. apply contains_In in Hin.
      apply Hcf in Hin.
      destruct (PyDict.lookup page (LFU.access_counts s)) as [c|] eqn:Ec;
        [|congruence].
      apply dict_getitem_Ok in Ec. rewrite Ec. simpl.
      exists false, None. eexists. split; [reflexivity|]. simpl. auto.
    - pose proof Hmem as Hnin. apply contains_false in Hnin.
      destruct (LFU.num_frames s <=? PyList.len (LFU.frames s)) eqn:Efull.
      + apply Z.leb_le in Efull.
        pose proof (full_frames_nonempty _ _ Hpos Efull) as Hne.
        destruct (LFU_get_victim_spec s Hc Hne) as (v & Hv & _).
        pose proof (LFU_get_victim_In _ _ Hv) as Hvk.
        apply lookup_keys in Hvk.
        assert (Hvin : In v (LFU.frames s)) by now apply Hcf.
        pose proof (proj1 (Htf v) Hvin) as Hvt.
        destruct (remove_first_In v _ Hvin) as [fr Hfr].
        rewrite Hv. simpl.
        unfold PyList.remove. rewrite Hfr. simpl.
        unfold PyDict.delitem, PyDict.contains.
        destruct (PyDict.lookup v (LFU.access_counts s)); [|congruence].
        destruct (PyDict.lookup v (LFU.access_times s)); [|congruence].
        simpl.
        assert (Hg : PyDict.getitem page
                       (PyDict.setitem page 0 (PyDict.remove v (LFU.access_counts s)))
                     = Ok 0)
          by (apply dict_getitem_Ok, lookup_setitem_same).
        rewrite Hg. simpl.
        exists true, (Some v). eexists. split; [reflexivity|].
        now apply frames_evolve_evict.
      + assert (Hg : PyDict.getitem page
                       (PyDict.setitem page 0 (LFU.access_counts s)) = Ok 0)
          by (apply dict_getitem_Ok, lookup_setitem_same).
        cbn [bind]. rewrite Hg. cbn [bind].
        exists true, None. eexists. split; [reflexivity|]. reflexivity. }
  destruct Hstep as (pf & victim & s' & Hacc & Hev).
  exists pf, victim, s'. split; [exact Hacc|]. split; [|exact Hev].
  eapply LFU_access_page_consistent; eauto.
Qed.

Lemma Optimal_access_page_step (s : Optimal.t) (page time : Z) (w : bool) :
  Optimal_consistent s -> 0 < Optimal.num_frames s ->
  exists pf victim s',
    Optimal.access_page s page time w = Ok ((pf, victim), s') /\
    Optimal_consistent s' /\
    frames_evolve (Optimal.frames s) (Optimal.frames s') page pf victim.
Proof.
  intros [Hnd Hcur] Hpos.
  unfold Optimal.access_page, Optimal.is_page_in_memory.
  destruct (PyList.contains page (Optimal.frames s)) eqn:Hmem; simpl.
  - exists false, None. eexists. split; [reflexivity|]. simpl.
    split; [split; simpl; [exact Hnd | lia] | auto].
  - pose proof Hmem as Hnin. apply contains_false in Hnin.
    destruct (Optimal.num_frames s <=? PyList.len (Optimal.frames s)) eqn:Efull.
    + apply Z.leb_le in Efull.
      pose proof (full_frames_nonempty _ _ Hpos Efull) as Hne.
      destruct (Optimal_get_victim_spec s Hne Hcur) as (v & dv & Hv & Hvin & _).
      destruct (remove_first_In v _ Hvin) as [fr Hfr].
      rewrite Hv. simpl. unfold PyList.remove. rewrite Hfr. simpl.
      exists true, (Some v). eexists. split; [reflexivity|]. simpl.
      split.
      * split; simpl; [|lia].
        destruct (remove_first_spec _ _ _ Hnd Hfr) as (Hnd' & Hiff).
        apply NoDup_snoc; [exact Hnd'|]. rewrite Hiff. tauto.
      * now apply (frames_evolve_evict (Optimal.frames s) fr v page).
    + exists true, None. eexists. split; [reflexivity|]. simpl.
      split; [|reflexivity]. split; simpl; [now apply NoDup_snoc | lia].
Qed.

Lemma access_page_step (a : PageReplacementAlgorithm.t) (page time : Z) (w : bool) :
  policy_consistent a -> 0 < PageReplacementAlgorithm.num_frames a ->
  exists pf victim a',
    PageReplacementAlgorithm.access_page a page time w = Ok ((pf, victim), a') /\
    policy_consistent a' /\
    frames_evolve (PageReplacementAlgorithm.frames a)
                  (PageReplacementAlgorithm.frames a') page pf victim.
Proof.
  destruct a as [s|s|s|s|s]; simpl; intros Hc Hpos.
  - destruct (FIFO_access_page_step s page time w Hc Hpos)
      as (pf & victim & s' & H & Hc' & Hev).
    exists pf, victim, (PageReplacementAlgorithm.AlgFIFO s').
    unfold PageReplacementAlgorithm.lift_alg. rewrite H. simpl. auto.
  - destruct (LRU_access_page_step s page time w Hc Hpos)
      as (pf & victim & s' & H & Hc' & Hev).
    exists pf, victim, (PageReplacementAlgorithm.AlgLRU s').
    unfold PageReplacementAlgorithm.lift_alg. rewrite H. simpl. auto.
  - destruct (LFU_access_page_step s page time w Hc Hpos)
      as (pf & victim & s' & H & Hc' & Hev).
    exists pf, victim, (PageReplacementAlgorithm.AlgLFU s').
    unfold PageReplacementAlgorithm.lift_alg. rewrite H. simpl. auto.
  - destruct (Optimal_access_page_step s page time w Hc Hpos)
      as (pf & victim & s' & H & Hc' & Hev).
    exists pf, victim, (PageReplacementAlgorithm.AlgOptimal s').
    unfold PageReplacementAlgorithm.lift_alg. rewrite H. simpl. auto.
  - destruct (Clock_access_page_step s page time w Hc Hpos)
      as (pf & victim & s' & H & Hc' & Hev).
    exists pf, victim, (PageReplacementAlgorithm.AlgClock s').
    unfold PageReplacementAlgorithm.lift_alg. rewrite H. simpl. auto.
Qed.

Lemma make_algorithm_consistent (n : Z) (name : string) (refs : option (list Z))
      (alg : PageReplacementAlgorithm.t) :
  VirtualMemorySimulator.make_algorithm n name refs = Ok alg ->
  policy_consistent alg /\
  PageReplacementAlgorithm.num_frames alg = n /\
  PageReplacementAlgorithm.frames alg = [].
Proof.
  unfold VirtualMemorySimulator.make_algorithm. intros H.
  repeat match type of H with
         | context [if ?b then _ else _] => destruct b
         | context [match ?r with Some _ => _ | None => _ end] => destruct r
         end;
    try discriminate H; injection H as <-; simpl;
    (split; [|split; reflexivity]).
  - split; [reflexivity | constructor].
  - apply LRU_init_consistent.
  - apply LFU_init_consistent.
  - split; [constructor | simpl; lia].
  - constructor; simpl.
    + constructor.
    + constructor.
    + intros p. split; [contradiction | congruence].
    + lia.
    + unfold PyList.len. simpl. lia.
Qed.

Lemma access_page_policy_step (a a' : PageReplacementAlgorithm.t)
      (page time : Z) (w pf : bool) (victim : option Z) :
  PageReplacementAlgorithm.access_page a page time w = Ok ((pf, victim), a') ->
  policy_step (PageReplacementAlgorithm.frames a)
              (PageReplacementAlgorithm.num_frames a)
              (PageReplacementAlgorithm.frames a')
              (PageReplacementAlgorithm.num_frames a') page pf victim.
Proof.
  unfold PageReplacementAlgorithm.access_page, PageReplacementAlgorithm.lift_alg.
  destruct a as [s|s|s|s|s]; intros H; inv_bind H as [[pf0 vic0] s0] Hs;
    injection H as <- <- <-; simpl.
  - now apply FIFO_policy_step in Hs.
  - now apply LRU_policy_step in Hs.
  - now apply LFU_policy_step in Hs.
  - now apply Optimal_policy_step in Hs.
  - now apply Clock_policy_step in Hs.
Qed.

Lemma FIFO_full_fault_has_victim (s s' : FIFO.t) (page time : Z) (w : bool)
      (victim : option Z) :
  FIFO.access_page s page time w = Ok ((true, victim), s') ->
  FIFO.num_frames s <= PyList.len (FIFO.frames s) ->
  victim <> None.
Proof.
  unfold FIFO.access_page. intros H Hfull.
  destruct (FIFO.is_page_in_memory s page); [discriminate H|].
  inv_bind H as [[vic fr] qu] Hev. injection H as <- _.
  apply Z.leb_le in Hfull. rewrite Hfull in Hev.
  inv_bind Hev as v Hv. inv_bind Hev as fr1 Hfr. inv_bind Hev as qu1 Hqu.
  injection Hev as <- _ _. discriminate.
Qed.

Lemma LRU_full_fault_has_victim (s s' : LRU.t) (page time : Z) (w : bool)
      (victim : option Z) :
  LRU.access_page s page time w = Ok ((true, victim), s') ->
  LRU.num_frames s <= PyList.len (LRU.frames s) ->
  victim <> None.
Proof.
  unfold LRU.access_page. intros H Hfull.
  inv_bind H as [[vic fr] tm] Hadm. injection H as Hpf <- _.
  destruct (LRU.is_page_in_memory s page); [discriminate Hpf|]. simpl in Hadm.
  inv_bind Hadm as [[vic0 fr0] tm0] Hev. injection Hadm as <- _ _.
  apply Z.leb_le in Hfull. rewrite Hfull in Hev.
  inv_bind Hev as v Hv. inv_bind Hev as fr1 Hfr. inv_bind Hev as tm1 Htm.
  injection Hev as <- _ _. discriminate.
Qed.

Lemma LFU_full_fault_has_victim (s s' : LFU.t) (page time : Z) (w : bool)
      (victim : option Z) :
  LFU.access_page s page time w = Ok ((true, victim), s') ->
  LFU.num_frames s <= PyList.len (LFU.frames s) ->
  victim <> None.
Proof.
  unfold LFU.access_page. intros H Hfull.
  inv_bind H as [[[vic fr] cn] tm] Hadm. inv_bind H as c Hc.
  injection H as Hpf <- _.
  destruct (LFU.is_page_in_memory s page); [discriminate Hpf|]. simpl in Hadm.
  inv_bind Hadm as [[[vic0 fr0] cn0] tm0] Hev. injection Hadm as <- _ _ _.
  apply Z.leb_le in Hfull. rewrite Hfull in Hev.
  inv_bind Hev as v Hv. inv_bind Hev as fr1 Hfr. inv_bind Hev as cn1 Hcn.
  inv_bind Hev as tm1 Htm.
  injection Hev as <- _ _ _. discriminate.
Qed.

Lemma Optimal_full_fault_has_victim (s s' : Optimal.t) (page time : Z) (w : bool)
      (victim : option Z) :
  Optimal.access_page s page time w = Ok ((true, victim), s') ->
  Optimal.num_frames s <= PyList.len (Optimal.frames s) ->
  victim <> None.
Proof.
  unfold Optimal.access_page. intros H Hfull.
  inv_bind H as [vic fr] Hadm. injection H as Hpf <- _.
  destruct (Optimal.is_page_in_memory s page); [discriminate Hpf|].
  simpl in Hadm.
  inv_bind Hadm as [vic0 fr0] Hev. injection Hadm as <- _.
  apply Z.leb_le in Hfull. rewrite Hfull in Hev.
  inv_bind Hev as ov Hov. destruct ov as [v|]; [|discriminate Hev].
  inv_bind Hev as fr1 Hfr.
  injection Hev as <- _. discriminate.
Qed.

Lemma Clock_full_fault_has_victim (s s' : Clock.t) (page time : Z) (w : bool)
      (victim : option Z) :
  Clock.access_page s page time w = Ok ((true, victim), s') ->
  Clock.num_frames s <= PyList.len (Clock.frames s) ->
  victim <> None.
Proof.
  unfold Clock.access_page. intros H Hfull.
  inv_bind H as [vic s1] Hadm. injection H as Hpf <- _.
  destruct (Clock.is_page_in_memory s page); [discriminate Hpf|].
  simpl in Hadm.
  apply Z.leb_le in Hfull. rewrite Hfull in Hadm.
  inv_bind Hadm as [v s0] Hv. inv_bind Hadm as vi Hvi.
  inv_bind Hadm as fr Hfr. inv_bind Hadm as bits Hbits.
  injection Hadm as <- _. discriminate.
Qed.

(** A fault when there is no room always names a victim. *)
Lemma access_page_full_fault_has_victim (a a' : PageReplacementAlgorithm.t)
      (page time : Z) (w : bool) (victim : option Z) :
  PageReplacementAlgorithm.access_page a page time w = Ok ((true, victim), a') ->
  PageReplacementAlgorithm.num_frames a
  <= PyList.len (PageReplacementAlgorithm.frames a) ->
  victim <> None.
Proof.
  unfold PageReplacementAlgorithm.access_page, PageReplacementAlgorithm.lift_alg.
  destruct a as [s|s|s|s|s]; intros H; inv_bind H as [[pf0 vic0] s0] Hs;
    injection H as -> <- _; simpl.
  - now apply (FIFO_full_fault_has_victim _ _ _ _ _ _ Hs).
  - now apply (LRU_full_fault_has_victim _ _ _ _ _ _ Hs).
  - now apply (LFU_full_fault_has_victim _ _ _ _ _ _ Hs).
  - now apply (Optimal_full_fault_has_victim _ _ _ _ _ _ Hs).
  - now apply (Clock_full_fault_has_victim _ _ _ _ _ _ Hs).
Qed.

Lemma access_page_frames_step (a : PageReplacementAlgorithm.t)
      (page time : Z) (w : bool) :
  policy_consistent a -> 0 < PageReplacementAlgorithm.num_frames a ->
  exists pf victim a',
    PageReplacementAlgorithm.access_page a page time w = Ok ((pf, victim), a') /\
    policy_consistent a' /\
    PageReplacementAlgorithm.num_frames a' = PageReplacementAlgorithm.num_frames a /\
    frames_step (PageReplacementAlgorithm.frames a)
                (PageReplacementAlgorithm.num_frames a)
                (PageReplacementAlgorithm.frames a') page pf victim.
Proof.
  intros Hc Hnf.
  destruct (access_page_step a page time w Hc Hnf)
    as (pf & victim & a' & Hacc & Hc' & Hev).
  pose proof (access_page_policy_step _ _ _ _ _ _ _ Hacc)
    as (Hpf & _ & Hnf' & Hvic & _).
  exists pf, victim, a'. split; [exact Hacc|]. split; [exact Hc'|].
  split; [exact Hnf'|]. unfold frames_step. split; [|split].
  - intros Hin. apply contains_In in Hin. rewrite Hin in Hpf. simpl in Hpf.
    subst pf. simpl in Hev. destruct Hev as (-> & ->). auto.
  - intros Hnin Hroom. apply contains_false in Hnin. rewrite Hnin in Hpf.
    simpl in Hpf. subst pf.
    destruct victim as [v|].
    + exfalso. destruct Hvic as (_ & Hfull); [discriminate | lia].
    + simpl in Hev. auto.
  - intros Hnin Hfull. apply contains_false in Hnin. rewrite Hnin in Hpf.
    simpl in Hpf. subst pf. split; [reflexivity|].
    pose proof (access_page_full_fault_has_victim _ _ _ _ _ _ Hacc Hfull) as Hsome.
    destruct victim as [v|]; [|congruence].
    simpl in Hev. exists v. split; [reflexivity | exact Hev].
Qed.

(** X13. A policy object in a consistent state with at least one frame:
    [access_page] never raises, whatever the page, leaves the object
    consistent and [num_frames] as it was.  If the page was resident, no
    fault and no victim are reported and [frames] is unchanged.  If it
    was not and [len(frames) < num_frames], a fault without victim is
    reported and the page is appended.  If it was not and
    [len(frames) >= num_frames], a fault is reported together with a
    victim that was resident, and [frames] afterwards holds the page in
    place of the victim, as many pages as before. *)
Theorem access_page_never_raises (a : PageReplacementAlgorithm.t)
        (page time : Z) (is_write : bool) :
  policy_consistent a -> 0 < PageReplacementAlgorithm.num_frames a ->
  exists pf victim a',
    PageReplacementAlgorithm.access_page a page time is_write
      = Ok ((pf, victim), a') /\
    policy_consistent a' /\
    PageReplacementAlgorithm.num_frames a' = PageReplacementAlgorithm.num_frames a /\
    frames_step (PageReplacementAlgorithm.frames a)
                (PageReplacementAlgorithm.num_frames a)
                (PageReplacementAlgorithm.frames a') page pf victim.
Proof. apply access_page_frames_step. Qed.

Lemma clock_full_consistent : Clock_consistent clock_full.
Proof.
  constructor; simpl.
  - repeat constructor; simpl; intuition lia.
  - repeat constructor; simpl; intuition lia.
  - intros p. apply (lookup_keys p (Clock.reference_bits clock_full)).
  - lia.
  - reflexivity.
Defined.

Lemma access_page_never_raises_witness :
  exists pf victim a',
    PageReplacementAlgorithm.access_page
      (PageReplacementAlgorithm.AlgClock clock_full) 4 7 false
      = Ok ((pf, victim), a') /\
    policy_consistent a' /\
    PageReplacementAlgorithm.num_frames a' = 3 /\
    frames_step [1; 2; 3] 3 (PageReplacementAlgorithm.frames a') 4 pf victim.
Proof.
  apply (access_page_never_raises
           (PageReplacementAlgorithm.AlgClock clock_full) 4 7 false).
  - exact clock_full_consistent.
  - reflexivity.
Defined.

(** A policy object built by the constructor is consistent, and stays so
    however it is driven. *)
Lemma policy_consistent_nodup (a : PageReplacementAlgorithm.t) :
  policy_consistent a -> NoDup (PageReplacementAlgorithm.frames a).
Proof.
  destruct a as [s|s|s|s|s]; simpl.
  - now intros [_ H].
  - now intros [H _ _].
  - now intros [H _ _ _ _].
  - now intros [H _].
  - now intros [H _ _ _ _].
Qed.

(** ** The simulator: calls on pages of the table never raise *)

Lemma tracked_frames (a : PageReplacementAlgorithm.t) (p : Z) :
  policy_consistent a -> In p (tracked a) ->
  In p (PageReplacementAlgorithm.frames a).
Proof.
  destruct a as [s|s|s|s|s]; simpl.
  - intros [Heq _]. rewrite <- Heq, in_app_iff. tauto.
  - intros [_ _ Htf]. rewrite in_app_iff, lookup_keys, <- Htf. tauto.
  - intros [_ _ _ Hcf Htf].
    rewrite !in_app_iff, !lookup_keys, <- Hcf, <- Htf. tauto.
  - auto.
  - intros [_ _ Hbf _ _]. rewrite in_app_iff, lookup_keys, <- Hbf. tauto.
Qed.

Lemma resident_in_range (pt : PageTable.t) (cache p2f : PyDict.t Z) (p f : Z) :
  agree pt cache p2f -> PyDict.lookup p p2f = Some f ->
  0 <= p < PyList.len (PageTable.entries pt).
Proof.
  intros Hag Hp. destruct (agree_map _ _ _ Hag _ _ Hp) as (Hp0 & e & He & _).
  split; [exact Hp0|].
  rewrite list_getitem_nonneg in He by exact Hp0.
  destruct (nth_error (PageTable.entries pt) (Z.to_nat p)) eqn:E; [|discriminate].
  assert (Hlt : (Z.to_nat p < List.length (PageTable.entries pt))%nat)
    by (apply nth_error_Some; congruence).
  unfold PyList.len. lia.
Qed.

Lemma sound_coherent (s : VirtualMemorySimulator.t) : sound s -> coherent s.
Proof.
  intros Hs. split; [|apply (sound_agree _ Hs)].
  intros p Hp. apply tracked_frames in Hp; [|apply (sound_policy _ Hs)].
  apply (sound_map _ Hs) in Hp.
  destruct (PyDict.lookup p (VirtualMemorySimulator.page_to_frame s)) as [f|] eqn:E;
    [|congruence].
  apply (resident_in_range _ _ _ _ _ (sound_agree _ Hs) E).
Qed.

Lemma values_setitem_new {V : Type} (k : Z) (v : V) (d : PyDict.t V) :
  PyDict.lookup k d = None ->
  PyDict.values (PyDict.setitem k v d) = PyDict.values d ++ [v].
Proof.
  intros H. unfold PyDict.setitem, PyDict.contains. rewrite H.
  unfold PyDict.values. now rewrite map_app.
Qed.

Lemma remove_split {V : Type} (k : Z) (v : V) (d : PyDict.t V) :
  PyDict.lookup k d = Some v ->
  exists d1 d2, d = d1 ++ (k, v) :: d2 /\ PyDict.remove k d = d1 ++ d2.
Proof.
  induction d as [|[k' v'] d IH]; simpl; [discriminate|].
  destruct (k' =? k) eqn:E.
  - apply Z.eqb_eq in E. subst k'. intros H. injection H as ->.
    now exists [], d.
  - intros H. destruct (IH H) as (d1 & d2 & -> & Hr).
    exists ((k', v') :: d1), d2. simpl. now rewrite Hr.
Qed.

(** Evicting [k] and giving its frame to [k']: the frames in use are the
    same. *)
Lemma values_reassign (d : PyDict.t Z) (k k' v : Z) (free : list Z) :
  PyDict.lookup k d = Some v ->
  PyDict.lookup k' (PyDict.remove k d) = None ->
  (NoDup (PyDict.values d ++ free) ->
   NoDup (PyDict.values (PyDict.setitem k' v (PyDict.remove k d)) ++ free)) /\
  (forall f, In f (PyDict.values (PyDict.setitem k' v (PyDict.remove k d)) ++ free)
             -> In f (PyDict.values d ++ free)).
Proof.
  intros Hk Hk'. rewrite (values_setitem_new _ _ _ Hk').
  destruct (remove_split _ _ _ Hk) as (d1 & d2 & -> & ->).
  unfold PyDict.values. rewrite !map_app. simpl. split.
  - intros Hnd. rewrite <- !app_assoc in Hnd. simpl in Hnd.
    pose proof (NoDup_remove _ _ _ Hnd) as [Hnd' Hnin].
    rewrite <- !app_assoc. simpl.
    rewrite app_assoc. rewrite app_assoc in Hnd', Hnin.
    apply (NoDup_Add (Add_app v _ _)). now split.
  - intros f. repeat (rewrite in_app_iff; simpl). tauto.
Qed.

(** What one call does to the parts of the state that [agree] does not
    speak about. *)
Definition sound_step (s s' : VirtualMemorySimulator.t) : Prop :=
policy_consistent (VirtualMemorySimulator.algorithm s') /\
PageReplacementAlgorithm.num_frames (VirtualMemorySimulator.algorithm s')
= PageReplacementAlgorithm.num_frames (VirtualMemorySimulator.algorithm s) /\
(forall p,
   In p (PageReplacementAlgorithm.frames (VirtualMemorySimulator.algorithm s'))
   <-> PyDict.lookup p (VirtualMemorySimulator.page_to_frame s') <> None) /\
PyList.len (VirtualMemorySimulator.free_frames s')
+ PyList.len (PageReplacementAlgorithm.frames (VirtualMemorySimulator.algorithm s'))
= PageReplacementAlgorithm.num_frames (VirtualMemorySimulator.algorithm s) /\
TLB.size (VirtualMemorySimulator.tlb s') = TLB.size (VirtualMemorySimulator.tlb s) /\
VirtualMemorySimulator.page_size s' = VirtualMemorySimulator.page_size s /\
NoDup (PyDict.values (VirtualMemorySimulator.page_to_frame s')
       ++ VirtualMemorySimulator.free_frames s') /\
(forall f,
   In f (PyDict.values (VirtualMemorySimulator.page_to_frame s')
         ++ VirtualMemorySimulator.free_frames s') ->
   In f (PyDict.values (VirtualMemorySimulator.page_to_frame s)
         ++ VirtualMemorySimulator.free_frames s)) /\
PyList.len (PageTable.entries (VirtualMemorySimulator.page_table s'))
= PyList.len (PageTable.entries (VirtualMemorySimulator.page_table s)).

Lemma translate_address_defined (s : VirtualMemorySimulator.t) (va : Z) (w : bool) :
  sound s -> in_table s va ->
  exists pa pf hit s',
    VirtualMemorySimulator.translate_address s va w = Ok ((pa, pf, hit), s') /\
    (if pf then
       exists victim,
         PageReplacementAlgorithm.access_page
           (VirtualMemorySimulator.algorithm s)
           (va / VirtualMemorySimulator.page_size s)
           (VirtualMemorySimulator.current_time s + 1) w
         = Ok ((true, victim), VirtualMemorySimulator.algorithm s')
     else VirtualMemorySimulator.algorithm s' = VirtualMemorySimulator.algorithm s) /\
    sound_step s s'.
Proof.
  intros [Hpol Hnf Hag Hmap Hfree Hsz Hps Hfnd Hfrange] Hpage.
  unfold in_table in Hpage.
  set (page := va / VirtualMemorySimulator.page_size s) in *.
  pose proof (agree_tlb_nodup _ _ _ Hag) as Htnd.
  unfold VirtualMemorySimulator.translate_address. step_simpl.
  unfold floordiv, pymod.
  destruct (VirtualMemorySimulator.page_size s =? 0) eqn:Eps;
    [apply Z.eqb_eq in Eps; contradiction|].
  step_simpl. fold page.
  destruct (PyDict.lookup page (TLB.cache (VirtualMemorySimulator.tlb s)))
    as [f|] eqn:El.
  - (* TLB hit *)
    rewrite (TLB_lookup_Some _ _ _ Htnd El). step_simpl.
    unfold PageTable.update_access.
    do_update pt' Hpt'; [exact Hpage|]. step_simpl.
    eexists. eexists. eexists. eexists. split; [reflexivity|].
    split; [reflexivity|]. unfold sound_step. simpl.
    repeat split; auto; try apply Hmap.
    now apply update_entry_len in Hpt'.
  - (* TLB miss *)
    rewrite (TLB_lookup_None _ _ El). step_simpl.
    destruct (list_getitem_in_range _ _ Hpage) as [e He].
    unfold PageTable.is_valid at 1. rewrite He. step_simpl.
    destruct (PageTableEntry.valid e) eqn:Ev; cbn [negb].
    + (* the page table has it *)
      assert (Hvalid : PageTable.is_valid (VirtualMemorySimulator.page_table s) page
                       = Ok true)
        by (apply is_valid_getitem; exists e; auto).
      pose proof (agree_valid _ _ _ Hag page (proj1 Hpage) Hvalid) as Hin.
      destruct (PyDict.lookup page (VirtualMemorySimulator.page_to_frame s))
        as [f0|] eqn:Ef0; [|congruence].
      destruct (agree_map _ _ _ Hag _ _ Ef0) as (_ & e' & He' & _ & Hef).
      rewrite He in He'. injection He' as <-.
      unfold PageTable.get_frame_number. rewrite Hvalid. step_simpl.
      cbn [negb]. rewrite He. step_simpl. rewrite Hef. step_simpl.
      do_insert tl2 Htl2 Hsz2; [exact Hsz|]. step_simpl.
      unfold PageTable.update_access.
      do_update pt' Hpt'; [exact Hpage|]. step_simpl.
      eexists. eexists. eexists. eexists. split; [reflexivity|].
      split; [reflexivity|]. unfold sound_step. simpl.
      repeat split; auto; try apply Hmap.
      now apply update_entry_len in Hpt'.
    + (* page fault *)
      assert (Hnone : PyDict.lookup page (VirtualMemorySimulator.page_to_frame s)
                      = None).
      { destruct (PyDict.lookup page (VirtualMemorySimulator.page_to_frame s))
          as [f0|] eqn:Ef0; [|reflexivity].
        destruct (agree_map _ _ _ Hag _ _ Ef0) as (_ & e' & He' & Hev' & _).
        congruence. }
      assert (Hnin : ~ In page (PageReplacementAlgorithm.frames
                                  (VirtualMemorySimulator.algorithm s))).
      { intros Hq. apply Hmap in Hq. congruence. }
      destruct (access_page_step (VirtualMemorySimulator.algorithm s) page
                  (VirtualMemorySimulator.current_time s + 1) w Hpol Hnf)
        as (pf & victim & alg' & Hacc & Hpol' & Hev).
      pose proof (access_page_policy_step _ _ _ _ _ _ _ Hacc)
        as (Hpf & _ & Hnf' & _ & Hbound).
      rewrite (proj2 (contains_false _ _) Hnin) in Hpf. simpl in Hpf. subst pf.
      unfold VirtualMemorySimulator._handle_page_fault. step_simpl.
      rewrite Hacc. step_simpl.
      destruct victim as [v|]; simpl in Hev.
      * (* no free frame: the victim's frame is reused *)
        destruct Hev as (Hv & Hlen & Hfr').
        pose proof (proj1 (Hmap v) Hv) as Hvm.
        destruct (PyDict.lookup v (VirtualMemorySimulator.page_to_frame s))
          as [fv|] eqn:Efv; [|congruence].
        unfold PyDict.getitem. rewrite Efv. step_simpl.
        unfold PageTable.invalidate.
        do_update pt1 Hpt1; [apply (resident_in_range _ _ _ _ _ Hag Efv)|].
        step_simpl.
        destruct (TLB_invalidate_defined
                    (TLB.mk (TLB.size (VirtualMemorySimulator.tlb s))
                       (TLB.cache (VirtualMemorySimulator.tlb s))
                       (TLB.hits (VirtualMemorySimulator.tlb s))
                       (TLB.misses (VirtualMemorySimulator.tlb s) + 1)) v)
          as (tl1 & Htl1 & Hsz1).
        rewrite Htl1. step_simpl.
        unfold PyDict.delitem. rewrite (dict_contains_true _ _ _ Efv). step_simpl.
        unfold PageTable.set_frame.
        do_update pt2 Hpt2; [now rewrite (update_entry_len _ _ _ _ Hpt1)|].
        step_simpl.
        do_insert tl2 Htl2 Hsz2; [now rewrite Hsz1|]. step_simpl.
        unfold PageTable.update_access.
        do_update pt3 Hpt3;
          [now rewrite (update_entry_len _ _ _ _ Hpt2), (update_entry_len _ _ _ _ Hpt1)|].
        step_simpl.
        assert (Hpv : page <> v) by (intros ->; contradiction).
        assert (Hnone' : PyDict.lookup page
                           (PyDict.remove v (VirtualMemorySimulator.page_to_frame s))
                         = None)
          by (rewrite lookup_remove_other by exact Hpv; exact Hnone).
        destruct (values_reassign _ _ _ _ (VirtualMemorySimulator.free_frames s)
                    Efv Hnone') as (Hnd2 & Hin2).
        eexists. eexists. eexists. eexists. split; [reflexivity|].
        split; [eexists; reflexivity|]. unfold sound_step. simpl.
        split; [exact Hpol'|]. split; [exact Hnf'|].
        split; [|split; [|split; [|split; [|split; [|split]]]]].
        -- intros p. rewrite Hfr', lookup_setitem_iff.
           rewrite lookup_remove_iff by apply (agree_map_nodup _ _ _ Hag).
           rewrite <- Hmap. intuition congruence.
        -- rewrite Hlen. exact Hfree.
        -- simpl in Hsz1. congruence.
        -- reflexivity.
        -- auto.
        -- exact Hin2.
        -- rewrite (update_entry_len _ _ _ _ Hpt3), (update_entry_len _ _ _ _ Hpt2).
           apply (update_entry_len _ _ _ _ Hpt1).
      * (* a free frame is left *)
        assert (Hroom : PyList.len (PageReplacementAlgorithm.frames alg')
                        <= PageReplacementAlgorithm.num_frames
                             (VirtualMemorySimulator.algorithm s)).
        { apply Hbound.
          pose proof (len_nonneg (VirtualMemorySimulator.free_frames s)). lia. }
        rewrite Hev, len_snoc in Hroom.
        destruct (VirtualMemorySimulator.free_frames s) as [|fr free] eqn:Efree.
        { unfold PyList.len in Hfree at 1. simpl in Hfree. lia. }
        cbn [PyList.pop0]. step_simpl.
        unfold PageTable.set_frame.
        do_update pt2 Hpt2; [exact Hpage|]. step_simpl.
        do_insert tl2 Htl2 Hsz2; [exact Hsz|]. step_simpl.
        unfold PageTable.update_access.
        do_update pt3 Hpt3; [now rewrite (update_entry_len _ _ _ _ Hpt2)|].
        step_simpl.
        eexists. eexists. eexists. eexists. split; [reflexivity|].
        split; [eexists; reflexivity|]. unfold sound_step. simpl.
        split; [exact Hpol'|]. split; [exact Hnf'|].
        split; [|split; [|split; [|split; [|split; [|split]]]]].
        -- intros p. rewrite Hev, in_app_iff, lookup_setitem_iff, <- Hmap. simpl.
           intuition congruence.
        -- rewrite Hev, len_snoc. rewrite len_cons in Hfree. lia.
        -- simpl in Hsz2. congruence.
        -- reflexivity.
        -- rewrite (values_setitem_new _ _ _ Hnone), <- app_assoc. exact Hfnd.
        -- intros f0. rewrite (values_setitem_new _ _ _ Hnone), <- app_assoc.
           rewrite ?Efree. exact (fun H => H).
        -- rewrite (update_entry_len _ _ _ _ Hpt3).
           apply (update_entry_len _ _ _ _ Hpt2).
Qed.

Lemma translate_address_sound (s : VirtualMemorySimulator.t) (va : Z) (w : bool) :
  sound s -> in_table s va ->
  exists pa pf hit s',
    VirtualMemorySimulator.translate_address s va w = Ok ((pa, pf, hit), s') /\
    sound s' /\
    (if pf then
       exists victim,
         PageReplacementAlgorithm.access_page
           (VirtualMemorySimulator.algorithm s)
           (va / VirtualMemorySimulator.page_size s)
           (VirtualMemorySimulator.current_time s + 1) w
         = Ok ((true, victim), VirtualMemorySimulator.algorithm s')
     else VirtualMemorySimulator.algorithm s' = VirtualMemorySimulator.algorithm s) /\
    pf = negb (PyList.contains (va / VirtualMemorySimulator.page_size s)
                 (PageReplacementAlgorithm.frames
                    (VirtualMemorySimulator.algorithm s))) /\
    PyDict.lookup (va / VirtualMemorySimulator.page_size s)
      (VirtualMemorySimulator.page_to_frame s')
    = Some (pa / VirtualMemorySimulator.page_size s) /\
    VirtualMemorySimulator.page_size s' = VirtualMemorySimulator.page_size s /\
    PyList.len (PageTable.entries (VirtualMemorySimulator.page_table s'))
    = PyList.len (PageTable.entries (VirtualMemorySimulator.page_table s)) /\
    PageReplacementAlgorithm.num_frames (VirtualMemorySimulator.algorithm s')
    = PageReplacementAlgorithm.num_frames (VirtualMemorySimulator.algorithm s).
Proof.
  intros Hs Hpage.
  destruct (translate_address_defined s va w Hs Hpage)
    as (pa & pf & hit & s' & Heq & Halg & Hstep).
  destruct (translate_address_coherent _ _ _ _ _ _ _
              (sound_coherent _ Hs) (proj1 Hpage) Heq)
    as ((_ & Hag') & _ & _ & Htlb & Hpf).
  destruct Hstep as (Hpol' & Hnf' & Hmap' & Hfree' & Hsz' & Hps' & Hnd' & Hin' & Hlen').
  exists pa, pf, hit, s'. split; [exact Heq|].
  split; [|split; [exact Halg|split; [|split; [|split; [|split]]]]]; auto.
  - constructor; auto.
    + rewrite Hnf'. apply (sound_num_frames _ Hs).
    + now rewrite Hnf'.
    + rewrite Hsz'. apply (sound_tlb _ Hs).
    + rewrite Hps'. apply (sound_page_size _ Hs).
    + intros f Hf. rewrite Hnf'. apply (sound_frames_range _ Hs). auto.
  - rewrite Hpf. f_equal. unfold PyDict.contains.
    destruct (PyList.contains (va / VirtualMemorySimulator.page_size s)
                (PageReplacementAlgorithm.frames (VirtualMemorySimulator.algorithm s)))
      eqn:E.
    + apply contains_In, (sound_map _ Hs) in E.
      destruct (PyDict.lookup _ (VirtualMemorySimulator.page_to_frame s));
        [reflexivity | congruence].
    + apply contains_false in E.
      destruct (PyDict.lookup (va / VirtualMemorySimulator.page_size s)
                  (VirtualMemorySimulator.page_to_frame s)) eqn:El; [|reflexivity].
      exfalso. apply E, (sound_map _ Hs). congruence.
  - apply (agree_tlb _ _ _ Hag'). exact Htlb.
Qed.

Lemma range_In (n f : Z) : In f (PyList.range n) <-> 0 <= f < n.
Proof.
  unfold PyList.range. rewrite in_map_iff. split.
  - intros (k & <- & Hk). apply in_seq in Hk. lia.
  - intros Hf. exists (Z.to_nat f). split; [lia|]. apply in_seq. lia.
Qed.

Lemma range_nodup (n : Z) : NoDup (PyList.range n).
Proof.
  unfold PyList.range. generalize (seq_NoDup (Z.to_nat n) 0).
  generalize (seq 0 (Z.to_nat n)). intros l. induction 1 as [|x l Hx Hnd IH]; simpl.
  - constructor.
  - constructor; [|exact IH]. rewrite in_map_iff. intros (y & Hy & Hin).
    apply Nat2Z.inj in Hy. subst y. contradiction.
Qed.

Lemma fresh_sound (num_pages num_frames page_size tlb_size : Z)
      (name : string) (refs : option (list Z)) (alg : PageReplacementAlgorithm.t) :
  VirtualMemorySimulator.make_algorithm num_frames name refs = Ok alg ->
  0 < num_frames -> 0 < tlb_size -> page_size <> 0 ->
  sound (fresh num_pages num_frames page_size tlb_size alg name).
Proof.
  intros Halg Hnf Htlb Hps.
  destruct (make_algorithm_consistent _ _ _ _ Halg) as (Hpol & Hn & Hfr).
  pose proof (coherent_fresh num_pages num_frames page_size tlb_size alg name
                (make_algorithm_tracked _ _ _ _ Halg)) as [_ Hag].
  constructor; simpl; auto.
  - now rewrite Hn.
  - intros p. rewrite Hfr. simpl. split; [contradiction | congruence].
  - rewrite Hfr, Hn, range_len by lia. unfold PyList.len. simpl. lia.
  - apply range_nodup.
  - intros f Hf. rewrite Hn. now apply range_In.
Qed.

(** ** What one call does to the counters *)

Lemma TLB_lookup_counters (tl tl' : TLB.t) (p : Z) (r : option Z) :
  TLB.lookup tl p = Ok (r, tl') ->
  TLB.size tl' = TLB.size tl /\
  TLB.hits tl' = TLB.hits tl + (match r with Some _ => 1 | None => 0 end) /\
  TLB.misses tl' = TLB.misses tl + (match r with Some _ => 0 | None => 1 end).
Proof.
  unfold TLB.lookup. destruct (PyDict.contains p (TLB.cache tl)); intros H.
  - inv_bind H as c Hc. inv_bind H as f Hf. injection H as <- <-. simpl. lia.
  - injection H as <- <-. simpl. lia.
Qed.

Lemma TLB_insert_counters (tl tl' : TLB.t) (p f : Z) :
  TLB.insert tl p f = Ok tl' ->
  TLB.size tl' = TLB.size tl /\ TLB.hits tl' = TLB.hits tl /\
  TLB.misses tl' = TLB.misses tl.
Proof.
  unfold TLB.insert. destruct (PyDict.contains p (TLB.cache tl)); intros H;
    inv_bind H as c Hc; injection H as <-; simpl; auto.
Qed.

Lemma TLB_invalidate_counters (tl tl' : TLB.t) (p : Z) :
  TLB.invalidate tl p = Ok tl' ->
  TLB.size tl' = TLB.size tl /\ TLB.hits tl' = TLB.hits tl /\
  TLB.misses tl' = TLB.misses tl.
Proof.
  unfold TLB.invalidate. destruct (PyDict.contains p (TLB.cache tl)); intros H.
  - inv_bind H as c Hc. injection H as <-. simpl. auto.
  - injection H as <-. auto.
Qed.

Lemma handle_page_fault_counters (s s' : VirtualMemorySimulator.t) (p fr : Z)
      (w : bool) :
  VirtualMemorySimulator._handle_page_fault s p w = Ok (fr, s') ->
  VirtualMemorySimulator.tlb_hits s' = VirtualMemorySimulator.tlb_hits s /\
  VirtualMemorySimulator.tlb_misses s' = VirtualMemorySimulator.tlb_misses s /\
  VirtualMemorySimulator.algorithm_name s' = VirtualMemorySimulator.algorithm_name s /\
  TLB.size (VirtualMemorySimulator.tlb s') = TLB.size (VirtualMemorySimulator.tlb s) /\
  TLB.hits (VirtualMemorySimulator.tlb s') = TLB.hits (VirtualMemorySimulator.tlb s) /\
  TLB.misses (VirtualMemorySimulator.tlb s') = TLB.misses (VirtualMemorySimulator.tlb s).
Proof.
  unfold VirtualMemorySimulator._handle_page_fault. intros H.
  inv_bind H as [[o victim] alg] Ha.
  inv_bind H as [[[[f pt] tl] free] p2f] Hb.
  inv_bind H as pt' Hc. injection H as <- <-. simpl.
  destruct victim as [v|].
  - inv_bind Hb as fr1 Hfr. inv_bind Hb as pt1 Hinv.
    inv_bind Hb as tl1 Htl. inv_bind Hb as p2f1 Hdel.
    injection Hb as <- <- <- <- <-.
    apply TLB_invalidate_counters in Htl. tauto.
  - inv_bind Hb as [fr1 free1] Hpop. injection Hb as <- <- <- <- <-.
    repeat split; reflexivity.
Qed.

Lemma translate_address_counters_gen (s s' : VirtualMemorySimulator.t)
      (va pa : Z) (w pf hit : bool) :
  VirtualMemorySimulator.translate_address s va w = Ok ((pa, pf, hit), s') ->
  VirtualMemorySimulator.memory_accesses s'
  = VirtualMemorySimulator.memory_accesses s + 1 /\
  VirtualMemorySimulator.current_time s'
  = VirtualMemorySimulator.current_time s + 1 /\
  VirtualMemorySimulator.page_faults s'
  = VirtualMemorySimulator.page_faults s + (if pf then 1 else 0) /\
  TLB.hits (VirtualMemorySimulator.tlb s')
  = TLB.hits (VirtualMemorySimulator.tlb s) + (if hit then 1 else 0) /\
  TLB.misses (VirtualMemorySimulator.tlb s')
  = TLB.misses (VirtualMemorySimulator.tlb s) + (if hit then 0 else 1) /\
  (pf = true -> hit = false) /\
  VirtualMemorySimulator.tlb_hits s' = VirtualMemorySimulator.tlb_hits s /\
  VirtualMemorySimulator.tlb_misses s' = VirtualMemorySimulator.tlb_misses s /\
  VirtualMemorySimulator.num_pages s' = VirtualMemorySimulator.num_pages s /\
  VirtualMemorySimulator.num_frames s' = VirtualMemorySimulator.num_frames s /\
  VirtualMemorySimulator.page_size s' = VirtualMemorySimulator.page_size s /\
  VirtualMemorySimulator.algorithm_name s' = VirtualMemorySimulator.algorithm_name s.
Proof.
  unfold VirtualMemorySimulator.translate_address. intros H.
  inv_bind H as page Hpage. inv_bind H as offset Hoff.
  inv_bind H as [looked tl] Hlook.
  inv_bind H as [[[fr pf0] hit0] s1] Hmid.
  inv_bind H as pt Hupd.
  apply TLB_lookup_counters in Hlook. destruct Hlook as (_ & Hh & Hm).
  destruct looked as [f|].
  - injection Hmid as <- <- <- <-. simpl in H. injection H as <- <- <- <-.
    simpl in *. repeat split; try lia; try reflexivity; try discriminate.
  - inv_bind Hmid as v Hv. inv_bind Hmid as [[fr2 pf2] s2] Hsub.
    inv_bind Hmid as tl2 Hins.
    injection Hmid as <- <- <- <-. simpl in H. injection H as <- <- <- <-.
    apply TLB_insert_counters in Hins. destruct Hins as (_ & Hh2 & Hm2).
    destruct v; simpl in Hsub.
    + inv_bind Hsub as ofr Hofr. destruct ofr as [fr3|]; [|discriminate].
      injection Hsub as <- <- <-. simpl in *.
      repeat split; try lia; try reflexivity; try discriminate.
    + inv_bind Hsub as [fr3 s3] Hpf. injection Hsub as <- <- <-.
      pose proof (handle_page_fault_fields _ _ _ _ _ Hpf)
        as (Hps & Hnp & Hnf & Hct & Hpfs & Hma).
      pose proof (handle_page_fault_counters _ _ _ _ _ Hpf)
        as (Hth & Htm & Han & _ & Hh3 & Hm3).
      simpl in *. repeat split; try lia; try congruence.
Qed.

(** ** Runs from the constructor *)

Lemma init_inv (num_pages num_frames page_size tlb_size : Z) (name : string)
      (refs : option (list Z)) (s : VirtualMemorySimulator.t) :
  VirtualMemorySimulator.init num_pages num_frames page_size tlb_size name refs
    = Ok s ->
  exists alg,
    VirtualMemorySimulator.make_algorithm num_frames name refs = Ok alg /\
    s = fresh num_pages num_frames page_size tlb_size alg name.
Proof.
  unfold VirtualMemorySimulator.init. intros H. inv_bind H as alg Halg.
  injection H as <-. now exists alg.
Qed.

Lemma init_sound (num_pages num_frames page_size tlb_size : Z) (name : string)
      (refs : option (list Z)) (s : VirtualMemorySimulator.t) :
  VirtualMemorySimulator.init num_pages num_frames page_size tlb_size name refs
    = Ok s ->
  0 < num_frames -> 0 < tlb_size -> page_size <> 0 ->
  sound s /\
  PyList.len (PageTable.entries (VirtualMemorySimulator.page_table s))
  = Z.max 0 num_pages /\
  PageReplacementAlgorithm.num_frames (VirtualMemorySimulator.algorithm s)
  = num_frames /\
  VirtualMemorySimulator.memory_accesses s = 0 /\
  VirtualMemorySimulator.page_faults s = 0 /\
  TLB.hits (VirtualMemorySimulator.tlb s) = 0 /\
  TLB.misses (VirtualMemorySimulator.tlb s) = 0 /\
  PageReplacementAlgorithm.frames (VirtualMemorySimulator.algorithm s) = [].
Proof.
  intros H Hnf Htlb Hps. destruct (init_inv _ _ _ _ _ _ _ H) as (alg & Halg & ->).
  destruct (make_algorithm_consistent _ _ _ _ Halg) as (_ & Hn & Hfr).
  split; [now apply (fresh_sound _ _ _ _ _ refs)|].
  simpl. unfold PyList.len. rewrite repeat_length.
  split; [lia|]. repeat split; auto.
Qed.

Lemma in_table_page (s : VirtualMemorySimulator.t) (p : Z) :
  VirtualMemorySimulator.page_size s <> 0 ->
  0 <= p < PyList.len (PageTable.entries (VirtualMemorySimulator.page_table s)) ->
  in_table s (p * VirtualMemorySimulator.page_size s).
Proof. intros Hps Hp. unfold in_table. now rewrite Z.div_mul. Qed.

Lemma run_trace_from_sound (refs : list Z) :
  forall (s : VirtualMemorySimulator.t) (i : Z) (writes : list Z),
  sound s ->
  Forall (fun p => 0 <= p < PyList.len (PageTable.entries
                                          (VirtualMemorySimulator.page_table s)))
         refs ->
  exists s',
    VirtualMemorySimulator.run_trace_from s i refs writes = Ok s' /\
    sound s' /\
    VirtualMemorySimulator.memory_accesses s'
    = VirtualMemorySimulator.memory_accesses s + PyList.len refs /\
    TLB.hits (VirtualMemorySimulator.tlb s') + TLB.misses (VirtualMemorySimulator.tlb s')
    = TLB.hits (VirtualMemorySimulator.tlb s) + TLB.misses (VirtualMemorySimulator.tlb s)
      + PyList.len refs /\
    VirtualMemorySimulator.page_faults s' - VirtualMemorySimulator.page_faults s
    <= TLB.misses (VirtualMemorySimulator.tlb s')
       - TLB.misses (VirtualMemorySimulator.tlb s) /\
    VirtualMemorySimulator.page_faults s <= VirtualMemorySimulator.page_faults s' /\
    TLB.hits (VirtualMemorySimulator.tlb s) <= TLB.hits (VirtualMemorySimulator.tlb s') /\
    VirtualMemorySimulator.tlb_hits s' = VirtualMemorySimulator.tlb_hits s /\
    VirtualMemorySimulator.tlb_misses s' = VirtualMemorySimulator.tlb_misses s /\
    VirtualMemorySimulator.algorithm_name s' = VirtualMemorySimulator.algorithm_name s /\
    PageReplacementAlgorithm.num_frames (VirtualMemorySimulator.algorithm s')
    = PageReplacementAlgorithm.num_frames (VirtualMemorySimulator.algorithm s).
Proof.
  induction refs as [|p refs IH]; intros s i writes Hs Hall.
  - exists s. simpl. unfold PyList.len. simpl.
    split; [reflexivity|]. split; [exact Hs|]. repeat split; lia.
  - inversion Hall as [|? ? Hp Hrest]; subst.
    destruct (translate_address_sound s (p * VirtualMemorySimulator.page_size s)
                (PyList.contains i writes) Hs
                (in_table_page _ _ (sound_page_size _ Hs) Hp))
      as (pa & pf & hit & s1 & Heq & Hs1 & _ & _ & _ & Hps1 & Hlen1 & Hnf1).
    pose proof (translate_address_counters_gen _ _ _ _ _ _ _ Heq)
      as (Hma & _ & Hpf & Hh & Hm & Hph & Hth & Htm & _ & _ & _ & Han).
    destruct (IH s1 (i + 1) writes Hs1) as (s' & Hrun & Hs' & Hma' & Hhm' & Hle' &
                                            Hpf' & Hh' & Hth' & Htm' & Han' & Hnf').
    { rewrite Hlen1. exact Hrest. }
    exists s'. cbn [VirtualMemorySimulator.run_trace_from]. rewrite Heq.
    cbn [bind]. split; [exact Hrun|]. split; [exact Hs'|].
    rewrite len_cons.
    assert (Hcase : pf = true -> hit = false) by exact Hph.
    destruct pf, hit; try (specialize (Hcase eq_refl); discriminate);
      repeat split; try lia; try congruence.
Qed.

(** X14. On a simulator in a sound state, [translate_address] on an
    address whose page is in the page table never raises and leaves the
    simulator sound.  It reports a fault exactly when the page was not
    resident, and the physical address it returns lies in the frame that
    [page_to_frame] now records for the page, a frame number in
    [range(num_frames)]. *)
Theorem translate_address_never_raises (s : VirtualMemorySimulator.t)
        (va : Z) (is_write : bool) :
  sound s -> in_table s va ->
  exists pa pf hit s',
    VirtualMemorySimulator.translate_address s va is_write
      = Ok ((pa, pf, hit), s') /\
    sound s' /\
    pf = negb (PageReplacementAlgorithm.is_page_in_memory
                 (VirtualMemorySimulator.algorithm s)
                 (va / VirtualMemorySimulator.page_size s)) /\
    PyDict.lookup (va / VirtualMemorySimulator.page_size s)
      (VirtualMemorySimulator.page_to_frame s')
    = Some (pa / VirtualMemorySimulator.page_size s) /\
    0 <= pa / VirtualMemorySimulator.page_size s
      < PageReplacementAlgorithm.num_frames (VirtualMemorySimulator.algorithm s).
Proof.
  intros Hs Hpage.
  destruct (translate_address_sound s va is_write Hs Hpage)
    as (pa & pf & hit & s' & Heq & Hs' & _ & Hpf & Hl & _ & _ & Hnf).
  exists pa, pf, hit, s'. split; [exact Heq|]. split; [exact Hs'|].
  split; [exact Hpf|]. split; [exact Hl|].
  rewrite <- Hnf. apply (sound_frames_range _ Hs'), in_or_app. left.
  apply values_In. eexists. apply lookup_In. exact Hl.
Qed.

Lemma fifo_simulator_sound : sound fifo_simulator.
Proof.
  apply (fresh_sound 10 3 4096 4 "FIFO" None); [reflexivity|lia|lia|lia].
Defined.

Lemma translate_address_never_raises_witness :
  exists pa pf hit s',
    VirtualMemorySimulator.translate_address fifo_simulator 8200 false
      = Ok ((pa, pf, hit), s') /\
    sound s' /\
    pf = negb (PageReplacementAlgorithm.is_page_in_memory
                 (VirtualMemorySimulator.algorithm fifo_simulator)
                 (8200 / VirtualMemorySimulator.page_size fifo_simulator)) /\
    PyDict.lookup (8200 / VirtualMemorySimulator.page_size fifo_simulator)
      (VirtualMemorySimulator.page_to_frame s')
    = Some (pa / VirtualMemorySimulator.page_size fifo_simulator) /\
    0 <= pa / VirtualMemorySimulator.page_size fifo_simulator
      < PageReplacementAlgorithm.num_frames
          (VirtualMemorySimulator.algorithm fifo_simulator).
Proof.
  apply (translate_address_never_raises fifo_simulator 8200 false).
  - exact fifo_simulator_sound.
  - unfold in_table. vm_compute. split; [discriminate | reflexivity].
Defined.

(** X15. A simulator built by [__init__] with [num_frames > 0],
    [tlb_size > 0] and [page_size != 0] runs every reference string of
    pages in [range(num_pages)] to the end without raising, for each of
    the five policies.  The statistics then add up: [total_accesses] is
    the length of the string, every access is either a TLB hit or a TLB
    miss, and there are no more page faults than TLB misses. *)
Theorem run_trace_never_raises (num_pages num_frames page_size tlb_size : Z)
        (name : string) (refs : option (list Z))
        (s0 : VirtualMemorySimulator.t) (trace : list Z)
        (write_operations : option (list Z)) :
  VirtualMemorySimulator.init num_pages num_frames page_size tlb_size name refs
    = Ok s0 ->
  0 < num_frames -> 0 < tlb_size -> page_size <> 0 ->
  Forall (fun p => 0 <= p < num_pages) trace ->
  exists s,
    VirtualMemorySimulator.run_trace s0 trace write_operations = Ok s /\
    let st := VirtualMemorySimulator.get_statistics s in
    VirtualMemorySimulator.total_accesses st = PyList.len trace /\
    VirtualMemorySimulator.st_tlb_hits st + VirtualMemorySimulator.st_tlb_misses st
    = PyList.len trace /\
    0 <= VirtualMemorySimulator.st_page_faults st
      <= VirtualMemorySimulator.st_tlb_misses st /\
    0 <= VirtualMemorySimulator.st_tlb_hits st /\
    VirtualMemorySimulator.st_algorithm st = name.
Proof.
  intros Hinit Hnf Htlb Hps Hall.
  destruct (init_sound _ _ _ _ _ _ _ Hinit Hnf Htlb Hps)
    as (Hs0 & Hlen & _ & Hma & Hpf & Hh & Hm & _).
  destruct (init_inv _ _ _ _ _ _ _ Hinit) as (alg & _ & Hfresh).
  unfold VirtualMemorySimulator.run_trace.
  destruct (run_trace_from_sound trace s0 0
              (match write_operations with Some w => w | None => [] end) Hs0)
    as (s & Hrun & _ & Hma' & Hhm' & Hle' & Hpf' & Hh' & _ & _ & Han' & _).
  { rewrite Hlen. eapply Forall_impl; [|exact Hall]. simpl. intros p Hp. lia. }
  exists s. split; [exact Hrun|]. simpl.
  assert (Hname : VirtualMemorySimulator.algorithm_name s0 = name)
    by (rewrite Hfresh; reflexivity).
  repeat split; try lia. congruence.
Qed.

Lemma run_trace_never_raises_witness :
  exists s,
    VirtualMemorySimulator.run_trace fifo_simulator scenario_A None = Ok s /\
    let st := VirtualMemorySimulator.get_statistics s in
    VirtualMemorySimulator.total_accesses st = PyList.len scenario_A /\
    VirtualMemorySimulator.st_tlb_hits st + VirtualMemorySimulator.st_tlb_misses st
    = PyList.len scenario_A /\
    0 <= VirtualMemorySimulator.st_page_faults st
      <= VirtualMemorySimulator.st_tlb_misses st /\
    0 <= VirtualMemorySimulator.st_tlb_hits st /\
    VirtualMemorySimulator.st_algorithm st = "FIFO"%string.
Proof.
  apply (run_trace_never_raises 10 3 4096 4 "FIFO" None fifo_simulator
           scenario_A None).
  - reflexivity.
  - lia.
  - lia.
  - lia.
  - unfold scenario_A. repeat constructor; lia.
Defined.

(** X16. What one returning call of [translate_address] does to the
    counters: [memory_accesses] and [current_time] go up by one,
    [page_faults] by one exactly when a fault is reported, the TLB counts
    one hit or one miss, and a fault is never a TLB hit.  The fields
    [tlb_hits] and [tlb_misses] of the simulator itself are never
    written, and the configuration is unchanged. *)
Theorem translate_address_counters (s s' : VirtualMemorySimulator.t)
        (va pa : Z) (is_write pf hit : bool) :
  VirtualMemorySimulator.translate_address s va is_write = Ok ((pa, pf, hit), s') ->
  VirtualMemorySimulator.memory_accesses s'
  = VirtualMemorySimulator.memory_accesses s + 1 /\
  VirtualMemorySimulator.current_time s'
  = VirtualMemorySimulator.current_time s + 1 /\
  VirtualMemorySimulator.page_faults s'
  = VirtualMemorySimulator.page_faults s + (if pf then 1 else 0) /\
  TLB.hits (VirtualMemorySimulator.tlb s')
  = TLB.hits (VirtualMemorySimulator.tlb s) + (if hit then 1 else 0) /\
  TLB.misses (VirtualMemorySimulator.tlb s')
  = TLB.misses (VirtualMemorySimulator.tlb s) + (if hit then 0 else 1) /\
  (pf = true -> hit = false) /\
  VirtualMemorySimulator.tlb_hits s' = VirtualMemorySimulator.tlb_hits s /\
  VirtualMemorySimulator.tlb_misses s' = VirtualMemorySimulator.tlb_misses s /\
  VirtualMemorySimulator.num_pages s' = VirtualMemorySimulator.num_pages s /\
  VirtualMemorySimulator.num_frames s' = VirtualMemorySimulator.num_frames s /\
  VirtualMemorySimulator.page_size s' = VirtualMemorySimulator.page_size s /\
  VirtualMemorySimulator.algorithm_name s' = VirtualMemorySimulator.algorithm_name s.
Proof. apply translate_address_counters_gen. Qed.

Lemma translate_address_counters_witness :
  VirtualMemorySimulator.memory_accesses warm_simulator
  = VirtualMemorySimulator.memory_accesses fifo_simulator + 1 /\
  VirtualMemorySimulator.current_time warm_simulator
  = VirtualMemorySimulator.current_time fifo_simulator + 1 /\
  VirtualMemorySimulator.page_faults warm_simulator
  = VirtualMemorySimulator.page_faults fifo_simulator + 1 /\
  TLB.hits (VirtualMemorySimulator.tlb warm_simulator)
  = TLB.hits (VirtualMemorySimulator.tlb fifo_simulator) + 0 /\
  TLB.misses (VirtualMemorySimulator.tlb warm_simulator)
  = TLB.misses (VirtualMemorySimulator.tlb fifo_simulator) + 1 /\
  (true = true -> false = false) /\
  VirtualMemorySimulator.tlb_hits warm_simulator
  = VirtualMemorySimulator.tlb_hits fifo_simulator /\
  VirtualMemorySimulator.tlb_misses warm_simulator
  = VirtualMemorySimulator.tlb_misses fifo_simulator /\
  VirtualMemorySimulator.num_pages warm_simulator
  = VirtualMemorySimulator.num_pages fifo_simulator /\
  VirtualMemorySimulator.num_frames warm_simulator
  = VirtualMemorySimulator.num_frames fifo_simulator /\
  VirtualMemorySimulator.page_size warm_simulator
  = VirtualMemorySimulator.page_size fifo_simulator /\
  VirtualMemorySimulator.algorithm_name warm_simulator
  = VirtualMemorySimulator.algorithm_name fifo_simulator.
Proof.
  apply (translate_address_counters fifo_simulator warm_simulator 8192 0
           false true false).
  vm_compute. reflexivity.
Defined.

(** ** Frames are never shared *)

Lemma values_nodup_inj (d : PyDict.t Z) (p q f : Z) :
  NoDup (PyDict.values d) -> In (p, f) d -> In (q, f) d -> p = q.
Proof.
  induction d as [|[k v] d IH]; simpl; intros Hnd Hp Hq; [contradiction|].
  inversion Hnd as [|? ? Hnin Hnd']; subst.
  assert (Hval : forall x, In (x, v) d -> False).
  { intros x Hx. apply Hnin. apply values_In. now exists x. }
  destruct Hp as [Hp|Hp], Hq as [Hq|Hq].
  - congruence.
  - injection Hp as -> ->. exfalso. eauto.
  - injection Hq as -> ->. exfalso. eauto.
  - now apply IH.
Qed.

Lemma NoDup_app_disjoint {A : Type} (l l' : list A) (x : A) :
  NoDup (l ++ l') -> In x l -> ~ In x l'.
Proof.
  induction l as [|a l IH]; simpl; intros Hnd Hx; [contradiction|].
  inversion Hnd as [|? ? Hnin Hnd']; subst.
  destruct Hx as [->|Hx]; [|now apply IH].
  intros Hx'. apply Hnin, in_or_app. now right.
Qed.

Lemma NoDup_app_left {A : Type} (l l' : list A) :
  NoDup (l ++ l') -> NoDup l.
Proof.
  induction l as [|a l IH]; simpl; intros Hnd; [constructor|].
  inversion Hnd as [|? ? Hnin Hnd']; subst. constructor; [|now apply IH].
  intros Hin. apply Hnin, in_or_app. now left.
Qed.

Lemma sound_frames_exclusive (s : VirtualMemorySimulator.t) :
  sound s ->
  (forall p q f,
     PyDict.lookup p (VirtualMemorySimulator.page_to_frame s) = Some f ->
     PyDict.lookup q (VirtualMemorySimulator.page_to_frame s) = Some f ->
     p = q) /\
  (forall p f,
     PyDict.lookup p (VirtualMemorySimulator.page_to_frame s) = Some f ->
     0 <= f < PageReplacementAlgorithm.num_frames (VirtualMemorySimulator.algorithm s) /\
     ~ In f (VirtualMemorySimulator.free_frames s) /\
     resident_at (VirtualMemorySimulator.page_table s) p f /\
     PageReplacementAlgorithm.is_page_in_memory
       (VirtualMemorySimulator.algorithm s) p = true).
Proof.
  intros Hs. split.
  - intros p q f Hp Hq.
    apply (values_nodup_inj (VirtualMemorySimulator.page_to_frame s) p q f).
    + apply (NoDup_app_left _ _ (sound_frames_nodup _ Hs)).
    + now apply lookup_In.
    + now apply lookup_In.
  - intros p f Hp.
    assert (Hin : In f (PyDict.values (VirtualMemorySimulator.page_to_frame s)))
      by (apply values_In; exists p; now apply lookup_In).
    split; [apply (sound_frames_range _ Hs), in_or_app; now left|].
    split; [apply (NoDup_app_disjoint _ _ _ (sound_frames_nodup _ Hs) Hin)|].
    split; [apply (agree_map _ _ _ (sound_agree _ Hs) _ _ Hp)|].
    apply contains_In, (sound_map _ Hs). congruence.
Qed.

(** X17. After a run from the constructor (positive sizes, pages of the
    table): no two resident pages share a frame; the frame of a resident
    page is a number in [range(num_frames)] that is not in
    [free_frames]; and [page_to_frame], the page table and the policy's
    [frames] agree on it. *)
Theorem frames_are_never_shared (num_pages num_frames page_size tlb_size : Z)
        (name : string) (refs : option (list Z))
        (s0 s : VirtualMemorySimulator.t) (trace : list Z)
        (write_operations : option (list Z)) :
  VirtualMemorySimulator.init num_pages num_frames page_size tlb_size name refs
    = Ok s0 ->
  0 < num_frames -> 0 < tlb_size -> page_size <> 0 ->
  Forall (fun p => 0 <= p < num_pages) trace ->
  VirtualMemorySimulator.run_trace s0 trace write_operations = Ok s ->
  (forall p q f,
     PyDict.lookup p (VirtualMemorySimulator.page_to_frame s) = Some f ->
     PyDict.lookup q (VirtualMemorySimulator.page_to_frame s) = Some f ->
     p = q) /\
  (forall p f,
     PyDict.lookup p (VirtualMemorySimulator.page_to_frame s) = Some f ->
     0 <= f < num_frames /\
     ~ In f (VirtualMemorySimulator.free_frames s) /\
     resident_at (VirtualMemorySimulator.page_table s) p f /\
     PageReplacementAlgorithm.is_page_in_memory
       (VirtualMemorySimulator.algorithm s) p = true).
Proof.
  intros Hinit Hnf Htlb Hps Hall Hrun.
  destruct (init_sound _ _ _ _ _ _ _ Hinit Hnf Htlb Hps)
    as (Hs0 & Hlen & Hn & _).
  unfold VirtualMemorySimulator.run_trace in Hrun.
  destruct (run_trace_from_sound trace s0 0
              (match write_operations with Some w => w | None => [] end) Hs0)
    as (s' & Hrun' & Hs' & _ & _ & _ & _ & _ & _ & _ & _ & Hnum).
  { rewrite Hlen. eapply Forall_impl; [|exact Hall]. simpl. intros p Hp. lia. }
  rewrite Hrun in Hrun'. injection Hrun' as <-. rewrite Hn in Hnum.
  destruct (sound_frames_exclusive s Hs') as (Hinj & Hfr).
  split; [exact Hinj|]. intros p f Hp. rewrite <- Hnum. now apply Hfr.
Qed.

Lemma frames_are_never_shared_witness :
  (forall p q f,
     PyDict.lookup p (VirtualMemorySimulator.page_to_frame after_scenario_A) = Some f ->
     PyDict.lookup q (VirtualMemorySimulator.page_to_frame after_scenario_A) = Some f ->
     p = q) /\
  (forall p f,
     PyDict.lookup p (VirtualMemorySimulator.page_to_frame after_scenario_A) = Some f ->
     0 <= f < 3 /\
     ~ In f (VirtualMemorySimulator.free_frames after_scenario_A) /\
     resident_at (VirtualMemorySimulator.page_table after_scenario_A) p f /\
     PageReplacementAlgorithm.is_page_in_memory
       (VirtualMemorySimulator.algorithm after_scenario_A) p = true).
Proof.
  apply (frames_are_never_shared 10 3 4096 4 "FIFO" None fifo_simulator
           after_scenario_A scenario_A None).
  - reflexivity.
  - lia.
  - lia.
  - lia.
  - unfold scenario_A. repeat constructor; lia.
  - vm_compute. reflexivity.
Defined.

(** ** Enough frames for every page of the run *)

Lemma run_without_eviction (refs : list Z) :
  forall (s : VirtualMemorySimulator.t) (i : Z) (writes U : list Z),
  sound s ->
  Forall (fun p => 0 <= p < PyList.len (PageTable.entries
                                          (VirtualMemorySimulator.page_table s)))
         refs ->
  NoDup U ->
  incl (PageReplacementAlgorithm.frames (VirtualMemorySimulator.algorithm s)) U ->
  incl refs U ->
  PyList.len U
  <= PageReplacementAlgorithm.num_frames (VirtualMemorySimulator.algorithm s) ->
  exists s',
    VirtualMemorySimulator.run_trace_from s i refs writes = Ok s' /\
    sound s' /\
    (forall q,
       In q (PageReplacementAlgorithm.frames (VirtualMemorySimulator.algorithm s'))
       <-> In q (PageReplacementAlgorithm.frames (VirtualMemorySimulator.algorithm s))
           \/ In q refs) /\
    VirtualMemorySimulator.page_faults s'
    - PyList.len (PageReplacementAlgorithm.frames (VirtualMemorySimulator.algorithm s'))
    = VirtualMemorySimulator.page_faults s
      - PyList.len (PageReplacementAlgorithm.frames (VirtualMemorySimulator.algorithm s)).
Proof.
  induction refs as [|p refs IH]; intros s i writes U Hs Hall HU Hfr Hrefs Hcap.
  - exists s. simpl. split; [reflexivity|]. split; [exact Hs|].
    split; [intros q; tauto | reflexivity].
  - inversion Hall as [|? ? Hp Hrest]; subst.
    destruct (translate_address_sound s (p * VirtualMemorySimulator.page_size s)
                (PyList.contains i writes) Hs
                (in_table_page _ _ (sound_page_size _ Hs) Hp))
      as (pa & pf & hit & s1 & Heq & Hs1 & Halg & Hpf & _ & _ & Hlen1 & Hnf1).
    pose proof (translate_address_counters_gen _ _ _ _ _ _ _ Heq)
      as (_ & _ & Hfaults & _).
    rewrite Z.div_mul in Halg, Hpf by apply (sound_page_size _ Hs).
    assert (Hstep :
      (forall q,
         In q (PageReplacementAlgorithm.frames (VirtualMemorySimulator.algorithm s1))
         <-> In q (PageReplacementAlgorithm.frames (VirtualMemorySimulator.algorithm s))
             \/ q = p) /\
      VirtualMemorySimulator.page_faults s1
      - PyList.len (PageReplacementAlgorithm.frames (VirtualMemorySimulator.algorithm s1))
      = VirtualMemorySimulator.page_faults s
        - PyList.len (PageReplacementAlgorithm.frames (VirtualMemorySimulator.algorithm s))).
    { destruct (PyList.contains p (PageReplacementAlgorithm.frames
                                     (VirtualMemorySimulator.algorithm s))) eqn:Hmem;
        simpl in Hpf; subst pf.
      - (* resident: nothing moves *)
        apply contains_In in Hmem. rewrite Halg. split; [|lia].
        intros q. split; [now left | intros [? | ->]; assumption].
      - (* not resident: there is room, so nothing is evicted *)
        apply contains_false in Hmem. destruct Halg as (victim & Hacc).
        pose proof (access_page_policy_step _ _ _ _ _ _ _ Hacc)
          as (_ & _ & _ & Hvic & _).
        destruct (access_page_step (VirtualMemorySimulator.algorithm s) p
                    (VirtualMemorySimulator.current_time s + 1)
                    (PyList.contains i writes)
                    (sound_policy _ Hs) (sound_num_frames _ Hs))
          as (pf' & victim' & alg' & Hacc' & _ & Hev).
        rewrite Hacc in Hacc'. injection Hacc' as <- <- <-.
        assert (Hlt : PyList.len (PageReplacementAlgorithm.frames
                                    (VirtualMemorySimulator.algorithm s))
                      < PyList.len U).
        { assert (Hnd : NoDup (p :: PageReplacementAlgorithm.frames
                                      (VirtualMemorySimulator.algorithm s))).
          { constructor; [exact Hmem|].
            apply policy_consistent_nodup, (sound_policy _ Hs). }
          assert (Hincl : incl (p :: PageReplacementAlgorithm.frames
                                       (VirtualMemorySimulator.algorithm s)) U).
          { intros q [<-|Hq]; [apply Hrefs; now left | now apply Hfr]. }
          pose proof (NoDup_incl_length Hnd Hincl) as Hle.
          unfold PyList.len. simpl in Hle. lia. }
        destruct victim as [v|].
        + exfalso. destruct Hvic as (_ & Hfull); [discriminate|]. lia.
        + simpl in Hev. rewrite Hev, len_snoc. split; [|lia].
          intros q. rewrite in_app_iff. simpl. intuition congruence. }
    destruct Hstep as (Hfr1 & Hcount1).
    destruct (IH s1 (i + 1) writes U Hs1) as (s' & Hrun & Hs' & Hfr' & Hcount');
      auto.
    + now rewrite Hlen1.
    + intros q Hq. apply Hfr1 in Hq. destruct Hq as [Hq | ->];
        [now apply Hfr | apply Hrefs; now left].
    + intros q Hq. apply Hrefs. now right.
    + now rewrite Hnf1.
    + exists s'. cbn [VirtualMemorySimulator.run_trace_from]. rewrite Heq.
      cbn [bind]. split; [exact Hrun|]. split; [exact Hs'|].
      split; [|lia].
      intros q. rewrite Hfr', Hfr1. simpl. intuition congruence.
Qed.

(** X18. With at least as many frames as there are distinct pages in
    the reference string, nothing is ever evicted: under each of the
    five policies the run faults exactly once per distinct page.  [U]
    lists the distinct pages, each once. *)
Theorem enough_frames_fault_once_per_page
        (num_pages num_frames page_size tlb_size : Z)
        (name : string) (refs : option (list Z))
        (s0 : VirtualMemorySimulator.t) (trace U : list Z)
        (write_operations : option (list Z)) :
  VirtualMemorySimulator.init num_pages num_frames page_size tlb_size name refs
    = Ok s0 ->
  0 < num_frames -> 0 < tlb_size -> page_size <> 0 ->
  Forall (fun p => 0 <= p < num_pages) trace ->
  NoDup U -> (forall p, In p trace <-> In p U) ->
  PyList.len U <= num_frames ->
  exists s,
    VirtualMemorySimulator.run_trace s0 trace write_operations = Ok s /\
    VirtualMemorySimulator.st_page_faults (VirtualMemorySimulator.get_statistics s)
    = PyList.len U /\
    forall p, PageReplacementAlgorithm.is_page_in_memory
                (VirtualMemorySimulator.algorithm s) p = true <-> In p trace.
Proof.
  intros Hinit Hnf Htlb Hps Hall HU Hsame Hcap.
  destruct (init_sound _ _ _ _ _ _ _ Hinit Hnf Htlb Hps)
    as (Hs0 & Hlen & Hn & _ & Hpf0 & _ & _ & Hfr0).
  unfold VirtualMemorySimulator.run_trace.
  destruct (run_without_eviction trace s0 0
              (match write_operations with Some w => w | None => [] end) U Hs0)
    as (s & Hrun & Hs & Hfr & Hcount); auto.
  - rewrite Hlen. eapply Forall_impl; [|exact Hall]. simpl. intros p Hp. lia.
  - rewrite Hfr0. intros q [].
  - intros q Hq. now apply Hsame.
  - now rewrite Hn.
  - exists s. split; [exact Hrun|].
    assert (Hmem : forall p,
               In p (PageReplacementAlgorithm.frames
                       (VirtualMemorySimulator.algorithm s)) <-> In p trace).
    { intros p. rewrite Hfr, Hfr0. simpl. tauto. }
    split.
    + simpl. rewrite Hfr0, Hpf0 in Hcount. unfold PyList.len in Hcount at 2.
      simpl in Hcount.
      assert (Hlen_eq : List.length (PageReplacementAlgorithm.frames
                                       (VirtualMemorySimulator.algorithm s))
                        = List.length U).
      { apply Nat.le_antisymm; apply NoDup_incl_length.
        - apply policy_consistent_nodup, (sound_policy _ Hs).
        - intros q Hq. apply Hsame, Hmem, Hq.
        - exact HU.
        - intros q Hq. apply Hmem, Hsame, Hq. }
      unfold PyList.len in *. lia.
    + intros p. unfold PageReplacementAlgorithm.is_page_in_memory.
      rewrite contains_In. apply Hmem.
Qed.

Lemma enough_frames_fault_once_per_page_witness :
  exists s,
    VirtualMemorySimulator.run_trace
      (fresh 20 3 4096 4 (PageReplacementAlgorithm.AlgLRU (LRU.init 3)) "LRU")
      [1; 2; 3; 1; 2; 3; 1; 2; 3] None = Ok s /\
    VirtualMemorySimulator.st_page_faults (VirtualMemorySimulator.get_statistics s)
    = PyList.len [1; 2; 3] /\
    forall p, PageReplacementAlgorithm.is_page_in_memory
                (VirtualMemorySimulator.algorithm s) p = true
              <-> In p [1; 2; 3; 1; 2; 3; 1; 2; 3].
Proof.
  apply (enough_frames_fault_once_per_page 20 3 4096 4 "LRU" None
           (fresh 20 3 4096 4 (PageReplacementAlgorithm.AlgLRU (LRU.init 3)) "LRU")
           [1; 2; 3; 1; 2; 3; 1; 2; 3] [1; 2; 3] None).
  - reflexivity.
  - lia.
  - lia.
  - lia.
  - repeat constructor; lia.
  - repeat constructor; simpl; intuition lia.
  - intros p. simpl. tauto.
  - vm_compute. discriminate.
Defined.

(** ** Sizes the constructor accepts and the first call rejects *)

Lemma init_table_getitem (num_pages page : Z) :
  0 <= page < num_pages ->
  PyList.getitem (PageTable.entries (PageTable.init num_pages)) page
  = Ok PageTableEntry.init.
Proof.
  intros Hp. simpl. rewrite list_getitem_nonneg by lia.
  rewrite nth_error_repeat by lia. reflexivity.
Qed.

Lemma no_frames_access_page_raises (nf : Z) (name : string)
      (refs : option (list Z)) (alg : PageReplacementAlgorithm.t)
      (page time : Z) (w : bool) :
  VirtualMemorySimulator.make_algorithm nf name refs = Ok alg ->
  nf <= 0 ->
  PageReplacementAlgorithm.access_page alg page time w
  = Raise (no_frame_error alg).
Proof.
  unfold VirtualMemorySimulator.make_algorithm. intros H Hnf.
  assert (Hfull : (nf <=? PyList.len (@nil Z)) = true)
    by (apply Z.leb_le; unfold PyList.len; simpl; lia).
  repeat match type of H with
         | context [if ?b then _ else _] => destruct b
         | context [match ?r with Some _ => _ | None => _ end] => destruct r
         end;
    try discriminate H; injection H as <-;
    unfold PageReplacementAlgorithm.access_page, PageReplacementAlgorithm.lift_alg.
  - unfold FIFO.access_page, FIFO.is_page_in_memory. simpl. rewrite Hfull.
    reflexivity.
  - unfold LRU.access_page, LRU.is_page_in_memory. simpl. rewrite Hfull.
    reflexivity.
  - unfold LFU.access_page, LFU.is_page_in_memory. simpl. rewrite Hfull.
    reflexivity.
  - unfold Optimal.access_page, Optimal.is_page_in_memory. simpl. rewrite Hfull.
    reflexivity.
  - unfold Clock.access_page, Clock.is_page_in_memory. simpl. rewrite Hfull.
    reflexivity.
Qed.

Lemma fresh_access_page (nf : Z) (name : string)
      (refs : option (list Z)) (alg : PageReplacementAlgorithm.t)
      (page time : Z) (w : bool) :
  VirtualMemorySimulator.make_algorithm nf name refs = Ok alg ->
  0 < nf ->
  exists alg',
    PageReplacementAlgorithm.access_page alg page time w = Ok ((true, None), alg').
Proof.
  intros H Hnf.
  destruct (make_algorithm_consistent _ _ _ _ H) as (Hpol & Hn & Hfr).
  destruct (access_page_step alg page time w Hpol) as (pf & victim & alg' & Hacc & _).
  { now rewrite Hn. }
  pose proof (access_page_policy_step _ _ _ _ _ _ _ Hacc) as (Hpf & _ & _ & Hvic & _).
  rewrite Hfr in Hpf, Hvic. simpl in Hpf. subst pf.
  destruct victim as [v|].
  - exfalso. destruct Hvic as (_ & Hfull); [discriminate|].
    unfold PyList.len in Hfull. simpl in Hfull. lia.
  - now exists alg'.
Qed.

(** X19. [__init__] accepts [num_frames <= 0], but the first call of
    [translate_address] on a page of the table then raises, whatever the
    policy: [IndexError] under FIFO and Clock, [ValueError] under LRU, LFU
    and Optimal.  The page is not resident, there is no room, and there
    is no page to evict. *)
Theorem no_frames_first_access_raises
        (num_pages num_frames page_size tlb_size : Z) (name : string)
        (refs : option (list Z)) (s0 : VirtualMemorySimulator.t)
        (va : Z) (is_write : bool) :
  VirtualMemorySimulator.init num_pages num_frames page_size tlb_size name refs
    = Ok s0 ->
  num_frames <= 0 -> page_size <> 0 ->
  0 <= va / page_size < num_pages ->
  VirtualMemorySimulator.translate_address s0 va is_write
  = Raise (no_frame_error (VirtualMemorySimulator.algorithm s0)).
Proof.
  intros Hinit Hnf Hps Hpage.
  destruct (init_inv _ _ _ _ _ _ _ Hinit) as (alg & Halg & ->).
  unfold VirtualMemorySimulator.translate_address, fresh. step_simpl.
  unfold floordiv, pymod.
  destruct (page_size =? 0) eqn:Eps; [apply Z.eqb_eq in Eps; contradiction|].
  step_simpl. unfold TLB.lookup, TLB.init. step_simpl.
  change (PyDict.contains (va / page_size) (@PyDict.empty Z)) with false.
  cbn iota. step_simpl.
  unfold PageTable.is_valid. rewrite (init_table_getitem _ _ Hpage). step_simpl.
  cbn [PageTableEntry.valid PageTableEntry.init negb].
  unfold VirtualMemorySimulator._handle_page_fault. step_simpl.
  rewrite (no_frames_access_page_raises _ _ _ _ _ _ _ Halg Hnf). reflexivity.
Qed.

Lemma no_frames_first_access_raises_witness :
  VirtualMemorySimulator.translate_address
    (fresh 10 0 4096 4 (PageReplacementAlgorithm.AlgLRU (LRU.init 0)) "LRU")
    8192 false
  = Raise ValueError.
Proof.
  apply (no_frames_first_access_raises 10 0 4096 4 "LRU" None
           (fresh 10 0 4096 4 (PageReplacementAlgorithm.AlgLRU (LRU.init 0)) "LRU")
           8192 false).
  - reflexivity.
  - lia.
  - lia.
  - vm_compute. split; [discriminate | reflexivity].
Defined.

(** X20. [__init__] accepts [tlb_size <= 0] as well, and with
    [num_frames > 0] the first call on a page of the table then raises
    [KeyError]: the page fault is served, but [TLB.insert] finds
    [len(cache) >= size] and pops from the empty cache. *)
Theorem no_tlb_first_access_raises
        (num_pages num_frames page_size tlb_size : Z) (name : string)
        (refs : option (list Z)) (s0 : VirtualMemorySimulator.t)
        (va : Z) (is_write : bool) :
  VirtualMemorySimulator.init num_pages num_frames page_size tlb_size name refs
    = Ok s0 ->
  0 < num_frames -> tlb_size <= 0 -> page_size <> 0 ->
  0 <= va / page_size < num_pages ->
  VirtualMemorySimulator.translate_address s0 va is_write = Raise KeyError.
Proof.
  intros Hinit Hnf Htlb Hps Hpage.
  destruct (init_inv _ _ _ _ _ _ _ Hinit) as (alg & Halg & ->).
  unfold VirtualMemorySimulator.translate_address, fresh. step_simpl.
  unfold floordiv, pymod.
  destruct (page_size =? 0) eqn:Eps; [apply Z.eqb_eq in Eps; contradiction|].
  step_simpl. unfold TLB.lookup, TLB.init. step_simpl.
  change (PyDict.contains (va / page_size) (@PyDict.empty Z)) with false.
  cbn iota. step_simpl.
  unfold PageTable.is_valid. rewrite (init_table_getitem _ _ Hpage). step_simpl.
  cbn [PageTableEntry.valid PageTableEntry.init negb].
  unfold VirtualMemorySimulator._handle_page_fault. step_simpl.
  destruct (fresh_access_page _ _ _ _ (va / page_size) 1 is_write Halg Hnf)
    as (alg' & Hacc).
  replace (0 + 1) with 1 by reflexivity. rewrite Hacc. step_simpl.
  unfold PyList.range.
  destruct (Z.to_nat num_frames) as [|k] eqn:Ek; [lia|].
  cbn [seq map PyList.pop0]. step_simpl.
  unfold PageTable.set_frame.
  do_update pt2 Hpt2.
  { simpl. unfold PyList.len. rewrite repeat_length. lia. }
  step_simpl. unfold TLB.insert. step_simpl.
  change (PyDict.contains (va / page_size) (@PyDict.empty Z)) with false.
  cbn iota. step_simpl.
  assert (Hfull : (tlb_size <=? PyDict.len (@PyDict.empty Z)) = true)
    by (apply Z.leb_le; unfold PyDict.len; simpl; lia).
  rewrite Hfull. reflexivity.
Qed.

Lemma no_tlb_first_access_raises_witness :
  VirtualMemorySimulator.translate_address
    (fresh 10 3 4096 0 (PageReplacementAlgorithm.AlgFIFO (FIFO.init 3)) "FIFO")
    8192 false
  = Raise KeyError.
Proof.
  apply (no_tlb_first_access_raises 10 3 4096 0 "FIFO" None
           (fresh 10 3 4096 0 (PageReplacementAlgorithm.AlgFIFO (FIFO.init 3)) "FIFO")
           8192 false).
  - reflexivity.
  - lia.
  - lia.
  - lia.
  - vm_compute. split; [discriminate | reflexivity].
Defined.

(** ** LRU, LFU and Clock inside the simulator: first in, first out *)

Lemma increasing_times_mono (now now' : Z) (d : PyDict.t Z) :
  now <= now' -> increasing_times now d -> increasing_times now' d.
Proof.
  intros Hle. induction d as [|[k t] r IH]; simpl; [auto|].
  intros (Ht & Hr & Hinc). split; [lia|]. split; [exact Hr | auto].
Qed.

Lemma increasing_times_snoc (now t : Z) (k : Z) (d : PyDict.t Z) :
  now < t -> increasing_times now d -> increasing_times t (d ++ [(k, t)]).
Proof.
  intros Hlt. induction d as [|[k' t'] r IH]; simpl.
  - intros _. split; [lia|]. split; [intros ? [] | exact I].
  - intros (Ht & Hr & Hinc). split; [lia|]. split; [|auto].
    intros t'' Hin. unfold PyDict.values in Hin. rewrite map_app in Hin.
    apply in_app_or in Hin. simpl in Hin.
    destruct Hin as [Hin|[<-|[]]]; [now apply Hr | lia].
Qed.

Lemma min_from_keep {A : Type} (f : A -> result Z) (best : A) (kbest : Z)
      (l : list A) :
  (forall x, In x l -> exists kx, f x = Ok kx /\ kbest <= kx) ->
  PyList.min_from f best kbest l = Ok best.
Proof.
  induction l as [|x l IH]; simpl; intros Hall; [reflexivity|].
  destruct (Hall x (or_introl eq_refl)) as (kx & Hkx & Hle). rewrite Hkx. simpl.
  destruct (kx <? kbest) eqn:E; [apply Z.ltb_lt in E; lia|].
  apply IH. intros y Hy. apply Hall. now right.
Qed.

(** With times that grow along the dictionary, the least recent page is
    the first one. *)
Lemma min_by_times_head (v t : Z) (r : PyDict.t Z) (now : Z) :
  increasing_times now ((v, t) :: r) ->
  PyList.min_by (fun p => PyDict.getitem p ((v, t) :: r)) (v :: PyDict.keys r)
  = Ok v.
Proof.
  intros (_ & Hr & _). simpl. unfold PyDict.getitem at 1. simpl.
  rewrite Z.eqb_refl. simpl.
  apply min_from_keep. intros x Hx. unfold PyDict.getitem. simpl.
  destruct (v =? x); [exists t; split; [reflexivity | lia]|].
  apply lookup_keys in Hx.
  destruct (PyDict.lookup x r) as [tx|] eqn:E; [|congruence].
  exists tx. split; [reflexivity|].
  assert (t < tx); [|lia].
  apply Hr, values_In. exists x. now apply lookup_In.
Qed.

Lemma setitem_new {V : Type} (k : Z) (v : V) (d : PyDict.t V) :
  ~ In k (PyDict.keys d) -> PyDict.setitem k v d = d ++ [(k, v)].
Proof.
  intros Hnin. unfold PyDict.setitem, PyDict.contains.
  destruct (PyDict.lookup k d) eqn:E; [|reflexivity].
  exfalso. apply Hnin, lookup_keys. congruence.
Qed.

Lemma setitem_last {V : Type} (k : Z) (v v' : V) (d : PyDict.t V) :
  ~ In k (PyDict.keys d) ->
  PyDict.setitem k v' (d ++ [(k, v)]) = d ++ [(k, v')].
Proof.
  intros Hnin.
  assert (Hnone : PyDict.lookup k d = None).
  { destruct (PyDict.lookup k d) eqn:E; [|reflexivity].
    exfalso. apply Hnin, lookup_keys. congruence. }
  unfold PyDict.setitem, PyDict.contains.
  rewrite (lookup_app_r _ _ _ Hnone). simpl. rewrite Z.eqb_refl. clear Hnone.
  induction d as [|[k' w] d IH]; simpl.
  - now rewrite Z.eqb_refl.
  - destruct (k' =? k) eqn:E.
    + apply Z.eqb_eq in E. exfalso. apply Hnin. now left.
    + f_equal. apply IH. intros Hin. apply Hnin. now right.
Qed.

Lemma keys_snoc {V : Type} (k : Z) (v : V) (d : PyDict.t V) :
  PyDict.keys (d ++ [(k, v)]) = PyDict.keys d ++ [k].
Proof. unfold PyDict.keys. now rewrite map_app. Qed.

Lemma values_snoc {V : Type} (k : Z) (v : V) (d : PyDict.t V) :
  PyDict.values (d ++ [(k, v)]) = PyDict.values d ++ [v].
Proof. unfold PyDict.values. now rewrite map_app. Qed.

Lemma fifo_step_fault (nf page : Z) (q : list Z) :
  ~ In page q ->
  fifo_step nf q page
  = if nf <=? PyList.len q then (List.tl q ++ [page], true) else (q ++ [page], true).
Proof.
  intros Hnin. unfold fifo_step.
  now rewrite (proj2 (contains_false _ _) Hnin).
Qed.

Lemma LRU_queue_step (nf : Z) (tm : PyDict.t Z) (page now time : Z) (w : bool) :
  increasing_times now tm -> 0 < nf ->
  ~ In page (PyDict.keys tm) -> now < time ->
  exists victim tm',
    LRU.access_page (LRU.mk nf (PyDict.keys tm) tm) page time w
    = Ok ((true, victim),
          LRU.mk nf (fst (fifo_step nf (PyDict.keys tm) page)) tm') /\
    PyDict.keys tm' = fst (fifo_step nf (PyDict.keys tm) page) /\
    increasing_times time tm'.
Proof.
  intros Hinc Hnf Hnin Hlt. rewrite (fifo_step_fault _ _ _ Hnin).
  unfold LRU.access_page, LRU.is_page_in_memory.
  cbn [LRU.frames LRU.num_frames LRU.access_times].
  rewrite (proj2 (contains_false _ _) Hnin). cbn [negb].
  destruct (nf <=? PyList.len (PyDict.keys tm)) eqn:Efull.
  - apply Z.leb_le in Efull.
    destruct tm as [|[v t] r];
      [unfold PyList.len in Efull; simpl in Efull; lia|].
    assert (Hnin' : ~ In page (PyDict.keys r))
      by (intros Hin; apply Hnin; now right).
    unfold LRU.get_victim. cbn [LRU.access_times].
    change (PyDict.keys ((v, t) :: r)) with (v :: PyDict.keys r).
    rewrite (min_by_times_head _ _ _ _ Hinc). cbn [bind].
    unfold PyList.remove. cbn [PyList.remove_first]. rewrite Z.eqb_refl.
    cbn [bind].
    unfold PyDict.delitem, PyDict.contains. cbn [PyDict.lookup PyDict.remove].
    rewrite Z.eqb_refl. cbn [bind fst List.tl].
    rewrite (setitem_new _ _ _ Hnin').
    exists (Some v), (r ++ [(page, time)]).
    split; [reflexivity|]. split; [apply keys_snoc|].
    destruct Hinc as (_ & _ & Hinc). now apply (increasing_times_snoc now).
  - cbn [bind fst]. rewrite (setitem_new _ _ _ Hnin).
    exists None, (tm ++ [(page, time)]).
    split; [reflexivity|]. split; [apply keys_snoc|].
    now apply (increasing_times_snoc now).
Qed.

Lemma min_ones (c : Z) (l : list Z) :
  Forall (fun x => x = 1) (c :: l) -> PyList.min (c :: l) = Ok 1.
Proof.
  intros H. inversion H as [|? ? Hc Hl]; subst. unfold PyList.min. simpl.
  apply min_from_keep. intros x Hx. exists x. split; [reflexivity|].
  rewrite Forall_forall in Hl. rewrite (Hl x Hx). lia.
Qed.

Lemma candidates_ones (cn : PyDict.t Z) :
  Forall (fun x => x = 1) (PyDict.values cn) ->
  LFU.candidates cn 1 = PyDict.keys cn.
Proof.
  unfold LFU.candidates. induction cn as [|[k c] cn IH]; simpl; [reflexivity|].
  intros H. inversion H as [|? ? Hc Hl]; subst. simpl. now rewrite IH.
Qed.

Lemma LFU_queue_step (nf : Z) (cn tm : PyDict.t Z) (page now time : Z) (w : bool) :
  Forall (fun c => c = 1) (PyDict.values cn) ->
  PyDict.keys tm = PyDict.keys cn ->
  increasing_times now tm -> 0 < nf ->
  ~ In page (PyDict.keys cn) -> now < time ->
  exists victim cn' tm',
    LFU.access_page (LFU.mk nf (PyDict.keys cn) cn tm) page time w
    = Ok ((true, victim),
          LFU.mk nf (fst (fifo_step nf (PyDict.keys cn) page)) cn' tm') /\
    PyDict.keys cn' = fst (fifo_step nf (PyDict.keys cn) page) /\
    Forall (fun c => c = 1) (PyDict.values cn') /\
    PyDict.keys tm' = fst (fifo_step nf (PyDict.keys cn) page) /\
    increasing_times time tm'.
Proof.
  intros Hones Hkeys Hinc Hnf Hnin Hlt. rewrite (fifo_step_fault _ _ _ Hnin).
  unfold LFU.access_page, LFU.is_page_in_memory.
  cbn [LFU.frames LFU.num_frames LFU.access_times LFU.access_counts].
  rewrite (proj2 (contains_false _ _) Hnin). cbn [negb].
  assert (Hget : forall d : PyDict.t Z,
             PyDict.getitem page (d ++ [(page, 0)]) = Ok 0 \/
             In page (PyDict.keys d)).
  { intros d. destruct (PyDict.lookup page d) eqn:E.
    - right. apply lookup_keys. congruence.
    - left. unfold PyDict.getitem. rewrite (lookup_app_r _ _ _ E). simpl.
      now rewrite Z.eqb_refl. }
  destruct (nf <=? PyList.len (PyDict.keys cn)) eqn:Efull.
  - apply Z.leb_le in Efull.
    destruct cn as [|[v c] rc];
      [unfold PyList.len in Efull; simpl in Efull; lia|].
    destruct tm as [|[v' t] rt]; [discriminate Hkeys|].
    simpl in Hkeys. injection Hkeys as -> Hkeys.
    assert (Hnin' : ~ In page (PyDict.keys rc))
      by (intros Hin; apply Hnin; now right).
    assert (Hnint : ~ In page (PyDict.keys rt)) by now rewrite Hkeys.
    assert (Hvic : LFU.get_victim (LFU.mk nf (PyDict.keys ((v, c) :: rc))
                                     ((v, c) :: rc) ((v, t) :: rt)) = Ok v).
    { unfold LFU.get_victim. cbn [LFU.access_counts LFU.access_times].
      change (PyDict.values ((v, c) :: rc)) with (c :: PyDict.values rc).
      rewrite (min_ones c (PyDict.values rc) Hones). cbn [bind].
      rewrite (candidates_ones _ Hones).
      change (PyDict.keys ((v, c) :: rc)) with (v :: PyDict.keys rc).
      destruct (PyDict.keys rc) as [|p0 rest] eqn:Ek; [reflexivity|].
      rewrite <- Hkeys. apply (min_by_times_head _ _ _ _ Hinc). }
    rewrite Hvic. cbn [bind].
    change (PyDict.keys ((v, c) :: rc)) with (v :: PyDict.keys rc).
    unfold PyList.remove. cbn [PyList.remove_first]. rewrite Z.eqb_refl.
    cbn [bind].
    unfold PyDict.delitem, PyDict.contains. cbn [PyDict.lookup PyDict.remove].
    rewrite Z.eqb_refl. cbn [bind fst List.tl].
    rewrite (setitem_new _ _ _ Hnin').
    destruct (Hget rc) as [Hg|Hin]; [|contradiction].
    rewrite Hg. cbn [bind].
    rewrite (setitem_last _ _ _ _ Hnin'), (setitem_new _ _ _ Hnint).
    exists (Some v), (rc ++ [(page, 0 + 1)]), (rt ++ [(page, time)]).
    split; [reflexivity|]. split; [apply keys_snoc|].
    inversion Hones as [|? ? Hc Hrc]; subst.
    split; [rewrite values_snoc; apply Forall_app; split;
            [exact Hrc | repeat constructor]|].
    split; [rewrite keys_snoc; now rewrite Hkeys|].
    destruct Hinc as (_ & _ & Hinc). now apply (increasing_times_snoc now).
  - cbn [bind fst].
    assert (Hnint : ~ In page (PyDict.keys tm)) by now rewrite Hkeys.
    rewrite (setitem_new _ _ _ Hnin).
    destruct (Hget cn) as [Hg|Hin]; [|contradiction].
    rewrite Hg. cbn [bind].
    rewrite (setitem_last _ _ _ _ Hnin), (setitem_new _ _ _ Hnint).
    exists None, (cn ++ [(page, 0 + 1)]), (tm ++ [(page, time)]).
    split; [reflexivity|]. split; [apply keys_snoc|].
    split; [rewrite values_snoc; apply Forall_app; split;
            [exact Hones | repeat constructor]|].
    split; [rewrite keys_snoc; now rewrite Hkeys|].
    now apply (increasing_times_snoc now).
Qed.

(** ** Clock inside the simulator *)

Lemma getitem_app_mid {A : Type} (P R : list A) (r : A) :
  PyList.getitem (P ++ r :: R) (PyList.len P) = Ok r.
Proof.
  rewrite list_getitem_nonneg by apply len_nonneg.
  unfold PyList.len. rewrite Nat2Z.id.
  rewrite nth_error_app2 by lia. now rewrite Nat.sub_diag.
Qed.

Lemma len_app {A : Type} (l l' : list A) :
  PyList.len (l ++ l') = PyList.len l + PyList.len l'.
Proof. unfold PyList.len. rewrite length_app. lia. Qed.

Lemma index_app_mid (b : Z) (A B : list Z) :
  ~ In b A -> PyList.index b (A ++ b :: B) = Ok (PyList.len A).
Proof.
  intros Hnin. unfold PyList.index.
  assert (H : forall k, PyList.index_from b (A ++ b :: B) k
                        = Some (k + PyList.len A)).
  { induction A as [|a A IH]; intros k; simpl.
    - rewrite Z.eqb_refl. unfold PyList.len. simpl. f_equal. lia.
    - destruct (a =? b) eqn:E.
      + apply Z.eqb_eq in E. exfalso. apply Hnin. now left.
      + rewrite IH by (intros Hin; apply Hnin; now right).
        rewrite len_cons. f_equal. lia. }
  now rewrite H.
Qed.

Lemma setitem_app_mid (A B : list Z) (b x : Z) :
  PyList.setitem (A ++ b :: B) (PyList.len A) x = Ok (A ++ x :: B).
Proof.
  unfold PyList.setitem, PyList.norm.
  pose proof (len_nonneg A) as HA. pose proof (len_nonneg B) as HB.
  rewrite len_app, len_cons.
  destruct (0 <=? PyList.len A) eqn:E1; [|apply Z.leb_gt in E1; lia].
  destruct (PyList.len A <? PyList.len A + (PyList.len B + 1)) eqn:E2;
    [|apply Z.ltb_ge in E2; lia].
  simpl. unfold PyList.len. rewrite Nat2Z.id. f_equal.
  clear. induction A as [|a A IH]; simpl; [reflexivity | now rewrite IH].
Qed.

(** The sweep: from the hand on every bit is set, before it every bit
    is cleared.  The loop clears the rest, comes round, and returns the
    first page of the list. *)
Lemma Clock_sweep (R : list Z) :
  forall (P : list Z) (nf : Z) (bits : PyDict.t Z) (fuel : nat),
  P ++ R <> [] -> NoDup (P ++ R) ->
  (forall p, In p P -> PyDict.lookup p bits = Some 0) ->
  (forall p, In p R -> PyDict.lookup p bits = Some 1) ->
  (List.length R < fuel)%nat ->
  exists bits',
    Clock.get_victim_loop fuel
      (Clock.mk nf (P ++ R) bits (PyList.len P mod PyList.len (P ++ R)))
    = Some (Ok (hd 0 (P ++ R),
                Clock.mk nf (P ++ R) bits' (1 mod PyList.len (P ++ R)))) /\
    (forall p, In p (P ++ R) -> PyDict.lookup p bits' = Some 0).
Proof.
  induction R as [|r R IH]; intros P nf bits fuel Hne Hnd HP HR Hfuel.
  - rewrite app_nil_r in *. destruct fuel as [|fuel]; [simpl in Hfuel; lia|].
    destruct P as [|p0 P]; [congruence|].
    assert (Hn : PyList.len (p0 :: P) <> 0)
      by (rewrite len_cons; pose proof (len_nonneg P); lia).
    rewrite Z.mod_same by exact Hn.
    exists bits. split; [|exact HP].
    cbn [Clock.get_victim_loop Clock.frames Clock.clock_hand Clock.reference_bits
         Clock.num_frames].
    rewrite list_getitem_nonneg by lia. cbn [Z.to_nat nth_error].
    unfold PyDict.getitem. rewrite (HP p0 (or_introl eq_refl)).
    unfold pymod. destruct (PyList.len (p0 :: P) =? 0) eqn:E;
      [apply Z.eqb_eq in E; contradiction|].
    reflexivity.
  - destruct fuel as [|fuel]; [simpl in Hfuel; lia|].
    assert (Hlen : PyList.len (P ++ r :: R) = PyList.len P + PyList.len R + 1)
      by (rewrite len_app, len_cons; lia).
    pose proof (len_nonneg P) as HlP. pose proof (len_nonneg R) as HlR.
    rewrite (Z.mod_small (PyList.len P)) by lia.
    cbn [Clock.get_victim_loop Clock.frames Clock.clock_hand Clock.reference_bits
         Clock.num_frames].
    rewrite getitem_app_mid.
    unfold PyDict.getitem. rewrite (HR r (or_introl eq_refl)).
    unfold pymod. destruct (PyList.len (P ++ r :: R) =? 0) eqn:E;
      [apply Z.eqb_eq in E; lia|].
    cbn [Z.eqb Pos.eqb].
    assert (Hr : ~ In r P /\ ~ In r R).
    { apply NoDup_remove_2 in Hnd. rewrite in_app_iff in Hnd. tauto. }
    destruct (IH (P ++ [r]) nf (PyDict.setitem r 0 bits) fuel)
      as (bits' & Hrun & Hbits').
    + rewrite <- app_assoc. exact Hne.
    + rewrite <- app_assoc. exact Hnd.
    + intros p Hp. apply in_app_or in Hp. destruct Hp as [Hp|[<-|[]]].
      * rewrite lookup_setitem_other by (intros ->; tauto). now apply HP.
      * apply lookup_setitem_same.
    + intros p Hp.
      rewrite lookup_setitem_other by (intros ->; tauto).
      apply HR. now right.
    + simpl in Hfuel. lia.
    + rewrite <- app_assoc in Hrun, Hbits'. simpl in Hrun, Hbits'.
      rewrite len_snoc in Hrun.
      exists bits'. split; [exact Hrun | exact Hbits'].
Qed.

Lemma NoDup_replace_mid (A B : list Z) (b x : Z) :
  NoDup (A ++ b :: B) -> ~ In x (A ++ b :: B) -> NoDup (A ++ x :: B).
Proof.
  intros Hnd Hnin. apply NoDup_remove_1 in Hnd.
  apply (NoDup_Add (Add_app x A B)). split; [exact Hnd|].
  intros Hin. apply Hnin. apply in_app_or in Hin. apply in_or_app.
  destruct Hin as [?|?]; [now left | right; now right].
Qed.

Lemma index_head (a : Z) (A : list Z) : PyList.index a (a :: A) = Ok 0.
Proof. apply (index_app_mid a [] A). intros []. Qed.

Lemma setitem_head (A : list Z) (a x : Z) :
  PyList.setitem (a :: A) 0 x = Ok (x :: A).
Proof. apply (setitem_app_mid [] A a x). Qed.

Lemma Clock_queue_step (s : Clock.t) (q : list Z) (page time : Z) (w : bool) :
  clock_queue s q -> 0 < Clock.num_frames s -> ~ In page q ->
  exists victim s',
    Clock.access_page s page time w = Ok ((true, victim), s') /\
    clock_queue s' (fst (fifo_step (Clock.num_frames s) q page)) /\
    Clock.num_frames s' = Clock.num_frames s.
Proof.
  intros (A & B & Hfr & -> & Hnd & HA & HB & Hh & Hroom) Hnf Hnin.
  destruct s as [nf fr bits hand].
  cbn [Clock.frames Clock.reference_bits Clock.clock_hand Clock.num_frames] in *.
  subst fr hand.
  assert (Hnin' : ~ In page (A ++ B)).
  { intros Hin. apply Hnin. apply in_app_or in Hin. apply in_or_app. tauto. }
  assert (HpA : ~ In page A) by (intros Hin; apply Hnin', in_or_app; now left).
  assert (HpB : ~ In page B) by (intros Hin; apply Hnin', in_or_app; now right).
  rewrite (fifo_step_fault _ _ _ Hnin).
  assert (Hlenq : PyList.len (B ++ A) = PyList.len (A ++ B))
    by (rewrite !len_app; lia).
  rewrite Hlenq.
  unfold Clock.access_page, Clock.is_page_in_memory.
  cbn [Clock.frames Clock.reference_bits Clock.clock_hand Clock.num_frames].
  rewrite (proj2 (contains_false _ _) Hnin'). cbn [negb].
  pose proof (len_nonneg A) as HlA. pose proof (len_nonneg B) as HlB.
  destruct (nf <=? PyList.len (A ++ B)) eqn:Efull.
  - apply Z.leb_le in Efull. unfold Clock.get_victim.
    cbn [Clock.frames Clock.reference_bits Clock.clock_hand Clock.num_frames fst].
    destruct B as [|b B].
    + (* every bit is set: a full sweep, and the first page goes *)
      rewrite app_nil_r in *.
      destruct A as [|a A]; [unfold PyList.len in Efull; simpl in Efull; lia|].
      assert (Hne0 : [] ++ a :: A <> []) by discriminate.
      assert (HP0 : forall p, In p [] -> PyDict.lookup p bits = Some 0)
        by (intros p []).
      assert (Hfuel0 : (List.length (a :: A) < S (List.length (a :: A)))%nat)
        by apply Nat.lt_succ_diag_r.
      destruct (Clock_sweep (a :: A) [] nf bits (S (List.length (a :: A)))
                  Hne0 Hnd HP0 HA Hfuel0)
        as (bits0 & Hrun & Hbits0).
      cbn [app] in Hrun, Hbits0.
      assert (Hn : PyList.len (a :: A) <> 0)
        by (rewrite len_cons; pose proof (len_nonneg A); lia).
      change (PyList.len (@nil Z)) with 0 in Hrun.
      rewrite Z.mod_same by exact Hn. rewrite Z.mod_0_l in Hrun by exact Hn.
      rewrite Hrun. cbn [bind hd].
      cbn [Clock.frames Clock.reference_bits Clock.clock_hand Clock.num_frames].
      rewrite (index_head a A). cbn [bind].
      rewrite (setitem_head A a page). cbn [bind].
      unfold PyDict.delitem, PyDict.contains.
      rewrite (Hbits0 a (or_introl eq_refl)). cbn [bind].
      inversion Hnd as [|? ? Ha HndA]; subst.
      assert (HpT : ~ In page A) by (intros Hin; apply Hnin'; now right).
      exists (Some a). eexists. split; [reflexivity|]. split; [|reflexivity].
      exists [page], A.
      cbn [Clock.frames Clock.reference_bits Clock.clock_hand Clock.num_frames].
      split; [reflexivity|]. split; [reflexivity|].
      split; [constructor; [exact HpT | exact HndA]|].
      split; [|split; [|split]].
      * intros p [<-|[]]. apply lookup_setitem_same.
      * intros p Hp.
        rewrite lookup_setitem_other by (intros ->; contradiction).
        rewrite lookup_remove_other by (intros ->; contradiction).
        apply Hbits0. now right.
      * cbn [app]. rewrite !len_cons. change (PyList.len (@nil Z)) with 0.
        reflexivity.
      * cbn [app]. rewrite len_cons. rewrite len_cons in Efull. intros. lia.
    + (* the page at the hand has its bit cleared: it goes at once *)
      assert (Hlen : PyList.len (A ++ b :: B) = PyList.len A + PyList.len B + 1)
        by (rewrite len_app, len_cons; lia).
      pose proof (len_nonneg B) as HlB'.
      rewrite (Z.mod_small (PyList.len A)) by lia.
      cbn [Clock.get_victim_loop Clock.frames Clock.clock_hand
           Clock.reference_bits Clock.num_frames].
      rewrite getitem_app_mid.
      unfold PyDict.getitem at 1. rewrite (HB b (or_introl eq_refl)).
      unfold pymod. destruct (PyList.len (A ++ b :: B) =? 0) eqn:E;
        [apply Z.eqb_eq in E; lia|].
      cbn [Z.eqb bind].
      cbn [Clock.frames Clock.reference_bits Clock.clock_hand Clock.num_frames].
      assert (Hb : ~ In b A /\ ~ In b B).
      { apply NoDup_remove_2 in Hnd. rewrite in_app_iff in Hnd. tauto. }
      rewrite (index_app_mid b A B) by tauto. cbn [bind].
      rewrite setitem_app_mid. cbn [bind].
      unfold PyDict.delitem, PyDict.contains.
      rewrite (HB b (or_introl eq_refl)). cbn [bind].
      exists (Some b). eexists. split; [reflexivity|]. split; [|reflexivity].
      exists (A ++ [page]), B.
      cbn [Clock.frames Clock.reference_bits Clock.clock_hand Clock.num_frames].
      split; [now rewrite <- app_assoc|].
      split; [cbn [List.tl app]; now rewrite app_assoc|].
      split; [rewrite <- app_assoc; now apply (NoDup_replace_mid A B b)|].
      split; [|split; [|split]].
      * intros p Hp. apply in_app_or in Hp. destruct Hp as [Hp|[<-|[]]].
        -- rewrite lookup_setitem_other by (intros ->; contradiction).
           rewrite lookup_remove_other by (intros ->; tauto).
           now apply HA.
        -- apply lookup_setitem_same.
      * intros p Hp.
        rewrite lookup_setitem_other by (intros ->; apply HpB; now right).
        rewrite lookup_remove_other by (intros ->; tauto).
        apply HB. now right.
      * rewrite <- app_assoc. cbn [app]. rewrite len_snoc.
        rewrite !len_app, !len_cons. reflexivity.
      * rewrite <- app_assoc. cbn [app]. rewrite len_app, len_cons. lia.
  - (* room: the page is appended and the hand stays *)
    apply Z.leb_gt in Efull. rewrite (Hroom Efull) in *. clear Hroom.
    rewrite app_nil_r in *. cbn [bind fst app].
    exists None. eexists. split; [reflexivity|]. split; [|reflexivity].
    exists (A ++ [page]), [].
    cbn [Clock.frames Clock.reference_bits Clock.clock_hand Clock.num_frames].
    rewrite !app_nil_r.
    split; [reflexivity|]. split; [reflexivity|].
    split; [now apply NoDup_snoc|].
    split; [|split; [|split]].
    + intros p Hp. apply in_app_or in Hp. destruct Hp as [Hp|[<-|[]]].
      * rewrite lookup_setitem_other by (intros ->; contradiction). now apply HA.
      * apply lookup_setitem_same.
    + intros p [].
    + rewrite len_snoc.
      destruct (Z.eq_dec (PyList.len A) 0) as [E|E].
      * rewrite E. reflexivity.
      * rewrite !Z.mod_same by lia. reflexivity.
    + reflexivity.
Qed.

(** ** FIFO, LRU, LFU and Clock: one queue *)

Lemma contains_app_comm (p : Z) (A B : list Z) :
  PyList.contains p (A ++ B) = PyList.contains p (B ++ A).
Proof.
  destruct (PyList.contains p (B ++ A)) eqn:E.
  - apply contains_In. apply contains_In in E.
    apply in_app_or in E. apply in_or_app. tauto.
  - apply contains_false. apply contains_false in E.
    intros Hin. apply E. apply in_app_or in Hin. apply in_or_app. tauto.
Qed.

Lemma queue_like_contains (a : PageReplacementAlgorithm.t) (now : Z) (q : list Z)
      (p : Z) :
  queue_like a now q ->
  PyList.contains p (PageReplacementAlgorithm.frames a) = PyList.contains p q.
Proof.
  destruct a as [s|s|s|s|s]; simpl; try contradiction.
  - now intros (-> & _).
  - now intros (-> & _).
  - now intros (-> & _).
  - intros (A & B & -> & -> & _). apply contains_app_comm.
Qed.

Lemma queue_like_mono (a : PageReplacementAlgorithm.t) (now now' : Z) (q : list Z) :
  now <= now' -> queue_like a now q -> queue_like a now' q.
Proof.
  intros Hle. destruct a as [s|s|s|s|s]; simpl; auto.
  - intros (Hf & Hk & Hinc). repeat split; auto.
    now apply (increasing_times_mono now).
  - intros (Hf & Hk & Hones & Hkt & Hinc). repeat split; auto.
    now apply (increasing_times_mono now).
Qed.

(** Called on a page that is not resident, at a time later than every
    time recorded, each of the three policies does what a queue does. *)
Lemma queue_like_step (a : PageReplacementAlgorithm.t) (now time page : Z)
      (w : bool) (q : list Z) :
  queue_like a now q -> 0 < PageReplacementAlgorithm.num_frames a ->
  ~ In page q -> now < time ->
  exists victim a',
    PageReplacementAlgorithm.access_page a page time w = Ok ((true, victim), a') /\
    queue_like a' time
      (fst (fifo_step (PageReplacementAlgorithm.num_frames a) q page)).
Proof.
  destruct a as [s|s|s|s|s]; simpl; try contradiction;
    unfold PageReplacementAlgorithm.lift_alg.
  - destruct s as [nf fr qu]. simpl. intros (-> & ->) Hnf Hnin Hlt.
    rewrite (fifo_step_fault _ _ _ Hnin).
    pose proof (proj2 (contains_false _ _) Hnin) as Hc.
    destruct (nf <=? PyList.len q) eqn:Efull.
    + apply Z.leb_le in Efull.
      destruct q as [|v q]; [unfold PyList.len in Efull; simpl in Efull; lia|].
      rewrite (FIFO_access_page_full _ _ _ _ _ _ Hc Efull). simpl.
      eexists. eexists. split; [reflexivity|]. simpl. auto.
    + apply Z.leb_gt in Efull.
      rewrite (FIFO_access_page_room _ _ _ _ _ Hc Efull). simpl.
      eexists. eexists. split; [reflexivity|]. simpl. auto.
  - destruct s as [nf fr tm]. simpl. intros (-> & <- & Hinc) Hnf Hnin Hlt.
    destruct (LRU_queue_step nf tm page now time w Hinc Hnf Hnin Hlt)
      as (victim & tm' & Hacc & Hk & Hinc').
    rewrite Hacc. simpl.
    eexists. eexists. split; [reflexivity|]. simpl. auto.
  - destruct s as [nf fr cn tm]. simpl.
    intros (-> & <- & Hones & Hkt & Hinc) Hnf Hnin Hlt.
    destruct (LFU_queue_step nf cn tm page now time w Hones Hkt Hinc Hnf Hnin Hlt)
      as (victim & cn' & tm' & Hacc & Hk & Hones' & Hkt' & Hinc').
    rewrite Hacc. simpl.
    eexists. eexists. split; [reflexivity|]. simpl. auto.
  - intros Hq Hnf Hnin Hlt.
    destruct (Clock_queue_step s q page time w Hq Hnf Hnin)
      as (victim & s' & Hacc & Hq' & _).
    rewrite Hacc. simpl.
    eexists. eexists. split; [reflexivity|]. exact Hq'.
Qed.

Lemma queue_like_run (trace : list Z) :
  forall (s : VirtualMemorySimulator.t) (q : list Z) (i : Z) (writes : list Z),
  sound s ->
  queue_like (VirtualMemorySimulator.algorithm s)
             (VirtualMemorySimulator.current_time s) q ->
  Forall (fun p => 0 <= p < PyList.len (PageTable.entries
                                          (VirtualMemorySimulator.page_table s)))
         trace ->
  exists s',
    VirtualMemorySimulator.run_trace_from s i trace writes = Ok s' /\
    VirtualMemorySimulator.page_faults s'
    = VirtualMemorySimulator.page_faults s
      + fifo_faults (PageReplacementAlgorithm.num_frames
                       (VirtualMemorySimulator.algorithm s)) q trace.
Proof.
  induction trace as [|p trace IH]; intros s q i writes Hs Hq Hall.
  - exists s. simpl. split; [reflexivity | lia].
  - inversion Hall as [|? ? Hp Hrest]; subst.
    destruct (translate_address_sound s (p * VirtualMemorySimulator.page_size s)
                (PyList.contains i writes) Hs
                (in_table_page _ _ (sound_page_size _ Hs) Hp))
      as (pa & pf & hit & s1 & Heq & Hs1 & Halg & Hpf & _ & _ & Hlen1 & Hnf1).
    pose proof (translate_address_counters_gen _ _ _ _ _ _ _ Heq)
      as (_ & Htime & Hfaults & _).
    rewrite Z.div_mul in Halg, Hpf by apply (sound_page_size _ Hs).
    rewrite (queue_like_contains _ _ _ p Hq) in Hpf.
    assert (Hq1 : queue_like (VirtualMemorySimulator.algorithm s1)
                    (VirtualMemorySimulator.current_time s1)
                    (fst (fifo_step (PageReplacementAlgorithm.num_frames
                                       (VirtualMemorySimulator.algorithm s)) q p)) /\
                  pf = snd (fifo_step (PageReplacementAlgorithm.num_frames
                                         (VirtualMemorySimulator.algorithm s)) q p)).
    { destruct (PyList.contains p q) eqn:Hmem; simpl in Hpf; subst pf.
      - unfold fifo_step. rewrite Hmem. simpl. split; [|reflexivity].
        rewrite Halg, Htime.
        apply (queue_like_mono _ (VirtualMemorySimulator.current_time s));
          [lia | exact Hq].
      - pose proof (proj1 (contains_false _ _) Hmem) as Hnin.
        destruct Halg as (victim & Hacc).
        assert (Hlater : VirtualMemorySimulator.current_time s
                         < VirtualMemorySimulator.current_time s + 1) by lia.
        destruct (queue_like_step _ _ _ p (PyList.contains i writes) q Hq
                    (sound_num_frames _ Hs) Hnin Hlater)
          as (victim' & a' & Hacc' & Hq').
        rewrite Hacc in Hacc'. injection Hacc' as _ <-.
        rewrite Htime. split; [exact Hq'|].
        rewrite (fifo_step_fault _ _ _ Hnin). now destruct (_ <=? _). }
    destruct Hq1 as (Hq1 & Hpf1).
    destruct (IH s1 _ (i + 1) writes Hs1 Hq1) as (s' & Hrun & Hfaults').
    { now rewrite Hlen1. }
    exists s'. cbn [VirtualMemorySimulator.run_trace_from fifo_faults].
    rewrite Heq. cbn [bind]. split; [exact Hrun|].
    rewrite Hfaults', Hfaults, Hnf1, Hpf1.
    destruct (fifo_step _ q p) as [q' fault]. simpl. lia.
Qed.

Lemma fresh_queue_like (num_pages num_frames page_size tlb_size : Z)
      (name : string) (refs : option (list Z)) (s : VirtualMemorySimulator.t) :
  name = "FIFO"%string \/ name = "LRU"%string \/ name = "LFU"%string \/
  name = "Clock"%string ->
  VirtualMemorySimulator.init num_pages num_frames page_size tlb_size name refs
    = Ok s ->
  queue_like (VirtualMemorySimulator.algorithm s)
             (VirtualMemorySimulator.current_time s) [].
Proof.
  intros Hname Hinit. destruct (init_inv _ _ _ _ _ _ _ Hinit) as (alg & Halg & ->).
  simpl. destruct Hname as [-> | [-> | [-> | ->]]]; simpl in Halg;
    injection Halg as <-; simpl.
  - repeat split; constructor.
  - repeat split; constructor.
  - repeat split; constructor.
  - exists [], []. simpl. repeat split; try constructor; intros p [].
Qed.

Lemma queue_like_policy_faults (num_pages num_frames page_size tlb_size : Z)
      (name : string) (refs : option (list Z))
      (s0 : VirtualMemorySimulator.t) (trace : list Z)
      (write_operations : option (list Z)) :
  name = "FIFO"%string \/ name = "LRU"%string \/ name = "LFU"%string \/
  name = "Clock"%string ->
  VirtualMemorySimulator.init num_pages num_frames page_size tlb_size name refs
    = Ok s0 ->
  0 < num_frames -> 0 < tlb_size -> page_size <> 0 ->
  Forall (fun p => 0 <= p < num_pages) trace ->
  exists s,
    VirtualMemorySimulator.run_trace s0 trace write_operations = Ok s /\
    VirtualMemorySimulator.page_faults s = fifo_faults num_frames [] trace.
Proof.
  intros Hname Hinit Hnf Htlb Hps Hall.
  destruct (init_sound _ _ _ _ _ _ _ Hinit Hnf Htlb Hps)
    as (Hs0 & Hlen & Hn & _ & Hpf0 & _).
  destruct (queue_like_run trace s0 [] 0
              (match write_operations with Some w => w | None => [] end) Hs0
              (fresh_queue_like _ _ _ _ _ _ _ Hname Hinit))
    as (s & Hrun & Hfaults).
  { rewrite Hlen. eapply Forall_impl; [|exact Hall]. simpl. intros p Hp. lia. }
  exists s. split; [exact Hrun|]. rewrite Hfaults, Hpf0, Hn. lia.
Qed.

(** X21. The simulator calls [access_page] only on page faults, so LRU
    never sees a hit, LFU never counts past 1 and Clock never sets the
    bit of a resident page again: with the same parameters and the same
    reference string, the LRU, the LFU and the Clock simulator count
    exactly the page faults the FIFO simulator counts, those of a queue
    of [num_frames] pages. *)
Theorem LRU_LFU_and_Clock_fault_like_FIFO
        (num_pages num_frames page_size tlb_size : Z) (name : string)
        (sF sP : VirtualMemorySimulator.t) (trace : list Z)
        (writesF writesP : option (list Z)) :
  name = "LRU"%string \/ name = "LFU"%string \/ name = "Clock"%string ->
  VirtualMemorySimulator.init num_pages num_frames page_size tlb_size "FIFO" None
    = Ok sF ->
  VirtualMemorySimulator.init num_pages num_frames page_size tlb_size name None
    = Ok sP ->
  0 < num_frames -> 0 < tlb_size -> page_size <> 0 ->
  Forall (fun p => 0 <= p < num_pages) trace ->
  exists sF' sP',
    VirtualMemorySimulator.run_trace sF trace writesF = Ok sF' /\
    VirtualMemorySimulator.run_trace sP trace writesP = Ok sP' /\
    VirtualMemorySimulator.st_page_faults (VirtualMemorySimulator.get_statistics sP')
    = VirtualMemorySimulator.st_page_faults (VirtualMemorySimulator.get_statistics sF') /\
    VirtualMemorySimulator.st_page_faults (VirtualMemorySimulator.get_statistics sF')
    = fifo_faults num_frames [] trace.
Proof.
  intros Hname HF HP Hnf Htlb Hps Hall.
  destruct (queue_like_policy_faults _ _ _ _ _ _ _ trace writesF
              (or_introl eq_refl) HF Hnf Htlb Hps Hall) as (sF' & HrunF & HfF).
  destruct (queue_like_policy_faults _ _ _ _ _ _ _ trace writesP
              (or_intror Hname) HP Hnf Htlb Hps Hall) as (sP' & HrunP & HfP).
  exists sF', sP'. simpl. split; [exact HrunF|]. split; [exact HrunP|].
  split; congruence.
Qed.

Lemma LRU_LFU_and_Clock_fault_like_FIFO_witness :
  exists sF' sP',
    VirtualMemorySimulator.run_trace fifo_simulator scenario_A None = Ok sF' /\
    VirtualMemorySimulator.run_trace
      (fresh 10 3 4096 4 (PageReplacementAlgorithm.AlgLRU (LRU.init 3)) "LRU")
      scenario_A None = Ok sP' /\
    VirtualMemorySimulator.st_page_faults (VirtualMemorySimulator.get_statistics sP')
    = VirtualMemorySimulator.st_page_faults (VirtualMemorySimulator.get_statistics sF') /\
    VirtualMemorySimulator.st_page_faults (VirtualMemorySimulator.get_statistics sF')
    = fifo_faults 3 [] scenario_A.
Proof.
  apply (LRU_LFU_and_Clock_fault_like_FIFO 10 3 4096 4 "LRU" fifo_simulator
           (fresh 10 3 4096 4 (PageReplacementAlgorithm.AlgLRU (LRU.init 3)) "LRU")
           scenario_A None None).
  - left. reflexivity.
  - reflexivity.
  - reflexivity.
  - lia.
  - lia.
  - lia.
  - unfold scenario_A. repeat constructor; lia.
Defined.

(** ** demo.py: the sequential reference string *)

Lemma extend_ranges_concat (n : nat) (num_pages : Z) (refs : list Z) :
  Demo.extend_ranges n num_pages refs
  = refs ++ List.concat (repeat (PyList.range num_pages) n).
Proof.
  revert refs. induction n as [|n IH]; intros refs; simpl.
  - now rewrite app_nil_r.
  - rewrite IH. now rewrite <- app_assoc.
Qed.

Lemma range_length (n : Z) : List.length (PyList.range n) = Z.to_nat n.
Proof. unfold PyList.range. now rewrite length_map, length_seq. Qed.

Lemma range_nth (n : Z) (i : nat) :
  (i < Z.to_nat n)%nat -> nth_error (PyList.range n) i = Some (Z.of_nat i).
Proof.
  intros Hi. unfold PyList.range. rewrite nth_error_map.
  rewrite nth_error_nth' with (d := 0%nat) by (rewrite length_seq; exact Hi).
  rewrite seq_nth by exact Hi. reflexivity.
Qed.

Lemma concat_ranges_length (n : nat) (num_pages : Z) :
  List.length (List.concat (repeat (PyList.range num_pages) n))
  = (n * Z.to_nat num_pages)%nat.
Proof.
  induction n as [|n IH]; simpl; [reflexivity|].
  rewrite length_app, IH, range_length. reflexivity.
Qed.

Lemma concat_ranges_nth (num_pages : Z) (n i : nat) :
  (i < n * Z.to_nat num_pages)%nat ->
  nth_error (List.concat (repeat (PyList.range num_pages) n)) i
  = Some (Z.of_nat (i mod Z.to_nat num_pages)).
Proof.
  revert i. induction n as [|n IH]; intros i Hi; simpl in *; [lia|].
  destruct (Nat.lt_ge_cases i (Z.to_nat num_pages)) as [Hlt|Hge].
  - rewrite nth_error_app1 by (rewrite range_length; exact Hlt).
    rewrite range_nth by exact Hlt. now rewrite Nat.mod_small.
  - rewrite nth_error_app2 by (rewrite range_length; exact Hge).
    rewrite range_length, IH by lia. do 2 f_equal.
    replace i with ((i - Z.to_nat num_pages) + 1 * Z.to_nat num_pages)%nat
      at 2 by lia.
    now rewrite Nat.Div0.mod_add.
Qed.

(** X22. The ['sequential'] pattern of [generate_reference_string]:
    with [num_pages > 0] and [length >= 0] it returns exactly [length]
    references, the i-th being page [i % num_pages], so every one of them
    is a page in [range(num_pages)]; with [num_pages == 0] it raises
    [ZeroDivisionError], and with [num_pages < 0] it returns the empty
    list whatever [length] is. *)
Theorem generate_sequential_spec (length num_pages : Z) :
  (num_pages = 0 ->
   Demo.generate_sequential length num_pages = Raise ZeroDivisionError) /\
  (num_pages < 0 -> Demo.generate_sequential length num_pages = Ok []) /\
  (0 < num_pages -> 0 <= length ->
   exists refs,
     Demo.generate_sequential length num_pages = Ok refs /\
     PyList.len refs = length /\
     (forall i, 0 <= i < length ->
                PyList.getitem refs i = Ok (i mod num_pages)) /\
     Forall (fun p => 0 <= p < num_pages) refs).
Proof.
  unfold Demo.generate_sequential, floordiv. split; [|split].
  - intros ->. reflexivity.
  - intros Hneg. destruct (num_pages =? 0) eqn:E; [apply Z.eqb_eq in E; lia|].
    cbn [bind]. rewrite extend_ranges_concat. cbn [app].
    assert (Hnil : List.concat (repeat (PyList.range num_pages)
                             (Z.to_nat (length / num_pages + 1))) = []).
    { apply length_zero_iff_nil. rewrite concat_ranges_length.
      replace (Z.to_nat num_pages) with 0%nat by lia. lia. }
    rewrite Hnil. unfold Demo.slice_to.
    destruct (0 <=? length); now rewrite firstn_nil.
  - intros Hpos Hlen. destruct (num_pages =? 0) eqn:E; [apply Z.eqb_eq in E; lia|].
    cbn [bind]. rewrite extend_ranges_concat. cbn [app].
    unfold Demo.slice_to.
    destruct (0 <=? length) eqn:E0; [|apply Z.leb_gt in E0; lia].
    set (all := List.concat (repeat (PyList.range num_pages)
                          (Z.to_nat (length / num_pages + 1)))).
    assert (Hq : 0 <= length / num_pages) by (apply Z.div_pos; lia).
    assert (Hall : (Z.to_nat length
                    < Z.to_nat (length / num_pages + 1) * Z.to_nat num_pages)%nat).
    { rewrite <- Z2Nat.inj_mul by lia. apply Z2Nat.inj_lt; [lia | nia |].
      pose proof (Z.div_mod length num_pages ltac:(lia)) as Hdm.
      pose proof (Z.mod_pos_bound length num_pages Hpos) as Hmod. nia. }
    assert (Hnth : forall i : nat, (i < Z.to_nat length)%nat ->
               nth_error (firstn (Z.to_nat length) all) i
               = Some (Z.of_nat i mod num_pages)).
    { intros i Hi. rewrite nth_error_firstn.
      destruct (Nat.ltb_spec i (Z.to_nat length)) as [_|Hge]; [|lia].
      unfold all. rewrite concat_ranges_nth by lia. f_equal.
      rewrite Nat2Z.inj_mod. now rewrite Z2Nat.id by lia. }
    assert (Hlength : List.length (firstn (Z.to_nat length) all) = Z.to_nat length).
    { rewrite length_firstn. unfold all. rewrite concat_ranges_length. lia. }
    exists (firstn (Z.to_nat length) all). split; [reflexivity|].
    split; [unfold PyList.len; rewrite Hlength; lia|]. split.
    + intros i Hi. rewrite list_getitem_nonneg by lia.
      rewrite Hnth by lia. now rewrite Z2Nat.id by lia.
    + apply Forall_forall. intros p Hp.
      apply In_nth_error in Hp. destruct Hp as (i & Hi).
      assert (Hlt : (i < Z.to_nat length)%nat).
      { rewrite <- Hlength. apply nth_error_Some. congruence. }
      rewrite (Hnth i Hlt) in Hi. injection Hi as <-.
      now apply Z.mod_pos_bound.
Qed.

Lemma generate_sequential_spec_witness :
  exists refs,
    Demo.generate_sequential 7 3 = Ok refs /\
    PyList.len refs = 7 /\
    (forall i, 0 <= i < 7 -> PyList.getitem refs i = Ok (i mod 3)) /\
    Forall (fun p => 0 <= p < 3) refs.
Proof.
  apply (proj2 (proj2 (generate_sequential_spec 7 3))); lia.
Defined.

(** ** [run_trace] and its write operations *)

Lemma run_trace_from_calls (refs : list Z) :
  forall (s : VirtualMemorySimulator.t) (i : Z) (writes : list Z),
  VirtualMemorySimulator.run_trace_from s i refs writes
  = ('(_, s') <- translate_all s
                   (trace_calls (VirtualMemorySimulator.page_size s) i refs writes) ;;
     Ok s').
Proof.
  induction refs as [|p refs IH]; intros s i writes; simpl; [reflexivity|].
  destruct (VirtualMemorySimulator.translate_address s
              (p * VirtualMemorySimulator.page_size s) (PyList.contains i writes))
    as [[[[pa pf] hit] s1]|e] eqn:Heq; simpl; [|reflexivity].
  pose proof (translate_address_counters_gen _ _ _ _ _ _ _ Heq)
    as (_ & _ & _ & _ & _ & _ & _ & _ & _ & _ & Hps & _).
  rewrite IH, Hps.
  destruct (translate_all s1 _) as [[rs s2]|e]; reflexivity.
Qed.

Lemma trace_calls_pages (ps i : Z) (refs writes : list Z) :
  ps <> 0 -> Forall (fun p => 0 <= p) refs ->
  Forall (fun c => 0 <= fst c / ps) (trace_calls ps i refs writes).
Proof.
  intros Hps. revert i. induction refs as [|p refs IH]; intros i Hall; simpl.
  - constructor.
  - inversion Hall; subst. constructor; [|auto].
    simpl. now rewrite Z.div_mul.
Qed.

Lemma trace_calls_references (ps i p : Z) (refs writes : list Z) :
  ps <> 0 ->
  references p ps (trace_calls ps i refs writes)
  = Z.of_nat (count_occ Z.eq_dec refs p).
Proof.
  intros Hps. unfold references. revert i.
  induction refs as [|q refs IH]; intros i; simpl; [reflexivity|].
  rewrite Z.div_mul by exact Hps.
  destruct (Z.eq_dec q p) as [->|Hne].
  - rewrite Z.eqb_refl, len_cons, IH. lia.
  - destruct (q =? p) eqn:E; [apply Z.eqb_eq in E; contradiction|]. apply IH.
Qed.

Lemma trace_calls_written (ps p : Z) (refs writes : list Z) :
  ps <> 0 ->
  forall i,
  written p ps (trace_calls ps i refs writes) = true <->
  exists k : nat, nth_error refs k = Some p /\
                  PyList.contains (i + Z.of_nat k) writes = true.
Proof.
  intros Hps. unfold written.
  induction refs as [|q refs IH]; intros i; simpl.
  - split; [discriminate | intros ([|k] & Hk & _); discriminate].
  - rewrite Z.div_mul by exact Hps. rewrite orb_true_iff, andb_true_iff, IH.
    split.
    + intros [(Hq & Hw)|(k & Hk & Hw)].
      * apply Z.eqb_eq in Hq. subst q. exists 0%nat. simpl.
        now rewrite Z.add_0_r.
      * exists (S k). simpl. split; [exact Hk|].
        replace (i + Z.pos (Pos.of_succ_nat k)) with (i + 1 + Z.of_nat k) by lia.
        exact Hw.
    + intros ([|k] & Hk & Hw); simpl in Hk.
      * injection Hk as ->. left. rewrite Z.eqb_refl.
        now rewrite Z.add_0_r in Hw.
      * right. exists k. split; [exact Hk|].
        replace (i + 1 + Z.of_nat k) with (i + Z.of_nat (S k)) by lia.
        exact Hw.
Qed.

(** X23. What [run_trace] leaves in the page table, for a reference
    string without negative pages on a fresh simulator: the entry of a
    page counts its references in the string, and it is marked modified
    exactly when [write_operations] contains an index at which the string
    refers to the page.  Without write operations no page is modified. *)
Theorem run_trace_marks_written_pages
        (num_pages num_frames page_size tlb_size : Z) (name : string)
        (refs : option (list Z)) (s0 s : VirtualMemorySimulator.t)
        (trace : list Z) (write_operations : option (list Z))
        (p : Z) (e : PageTableEntry.t) :
  VirtualMemorySimulator.init num_pages num_frames page_size tlb_size name refs
    = Ok s0 ->
  page_size <> 0 ->
  Forall (fun q => 0 <= q) trace ->
  VirtualMemorySimulator.run_trace s0 trace write_operations = Ok s ->
  0 <= p ->
  PyList.getitem (PageTable.entries (VirtualMemorySimulator.page_table s)) p
    = Ok e ->
  PageTableEntry.access_count e = Z.of_nat (count_occ Z.eq_dec trace p) /\
  (PageTableEntry.modified e = true <->
   exists i, nth_error trace i = Some p /\
             PyList.contains (Z.of_nat i)
               (match write_operations with Some w => w | None => [] end) = true).
Proof.
  intros Hinit Hps Hall Hrun Hp He.
  unfold VirtualMemorySimulator.run_trace in Hrun.
  rewrite run_trace_from_calls in Hrun.
  destruct (init_inv _ _ _ _ _ _ _ Hinit) as (alg & _ & Hfresh).
  assert (Hsize : VirtualMemorySimulator.page_size s0 = page_size)
    by (rewrite Hfresh; reflexivity).
  rewrite Hsize in Hrun.
  inv_bind Hrun as [rs s'] Hcalls. injection Hrun as <-.
  destruct (translate_all_usage _ _ _ _ _ _ _ _ _ _ _ _ Hinit
              (trace_calls_pages _ 0 _ _ Hps Hall) Hcalls Hp He)
    as (Hcount & _ & Hmod).
  split.
  - rewrite Hcount. now apply trace_calls_references.
  - rewrite Hmod. rewrite trace_calls_written by exact Hps.
    split; intros (k & Hk & Hw); exists k; (split; [exact Hk|]);
      [now rewrite Z.add_0_l in Hw | now rewrite Z.add_0_l].
Qed.

Lemma run_trace_marks_written_pages_witness :
  PageTableEntry.access_count (entry_of after_write_at_3 4)
  = Z.of_nat (count_occ Z.eq_dec scenario_A 4) /\
  (PageTableEntry.modified (entry_of after_write_at_3 4) = true <->
   exists i, nth_error scenario_A i = Some 4 /\
             PyList.contains (Z.of_nat i) [3] = true).
Proof.
  apply (run_trace_marks_written_pages 10 3 4096 4 "FIFO" None fifo_simulator
           after_write_at_3 scenario_A (Some [3]) 4
           (entry_of after_write_at_3 4)).
  - reflexivity.
  - lia.
  - unfold scenario_A. repeat constructor; lia.
  - vm_compute. reflexivity.
  - lia.
  - vm_compute. reflexivity.
Defined.
